(* ===== verification/_CoqProject ===== *)
-Q . S2P
Prelude.v
GoStd.v
ReplayBuffer.v
Socket.v
Wire.v
Link.v
BrokerSession.v
Sidecar.v
BrokerStream.v
SidecarStream.v
System.v
Progress.v
Interleavings.v
Tasks.v
BrokerTasks.v
SidecarTasks.v
ConcInv.v
ConcClient.v
Concurrent.v
Schedules.v
WakeWindow.v
Resumer.v
Broker.v
SidecarClient.v
Refinement.v
Traffic.v
HalfClose.v
Answers.v
Oversize.v
Deployment.v
DeploymentInv.v
Reconnect.v
Ateapi.v
Lifecycle.v
Activity.v
Suspender.v
Ingress.v
IngressBroker.v
Proxy.v
Loopback.v
Commands.v
AgentServer.v
DemoClient.v
Probe.v
LoopServer.v
