(* ===== verification/Prelude.v ===== *)
(** * Survivable egress tunnels: a verification development

    The repository (Go) lets an actor be suspended and resumed in the middle of
    a request.  An egress-sidecar inside the actor accepts the agent's outbound
    connections and carries them, as sessions of one multiplexed tunnel, to an
    egress-broker outside it; the broker keeps the destination connections open
    while the actor is suspended, wakes it when a response arrives, and both ends
    replay the unacknowledged bytes after the sidecar reconnects.  A suspender in
    the sidecar decides when to suspend; an ingress pair carries client requests
    in and their responses back out.

    ** Parts, files and correspondence

    [Prelude]        notation, automation, lists, strings, Go integers and slices.
    [GoStd]          the standard-library functions the programs parse with:
                     [strings.TrimSpace], [strconv.Atoi] and [ParseBool],
                     [time.ParseDuration] with its binary64 arithmetic,
                     [ServeMux]'s path cleaning and matching, line reading, and
                     the accept loop every [Serve] is written with.

    The tunnel:

    [ReplayBuffer]   [internal/tunnel/buffer.go]: every method of [ReplayBuffer].
    [Socket]         the part of [net.Conn] and [bufio.Writer] the sources use:
                     a socket delivers a prefix of what is written to it, and
                     fails from some point on (capacity [sk_cap]) or once closed.
    [Wire]           [internal/tunnel/wire.go]: [Frame], [encodeFrame] on the
                     buffered writer, [decodeFrame], [Conn.WriteFrame],
                     [Conn.ReadFrame]; the interface [FrameWriter] with its laws
                     ([FrameWriterLaws]), discharged for [Conn].  A frame the
                     encoder refuses half way ([postable] but not [wf_frame])
                     leaves bytes after which the peer decodes nothing more.
    [BrokerSession]  [internal/broker/session.go]: the [session] struct and every
                     method, over the state [sst] (session, tunnel connections,
                     calls back into the broker); generic in [FrameWriter].
    [Sidecar]        [internal/sidecar/session.go] and [client.go]: the
                     [clientSession] struct and every method over [cst]; [Client],
                     [OpenSession], [connectOnce] ([connect], [disconnect]), the
                     read loop ([handle_frame]), the ping loop ([ping_tick]) and
                     [Run] with its redial backoff ([redials], [client_Run]).
    [Link]           vocabulary shared by the two stream invariants.
    [BrokerStream], [SidecarStream]
                     the invariant of each end of one session: what the buffers,
                     counters and sent frames say about the two byte streams, and
                     that every operation preserves it.
    [System]         one session end to end: both ends, the tunnel connections
                     between them, the agent and the destination, as the step
                     relation [ystep]; reconnection as the function [heal].  The
                     connections are shared: frames of other sessions pass through
                     them between the steps of this one.
    [Progress]       the rounds after the reconnect, in which a blocked pump and a
                     blocked reader go on as the ACKs make room.
    [Interleavings]  the windows in which [session.go] releases its mutex around
                     a blocking write, with another goroutine running inside,
                     and the orders of frames it was not written for.
    [Tasks], [BrokerTasks], [SidecarTasks]
                     the session methods once more, as sequences of critical
                     sections and blocking writes between which other goroutines
                     run; [run] of such a task is the method of [BrokerSession] or
                     [Sidecar] ([run_onData], [run_deliver] and so on).
    [ConcInv], [ConcClient]
                     the stream invariants while tasks are half way: what each
                     relies on the others to leave alone, and what it guarantees.
    [Concurrent]     one session end to end with every goroutine interruptible,
                     as the step relation [kstep] over the state of [System].
    [Schedules]      an executable scheduler for [kstep], and runs of it.
    [WakeWindow]     where, in any run of [kstep], a wake can be lost.
    [Resumer]        [internal/broker/resumer.go] and [ateapi.Ref]: one resume in
                     flight per actor, the retry loop with its backoff.
    [Broker]         [internal/broker/broker.go] and [tunnelconn.go]: the session
                     table, [Serve], [serveTunnel], [handleFrame], [openSession],
                     [attachSession], [detachAll]; sessions and tunnel
                     connections are heap objects named by numbers.
    [SidecarClient]  theorems about the whole client of [Sidecar].
    [Refinement]     the simulation between the session model of [System] and
                     the broker of [Broker] and the client of [Sidecar] with all
                     their sessions.
    [Traffic]        what a session's methods put on the connections it shares.
    [Answers]        the same on a connection that works, frame by frame.
    [HalfClose]      what becomes of a CLOSE that is lost with a connection.
    [Oversize]       a session with more to replay than fits in a frame.
    [Deployment], [DeploymentInv]
                     one broker with any number of actors, each with a sidecar
                     and any number of sessions, as the step relation [wstep];
                     its invariant, which relates every session to a run of
                     [System].
    [Reconnect]      an actor's sidecar reconnects in a deployment, with all its
                     sessions at once; in step with [System.heal] for each.

    Around the tunnel:

    [Ateapi]         [internal/ateapi/ateapi.go]: [Dial] and the four calls; the
                     control service behind them is a parameter with the laws
                     [Platform], satisfied by [Registry].
    [Lifecycle]      a response, the session's callback, the resumer's goroutine,
                     the platform and the reconnecting sidecar put together.
    [Activity]       [internal/activityz/activityz.go], [internal/activitystatus].
    [Suspender]      [internal/sidecar/suspender.go]: the decision as [tick],
                     with [fetch] and [suspend] around it as [poll], [Run].
    [Ingress]        [internal/sidecar/ingress.go].
    [IngressBroker]  [demos/adk-calc/internal/ingressbroker/broker.go], and the
                     reply-to path of [Ingress] and [IngressBroker] together.
    [Proxy]          [internal/sidecar/proxy.go].
    [Commands]       [cmd/egress-sidecar/main.go], [cmd/egress-broker/main.go]:
                     settings, identity, start-up order, debug endpoints.

    The demos:

    [AgentServer]    [demos/adk-calc/internal/agentsrv], [internal/agent] and
                     [agent-server]: the [/run] handler and start-up.
    [DemoClient]     [demos/adk-calc/client], [mcp-server] and [ingress-broker]:
                     the actor's life cycle around the prompt, the calculator,
                     and the path of one line from the terminal and back.
    [Loopback]       [demos/loopback-survival]: [internal/wire], [server], [client].
    [Probe]          its external probe, echo server, endpoints and client [main].
    [LoopServer]     its server's [handleConn] and [main].

    Definitions keep the names of the Go functions and are executable; state is
    passed explicitly, errors are values ([res], [option], booleans), 64-bit
    offsets wrap with [u64].

    ** What the theorems show

    - Streams.  [System.tunnel_streams_exact]: over any run of [ystep], with any
      losses, reconnects and duplicated or reordered frame deliveries and any
      buffer sizes, what the destination received is a prefix of what the agent
      wrote, and conversely.
      [System.reconnect_heals]: from any reachable state whose sockets work and
      in which neither side has more than one frame to send again, a reconnect
      and two round trips deliver everything that was accepted;
      [Progress.transfers_complete]: and in at most as many further round trips as
      there are bytes waiting, what a full buffer had kept out.
      [Oversize.oversize_replay_is_never_delivered]: with more than one frame to
      send up again, no reconnect ever helps.
      [ReplayBuffer] refines an append-only stream with an acknowledged mark.
    - Concurrency.  [Concurrent.concurrent_streams_exact]: the same exactness when
      every goroutine of both ends can stop between any two critical sections, as
      long as two upstream writers of a session do not overlap (that they can is
      what [Interleavings] is about); the proof is by rely and guarantee over the
      worlds of [ConcInv].  [concurrent_reconnect_heals]: once those goroutines
      are at rest, a reconnect delivers everything (under the same condition on
      what has to be sent again), whatever the run before.
    - The whole loop.  [Lifecycle.suspended_call_completes]: the answer to a call
      whose actor was suspended resumes the actor and reaches the agent.
    - Deployments.  [DeploymentInv.every_session_exact]: the same for every
      session of every actor of a deployment at once;
      [data_goes_to_its_own_actor]: no actor's bytes reach another's connection,
      although all actors use the same session ids; [no_frame_lies]: what frames
      carry and acknowledge is true of the session they name.
      [Reconnect.reconnect_heals_every_session]: one reconnect brings back every
      session of the actor that is in order, if no session of the actor has more
      than one frame buffered.
    - Wire format.  Round trips of one frame and of a sequence of frames through
      the buffered writer; the decoder consumes exactly the frame's bytes and
      never reads past them; the encoder's size checks.
    - Wake policy.  [BrokerSession]: a wake is issued only for a pending and
      detached session, and an operation that makes a session owe data or a close
      to a detached agent asks for one, except a request that reaches a session
      already detached with data to deliver ([fed_while_bound]).
      [WakeWindow.wakes_lost_only_in_commit]: in the interleavings of
      [Concurrent] that fails only in the section that counts a request.
    - Broker and client tables.  The table holds exactly the live sessions; frames
      of one session, and a dropped tunnel, leave the others alone; the egress
      policy holds for every session that exists; a reconnect announces every
      session; identifiers are fresh; redials are paced.
    - Refinement.  What the broker and the client do to a session of their tables,
      frame by frame and event by event, is what the model in [System] does, and
      the session is in the table exactly while the model's is alive, so the
      handlers the stream theorems compose are the ones the tables dispatch to.
    - Resuming and suspending.  At most one resume per actor in flight, the retry
      loop ends by its deadline; each blocked call is suspended once, cooldown and
      grace periods are respected, every suspend is justified by a poll.
    - Ingress.  The idle signal is zero while a request has entered and not left,
      and otherwise the time since the last one left; a waiting client is handed the agent's own response; retry loops are bounded.
    - Proxy.  A CONNECT splice hands over exactly what it reads from the agent's
      socket, in order; an HTTP session carries whole requests for one host only;
      targets split back into host and port ([Proxy.hostPort_splits]); every
      request gets a session of its own ([proxy_request_gets_its_own_session]).
    - Commands.  An actor hydrated from a snapshot introduces itself by its own
      name at every connection; the default flags suspend only blocked tools; a
      working actor is left alone; the debug endpoints act on the named actor;
      printed settings are read back ([Commands.settings_roundtrip]).
    - Demo.  What the user types is posted, forwarded, served and answered through
      the programs' own handlers, and the agent's answer is what is shown; the
      client suspends its actor on any path, before it deletes it; the [/run] handler's answer, branch by branch.
    - Loopback experiment.  With payloads the format allows, over a connection that
      works neither end counts a violation; a change of one payload byte is always caught by the checksum, a
      missing or repeated frame by the sequence check; what a PASS means; the
      probe's report adds up, and a healthy echo never counts a failure; every
      verified frame is acknowledged once and in order, a restarted client is
      counted.
    - Theorems about behaviour that departs from the comments in the sources:
      [Schedules.overtaken_ack_strands_actor], [commit_window_loses_wake],
      [Interleavings.late_ack_forgets_request],
      [System.lost_acks_leave_broker_buffer_full],
      [HalfClose.lost_half_close_stays_lost], [Wire.oversize_data_poisons_conn],
      [Oversize.oversize_replay_is_never_delivered],
      [Interleavings.concurrent_replay_duplicates], [dial_window_drops_next_frame],
      [dial_window_duplicates], [early_half_close_is_lost],
      [drained_session_is_not_destroyed], [Activity.blocked_time_is_not_oldest_age],
      [Proxy.bracketed_v6_is_undialable],
      [Proxy.connect_pipelined_bytes_are_lost], [Loopback.pass_verdict],
      [Loopback.oversize_payload_is_refused],
      [Commands.negative_buffer_is_accepted], [DemoClient.zero_results_are_dropped],
      and the last branch of [AgentServer.run_answer_exact].

    ** Assumptions, bounds and fuel

    - In [System] and [Deployment] each handler runs to completion before the
      next starts; [Concurrent] has no such assumption, except that the DATA
      handlers and the dial of one session take turns, that the reader, the pump
      and the sidecar's read loop are one goroutine each, and that one lock
      period of [produceDownstream] is one step.  A frame on a connection may be handled any number of times and in
      any order by safety theorems, and exactly once and in order by [heal].
    - The byte streams of a session stay below 2^64 bytes in each direction, a
      sidecar opens fewer than 2^64 sessions, and names, targets and error texts
      fit the encoder's [maxString].  Buffers have any capacity that is not
      negative.  The recovery theorems ([reconnect_heals],
      [concurrent_reconnect_heals], [transfers_complete],
      [suspended_call_completes], [lost_acks_leave_broker_buffer_full]) ask that
      what is to be sent again in the state at hand is at most one frame
      ([System.replays_fit], [MaxPayload]), and [reconnect_heals_every_session]
      that no buffer of the actor's sessions holds more.  A buffer of the default
      4 MiB can hold more than that, which is the subject of
      [Wire.oversize_data_poisons_conn] and
      [Oversize.oversize_replay_is_never_delivered].
    - [every_session_exact], [data_goes_to_its_own_actor] and [no_frame_lies] are
      about sessions the broker has created once
      ([DeploymentInv.once]): after the broker forgot a session, an old OPEN or
      ATTACH frame creates it anew, to a new destination connection.
    - Fuel: [produce_loop] and [write_loop] get one unit per byte, and every turn
      that does not block consumes at least one (so [PFuel] and [WFuel] are not
      reached, see [BrokerStream] and [SidecarStream]); [resume_loop] gets 151
      turns, enough for the shortest backoff to pass the 30 s deadline
      ([Resumer.resume_terminates]); retry loops of [Ingress] have five turns as
      in the source.
    - Code outside the repository is a parameter: the platform's control service
      ([ControlClient] with the laws [Platform]), the HTTP clients and servers
      ([http_env], [post]), the flag parser, the file system and environment,
      the agent framework (what its iterator yields), JSON ([Json]: decoding
      undoes encoding), the clock (every [time.Now] is an argument), the network
      (which sockets work and for how long).

    ** Not modelled

    Log lines and [Frame.String]; gRPC, TLS and the generated stubs; [pflag]'s
    grammar; the MCP protocol handler and the agent framework behind
    [agent.Build]; JSON text; [ServeMux] for escaped paths; TCP keep-alive and
    write deadlines (a passed deadline is a socket that starts failing); tests
    and scripts. *)
From stdpp Require Export base tactics option list gmap strings sets.
From Stdlib Require Export ZArith Lia Strings.Byte.

Declare Scope tunnel_scope.
Delimit Scope tunnel_scope with tunnel.
Open Scope Z_scope.

(** ** Go integers and slices *)

(** Go's [len] on slices and strings. *)
Definition len {A} (l : list A) : Z := Z.of_nat (length l).

(** The slice expressions [l[n:]] and [l[:n]]; the sources use them only with
    [0 <= n <= len l], where Go and these functions agree. *)
Definition zdrop {A} (n : Z) (l : list A) : list A := drop (Z.to_nat n) l.
Definition ztake {A} (n : Z) (l : list A) : list A := take (Z.to_nat n) l.

(** Conversion to an unsigned type of the given width: Go keeps the low bits. *)
Definition u64_max : Z := 2 ^ 64.
Definition u64 (z : Z) : Z := z mod 2 ^ 64.
Definition u32 (z : Z) : Z := z mod 2 ^ 32.
Definition u16 (z : Z) : Z := z mod 2 ^ 16.
Definition u8 (z : Z) : Z := z mod 2 ^ 8.

(** Bytes. *)
Definition byte_of_Z (z : Z) : byte :=
  default x00 (Byte.of_N (Z.to_N (z mod 256))).
Definition Z_of_byte (b : byte) : Z := Z.of_N (Byte.to_N b).

#[export] Instance byte_eq_dec : EqDecision byte.
Proof. intros a b. destruct (Byte.byte_eq_dec a b); [left|right]; done. Defined.

(** The outcome of a Go call that returns [(value, error)]. *)
Inductive res (E A : Type) : Type :=
| Ok (a : A)
| Err (e : E).
Arguments Ok {E A} a.
Arguments Err {E A} e.

Definition res_bind {E A B} (m : res E A) (k : A -> res E B) : res E B :=
  match m with Ok a => k a | Err e => Err e end.

Notation "'let?' x ':=' m 'in' k" := (res_bind m (fun x => k))
  (at level 10, x pattern, m at level 100, k at level 200)
  : tunnel_scope.
Open Scope tunnel_scope.

(** ** Decimal integers *)

Definition digit (d : Z) : Ascii.ascii := Ascii.ascii_of_nat (48 + Z.to_nat d).

Fixpoint digits (fuel : nat) (n : Z) (acc : string) : string :=
  match fuel with
  | O => acc
  | S fuel => if n <? 10 then String (digit n) acc
              else digits fuel (n / 10) (String (digit (n mod 10)) acc)
  end.

(** [strconv.Itoa]; an [int] has at most 19 digits. *)
Definition Itoa (z : Z) : string :=
  if z <? 0 then "-" +:+ digits 20 (- z) "" else digits 20 z "".

(** ** Strings *)

(** [strings.Contains] and [strings.IndexByte] for one byte; the index is given
    as the two parts around it. *)
Fixpoint has (c : Ascii.ascii) (s : string) : bool :=
  match s with EmptyString => false | String a s => Ascii.eqb a c || has c s end.

Fixpoint cut_at (c : Ascii.ascii) (s : string) : option (string * string) :=
  match s with
  | EmptyString => None
  | String a s' =>
      if Ascii.eqb a c then Some (EmptyString, s')
      else match cut_at c s' with Some (x, y) => Some (String a x, y) | None => None end
  end.

(** ** Automation *)

Create HintDb tunnel.
Create Rewrite HintDb tunnel.

(** Normalise lengths of list expressions to arithmetic on [len]. *)
Ltac len_norm :=
  unfold len, ztake, zdrop in *;
  repeat rewrite ?length_app, ?length_take, ?length_drop, ?length_cons, ?length_nil in *.
Ltac len_solve := len_norm; simpl in *; lia.

(** Split every conditional on a boolean comparison into its two cases. *)
Ltac zcases :=
  repeat match goal with
  | |- context [Z.ltb ?a ?b] => destruct (Z.ltb_spec a b)
  | |- context [Z.leb ?a ?b] => destruct (Z.leb_spec a b)
  | |- context [Z.eqb ?a ?b] => destruct (Z.eqb_spec a b)
  | |- context [Z.gtb ?a ?b] => rewrite (Z.gtb_ltb a b)
  | |- context [Z.geb ?a ?b] => rewrite (Z.geb_leb a b)
  end.

(** ** Lists and lengths *)

Section lists.
Context {A : Type}.
Implicit Types l k : list A.

Lemma len_nonneg l : 0 <= len l.
Proof. unfold len. lia. Qed.

Lemma len_nil : len (@nil A) = 0.
Proof. reflexivity. Qed.

Lemma len_app l k : len (l ++ k) = len l + len k.
Proof. len_solve. Qed.

Lemma len_0_nil l : len l = 0 -> l = [].
Proof. destruct l; len_solve || done. Qed.

Lemma len_zdrop n l : 0 <= n <= len l -> len (zdrop n l) = len l - n.
Proof. intros. len_solve. Qed.

Lemma len_ztake n l : 0 <= n <= len l -> len (ztake n l) = n.
Proof. intros. len_solve. Qed.

Lemma ztake_zdrop n l : ztake n l ++ zdrop n l = l.
Proof. apply take_drop. Qed.

Lemma zdrop_0 l : zdrop 0 l = l.
Proof. reflexivity. Qed.

Lemma zdrop_len l : zdrop (len l) l = [].
Proof. unfold zdrop, len. rewrite Nat2Z.id. apply drop_all. Qed.

Lemma ztake_len l : ztake (len l) l = l.
Proof. unfold ztake, len. rewrite Nat2Z.id. by rewrite firstn_all. Qed.

Lemma ztake_0 l : ztake 0 l = [].
Proof. reflexivity. Qed.

Lemma zdrop_app_le n l k : 0 <= n <= len l -> zdrop n (l ++ k) = zdrop n l ++ k.
Proof. intros. unfold zdrop. apply drop_app_le. len_solve. Qed.

Lemma ztake_app_le n l k : n <= len l -> ztake n (l ++ k) = ztake n l.
Proof. intros. unfold ztake. apply take_app_le. len_solve. Qed.

Lemma zdrop_app_len l k : zdrop (len l) (l ++ k) = k.
Proof. unfold zdrop, len. rewrite Nat2Z.id. apply drop_app_length. Qed.

Lemma ztake_app_len l k : ztake (len l) (l ++ k) = l.
Proof. unfold ztake, len. rewrite Nat2Z.id. apply take_app_length. Qed.

Lemma zdrop_zdrop n m l : 0 <= n -> 0 <= m -> zdrop n (zdrop m l) = zdrop (m + n) l.
Proof.
  intros. unfold zdrop. rewrite drop_drop. f_equal. lia.
Qed.

(** Extending a prefix by the bytes that follow it. *)
Lemma ztake_extend n m l :
  0 <= n -> 0 <= m -> ztake (n + m) l = ztake n l ++ ztake m (zdrop n l).
Proof.
  intros. unfold ztake, zdrop. rewrite take_drop_commute.
  rewrite <- Z2Nat.inj_add by lia.
  rewrite <- (take_drop (Z.to_nat n) (take (Z.to_nat (n + m)) l)) at 1.
  rewrite take_take. f_equal. f_equal. lia.
Qed.

Lemma ztake_ge n l : len l <= n -> ztake n l = l.
Proof. intros. unfold ztake. apply take_ge. len_solve. Qed.

Lemma ztake_prefix n l : ztake n l `prefix_of` l.
Proof. exists (zdrop n l). by rewrite ztake_zdrop. Qed.
End lists.

#[export] Hint Resolve len_nonneg : tunnel.
#[export] Hint Rewrite @len_app @len_nil @zdrop_0 @ztake_0 @zdrop_len @ztake_len
  @zdrop_app_len @ztake_app_len : tunnel.

(** ** Strings *)

Section strings.
#[local] Arguments String.append !_ _ /.
Implicit Types s t u : string.

Lemma string_app_assoc s t u : (s +:+ t) +:+ u = s +:+ (t +:+ u).
Proof. induction s as [|a s IH]; simpl; [done|by rewrite IH]. Qed.

Lemma string_app_nil s : s +:+ "" = s.
Proof. induction s as [|a s IH]; simpl; [done|by rewrite IH]. Qed.

Lemma string_length_app s t : String.length (s +:+ t) = (String.length s + String.length t)%nat.
Proof. induction s as [|a s IH]; simpl; [done|by rewrite IH]. Qed.

Lemma has_app c s t : has c (s +:+ t) = has c s || has c t.
Proof. induction s as [|a s IH]; [done|]. cbn [has String.append]. by rewrite IH, orb_assoc. Qed.

Lemma cut_at_app c s t : has c s = false -> cut_at c (s +:+ String c t) = Some (s, t).
Proof.
  induction s as [|a s IH]; simpl; [by rewrite Ascii.eqb_refl|].
  intros [Ha Hs]%orb_false_iff. by rewrite Ha, IH.
Qed.

Lemma cut_at_inv c s t u : cut_at c s = Some (t, u) -> s = t +:+ String c u /\ has c t = false.
Proof.
  revert t. induction s as [|a s IH]; intros t; simpl; [done|].
  destruct (Ascii.eqb_spec a c) as [->|Ha]; [by intros [= <- <-]|].
  destruct (cut_at c s) as [[t' u']|]; [|done]. intros [= <- <-].
  destruct (IH t' eq_refl) as [-> Hh]. simpl. rewrite Hh. by destruct (Ascii.eqb_spec a c).
Qed.

Lemma cut_at_None c s : cut_at c s = None <-> has c s = false.
Proof.
  induction s as [|a s IH]; simpl; [done|]. destruct (Ascii.eqb a c); simpl; [done|].
  rewrite <- IH. by destruct (cut_at c s) as [[]|].
Qed.
End strings.

(** ** Machine integers *)

Lemma u64_small z : 0 <= z < 2 ^ 64 -> u64 z = z.
Proof. apply Z.mod_small. Qed.

Lemma u64_range z : 0 <= u64 z < 2 ^ 64.
Proof. apply Z.mod_pos_bound. lia. Qed.

Lemma Z_of_byte_range b : 0 <= Z_of_byte b < 256.
Proof.
  unfold Z_of_byte. pose proof (Byte.to_N_bounded b). lia.
Qed.

Lemma Z_of_byte_of_Z z : Z_of_byte (byte_of_Z z) = z mod 256.
Proof.
  unfold Z_of_byte, byte_of_Z.
  pose proof (Z.mod_pos_bound z 256 ltac:(lia)).
  destruct (Byte.of_N (Z.to_N (z mod 256))) as [b|] eqn:E; simpl.
  - apply Byte.to_of_N in E. rewrite E. lia.
  - apply Byte.of_N_None_iff in E. lia.
Qed.

Lemma byte_of_Z_of_byte b : byte_of_Z (Z_of_byte b) = b.
Proof.
  unfold byte_of_Z. rewrite Z.mod_small by apply Z_of_byte_range.
  unfold Z_of_byte. rewrite N2Z.id. by rewrite Byte.of_to_N.
Qed.
