(* ===== verification/GoStd.v ===== *)
(** * GoStd: the parts of Go's standard library the commands parse with

    [strings.TrimSpace], [TrimPrefix] and [SplitN], [strconv.Atoi] and
    [ParseBool], [time.ParseDuration] (with the binary64 arithmetic it does on
    fractions), [path.Clean] as [http.ServeMux] applies it, and reading lines.
    Strings are byte strings, as in Go; an error is [None]. *)
From Stdlib Require Import Ascii SpecFloat.
From S2P Require Import Prelude.

#[local] Arguments String.append !_ _ /.

(** ** Strings *)

(** [s] without the prefix [p], if it has it. *)
Fixpoint cut_prefix (p s : string) : option string :=
  match p, s with
  | EmptyString, _ => Some s
  | String a p, String b s => if Ascii.eqb a b then cut_prefix p s else None
  | String _ _, EmptyString => None
  end.

Definition TrimPrefix (s p : string) : string := default s (cut_prefix p s).

(** [strings.SplitN(s, c, 2)] and [strings.Split(s, c)]. *)
Definition SplitN2 (c : ascii) (s : string) : list string :=
  match cut_at c s with Some (x, y) => [x; y] | None => [s] end.

Fixpoint Split (c : ascii) (s : string) : list string :=
  match s with
  | EmptyString => [EmptyString]
  | String a s' =>
      let r := Split c s' in
      if Ascii.eqb a c then EmptyString :: r
      else match r with x :: r => String a x :: r | [] => [String a EmptyString] end
  end.

Fixpoint Join (c : ascii) (l : list string) : string :=
  match l with
  | [] => EmptyString
  | [x] => x
  | x :: l => x +:+ String c (Join c l)
  end.

(** The encodings of the runes for which [unicode.IsSpace] holds. *)
Definition ascii_spaces : list string :=
  map (fun n => String (ascii_of_nat n) "") [9; 10; 11; 12; 13; 32]%nat.
Definition bytes_string (l : list nat) : string :=
  fold_right (fun n s => String (ascii_of_nat n) s) EmptyString l.
Definition spaces : list string :=
  ascii_spaces ++
  map bytes_string
    ([[194; 133]; [194; 160]; [225; 154; 128]] ++
     map (fun n => [226; 128; 128 + n]) (seq 0 11) ++
     [[226; 128; 168]; [226; 128; 169]; [226; 128; 175]; [226; 129; 159]; [227; 128; 128]])%nat.

(** The rest of [s] after the first of [toks] that is a prefix of it. *)
Fixpoint after_any (toks : list string) (s : string) : option string :=
  match toks with
  | [] => None
  | t :: toks => match cut_prefix t s with Some r => Some r | None => after_any toks s end
  end.

Fixpoint strip (toks : list string) (fuel : nat) (s : string) : string :=
  match fuel with
  | O => s
  | S fuel => match after_any toks s with Some r => strip toks fuel r | None => s end
  end.

Fixpoint reverse (s acc : string) : string :=
  match s with EmptyString => acc | String a s => reverse s (String a acc) end.
Definition rev_str (s : string) : string := reverse s "".

Definition TrimLeft (s : string) : string := strip spaces (String.length s) s.
Definition TrimRight (s : string) : string :=
  rev_str (strip (map rev_str spaces) (String.length s) (rev_str s)).
Definition TrimSpace (s : string) : string := TrimRight (TrimLeft s).

(** ** Lines *)

Definition newline : ascii := "010".

(** [bufio.Reader.ReadString('\n')] on what a connection still delivers: a line
    with its newline and the rest, or what was left without one. *)
Fixpoint ReadString (s : string) : string * option string :=
  match s with
  | EmptyString => (EmptyString, None)
  | String c s =>
      if Ascii.eqb c newline then (String c EmptyString, Some s)
      else let '(l, r) := ReadString s in (String c l, r)
  end.

(** ** Numbers *)

Definition digit_val (c : ascii) : option Z :=
  let n := Z.of_nat (nat_of_ascii c) in
  if (48 <=? n) && (n <=? 57) then Some (n - 48) else None.

Fixpoint dec (x : Z) (s : string) : option Z :=
  match s with
  | EmptyString => Some x
  | String c s => match digit_val c with Some d => dec (x * 10 + d) s | None => None end
  end.

(** An optional sign. *)
Definition sign (s : string) : bool * string :=
  match s with
  | String "-" s' => (true, s')
  | String "+" s' => (false, s')
  | _ => (false, s)
  end.

Inductive num_error : Type := ErrSyntax | ErrRange.

(** [ParseUint]'s digit loop: a value beyond 64 bits ends it at once, whatever
    follows. *)
Fixpoint parseUint (n : Z) (s : string) : res num_error Z :=
  match s with
  | EmptyString => Ok n
  | String c s =>
      match digit_val c with
      | None => Err ErrSyntax
      | Some d => if n * 10 + d <? 2 ^ 64 then parseUint (n * 10 + d) s else Err ErrRange
      end
  end.

(** [strconv.Atoi] for a 64-bit [int]: the value and the error.  A value out of
    range comes back as the nearest [int], together with the error. *)
Definition Atoi (s : string) : Z * option num_error :=
  let '(neg, ds) := sign s in
  let far := (if neg : bool then - 2 ^ 63 else 2 ^ 63 - 1, Some ErrRange) in
  match (if bool_decide (ds = "") then Err ErrSyntax else parseUint 0 ds) with
  | Err ErrSyntax => (0, Some ErrSyntax)
  | Err ErrRange => far
  | Ok u => if neg then if u >? 2 ^ 63 then far else (- u, None)
            else if u >=? 2 ^ 63 then far else (u, None)
  end.

Definition ParseBool (s : string) : option bool :=
  if decide (s ∈ ["1"; "t"; "T"; "true"; "TRUE"; "True"]) then Some true
  else if decide (s ∈ ["0"; "f"; "F"; "false"; "FALSE"; "False"]) then Some false
  else None.

(** ** Binary64 *)

Definition f64 : Type := spec_float.
Definition f64_of_Z (z : Z) : f64 := binary_normalize 53 1024 z 0 false.
Definition f64_add : f64 -> f64 -> f64 := SFadd 53 1024.
Definition f64_sub : f64 -> f64 -> f64 := SFsub 53 1024.
Definition f64_mul : f64 -> f64 -> f64 := SFmul 53 1024.
Definition f64_div : f64 -> f64 -> f64 := SFdiv 53 1024.
Definition f64_eqb : f64 -> f64 -> bool := SFeqb.

(** Conversion to an integer type truncates. *)
Definition f64_trunc (x : f64) : Z :=
  match x with
  | S754_finite s m e => let v := Z.shiftl (Z.pos m) e in if s then - v else v
  | _ => 0
  end.

(** ** Durations *)

Definition Nanosecond : Z := 1.
Definition Microsecond : Z := 1000.
Definition Millisecond : Z := 1000 * Microsecond.
Definition Second : Z := 1000 * Millisecond.
Definition Minute : Z := 60 * Second.
Definition Hour : Z := 60 * Minute.

(** Both the micro sign and the Greek letter mu are accepted. *)
Definition unitMap (u : string) : option Z :=
  if decide (u = "ns") then Some Nanosecond
  else if decide (u ∈ ["us"; bytes_string [194; 181; 115]%nat; bytes_string [206; 188; 115]%nat]) then Some Microsecond
  else if decide (u = "ms") then Some Millisecond
  else if decide (u = "s") then Some Second
  else if decide (u = "m") then Some Minute
  else if decide (u = "h") then Some Hour
  else None.

Fixpoint leadingInt (x : Z) (s : string) : option (Z * string) :=
  match s with
  | EmptyString => Some (x, s)
  | String c s' =>
      match digit_val c with
      | None => Some (x, s)
      | Some d =>
          if x >? 2 ^ 63 / 10 then None
          else if x * 10 + d >? 2 ^ 63 then None
          else leadingInt (x * 10 + d) s'
      end
  end.

Fixpoint leadingFraction (x : Z) (scale : f64) (overflow : bool) (s : string) : Z * f64 * string :=
  match s with
  | EmptyString => (x, scale, s)
  | String c s' =>
      match digit_val c with
      | None => (x, scale, s)
      | Some d =>
          if overflow || (x >? (2 ^ 63 - 1) / 10) then leadingFraction x scale true s'
          else if x * 10 + d >? 2 ^ 63 then leadingFraction x scale true s'
          else leadingFraction (x * 10 + d) (f64_mul scale (f64_of_Z 10)) false s'
      end
  end.

Definition is_dot (c : ascii) : bool := Ascii.eqb c ".".
Definition is_num (c : ascii) : bool := is_dot c || bool_decide (digit_val c <> None).

(** The bytes up to the next digit or period. *)
Fixpoint unit_of (s : string) : string * string :=
  match s with
  | EmptyString => (EmptyString, EmptyString)
  | String c s' => if is_num c then (EmptyString, s) else let '(u, r) := unit_of s' in (String c u, r)
  end.

(** One [number unit] group: its value and the rest. *)
Definition duration_group (s : string) : option (Z * string) :=
  match s with
  | EmptyString => None
  | String c _ =>
      if negb (is_num c) then None
      else match leadingInt 0 s with
      | None => None
      | Some (v, s1) =>
          let pre := negb (String.length s =? String.length s1)%nat in
          let '(f, scale, s2, post) :=
            match cut_prefix "." s1 with
            | Some s1' =>
                let '(f, scale, r) := leadingFraction 0 (f64_of_Z 1) false s1' in
                (f, scale, r, negb (String.length s1' =? String.length r)%nat)
            | None => (0, f64_of_Z 1, s1, false)
            end in
          if negb pre && negb post then None
          else let '(u, s3) := unit_of s2 in
          if bool_decide (u = "") then None
          else match unitMap u with
          | None => None
          | Some unit =>
              if v >? 2 ^ 63 / unit then None
              else
                let v := v * unit in
                let w := v + if f >? 0 then f64_trunc (f64_mul (f64_of_Z f) (f64_div (f64_of_Z unit) scale)) else 0 in
                if w >? 2 ^ 63 then None else Some (w, s3)
          end
      end
  end.

Fixpoint duration_loop (fuel : nat) (d : Z) (s : string) : option Z :=
  match fuel with
  | O => None
  | S fuel =>
      if bool_decide (s = "") then Some d
      else match duration_group s with
      | None => None
      | Some (v, s') => let d := u64 (d + v) in if d >? 2 ^ 63 then None else duration_loop fuel d s'
      end
  end.

(** [time.ParseDuration]; every group consumes at least two bytes.  [-d] of
    [d = 2^63] is [-2^63]. *)
Definition ParseDuration (s : string) : option Z :=
  let '(neg, s) := sign s in
  if bool_decide (s = "0") then Some 0
  else if bool_decide (s = "") then None
  else match duration_loop (S (String.length s)) 0 s with
  | None => None
  | Some d => if neg : bool then Some (- d) else if d >? 2 ^ 63 - 1 then None else Some d
  end.

Example duration_ex :
  (ParseDuration "5m", ParseDuration "1.5h", ParseDuration "-1h2m.5s", ParseDuration "300", ParseDuration "2s ")
  = (Some (300 * Second), Some (5400 * Second), Some (- (3720500 * Millisecond)), None, None).
Proof. vm_compute. reflexivity. Qed.

Example trim_ex : TrimSpace (bytes_string [32; 194; 160; 97; 32; 98; 226; 128; 168; 10]%nat) = "a b".
Proof. vm_compute. reflexivity. Qed.

(** ** Accept loops *)

(** What [Accept] returns: a connection, or an error together with whether the
    context has been cancelled (which closes the listener). *)
Inductive accept_event (A : Type) : Type :=
| Accepted (conn : A)
| AcceptError (e : string) (cancelled : bool).
Arguments Accepted {A} _.
Arguments AcceptError {A} _ _.

(** The accept loop of every [Serve]: a handler is started per connection, and
    the first error ends the loop, as success when the context is done.  The
    result is [None] while the loop runs. *)
Fixpoint accept_loop {A S} (go : A -> S -> S) (evs : list (accept_event A)) (s : S) : S * option (res string unit) :=
  match evs with
  | [] => (s, None)
  | Accepted c :: evs => accept_loop go evs (go c s)
  | AcceptError e cancelled :: _ => (s, Some (if cancelled then Ok tt else Err e))
  end.

(** ** Request multiplexing *)

(** [path.Clean] of a rooted path: empty and [.] elements go, [..] removes the
    element before it. *)
Definition clean_step (acc : list string) (e : string) : list string :=
  if decide (e = "" \/ e = ".") then acc
  else if decide (e = "..") then removelast acc
  else acc ++ [e].
Definition path_clean (p : string) : string :=
  "/" +:+ Join "/" (foldl clean_step [] (Split "/" p)).

Definition ends_in_slash (s : string) : bool :=
  match reverse s "" with String "/" _ => true | _ => false end.

(** [cleanPath] of [net/http]. *)
Definition cleanPath (p : string) : string :=
  if bool_decide (p = "") then "/"
  else
    let p := match p with String "/" _ => p | _ => "/" +:+ p end in
    let np := path_clean p in
    if ends_in_slash p && negb (bool_decide (np = "/")) then np +:+ "/" else np.

Inductive route : Type :=
| Matched (pattern : string)
| Redirect (path : string)
| NotFound.

(** A pattern that ends in a slash matches the whole subtree. *)
Definition matches (p pat : string) : bool :=
  bool_decide (p = pat) || (ends_in_slash pat && bool_decide (cut_prefix pat p <> None)).

(** The longest matching pattern wins. *)
Definition better (p : string) (best : option string) (pat : string) : option string :=
  if matches p pat then
    match best with
    | Some b => if (String.length pat <=? String.length b)%nat then Some b else Some pat
    | None => Some pat
    end
  else best.

(** [ServeMux.Handler] for patterns without methods, hosts or wildcards and a
    path that needs no escaping. *)
Definition ServeMux (pats : list string) (path : string) : route :=
  let p := cleanPath path in
  let m := foldl (better p) None pats in
  if negb (bool_decide (m = Some p)) && negb (ends_in_slash p) && bool_decide ((p +:+ "/") ∈ pats)
  then Redirect (p +:+ "/")
  else if negb (bool_decide (p = path)) then Redirect p
  else match m with Some pat => Matched pat | None => NotFound end.

Example mux_ex :
  map (ServeMux ["/healthz"; "/debug/suspend/"]) ["/healthz"; "/debug/suspend"; "/debug//suspend/a/b"; "/debug/suspend/a/b"; "/x"]
  = [Matched "/healthz"; Redirect "/debug/suspend/"; Redirect "/debug/suspend/a/b"; Matched "/debug/suspend/"; NotFound].
Proof. vm_compute. reflexivity. Qed.

(** ** Lemmas *)

Lemma cut_prefix_app p s : cut_prefix p (p +:+ s) = Some s.
Proof. induction p as [|a p IH]; simpl; [done|]. by rewrite Ascii.eqb_refl. Qed.

Lemma cut_prefix_inv p s r : cut_prefix p s = Some r -> s = p +:+ r.
Proof.
  revert s. induction p as [|a p IH]; intros [|b s]; simpl; try (by intros [= ->]).
  destruct (Ascii.eqb_spec a b) as [->|]; [|done]. by intros ->%IH.
Qed.

Lemma SplitN2_cut c s t : has c s = false -> SplitN2 c (s +:+ String c t) = [s; t].
Proof. intros Hs. unfold SplitN2. by rewrite cut_at_app. Qed.

(** *** Decimal numbers *)

Lemma digit_val_digit d : 0 <= d < 10 -> digit_val (digit d) = Some d.
Proof.
  intros Hd. assert (exists n, d = Z.of_nat n /\ (n < 10)%nat) as (n & -> & Hn) by (exists (Z.to_nat d); lia).
  unfold digit. rewrite Nat2Z.id. do 10 (destruct n as [|n]; [reflexivity|]). lia.
Qed.

(** [digits] with enough fuel is inverted by [dec]. *)
Lemma dec_digits fuel n acc x :
  0 <= n < 10 ^ Z.of_nat fuel -> exists k, 0 <= k /\ dec x (digits fuel n acc) = dec (x * 10 ^ k + n) acc.
Proof.
  revert n acc. induction fuel as [|fuel IH]; intros n acc; [simpl; intros ?; exists 0; split; [lia|]; f_equal; lia|].
  intros Hn. simpl digits. destruct (Z.ltb_spec n 10).
  - exists 1. split; [lia|]. cbn [dec]. rewrite digit_val_digit by lia. by rewrite Z.pow_1_r.
  - destruct (IH (n / 10) (String (digit (n mod 10)) acc)) as (k & Hk & ->).
    { split; [apply Z.div_pos; lia|]. apply Z.div_lt_upper_bound; [lia|].
      rewrite Nat2Z.inj_succ, Z.pow_succ_r in Hn; lia. }
    exists (Z.succ k). split; [lia|]. cbn [dec].
    rewrite digit_val_digit by (apply Z.mod_pos_bound; lia). f_equal.
    rewrite Z.pow_succ_r by lia. pose proof (Z.div_mod n 10 ltac:(lia)). lia.
Qed.

Lemma dec_Itoa n : 0 <= n < 10 ^ 20 -> dec 0 (digits 20 n "") = Some n.
Proof. intros Hn. destruct (dec_digits 20 n "" 0) as (k & _ & ->); [lia|]. cbn [dec]. by rewrite Z.mul_0_l. Qed.

(** The first character of a number is a digit. *)
Lemma digits_head fuel n acc :
  0 <= n -> fuel <> O -> exists d r, 0 <= d < 10 /\ digits fuel n acc = String (digit d) r.
Proof.
  revert n acc. induction fuel as [|fuel IH]; intros n acc Hn Hf; [done|]. simpl.
  destruct (Z.ltb_spec n 10); [by exists n, acc|].
  destruct fuel as [|fuel]; [exists (n mod 10), acc; split; [apply Z.mod_pos_bound; lia|done]|].
  apply IH; [apply Z.div_pos; lia|done].
Qed.

(** Facts about the ten digits, by cases. *)
Ltac ten_digits d := 
  let k := fresh "k" in
  let Hk := fresh in
  assert (exists k, d = Z.of_nat k /\ (k < 10)%nat) as (k & -> & Hk) by (exists (Z.to_nat d); lia);
  unfold digit; rewrite Nat2Z.id; do 10 (destruct k as [|k]; [reflexivity|]); lia.

Lemma sign_digit d r : 0 <= d < 10 -> sign (String (digit d) r) = (false, String (digit d) r).
Proof. intros Hd. ten_digits d. Qed.

Lemma is_num_digit d : 0 <= d < 10 -> is_num (digit d) = true.
Proof. intros Hd. ten_digits d. Qed.

Lemma sign_digits fuel n u :
  0 <= n -> fuel <> O -> sign (digits fuel n "" +:+ u) = (false, digits fuel n "" +:+ u).
Proof. intros Hn Hf. destruct (digits_head fuel n "" Hn Hf) as (d & r & Hd & ->). by apply sign_digit. Qed.

Lemma digits_nonempty fuel n : 0 <= n -> fuel <> O -> digits fuel n "" <> "".
Proof. intros Hn Hf. destruct (digits_head fuel n "" Hn Hf) as (d & r & _ & ->). done. Qed.

Lemma Itoa_nonempty n : Itoa n <> "".
Proof. unfold Itoa. destruct (Z.ltb_spec n 0); [done|by apply digits_nonempty]. Qed.

Lemma digit_val_range c d : digit_val c = Some d -> 0 <= d < 10.
Proof.
  unfold digit_val. destruct (_ && _) eqn:E; [|done]. apply andb_true_iff in E as [E1 E2].
  apply Z.leb_le in E1. apply Z.leb_le in E2. intros [= <-]. lia.
Qed.

Lemma dec_ge x s n : 0 <= x -> dec x s = Some n -> x <= n.
Proof.
  revert x. induction s as [|c s IH]; intros x Hx; cbn [dec]; [intros [= <-]; lia|].
  destruct (digit_val c) as [d|] eqn:E; [|done]. apply digit_val_range in E. intros Hd.
  apply IH in Hd; lia.
Qed.

Lemma parseUint_dec x s n : 0 <= x -> dec x s = Some n -> n < 2 ^ 64 -> parseUint x s = Ok n.
Proof.
  revert x. induction s as [|c s IH]; intros x Hx Hd Hn; cbn [dec parseUint] in *; [by injection Hd as ->|].
  destruct (digit_val c) as [d|] eqn:E; [|done]. apply digit_val_range in E.
  pose proof (dec_ge (x * 10 + d) s n ltac:(lia) Hd).
  destruct (Z.ltb_spec (x * 10 + d) (2 ^ 64)); [|lia]. by apply IH; [lia|..].
Qed.

(** [Atoi] inverts [Itoa] on every 64-bit integer. *)
Lemma Atoi_Itoa z : - 2 ^ 63 <= z < 2 ^ 63 -> Atoi (Itoa z) = (z, None).
Proof.
  intros Hz. unfold Itoa, Atoi. destruct (Z.ltb_spec z 0).
  - cbn [sign String.append]. rewrite bool_decide_eq_false_2 by (apply digits_nonempty; lia).
    rewrite (parseUint_dec 0 _ (- z)) by (lia || apply dec_Itoa; lia). rewrite Z.gtb_ltb.
    destruct (Z.ltb_spec (2 ^ 63) (- z)); [lia|]. by rewrite Z.opp_involutive.
  - rewrite <- (string_app_nil (digits 20 z "")), sign_digits, string_app_nil by lia.
    rewrite bool_decide_eq_false_2 by (apply digits_nonempty; lia).
    rewrite (parseUint_dec 0 _ z) by (lia || apply dec_Itoa; lia). rewrite Z.geb_leb.
    by destruct (Z.leb_spec (2 ^ 63) z); [lia|].
Qed.

Definition starts_with_digit (s : string) : bool :=
  match s with String c _ => bool_decide (digit_val c <> None) | EmptyString => false end.

Lemma leadingInt_dec x s u n :
  0 <= x -> dec x s = Some n -> n <= 2 ^ 63 -> starts_with_digit u = false -> leadingInt x (s +:+ u) = Some (n, u).
Proof.
  revert x. induction s as [|c s IH]; intros x Hx Hd Hn Hu; cbn [dec String.append leadingInt] in *.
  - injection Hd as <-. destruct u as [|c u]; [done|]. cbn [starts_with_digit leadingInt] in *.
    destruct (digit_val c); [by rewrite bool_decide_eq_true_2 in Hu|done].
  - destruct (digit_val c) as [d|] eqn:E; [|done]. apply digit_val_range in E.
    pose proof (dec_ge (x * 10 + d) s n ltac:(lia) Hd). rewrite !Z.gtb_ltb.
    destruct (Z.ltb_spec (2 ^ 63 / 10) x) as [Hlt|_].
    { change (2 ^ 63 / 10) with 922337203685477580 in Hlt. lia. }
    destruct (Z.ltb_spec (2 ^ 63) (x * 10 + d)); [lia|]. by apply IH; [lia|..].
Qed.

Lemma unit_of_plain u : (forall c, has c u = true -> is_num c = false) -> unit_of u = (u, "").
Proof.
  induction u as [|c u IH]; intros Hu; [done|]. cbn [unit_of].
  rewrite (Hu c) by (simpl; by rewrite Ascii.eqb_refl).
  rewrite IH; [done|]. intros c' Hc. apply Hu. simpl. rewrite Hc. apply orb_true_r.
Qed.

(** One group: a whole number followed by a unit. *)
Lemma group_whole s n u unit :
  0 <= n -> dec 0 s = Some n -> n * unit <= 2 ^ 63 -> 0 < unit -> unitMap u = Some unit ->
  match s with String c _ => is_num c = true | EmptyString => False end ->
  (forall c, has c u = true -> is_num c = false) -> u <> "" ->
  duration_group (s +:+ u) = Some (n * unit, "").
Proof.
  intros Hn Hdec Hb Hu0 Hu Hs Hc Hne.
  assert (starts_with_digit u = false /\ cut_prefix "." u = None) as [Hsd Hdot].
  { destruct u as [|c u]; [done|]. specialize (Hc c ltac:(simpl; by rewrite Ascii.eqb_refl)).
    apply orb_false_iff in Hc as [Hd1 Hd2]. split; [exact Hd2|].
    unfold is_dot in Hd1. rewrite Ascii.eqb_sym in Hd1. cbn [cut_prefix]. by rewrite Hd1. }
  pose proof (leadingInt_dec 0 s u n ltac:(lia) Hdec ltac:(nia) Hsd) as HL.
  destruct s as [|c s]; [done|]. unfold duration_group. cbn [String.append] in *. rewrite Hs. cbn [negb].
  rewrite HL. rewrite Hdot. rewrite (unit_of_plain u Hc). rewrite bool_decide_eq_false_2, Hu by done.
  replace (String.length (String c (s +:+ u)) =? String.length u)%nat with false
    by (symmetry; apply Nat.eqb_neq; cbn [String.length]; rewrite string_length_app; lia).
  cbn [negb andb]. rewrite !Z.gtb_ltb. destruct (Z.ltb_spec (2 ^ 63 / unit) n) as [Hlt|_].
  { pose proof (Z.div_le_lower_bound (2 ^ 63) unit n Hu0). lia. }
  cbn [Z.ltb Z.compare]. rewrite Z.add_0_r. destruct (Z.ltb_spec (2 ^ 63) (n * unit)); [lia|done].
Qed.

(** A whole number of one unit parses back to that many nanoseconds. *)
Lemma ParseDuration_unit n u unit :
  0 <= n -> n * unit < 2 ^ 63 -> 0 < unit -> unitMap u = Some unit ->
  (forall c, has c u = true -> is_num c = false) -> u <> "" ->
  ParseDuration (Itoa n +:+ u) = Some (n * unit).
Proof.
  intros Hn Hb Hu0 Hu Hc Hne. unfold Itoa, ParseDuration. destruct (Z.ltb_spec n 0); [lia|].
  rewrite sign_digits by (lia || done).
  pose proof (digits_head 20 n "" Hn ltac:(done)) as (d & r & Hd & E).
  pose proof (group_whole (digits 20 n "") n u unit Hn (dec_Itoa n ltac:(nia)) ltac:(lia) Hu0 Hu) as HG.
  rewrite E in HG |- *. cbn [String.append] in *.
  rewrite !bool_decide_eq_false_2; [|done|].
  2: { intros [= _ He]. destruct r; [|done]. by destruct u. }
  cbn [String.length duration_loop]. rewrite bool_decide_eq_false_2, (HG (is_num_digit d Hd) Hc Hne) by done.
  rewrite u64_small, !Z.gtb_ltb by nia.
  destruct (Z.ltb_spec (2 ^ 63) (0 + n * unit)); [nia|].
  rewrite bool_decide_eq_true_2 by done. rewrite Z.add_0_l.
  rewrite Z.gtb_ltb. destruct (Z.ltb_spec (2 ^ 63 - 1) (n * unit)); [lia|done].
Qed.

(** *** Trimming *)

(** A visible ASCII character. *)
Definition graphic (c : ascii) : bool := (33 <=? nat_of_ascii c)%nat && (nat_of_ascii c <=? 126)%nat.
Fixpoint visible (s : string) : bool :=
  match s with EmptyString => true | String c s => graphic c && visible s end.

Definition blank_starts (toks : list string) : bool :=
  forallb (fun t => match t with String a _ => negb (graphic a) | EmptyString => false end) toks.

Lemma after_any_graphic toks c s : blank_starts toks = true -> graphic c = true -> after_any toks (String c s) = None.
Proof.
  intros Ht Hc. induction toks as [|[|a t] toks IH]; [done|done|].
  cbn [blank_starts forallb] in Ht. apply andb_true_iff in Ht as [Ha Ht].
  cbn [after_any cut_prefix]. destruct (Ascii.eqb_spec a c) as [->|_]; [by rewrite Hc in Ha|]. by apply IH.
Qed.

Lemma strip_graphic toks fuel c s : blank_starts toks = true -> graphic c = true -> strip toks fuel (String c s) = String c s.
Proof. intros Ht Hc. destruct fuel; [done|]. cbn [strip]. by rewrite after_any_graphic. Qed.

Lemma reverse_app s t acc : reverse (s +:+ t) acc = reverse t (reverse s acc).
Proof. revert acc. induction s as [|a s IH]; intros acc; [done|]. apply IH. Qed.

Lemma reverse_acc s acc : reverse s acc = rev_str s +:+ acc.
Proof.
  revert acc. induction s as [|a s IH]; intros acc; [done|]. cbn [reverse].
  unfold rev_str. cbn [reverse]. rewrite IH, (IH (String a "")). by rewrite string_app_assoc.
Qed.

Lemma rev_str_app s t : rev_str (s +:+ t) = rev_str t +:+ rev_str s.
Proof. unfold rev_str at 1. by rewrite reverse_app, reverse_acc. Qed.

Lemma rev_str_involutive s : rev_str (rev_str s) = s.
Proof.
  induction s as [|a s IH]; [done|]. change (String a s) with (String a "" +:+ s) at 1.
  by rewrite rev_str_app, rev_str_app, IH.
Qed.

Lemma rev_str_length s : String.length (rev_str s) = String.length s.
Proof.
  induction s as [|a s IH]; [done|]. change (String a s) with (String a "" +:+ s).
  rewrite rev_str_app, string_length_app, IH. simpl. lia.
Qed.

Lemma visible_app s t : visible (s +:+ t) = visible s && visible t.
Proof. induction s as [|a s IH]; [done|]. cbn [visible String.append]. by rewrite IH, andb_assoc. Qed.

Lemma visible_rev s : visible (rev_str s) = visible s.
Proof.
  induction s as [|a s IH]; [done|]. change (String a s) with (String a "" +:+ s).
  rewrite rev_str_app, !visible_app, IH. apply andb_comm.
Qed.

Lemma visible_head s : visible s = true -> s <> "" -> match s with String c _ => graphic c = true | EmptyString => False end.
Proof. destruct s as [|c s]; [done|]. by intros [? _]%andb_true_iff. Qed.

(** Blanks: any concatenation of space encodings. *)
Fixpoint concat_str (l : list string) : string :=
  match l with [] => "" | t :: l => t +:+ concat_str l end.

Lemma rev_concat l : rev_str (concat_str l) = concat_str (rev (map rev_str l)).
Proof.
  assert (forall k m, concat_str (k ++ m) = concat_str k +:+ concat_str m) as Happ.
  { induction k as [|t k IHk]; intros m; [done|]. cbn [app concat_str]. by rewrite IHk, string_app_assoc. }
  induction l as [|t l IH]; [done|]. cbn [concat_str map rev]. rewrite rev_str_app, IH, Happ.
  cbn [concat_str]. by rewrite string_app_nil.
Qed.

(** No space encoding is a prefix of another, read forwards or backwards. *)
Lemma after_any_space t r : t ∈ spaces -> after_any spaces (t +:+ r) = Some r.
Proof.
  revert t. apply (Forall_forall (fun t => after_any spaces (t +:+ r) = Some r)).
  repeat (apply Forall_cons; split; [reflexivity|]). apply Forall_nil. done.
Qed.

Lemma after_any_space_rev t r : t ∈ map rev_str spaces -> after_any (map rev_str spaces) (t +:+ r) = Some r.
Proof.
  revert t. apply (Forall_forall (fun t => after_any (map rev_str spaces) (t +:+ r) = Some r)).
  repeat (apply Forall_cons; split; [reflexivity|]). apply Forall_nil. done.
Qed.

Lemma strip_blanks toks l fuel r :
  (forall t r, t ∈ toks -> after_any toks (t +:+ r) = Some r) -> blank_starts toks = true ->
  Forall (fun t => t ∈ toks) l -> (String.length (concat_str l) <= fuel)%nat ->
  match r with String c _ => graphic c = true | EmptyString => False end ->
  strip toks fuel (concat_str l +:+ r) = r.
Proof.
  intros Ht Hb Hl. revert fuel. induction Hl as [|t l Hin Hl IH]; intros fuel Hf Hr.
  - cbn [concat_str String.append]. destruct r as [|c r]; [done|]. by apply strip_graphic.
  - cbn [concat_str] in *. rewrite string_app_assoc. rewrite string_length_app in Hf.
    assert (t <> "") as Hne.
    { intros ->. unfold blank_starts in Hb. rewrite forallb_forall in Hb.
      by specialize (Hb "" ltac:(by apply list_elem_of_In)). }
    destruct t as [|a t]; [done|]. destruct fuel as [|fuel]; [simpl in Hf; lia|].
    cbn [strip]. rewrite Ht by done. apply IH; [simpl in Hf; lia|done].
Qed.

(** [TrimSpace] recovers a visible string from any surrounding blanks. *)
Lemma TrimSpace_blanks l s k :
  Forall (fun t => t ∈ spaces) l -> Forall (fun t => t ∈ spaces) k -> visible s = true -> s <> "" ->
  TrimSpace (concat_str l +:+ s +:+ concat_str k) = s.
Proof.
  intros Hl Hk Hs Hne. unfold TrimSpace, TrimLeft.
  rewrite strip_blanks; [|apply after_any_space|done|done|rewrite string_length_app; lia|].
  2: { pose proof (visible_head s Hs Hne). by destruct s. }
  unfold TrimRight. rewrite rev_str_app, rev_concat.
  rewrite strip_blanks; [apply rev_str_involutive|apply after_any_space_rev|done| | |].
  - apply Forall_rev, Forall_fmap, (Forall_impl _ _ _ Hk). intros t Ht. by apply list_elem_of_fmap_2.
  - rewrite <- rev_concat, rev_str_length, string_length_app. lia.
  - apply visible_head; [by rewrite visible_rev|]. intros E. apply Hne.
    by rewrite <- (rev_str_involutive s), E.
Qed.

(** *** Paths *)

Lemma Split_cons c s t : has c s = false -> Split c (s +:+ String c t) = s :: Split c t.
Proof.
  induction s as [|a s IH]; cbn [has String.append Split]; [by rewrite Ascii.eqb_refl|].
  intros [Ha Hs]%orb_false_iff. by rewrite Ha, IH.
Qed.

Lemma Split_one c s : has c s = false -> Split c s = [s].
Proof.
  induction s as [|a s IH]; cbn [has Split]; [done|]. intros [Ha Hs]%orb_false_iff. by rewrite Ha, IH.
Qed.

Lemma Split_Join c l : l <> [] -> Forall (fun s => has c s = false) l -> Split c (Join c l) = l.
Proof.
  intros Hl HF. induction HF as [|s [|t l] Hs HF IH]; [done|by apply Split_one|].
  change (Join c (s :: t :: l)) with (s +:+ String c (Join c (t :: l))).
  rewrite Split_cons by done. by rewrite IH.
Qed.

Definition plain_elem (e : string) : Prop := e <> "" /\ e <> "." /\ e <> ".." /\ has "/" e = false.

Lemma clean_plain l acc : Forall plain_elem l -> foldl clean_step acc l = acc ++ l.
Proof.
  intros HF. revert acc. induction HF as [|e l (H1 & H2 & H3 & _) HF IH]; intros acc; cbn [foldl]; [by rewrite app_nil_r|].
  unfold clean_step at 2. rewrite decide_False by naive_solver. rewrite decide_False by done.
  by rewrite IH, <- app_assoc.
Qed.

Lemma rev_str_nil s : rev_str s = "" -> s = "".
Proof. intros E. by rewrite <- (rev_str_involutive s), E. Qed.

Lemma has_rev c s : has c (rev_str s) = has c s.
Proof.
  induction s as [|a s IH]; [done|]. change (String a s) with (String a "" +:+ s).
  rewrite rev_str_app, !has_app, IH. apply orb_comm.
Qed.

Lemma ends_plain s t : t <> "" -> has "/" t = false -> ends_in_slash (s +:+ t) = false.
Proof.
  intros Hne Ht. unfold ends_in_slash. fold (rev_str (s +:+ t)). rewrite rev_str_app.
  rewrite <- has_rev in Ht. destruct (rev_str t) as [|c r] eqn:E; [by apply rev_str_nil in E|].
  cbn [has String.append] in *. apply orb_false_iff in Ht as [Hc _].
  destruct (Ascii.eqb_spec c "/") as [|Hc']; [done|]. by destruct c as [[] [] [] [] [] [] [] []].
Qed.

Lemma Join_last c l x : exists p, Join c (l ++ [x]) = p +:+ x.
Proof.
  induction l as [|y [|z l] IH]; [by exists ""|by exists (y +:+ String c ""); simpl; rewrite string_app_assoc|].
  destruct IH as [p E]. exists (y +:+ String c p).
  change (Join c ((y :: z :: l) ++ [x])) with (y +:+ String c (Join c ((z :: l) ++ [x]))).
  by rewrite E, string_app_assoc.
Qed.

(** A path of ordinary elements is clean. *)
Lemma cleanPath_plain l x : Forall plain_elem (l ++ [x]) ->
  cleanPath ("/" +:+ Join "/" (l ++ [x])) = "/" +:+ Join "/" (l ++ [x]) /\
  ends_in_slash ("/" +:+ Join "/" (l ++ [x])) = false.
Proof.
  intros HF. assert (ends_in_slash ("/" +:+ Join "/" (l ++ [x])) = false) as E.
  { destruct (Join_last "/" l x) as [p ->]. rewrite <- string_app_assoc.
    apply Forall_app in HF as [_ [(Hx & _ & _ & Hs) _]%Forall_cons]. by apply ends_plain. }
  split; [|exact E]. cbn [String.append] in *. unfold cleanPath. rewrite bool_decide_eq_false_2 by done.
  rewrite E. cbn [andb]. unfold path_clean. cbn [Split]. rewrite Ascii.eqb_refl.
  rewrite Split_Join; [|by destruct l|eapply Forall_impl; [exact HF|]; by intros e (_ & _ & _ & ?)].
  cbn [foldl]. unfold clean_step at 2. rewrite decide_True by auto. by rewrite clean_plain.
Qed.

(** *** Lines *)

Lemma ReadString_line l r : has newline l = false -> ReadString (l +:+ String newline r) = (l +:+ String newline "", Some r).
Proof.
  induction l as [|c l IH]; cbn [has String.append ReadString]; [done|].
  intros [Hc Hl]%orb_false_iff. by rewrite Hc, IH.
Qed.

(** What was read and what is left make up the input; a line has one newline, at
    its end; without a newline nothing is left. *)
Lemma ReadString_spec s l r : ReadString s = (l, r) ->
  match r with
  | Some r => s = l +:+ r /\ exists t, l = t +:+ String newline "" /\ has newline t = false
  | None => s = l /\ has newline s = false
  end.
Proof.
  revert l r. induction s as [|c s IH]; intros l r; cbn [ReadString]; [by intros [= <- <-]|].
  destruct (Ascii.eqb_spec c newline) as [->|Hc]; [intros [= <- <-]; split; [done|by exists ""]|].
  destruct (ReadString s) as [l' r'] eqn:E. intros [= <- <-]. specialize (IH l' r' eq_refl).
  assert (Ascii.eqb c newline = false) as Hc' by (by apply Ascii.eqb_neq).
  destruct r' as [r'|].
  - destruct IH as (-> & t & -> & Ht). split; [done|]. exists (String c t). cbn [has]. by rewrite Hc', Ht.
  - destruct IH as [-> Ht]. cbn [has]. by rewrite Hc', Ht.
Qed.

(** Decimal numbers have no newline. *)
Lemma digits_no_newline fuel n acc : 0 <= n -> has newline acc = false -> has newline (digits fuel n acc) = false.
Proof.
  revert n acc. assert (forall d, 0 <= d < 10 -> Ascii.eqb (digit d) newline = false) as Hd by (intros d Hd; ten_digits d).
  induction fuel as [|fuel IH]; intros n acc Hn Ha; [done|]. cbn [digits]. destruct (Z.ltb_spec n 10).
  - cbn [has]. by rewrite Hd, Ha by lia.
  - apply IH; [apply Z.div_pos; lia|]. cbn [has]. by rewrite Hd, Ha by (apply Z.mod_pos_bound; lia).
Qed.

Lemma Itoa_no_newline n : has newline (Itoa n) = false.
Proof.
  unfold Itoa. destruct (Z.ltb_spec n 0); [cbn [String.append has]|]; by rewrite ?digits_no_newline by (done || lia).
Qed.
