(* ===== verification/ReplayBuffer.v ===== *)
(** * ReplayBuffer: the offset-addressed retransmission buffer

    Models [internal/tunnel/buffer.go].  The state is the Go struct, the
    operations are its methods, and [TrimTo] keeps the copy-down the source
    does on the backing array.  The abstract specification is a [stream]: all
    bytes ever appended, of which a prefix has been confirmed.  [rb_rep]
    relates a buffer to the stream it stands for and the refinement theorems
    say that every method implements the corresponding stream operation. *)
From S2P Require Import Prelude.

(** ** The Go type and its methods *)

Record ReplayBuffer : Type := MkReplayBuffer {
  rb_base : Z;            (* uint64: stream offset of buf[0] *)
  rb_buf : list byte;
  rb_max : Z;             (* int *)
}.

Definition NewReplayBuffer (max : Z) : ReplayBuffer := MkReplayBuffer 0 [] max.

(** The package-level [ErrFull] and the two errors [From] formats. *)
Inductive rb_error : Type :=
| ErrFull
| ErrAlreadyAcked (offset base : Z)
| ErrBeyondEnd (offset end_ : Z).

Definition Append (b : ReplayBuffer) (p : list byte) : res rb_error ReplayBuffer :=
  if len (rb_buf b) + len p >? rb_max b then Err ErrFull
  else Ok (MkReplayBuffer (rb_base b) (rb_buf b ++ p) (rb_max b)).

Definition Free (b : ReplayBuffer) : Z := rb_max b - len (rb_buf b).

Definition Len (b : ReplayBuffer) : Z := len (rb_buf b).

Definition Base (b : ReplayBuffer) : Z := rb_base b.

Definition End_ (b : ReplayBuffer) : Z := u64 (rb_base b + len (rb_buf b)).

(** Go's [copy(dst, src)] where [src] may overlap [dst]: the new contents of
    [dst] and the number of elements copied. *)
Definition go_copy (dst src : list byte) : list byte * Z :=
  let n := Z.min (len dst) (len src) in
  (ztake n src ++ zdrop n dst, n).

Definition TrimTo (b : ReplayBuffer) (offset : Z) : ReplayBuffer :=
  if offset <=? rb_base b then b
  else if offset >=? End_ b then MkReplayBuffer (End_ b) [] (rb_max b)
  else
    let n := u64 (offset - rb_base b) in
    let '(buf', remaining) := go_copy (rb_buf b) (zdrop n (rb_buf b)) in
    MkReplayBuffer offset (ztake remaining buf') (rb_max b).

Definition From (b : ReplayBuffer) (offset : Z) : res rb_error (list byte) :=
  if offset <? rb_base b then Err (ErrAlreadyAcked offset (rb_base b))
  else if offset >? End_ b then Err (ErrBeyondEnd offset (End_ b))
  else Ok (zdrop (u64 (offset - rb_base b)) (rb_buf b)).

(** ** The abstract stream *)

(** Everything ever appended, and how much of it the peer has confirmed. *)
Record stream : Type := MkStream {
  st_hist : list byte;
  st_acked : Z;
}.

Definition stream_push (s : stream) (p : list byte) : stream :=
  MkStream (st_hist s ++ p) (st_acked s).

Definition stream_ack (s : stream) (offset : Z) : stream :=
  MkStream (st_hist s) (Z.max (st_acked s) (Z.min offset (len (st_hist s)))).

(** [b] holds exactly the unconfirmed suffix of [s], within its cap, and the
    stream is short enough for 64-bit offsets. *)
Record rb_rep (b : ReplayBuffer) (s : stream) : Prop := {
  rep_base : rb_base b = st_acked s;
  rep_range : 0 <= st_acked s <= len (st_hist s);
  rep_buf : rb_buf b = zdrop (st_acked s) (st_hist s);
  rep_u64 : len (st_hist s) < 2 ^ 64;
  rep_cap : len (rb_buf b) <= rb_max b;
}.

(** The methods as commands, so that a run of the buffer is a list of them. *)
Inductive rb_cmd : Type :=
| CAppend (p : list byte)
| CTrimTo (offset : Z).

Definition rb_exec (b : ReplayBuffer) (c : rb_cmd) : ReplayBuffer :=
  match c with
  | CAppend p => match Append b p with Ok b' => b' | Err _ => b end
  | CTrimTo o => TrimTo b o
  end.

(** What the same command does to the stream; a refused append changes nothing. *)
Definition stream_exec (max : Z) (s : stream) (c : rb_cmd) : stream :=
  match c with
  | CAppend p =>
      if len (st_hist s) - st_acked s + len p >? max then s else stream_push s p
  | CTrimTo o => stream_ack s o
  end.

Definition appended (cs : list rb_cmd) : Z :=
  foldr (fun c n => n + match c with CAppend p => len p | CTrimTo _ => 0 end) 0 cs.

(** ** Lemmas *)

Section rep.
Context {b : ReplayBuffer} {s : stream}.
Context (R : rb_rep b s).

Lemma rep_len : len (rb_buf b) = len (st_hist s) - st_acked s.
Proof using R. destruct R. rewrite rep_buf0. by apply len_zdrop. Qed.

Lemma rep_End : End_ b = len (st_hist s).
Proof using R.
  pose proof rep_len. destruct R. unfold End_. rewrite u64_small; lia.
Qed.

Lemma rep_Free : Free b = rb_max b - (len (st_hist s) - st_acked s).
Proof using R. unfold Free. by rewrite rep_len. Qed.

Lemma rep_append p :
  len p <= Free b -> len (st_hist s) + len p < 2 ^ 64 ->
  exists b', Append b p = Ok b' /\ rb_rep b' (stream_push s p) /\ rb_max b' = rb_max b.
Proof using R.
  intros Hp Hlen. pose proof rep_len as HL. destruct R. unfold Append, Free in *.
  pose proof (len_nonneg p).
  zcases; [lia|]. eexists; split_and!; [done| |done].
  constructor; simpl; rewrite ?len_app; try lia.
  rewrite rep_buf0, zdrop_app_le by lia. done.
Qed.

Lemma rep_append_full p : Free b < len p -> Append b p = Err ErrFull.
Proof using R. intros. unfold Append, Free in *. zcases; [done|lia]. Qed.

Lemma rep_from o :
  From b o =
    if o <? st_acked s then Err (ErrAlreadyAcked o (st_acked s))
    else if o >? len (st_hist s) then Err (ErrBeyondEnd o (len (st_hist s)))
    else Ok (zdrop o (st_hist s)).
Proof using R.
  unfold From. rewrite rep_End. destruct R. rewrite rep_base0.
  zcases; [done|done|].
  rewrite rep_buf0, u64_small by lia.
  rewrite zdrop_zdrop by lia. do 2 f_equal. lia.
Qed.

Lemma rep_trim o : rb_rep (TrimTo b o) (stream_ack s o) /\ rb_max (TrimTo b o) = rb_max b.
Proof using R.
  pose proof rep_len as HL. pose proof rep_End as HE. destruct R.
  unfold TrimTo, stream_ack. rewrite HE, rep_base0. split.
  - zcases.
    + replace (Z.max _ _) with (st_acked s) by lia.
      by constructor.
    + replace (Z.max _ _) with (len (st_hist s)) by lia.
      constructor; simpl; rewrite ?len_nil; try lia; by rewrite zdrop_len.
    + replace (Z.max _ _) with o by lia.
      rewrite u64_small by lia. unfold go_copy.
      set (k := zdrop (o - st_acked s) (rb_buf b)).
      assert (k = zdrop o (st_hist s)) as Hk.
      { unfold k. rewrite rep_buf0, zdrop_zdrop by lia. f_equal. lia. }
      assert (len k = len (st_hist s) - o) as Hlk by (rewrite Hk; apply len_zdrop; lia).
      rewrite Z.min_r by lia. rewrite ztake_len, ztake_app_len.
      constructor; simpl; try lia. done.
  - zcases; [done|done|]. by destruct (go_copy _ _).
Qed.
End rep.

Lemma rep_new max : 0 <= max -> rb_rep (NewReplayBuffer max) (MkStream [] 0).
Proof. intros. constructor; simpl; rewrite ?len_nil; lia || done. Qed.

Lemma appended_nonneg cs : 0 <= appended cs.
Proof. induction cs as [|[p|o] cs IH]; simpl; [lia|pose proof (len_nonneg p)|]; lia. Qed.

Lemma rep_exec b s c :
  rb_rep b s -> len (st_hist s) + appended [c] < 2 ^ 64 ->
  rb_rep (rb_exec b c) (stream_exec (rb_max b) s c) /\
  rb_max (rb_exec b c) = rb_max b /\
  len (st_hist (stream_exec (rb_max b) s c)) <= len (st_hist s) + appended [c].
Proof.
  intros R Hlen. destruct c as [p|o]; simpl in *.
  - pose proof (len_nonneg p). pose proof (rep_Free R) as HF.
    destruct (Z.gtb_spec (len (st_hist s) - st_acked s + len p) (rb_max b)).
    + rewrite (rep_append_full R p) by lia. split_and!; try done. lia.
    + destruct (rep_append R p) as (b' & -> & R' & Hm); [lia..|].
      split_and!; try done. simpl. rewrite len_app. lia.
  - destruct (rep_trim R o). split_and!; try done. simpl. lia.
Qed.

Section runs.
Context (max : Z).

Lemma rb_run_rep (cs : list rb_cmd) b s :
  rb_rep b s -> rb_max b = max -> len (st_hist s) + appended cs < 2 ^ 64 ->
  rb_rep (foldl rb_exec b cs) (foldl (stream_exec max) s cs).
Proof using.
  revert b s. induction cs as [|c cs IH]; intros b s R Hb Hl; [done|].
  assert (appended (c :: cs) = appended cs + appended [c]) as E by (simpl; lia).
  pose proof (appended_nonneg cs).
  destruct (rep_exec b s c R) as (R' & Hm & Hle); [lia|].
  simpl. rewrite Hb in *. apply IH; [done|lia|lia].
Qed.

Lemma replay_buffer_run_rep (cs : list rb_cmd) :
  0 <= max -> appended cs < 2 ^ 64 ->
  rb_rep (foldl rb_exec (NewReplayBuffer max) cs)
         (foldl (stream_exec max) (MkStream [] 0) cs).
Proof using. intros. apply rb_run_rep; [by apply rep_new|done|done]. Qed.

Lemma rb_exec_max b c : rb_max (rb_exec b c) = rb_max b.
Proof using.
  destruct c as [p|o]; simpl.
  - unfold Append. by destruct (_ >? _).
  - unfold TrimTo. destruct (_ <=? _); [done|]. destruct (_ >=? _); [done|].
    by destruct (go_copy _ _).
Qed.

Lemma rb_run_max (cs : list rb_cmd) :
  rb_max (foldl rb_exec (NewReplayBuffer max) cs) = max.
Proof using.
  change max with (rb_max (NewReplayBuffer max)) at 2.
  generalize (NewReplayBuffer max). induction cs as [|c cs IH]; intros b; [done|].
  simpl. by rewrite IH, rb_exec_max.
Qed.

Lemma rb_run_hist_le (cs : list rb_cmd) :
  len (st_hist (foldl (stream_exec max) (MkStream [] 0) cs)) <= appended cs.
Proof using.
  change (appended cs) with (len (st_hist (MkStream [] 0)) + appended cs).
  generalize (MkStream [] 0). induction cs as [|c cs IH]; intros s; simpl; [lia|].
  etransitivity; [apply IH|]. destruct c as [p|o]; simpl; [|lia].
  pose proof (len_nonneg p). destruct (_ >? _); simpl; rewrite ?len_app; lia.
Qed.
End runs.

Lemma TrimTo_shrinks b o : Len (TrimTo b o) <= Len b.
Proof.
  unfold TrimTo, Len. destruct (_ <=? _); [lia|]. destruct (_ >=? _); simpl; [len_solve|].
  unfold go_copy. simpl. len_solve.
Qed.

Lemma trims_rep (offs : list Z) {b s} :
  rb_rep b s ->
  exists s', rb_rep (foldl TrimTo b offs) s' /\ st_hist s' = st_hist s /\
    st_acked s' = foldl (fun a o => Z.max a (Z.min o (len (st_hist s)))) (st_acked s) offs.
Proof.
  revert b s. induction offs as [|o offs IH]; intros b s R; [by exists s|].
  destruct (rep_trim R o) as [R' _]. destruct (IH _ _ R') as (s' & H1 & H2 & H3).
  by exists s'.
Qed.

(** ** Properties *)

(** C15. Refinement: running any sequence of [Append] and [TrimTo] calls on a
    fresh buffer leaves it holding exactly what the abstract stream says, for
    every cap that is not negative and every offset argument, as long as fewer than 2^64 bytes
    are appended. *)
Theorem replay_buffer_refines_stream (max : Z) (cs : list rb_cmd)
    (Hmax : 0 <= max) (Hu64 : appended cs < 2 ^ 64) :
  rb_rep (foldl rb_exec (NewReplayBuffer max) cs)
         (foldl (stream_exec max) (MkStream [] 0) cs).
Proof. by apply replay_buffer_run_rep. Qed.

(** [From] after any run returns precisely the bytes appended from the
    requested offset on, and fails precisely when the offset lies below the
    confirmed prefix or beyond the end, naming the bound it violates. *)
Theorem replay_from_exact (max : Z) (cs : list rb_cmd) (o : Z)
    (Hmax : 0 <= max) (Hu64 : appended cs < 2 ^ 64) :
  let b := foldl rb_exec (NewReplayBuffer max) cs in
  let s := foldl (stream_exec max) (MkStream [] 0) cs in
  match From b o with
  | Ok p => st_acked s <= o <= len (st_hist s) /\ ztake o (st_hist s) ++ p = st_hist s
  | Err (ErrAlreadyAcked o' base) => o' = o /\ base = st_acked s /\ o < base
  | Err (ErrBeyondEnd o' e) => o' = o /\ e = len (st_hist s) /\ e < o
  | Err ErrFull => False
  end.
Proof.
  intros b s. pose proof (replay_buffer_run_rep max cs Hmax Hu64) as R.
  fold b s in R. rewrite (rep_from R). zcases; [lia..|].
  split; [lia|apply ztake_zdrop].
Qed.

(** Backpressure accounting: an append is accepted exactly when it fits in
    [Free], it then moves [End_] by its length and leaves [Base] alone; a
    refused append is [ErrFull]; and the retained bytes never exceed the cap. *)
Theorem append_accepts_iff_free (max : Z) (cs : list rb_cmd) (p : list byte)
    (Hmax : 0 <= max) (Hu64 : appended cs + len p < 2 ^ 64) :
  let b := foldl rb_exec (NewReplayBuffer max) cs in
  0 <= Free b <= max /\ Len b = max - Free b /\
  (Free b < len p -> Append b p = Err ErrFull) /\
  (len p <= Free b -> exists b', Append b p = Ok b' /\
     End_ b' = End_ b + len p /\ Base b' = Base b /\ Free b' = Free b - len p).
Proof.
  intros b. pose proof (len_nonneg p).
  pose proof (replay_buffer_run_rep max cs Hmax ltac:(lia)) as R. fold b in R.
  pose proof (rb_run_max max cs) as Hm. fold b in Hm.
  pose proof (rb_run_hist_le max cs) as Hh.
  pose proof (rep_len R). pose proof (rep_Free R). pose proof (len_nonneg (rb_buf b)).
  pose proof (rep_cap _ _ R).
  unfold Len. split_and!; [lia..| |].
  - intros. by apply (rep_append_full R).
  - intros Hfit. destruct (rep_append R p) as (b' & Hb' & R' & Hm'); [lia..|].
    exists b'. rewrite (rep_End R'), (rep_End R), (rep_Free R'), (rep_Free R).
    unfold Base. rewrite (rep_base _ _ R), (rep_base _ _ R'), Hm'. simpl.
    rewrite len_app. split_and!; [done|lia..].
Qed.

(** The bytes a reconnecting peer needs are never lost: whatever was appended
    and not yet confirmed when an arbitrary further run of trims starts is
    still replayable from any offset the peer has not confirmed. *)
Theorem unacked_bytes_survive (max : Z) (cs : list rb_cmd) (offs : list Z) (o : Z)
    (Hmax : 0 <= max) (Hu64 : appended cs < 2 ^ 64) :
  let b := foldl rb_exec (NewReplayBuffer max) cs in
  let b' := foldl TrimTo b offs in
  Base b <= o <= End_ b -> Forall (fun t => t <= o) offs ->
  From b' o = From b o.
Proof.
  intros b b' Ho Hoffs. pose proof (replay_buffer_run_rep max cs Hmax Hu64) as R.
  fold b in R. set (s := foldl (stream_exec max) _ _) in R.
  rewrite (rep_End R) in Ho. unfold Base in Ho. rewrite (rep_base _ _ R) in Ho.
  destruct (trims_rep offs R) as (s' & R' & Hh & Ha). fold b' in R'.
  rewrite (rep_from R), (rep_from R'), Hh.
  assert (st_acked s' <= o).
  { rewrite Ha. assert (st_acked s <= o) as Hs by lia. revert Hs. generalize (st_acked s).
    clear -Hoffs. induction Hoffs as [|t ts Ht _ IH]; intros a Hs; simpl; [lia|].
    apply IH. lia. }
  zcases; (lia || done).
Qed.

(** The run used by the buffer tests: append, trim, append to the cap. *)
Definition demo_run : list rb_cmd :=
  [CAppend (repeat x41 5); CTrimTo 3; CAppend (repeat x42 8); CAppend [x43]; CTrimTo 9].

Lemma replay_buffer_refines_stream_witness :
  let b := foldl rb_exec (NewReplayBuffer 10) demo_run in
  rb_rep b (foldl (stream_exec 10) (MkStream [] 0) demo_run) /\
  rb_base b = 9 /\ len (rb_buf b) = 4.
Proof.
  split; [apply (replay_buffer_refines_stream 10 demo_run); vm_compute; congruence|].
  split; vm_compute; reflexivity.
Defined.

Lemma replay_from_exact_witness :
  From (foldl rb_exec (NewReplayBuffer 10) demo_run) 10 = Ok (repeat x42 3) /\
  st_hist (foldl (stream_exec 10) (MkStream [] 0) demo_run) =
    ztake 10 (st_hist (foldl (stream_exec 10) (MkStream [] 0) demo_run)) ++ repeat x42 3.
Proof.
  split; [reflexivity|].
  pose proof (replay_from_exact 10 demo_run 10 ltac:(lia) ltac:(vm_compute; reflexivity)) as H.
  symmetry. exact (proj2 H).
Defined.

Lemma append_accepts_iff_free_witness :
  Append (foldl rb_exec (NewReplayBuffer 10) demo_run) (repeat x44 7) = Err ErrFull.
Proof.
  apply (append_accepts_iff_free 10 demo_run (repeat x44 7)); vm_compute; congruence.
Defined.

Lemma unacked_bytes_survive_witness :
  From (foldl TrimTo (foldl rb_exec (NewReplayBuffer 10) demo_run) [10; 4; 11]) 11
  = Ok (repeat x42 2).
Proof.
  etransitivity.
  - apply (unacked_bytes_survive 10 demo_run [10; 4; 11] 11); [lia|vm_compute; reflexivity| |].
    + vm_compute. split; congruence.
    + repeat constructor; lia.
  - reflexivity.
Defined.
