(* ===== verification/Socket.v ===== *)
(** * Socket: the parts of Go's [net.Conn] and [bufio.Writer] the tunnel uses

    A [sock] is the sending side of a TCP connection: the bytes the kernel has
    accepted so far, how many more it will accept before it starts failing
    ([None]: no failure in sight), and which halves were closed locally.  A
    [bwriter] is a [bufio.Writer] of 64 KiB on top of one; its error is sticky,
    as in Go.  [wr_step] is the contract of the writer's operations that the
    frame encoder is proved against. *)
From S2P Require Import Prelude.

(** ** Connections *)

Record sock : Type := MkSock {
  sk_out : list byte;
  sk_cap : option nat;
  sk_wclosed : bool;      (* CloseWrite was called *)
  sk_closed : bool;       (* Close was called *)
}.

Definition new_sock : sock := MkSock [] None false false.

(** [Write]: all of [p], or a prefix and an error. *)
Definition sock_write (p : list byte) (s : sock) : sock * bool :=
  if sk_closed s || sk_wclosed s then (s, false)
  else match sk_cap s with
  | None => (MkSock (sk_out s ++ p) None false false, true)
  | Some c =>
      if (length p <=? c)%nat
      then (MkSock (sk_out s ++ p) (Some (c - length p)%nat) false false, true)
      else (MkSock (sk_out s ++ take c p) (Some 0%nat) false false, false)
  end.

Definition sock_close (s : sock) : sock :=
  MkSock (sk_out s) (sk_cap s) (sk_wclosed s) true.

Definition sock_close_write (s : sock) : sock :=
  MkSock (sk_out s) (sk_cap s) true (sk_closed s).

(** Open in both directions and not going to fail. *)
Definition sock_healthy (s : sock) : Prop :=
  sk_cap s = None /\ sk_wclosed s = false /\ sk_closed s = false.

(** ** Buffered writers *)

Definition bufio_size : Z := 64 * 1024.

Record bwriter : Type := MkBw {
  bw_sock : sock;
  bw_buf : list byte;
  bw_err : bool;
}.

Definition NewWriterSize (s : sock) : bwriter := MkBw s [] false.

Definition bw_available (w : bwriter) : Z := bufio_size - len (bw_buf w).

(** [Flush]: hand the buffered bytes to the connection; on a short write the
    rest stays buffered and the error sticks. *)
Definition bw_Flush (w : bwriter) : bwriter * bool :=
  if bw_err w then (w, false)
  else match bw_buf w with
  | [] => (w, true)
  | b =>
      let '(s', ok) := sock_write b (bw_sock w) in
      if ok then (MkBw s' [] false, true)
      else (MkBw s' (drop (length (sk_out s') - length (sk_out (bw_sock w))) b) true, false)
  end.

(** The direct write [bufio.Writer.Write] does for data larger than an empty
    buffer. *)
Definition bw_direct (p : list byte) (w : bwriter) : bwriter * bool :=
  let '(s', ok) := sock_write p (bw_sock w) in
  (MkBw s' (bw_buf w) (negb ok), ok).

Definition bw_copy (p : list byte) (w : bwriter) : bwriter :=
  MkBw (bw_sock w) (bw_buf w ++ p) (bw_err w).

(** [Write] (and [WriteString]): fill the buffer and flush while the data does
    not fit, then keep the rest buffered. *)
Definition bw_Write (p : list byte) (w : bwriter) : bwriter * bool :=
  if bw_err w then (w, false)
  else if len p <=? bw_available w then (bw_copy p w, true)
  else match bw_buf w with
  | [] => bw_direct p w
  | _ =>
      let n := bw_available w in
      let '(w1, ok) := bw_Flush (bw_copy (ztake n p) w) in
      if ok then
        let rest := zdrop n p in
        if len rest <=? bw_available w1 then (bw_copy rest w1, true)
        else bw_direct rest w1
      else (w1, false)
  end.

Definition bw_WriteByte (b : byte) (w : bwriter) : bwriter * bool :=
  if bw_err w then (w, false)
  else if bw_available w <=? 0 then
    let '(w1, ok) := bw_Flush w in
    if ok then (bw_copy [b] w1, true) else (w1, false)
  else (bw_copy [b] w, true).

(** ** The contract of a buffered write *)

(** [wr_step p w w']: going from [w] to [w'] put [p] behind what was buffered.
    Either all of it is on the wire or buffered, in order; or the writer
    failed and only a strict prefix of the pending bytes reached the wire; and
    a failed writer does nothing. *)
Definition wr_step (p : list byte) (w w' : bwriter) : Prop :=
  let out := sk_out (bw_sock w) in
  let out' := sk_out (bw_sock w') in
  if bw_err w then w' = w
  else if bw_err w' then
    exists q r, r <> [] /\ bw_buf w ++ p = q ++ r /\ out' = out ++ q
  else exists q, out' = out ++ q /\ q ++ bw_buf w' = bw_buf w ++ p.

Lemma wr_step_trans p1 p2 w w1 w2 :
  wr_step p1 w w1 -> wr_step p2 w1 w2 -> wr_step (p1 ++ p2) w w2.
Proof.
  unfold wr_step. destruct (bw_err w) eqn:E0.
  - intros ->. by rewrite E0.
  - destruct (bw_err w1) eqn:E1.
    + intros (q & r & Hr & Hq & Ho) ->. rewrite E1. exists q, (r ++ p2).
      split_and!; [by destruct r| |done]. rewrite !app_assoc, Hq. by rewrite <- app_assoc.
    + intros (q1 & Ho1 & Hb1). destruct (bw_err w2) eqn:E2.
      * intros (q & r & Hr & Hq & Ho). exists (q1 ++ q), r. split_and!; [done| |].
        { by rewrite app_assoc, <- Hb1, <- !app_assoc, Hq. }
        { by rewrite Ho, Ho1, app_assoc. }
      * intros (q & Ho & Hb). exists (q1 ++ q). split.
        { by rewrite Ho, Ho1, app_assoc. }
        { by rewrite <- app_assoc, Hb, app_assoc, Hb1, <- app_assoc. }
Qed.

Lemma wr_step_split n p w w1 w2 :
  wr_step (ztake n p) w w1 -> wr_step (zdrop n p) w1 w2 -> wr_step p w w2.
Proof.
  intros S1 S2. pose proof (wr_step_trans _ _ _ _ _ S1 S2) as S.
  by rewrite ztake_zdrop in S.
Qed.

Lemma wr_step_refl w : wr_step [] w w.
Proof.
  unfold wr_step. destruct (bw_err w); [done|].
  exists []. by rewrite !app_nil_r.
Qed.

(** What one [Write] on the connection delivers. *)
Lemma sock_write_spec p s s' ok :
  sock_write p s = (s', ok) ->
  if ok then sk_out s' = sk_out s ++ p
  else exists q r, p = q ++ r /\ sk_out s' = sk_out s ++ q /\ (p <> [] -> r <> []).
Proof.
  unfold sock_write. destruct (_ || _).
  { intros [= <- <-]. exists [], p. by rewrite app_nil_r. }
  destruct (sk_cap s) as [c|]; [|by intros [= <- <-]].
  destruct (Nat.leb_spec (length p) c); intros [= <- <-]; [done|].
  exists (take c p), (drop c p). split_and!; [by rewrite take_drop|done|].
  intros _ E. apply (f_equal length) in E. rewrite length_drop in E. simpl in E. lia.
Qed.

Lemma wr_step_copy p w : bw_err w = false -> wr_step p w (bw_copy p w).
Proof. intros E. unfold wr_step, bw_copy. simpl. rewrite E. exists []. by rewrite app_nil_r. Qed.

Lemma wr_step_Flush w w' ok :
  bw_Flush w = (w', ok) -> bw_err w = false ->
  wr_step [] w w' /\ ok = negb (bw_err w') /\ (ok = true -> bw_buf w' = []).
Proof.
  unfold bw_Flush. intros H E. rewrite E in H.
  destruct (bw_buf w) as [|b0 b] eqn:B.
  { injection H as <- <-. rewrite E. split_and!; [apply wr_step_refl|done|done]. }
  destruct (sock_write _ _) as [s' ok'] eqn:W. apply sock_write_spec in W.
  unfold wr_step. rewrite E, B, app_nil_r.
  destruct ok'; injection H as <- <-; simpl.
  - split_and!; [|done|done]. exists (b0 :: b). by rewrite app_nil_r.
  - split_and!; [|done|done]. destruct W as (q & r & Hq & Ho & Hr).
    exists q, r. split_and!; [by apply Hr|done|done].
Qed.

Lemma wr_step_direct p w w' ok :
  bw_direct p w = (w', ok) -> bw_err w = false -> bw_buf w = [] -> p <> [] ->
  wr_step p w w' /\ ok = negb (bw_err w').
Proof.
  unfold bw_direct. destruct (sock_write _ _) as [s' ok'] eqn:W. intros [= <- <-] E B Hp.
  apply sock_write_spec in W. unfold wr_step. rewrite E, B. simpl.
  destruct ok'; simpl.
  - split; [|done]. exists p. by rewrite app_nil_r.
  - split; [|done]. destruct W as (q & r & Hq & Ho & Hr). exists q, r. naive_solver.
Qed.

Lemma wr_step_Write p w w' ok :
  bw_Write p w = (w', ok) -> wr_step p w w' /\ ok = negb (bw_err w').
Proof.
  unfold bw_Write. destruct (bw_err w) eqn:E.
  { intros [= <- <-]. unfold wr_step. by rewrite E. }
  destruct (Z.leb_spec (len p) (bw_available w)) as [Hfit|Hbig].
  { intros [= <- <-]. split; [by apply wr_step_copy|]. unfold bw_copy. simpl. by rewrite E. }
  destruct (bw_buf w) as [|b0 b] eqn:B.
  { intros H. apply wr_step_direct; try done. intros ->.
    unfold bw_available, bufio_size in Hbig. rewrite B, !len_nil in Hbig. lia. }
  destruct (bw_Flush _) as [w1 ok1] eqn:F.
  apply wr_step_Flush in F as (S1 & -> & Hb1); [|done].
  set (n := bw_available w) in *.
  assert (wr_step (ztake n p) w w1) as S01.
  { rewrite <- (app_nil_r (ztake n p)). eapply wr_step_trans; [by apply wr_step_copy|done]. }
  destruct (bw_err w1) eqn:E1; simpl.
  - intros [= <- <-]. rewrite E1. split; [|done].
    eapply wr_step_split; [done|]. unfold wr_step. by rewrite E1.
  - specialize (Hb1 eq_refl).
    destruct (Z.leb_spec (len (zdrop n p)) (bw_available w1)) as [Hfit|Hbig2].
    + intros [= <- <-]. split; [|unfold bw_copy; simpl; by rewrite E1].
      eapply wr_step_split; [done|by apply wr_step_copy].
    + intros H. apply wr_step_direct in H as [S2 Hok]; try done.
      * split; [|done]. by eapply wr_step_split.
      * intros E2. unfold bw_available, bufio_size in Hbig2.
        rewrite E2, Hb1, !len_nil in Hbig2. lia.
Qed.

Lemma wr_step_WriteByte b w w' ok :
  bw_WriteByte b w = (w', ok) -> wr_step [b] w w' /\ ok = negb (bw_err w').
Proof.
  unfold bw_WriteByte. destruct (bw_err w) eqn:E.
  { intros [= <- <-]. unfold wr_step. by rewrite E. }
  destruct (Z.leb_spec (bw_available w) 0).
  - destruct (bw_Flush w) as [w1 ok1] eqn:F.
    apply wr_step_Flush in F as (S1 & -> & _); [|done].
    destruct (bw_err w1) eqn:E1; simpl; intros [= <- <-].
    + rewrite E1. split; [|done]. change [b] with ([] ++ [b]).
      eapply wr_step_trans; [done|]. unfold wr_step. by rewrite E1.
    + simpl. rewrite E1. split; [|done]. change [b] with ([] ++ [b]).
      eapply wr_step_trans; [done|by apply wr_step_copy].
  - intros [= <- <-]. split; [by apply wr_step_copy|]. unfold bw_copy. simpl. by rewrite E.
Qed.

(** A healthy connection never fails a writer. *)
Definition bw_healthy (w : bwriter) : Prop := sock_healthy (bw_sock w) /\ bw_err w = false.

Lemma sock_write_healthy p s :
  sock_healthy s ->
  sock_write p s = (MkSock (sk_out s ++ p) None false false, true).
Proof. intros (Hc & Hw & Hcl). unfold sock_write. by rewrite Hc, Hw, Hcl. Qed.
