(* ===== verification/Wire.v ===== *)
(** * Wire: the frame codec of the resumable tunnel

    Models [internal/tunnel/wire.go]: the [Frame] union, [encodeFrame] on a
    [bufio.Writer] (with the primitive [put*] writers it is made of),
    [decodeFrame] on the byte stream of a [bufio.Reader] (with the [get*]
    readers), and [Conn.WriteFrame]/[Conn.ReadFrame].  The theorems are the
    round trip, self-delimitation of the frame stream, exact error behaviour,
    and the [FrameWriter] interface that the sessions are proved against. *)
From S2P Require Import Prelude Socket.

(** ** Frames *)

Definition TypeHello : Z := 1.
Definition TypeOpen : Z := 2.
Definition TypeAttach : Z := 3.
Definition TypeAttachOK : Z := 4.
Definition TypeData : Z := 5.
Definition TypeAck : Z := 6.
Definition TypeClose : Z := 7.
Definition TypePing : Z := 8.
Definition TypePong : Z := 9.

Definition DirUp : Z := 1.
Definition DirDown : Z := 2.

Definition MaxPayload : Z := 256 * 1024.
Definition maxString : Z := 4096.

Record Frame : Type := MkFrame {
  fType : Z;              (* uint8 *)
  fActorID : string;
  fSessionID : Z;         (* uint64 *)
  fTarget : string;
  fOffset : Z;            (* uint64 *)
  fPayload : list byte;
  fDir : Z;               (* uint8 *)
  fReason : string;
  fNonce : Z;             (* uint64 *)
}.

(** The composite literals the code builds, one per frame type; fields that
    are not mentioned are Go's zero values. *)
Definition HelloF (actor : string) : Frame := MkFrame TypeHello actor 0 "" 0 [] 0 "" 0.
Definition OpenF (sid : Z) (target : string) : Frame := MkFrame TypeOpen "" sid target 0 [] 0 "" 0.
Definition AttachF (sid off : Z) (target : string) : Frame :=
  MkFrame TypeAttach "" sid target off [] 0 "" 0.
Definition AttachOKF (sid off : Z) : Frame := MkFrame TypeAttachOK "" sid "" off [] 0 "" 0.
Definition DataF (sid off : Z) (p : list byte) : Frame := MkFrame TypeData "" sid "" off p 0 "" 0.
Definition AckF (sid off : Z) : Frame := MkFrame TypeAck "" sid "" off [] 0 "" 0.
Definition CloseF (sid dir : Z) (reason : string) : Frame :=
  MkFrame TypeClose "" sid "" 0 [] dir reason 0.
Definition PingF (n : Z) : Frame := MkFrame TypePing "" 0 "" 0 [] 0 "" n.
Definition PongF (n : Z) : Frame := MkFrame TypePong "" 0 "" 0 [] 0 "" n.

Inductive wire_error : Type :=
| EOF
| UnexpectedEOF
| PayloadExceedsMax (n : Z)
| StringExceedsMax (n : Z)
| CannotEncode (t : Z)
| UnknownType (t : Z)
| WriteError.

(** ** Big-endian integers ([encoding/binary]) *)

Fixpoint be_split (n : nat) (z : Z) : list byte :=
  match n with
  | O => []
  | S n => be_split n (z / 256) ++ [byte_of_Z z]
  end.

Definition be_combine (l : list byte) : Z :=
  foldl (fun acc b => acc * 256 + Z_of_byte b) 0 l.

(** A Go string is a sequence of bytes. *)
Definition str_bytes (s : string) : list byte := String.list_byte_of_string s.
Definition str_len (s : string) : Z := len (str_bytes s).

(** ** Encoding *)

(** [_, _ = w.Write(b[:])]: the error is dropped here and resurfaces at the
    next checked write, because it sticks to the writer. *)
Definition putU32 (v : Z) (w : bwriter) : bwriter := fst (bw_Write (be_split 4 v) w).
Definition putU64 (v : Z) (w : bwriter) : bwriter := fst (bw_Write (be_split 8 v) w).

Definition io_result (r : bwriter * bool) : bwriter * option wire_error :=
  (fst r, if snd r then None else Some WriteError).

Definition putString (s : string) (w : bwriter) : bwriter * option wire_error :=
  if str_len s >? maxString then (w, Some (StringExceedsMax (str_len s)))
  else
    let '(w, ok) := bw_Write (be_split 2 (u16 (str_len s))) w in
    if ok then io_result (bw_Write (str_bytes s) w) else (w, Some WriteError).

Definition encodeFrame (f : Frame) (w : bwriter) : bwriter * option wire_error :=
  let '(w, ok) := bw_WriteByte (byte_of_Z (fType f)) w in
  if negb ok then (w, Some WriteError)
  else if fType f =? TypeHello then putString (fActorID f) w
  else if fType f =? TypeOpen then
    let w := putU64 (fSessionID f) w in
    putString (fTarget f) w
  else if fType f =? TypeAttach then
    let w := putU64 (fSessionID f) w in
    let w := putU64 (fOffset f) w in
    putString (fTarget f) w
  else if (fType f =? TypeAttachOK) || (fType f =? TypeData) || (fType f =? TypeAck) then
    let w := putU64 (fSessionID f) w in
    let w := putU64 (fOffset f) w in
    if fType f =? TypeData then
      if len (fPayload f) >? MaxPayload then (w, Some (PayloadExceedsMax (len (fPayload f))))
      else
        let w := putU32 (u32 (len (fPayload f))) w in
        io_result (bw_Write (fPayload f) w)
    else (w, None)
  else if fType f =? TypeClose then
    let w := putU64 (fSessionID f) w in
    let '(w, ok) := bw_WriteByte (byte_of_Z (fDir f)) w in
    if negb ok then (w, Some WriteError) else putString (fReason f) w
  else if (fType f =? TypePing) || (fType f =? TypePong) then
    (putU64 (fNonce f) w, None)
  else (w, Some (CannotEncode (fType f))).

(** ** Decoding *)

Definition decoder (A : Type) : Type := list byte -> res wire_error (A * list byte).

Definition ReadByte : decoder byte := fun bs =>
  match bs with [] => Err EOF | b :: bs => Ok (b, bs) end.

(** [io.ReadFull] of [n] bytes. *)
Definition ReadFull (n : Z) : decoder (list byte) := fun bs =>
  if n <=? len bs then Ok (ztake n bs, zdrop n bs)
  else match bs with [] => Err EOF | _ => Err UnexpectedEOF end.

Definition getU32 : decoder Z := fun bs =>
  let? (b, bs) := ReadFull 4 bs in Ok (be_combine b, bs).

Definition getU64 : decoder Z := fun bs =>
  let? (b, bs) := ReadFull 8 bs in Ok (be_combine b, bs).

Definition getString : decoder string := fun bs =>
  let? (b, bs) := ReadFull 2 bs in
  let n := be_combine b in
  let? (buf, bs) := ReadFull n bs in
  Ok (String.string_of_list_byte buf, bs).

Definition decodeFrame : decoder Frame := fun bs =>
  let? (tb, bs) := ReadByte bs in
  let t := Z_of_byte tb in
  if t =? TypeHello then
    let? (a, bs) := getString bs in Ok (HelloF a, bs)
  else if t =? TypeOpen then
    let? (sid, bs) := getU64 bs in
    let? (target, bs) := getString bs in Ok (OpenF sid target, bs)
  else if t =? TypeAttach then
    let? (sid, bs) := getU64 bs in
    let? (off, bs) := getU64 bs in
    let? (target, bs) := getString bs in Ok (AttachF sid off target, bs)
  else if (t =? TypeAttachOK) || (t =? TypeAck) then
    let? (sid, bs) := getU64 bs in
    let? (off, bs) := getU64 bs in Ok (MkFrame t "" sid "" off [] 0 "" 0, bs)
  else if t =? TypeData then
    let? (sid, bs) := getU64 bs in
    let? (off, bs) := getU64 bs in
    let? (n, bs) := getU32 bs in
    if n >? MaxPayload then Err (PayloadExceedsMax n)
    else let? (p, bs) := ReadFull n bs in Ok (DataF sid off p, bs)
  else if t =? TypeClose then
    let? (sid, bs) := getU64 bs in
    let? (d, bs) := ReadByte bs in
    let? (r, bs) := getString bs in Ok (CloseF sid (Z_of_byte d) r, bs)
  else if (t =? TypePing) || (t =? TypePong) then
    let? (n, bs) := getU64 bs in Ok (MkFrame t "" 0 "" 0 [] 0 "" n, bs)
  else Err (UnknownType t).

(** ** Connections *)

(** [Conn]: the writer half; the mutex serialises whole calls of [WriteFrame]
    and the write deadline is one of the ways the socket starts failing. *)
Record Conn : Type := MkConn { c_bw : bwriter }.

Definition NewConn (s : sock) : Conn := MkConn (NewWriterSize s).

Definition WriteFrame (f : Frame) (c : Conn) : Conn * option wire_error :=
  let '(w, err) := encodeFrame f (c_bw c) in
  match err with
  | Some e => (MkConn w, Some e)
  | None => let '(w, ok) := bw_Flush w in
            (MkConn w, if ok then None else Some WriteError)
  end.

Definition ReadFrame : decoder Frame := decodeFrame.

Definition conn_out (c : Conn) : list byte := sk_out (bw_sock (c_bw c)).

(** Everything the peer's frame loop gets out of [bs] before its first read
    error; each frame takes at least one byte, so [length bs] rounds suffice. *)
Fixpoint read_frames (fuel : nat) (bs : list byte) : list Frame :=
  match fuel with
  | O => []
  | S n => match ReadFrame bs with
           | Ok (f, rest) => f :: read_frames n rest
           | Err _ => []
           end
  end.

Definition read_all (bs : list byte) : list Frame := read_frames (length bs) bs.

(** ** Specifications *)

(** Frames the code can put on the wire: canonical, with fields in range. *)
Definition is_u64 (z : Z) : Prop := 0 <= z < 2 ^ 64.

Inductive wf_frame : Frame -> Prop :=
| wf_hello a : str_len a <= maxString -> wf_frame (HelloF a)
| wf_open sid t : is_u64 sid -> str_len t <= maxString -> wf_frame (OpenF sid t)
| wf_attach sid o t :
    is_u64 sid -> is_u64 o -> str_len t <= maxString -> wf_frame (AttachF sid o t)
| wf_attachok sid o : is_u64 sid -> is_u64 o -> wf_frame (AttachOKF sid o)
| wf_data sid o p : is_u64 sid -> is_u64 o -> len p <= MaxPayload -> wf_frame (DataF sid o p)
| wf_ack sid o : is_u64 sid -> is_u64 o -> wf_frame (AckF sid o)
| wf_close sid d r :
    is_u64 sid -> 0 <= d < 256 -> str_len r <= maxString -> wf_frame (CloseF sid d r)
| wf_ping n : is_u64 n -> wf_frame (PingF n)
| wf_pong n : is_u64 n -> wf_frame (PongF n).
#[export] Hint Constructors wf_frame : tunnel.

(** Frames the code hands to the encoder: a replay may put more than
    [MaxPayload] bytes into one DATA frame, which the encoder refuses. *)
Inductive postable : Frame -> Prop :=
| pb_wf f : wf_frame f -> postable f
| pb_big sid o p : is_u64 sid -> is_u64 o -> MaxPayload < len p -> postable (DataF sid o p).

(** Whatever its size, a DATA frame can be handed over. *)
Lemma postable_data sid o p : is_u64 sid -> is_u64 o -> postable (DataF sid o p).
Proof.
  intros Hs Ho. destruct (Z.le_gt_cases (len p) MaxPayload); [by apply pb_wf, wf_data|by apply pb_big; [..|lia]].
Qed.
#[export] Hint Resolve pb_wf postable_data : tunnel.

(** The byte layout of a frame. *)
Definition string_bytes (s : string) : list byte := be_split 2 (str_len s) ++ str_bytes s.

Definition frame_bytes (f : Frame) : list byte :=
  byte_of_Z (fType f) ::
  (if fType f =? TypeHello then string_bytes (fActorID f)
   else if fType f =? TypeOpen then be_split 8 (fSessionID f) ++ string_bytes (fTarget f)
   else if fType f =? TypeAttach then
     be_split 8 (fSessionID f) ++ be_split 8 (fOffset f) ++ string_bytes (fTarget f)
   else if fType f =? TypeData then
     be_split 8 (fSessionID f) ++ be_split 8 (fOffset f) ++
     be_split 4 (len (fPayload f)) ++ fPayload f
   else if fType f =? TypeClose then
     be_split 8 (fSessionID f) ++ [byte_of_Z (fDir f)] ++ string_bytes (fReason f)
   else if (fType f =? TypePing) || (fType f =? TypePong) then be_split 8 (fNonce f)
   else be_split 8 (fSessionID f) ++ be_split 8 (fOffset f)).

(** ** Lemmas: integers and strings *)

Lemma length_be_split n z : length (be_split n z) = n.
Proof. revert z. induction n as [|n IH]; intros z; simpl; [done|]. rewrite length_app, IH. simpl. lia. Qed.

Lemma len_be_split n z : len (be_split n z) = Z.of_nat n.
Proof. unfold len. by rewrite length_be_split. Qed.

Lemma be_combine_snoc l b : be_combine (l ++ [b]) = be_combine l * 256 + Z_of_byte b.
Proof. unfold be_combine. by rewrite foldl_app. Qed.

Lemma be_combine_split n z : be_combine (be_split n z) = z mod 256 ^ Z.of_nat n.
Proof.
  revert z. induction n as [|n IH]; intros z; [by rewrite Z.mod_1_r|].
  simpl be_split. rewrite be_combine_snoc, IH, Z_of_byte_of_Z.
  rewrite Nat2Z.inj_succ, Z.pow_succ_r, Z.rem_mul_r by lia. lia.
Qed.

Lemma be_combine_range l : 0 <= be_combine l < 256 ^ len l.
Proof.
  induction l as [|b l IH] using rev_ind; [done|].
  rewrite be_combine_snoc, len_app. change (len [b]) with 1.
  rewrite Z.pow_add_r by (apply len_nonneg || lia).
  pose proof (Z_of_byte_range b). lia.
Qed.

Lemma be_split_combine l n : length l = n -> be_split n (be_combine l) = l.
Proof.
  revert n. induction l as [|b l IH] using rev_ind; intros n <-; [done|].
  rewrite length_app, Nat.add_1_r. simpl. rewrite be_combine_snoc.
  pose proof (Z_of_byte_range b).
  rewrite Z.div_add_l by lia. rewrite Z.div_small, Z.add_0_r by lia.
  rewrite IH by done. do 2 f_equal.
  rewrite <- (byte_of_Z_of_byte b) at 2. unfold byte_of_Z.
  rewrite Z.add_comm, Z.mod_add by lia. done.
Qed.

Lemma be_combine_split_small n z :
  0 <= z < 256 ^ Z.of_nat n -> be_combine (be_split n z) = z.
Proof. intros. rewrite be_combine_split. by apply Z.mod_small. Qed.

#[local] Opaque be_split be_combine.

Lemma str_of_bytes s : String.string_of_list_byte (str_bytes s) = s.
Proof. apply String.string_of_list_byte_of_string. Qed.

Lemma bytes_of_str l : str_bytes (String.string_of_list_byte l) = l.
Proof. apply String.list_byte_of_string_of_list_byte. Qed.

(** ** Lemmas: decoders *)

(** [d] reads exactly [p], yielding [a], whatever follows. *)
Definition decodes {A} (d : decoder A) (p : list byte) (a : A) : Prop :=
  forall r, d (p ++ r) = Ok (a, r).

(** What a decoder does on any input: it either consumes a prefix, and then
    does the same on every extension of the input, or it fails. *)
Definition well_behaved {A} (d : decoder A) : Prop :=
  forall bs a r, d bs = Ok (a, r) -> exists p, bs = p ++ r /\ decodes d p a.

Lemma decodes_ReadFull n p : len p = n -> decodes (ReadFull n) p p.
Proof.
  intros <- r. unfold ReadFull. rewrite len_app. pose proof (len_nonneg r).
  destruct (Z.leb_spec (len p) (len p + len r)); [|lia].
  by rewrite ztake_app_len, zdrop_app_len.
Qed.

Lemma decodes_ReadByte b : decodes ReadByte [b] b.
Proof. by intros r. Qed.

Lemma decodes_getU64 z : is_u64 z -> decodes getU64 (be_split 8 z) z.
Proof.
  intros Hz r. unfold getU64. rewrite decodes_ReadFull by apply len_be_split. simpl.
  by rewrite be_combine_split_small.
Qed.

Lemma decodes_getU32 z : 0 <= z < 2 ^ 32 -> decodes getU32 (be_split 4 z) z.
Proof.
  intros Hz r. unfold getU32. rewrite decodes_ReadFull by apply len_be_split. simpl.
  by rewrite be_combine_split_small.
Qed.

Lemma decodes_getString s : str_len s < 2 ^ 16 -> decodes getString (string_bytes s) s.
Proof.
  intros Hs r. unfold getString, string_bytes. rewrite <- app_assoc.
  rewrite decodes_ReadFull by apply len_be_split. simpl.
  rewrite be_combine_split_small by (split; [apply len_nonneg|done]).
  rewrite decodes_ReadFull by done. simpl. by rewrite str_of_bytes.
Qed.

Lemma wb_ReadByte : well_behaved ReadByte.
Proof. intros [|b bs] a r; simpl; intros [= <- <-]. exists [b]. split; [done|by intros ?]. Qed.

Lemma wb_ReadFull_inv n bs p r :
  0 <= n -> ReadFull n bs = Ok (p, r) -> bs = p ++ r /\ len p = n.
Proof.
  unfold ReadFull. intros Hn. destruct (Z.leb_spec n (len bs)).
  - intros [= <- <-]. rewrite ztake_zdrop. split; [done|]. by apply len_ztake.
  - by destruct bs.
Qed.

Lemma wb_getU64_inv bs z r :
  getU64 bs = Ok (z, r) -> bs = be_split 8 z ++ r /\ is_u64 z.
Proof.
  unfold getU64. destruct (ReadFull 8 bs) as [[p r']|] eqn:E; [|done].
  apply wb_ReadFull_inv in E as [-> Hl]; [|lia]. simpl. intros [= <- <-].
  pose proof (be_combine_range p) as Hr. rewrite Hl in Hr.
  rewrite be_split_combine by (unfold len in Hl; lia). done.
Qed.

Lemma wb_getU32_inv bs z r :
  getU32 bs = Ok (z, r) -> bs = be_split 4 z ++ r /\ 0 <= z < 2 ^ 32.
Proof.
  unfold getU32. destruct (ReadFull 4 bs) as [[p r']|] eqn:E; [|done].
  apply wb_ReadFull_inv in E as [-> Hl]; [|lia]. simpl. intros [= <- <-].
  pose proof (be_combine_range p) as Hr. rewrite Hl in Hr.
  rewrite be_split_combine by (unfold len in Hl; lia). done.
Qed.

Lemma wb_getString_inv bs s r :
  getString bs = Ok (s, r) -> bs = string_bytes s ++ r /\ str_len s < 2 ^ 16.
Proof.
  unfold getString. destruct (ReadFull 2 bs) as [[p r1]|] eqn:E; [|done].
  apply wb_ReadFull_inv in E as [-> Hl]; [|lia]. simpl.
  pose proof (be_combine_range p) as Hr. rewrite Hl in Hr.
  destruct (ReadFull (be_combine p) r1) as [[q r2]|] eqn:E; [|done].
  apply wb_ReadFull_inv in E as [-> Hq]; [|lia]. simpl. intros [= <- <-].
  unfold string_bytes, str_len. rewrite bytes_of_str, Hq.
  rewrite be_split_combine by (unfold len in Hl; lia).
  rewrite <- app_assoc. split; [done|lia].
Qed.

(** ** Lemmas: frames *)

(** Frames the decoder can produce: like [wf_frame], but a string may use the
    whole 16-bit length prefix. *)
Inductive read_frame : Frame -> Prop :=
| rd_hello a : str_len a < 2 ^ 16 -> read_frame (HelloF a)
| rd_open sid t : is_u64 sid -> str_len t < 2 ^ 16 -> read_frame (OpenF sid t)
| rd_attach sid o t :
    is_u64 sid -> is_u64 o -> str_len t < 2 ^ 16 -> read_frame (AttachF sid o t)
| rd_attachok sid o : is_u64 sid -> is_u64 o -> read_frame (AttachOKF sid o)
| rd_data sid o p : is_u64 sid -> is_u64 o -> len p <= MaxPayload -> read_frame (DataF sid o p)
| rd_ack sid o : is_u64 sid -> is_u64 o -> read_frame (AckF sid o)
| rd_close sid d r :
    is_u64 sid -> 0 <= d < 256 -> str_len r < 2 ^ 16 -> read_frame (CloseF sid d r)
| rd_ping n : is_u64 n -> read_frame (PingF n)
| rd_pong n : is_u64 n -> read_frame (PongF n).
#[export] Hint Constructors read_frame : tunnel.

Lemma wf_read f : wf_frame f -> read_frame f.
Proof. intros []; unfold maxString in *; constructor; (done || lia). Qed.

Lemma decodes_frame f : read_frame f -> decodes decodeFrame (frame_bytes f) f.
Proof.
  intros Hf r. unfold decodeFrame.
  destruct Hf; unfold frame_bytes; simpl; rewrite <- ?app_assoc;
    rewrite ?decodes_getU64 by done; simpl;
    rewrite ?decodes_getU64 by done; simpl;
    rewrite ?decodes_getString by done; simpl; try done.
  - pose proof (len_nonneg p). unfold MaxPayload in *.
    rewrite decodes_getU32 by lia. simpl. unfold MaxPayload.
    destruct (Z.gtb_spec (len p) (256 * 1024)); [lia|].
    by rewrite decodes_ReadFull.
  - rewrite Z_of_byte_of_Z, Z.mod_small by done. done.
Qed.

(** Decoding is exact: what it accepts is the layout of the frame it returns. *)
Lemma decodeFrame_inv bs f r :
  decodeFrame bs = Ok (f, r) -> bs = frame_bytes f ++ r /\ read_frame f.
Proof.
  unfold decodeFrame.
  destruct bs as [|tb bs]; [done|]. cbn [ReadByte res_bind].
  assert (forall t, Z_of_byte tb = t -> tb = byte_of_Z t) as Ht.
  { intros t <-. by rewrite byte_of_Z_of_byte. }
  repeat match goal with
  | |- context [Z_of_byte tb =? ?t] => destruct (Z.eqb_spec (Z_of_byte tb) t)
  end; unfold TypeHello, TypeOpen, TypeAttach, TypeAttachOK, TypeData, TypeAck, TypeClose,
    TypePing, TypePong in *; try (exfalso; lia); cbn [orb]; try done.
  all: repeat match goal with
  | |- res_bind (getU64 ?b) _ = _ -> _ =>
      let E := fresh "E" in
      destruct (getU64 b) as [[??]|] eqn:E; [|done];
      apply wb_getU64_inv in E as [-> ?]; cbn [res_bind]
  | |- res_bind (getU32 ?b) _ = _ -> _ =>
      let E := fresh "E" in
      destruct (getU32 b) as [[??]|] eqn:E; [|done];
      apply wb_getU32_inv in E as [-> ?]; cbn [res_bind]
  | |- res_bind (getString ?b) _ = _ -> _ =>
      let E := fresh "E" in
      destruct (getString b) as [[??]|] eqn:E; [|done];
      apply wb_getString_inv in E as [-> ?]; cbn [res_bind]
  | |- res_bind (ReadByte ?b) _ = _ -> _ =>
      destruct b as [|??]; [done|]; cbn [ReadByte res_bind]
  end.
  all: match goal with H : Z_of_byte _ = ?t, HT : forall _, _ |- _ => rewrite ?H, (HT t H) end.
  6: { destruct (Z.gtb_spec z1 MaxPayload); [done|].
       destruct (ReadFull z1 l) as [[p r']|] eqn:E; [|done].
       apply wb_ReadFull_inv in E as [-> <-]; [|lia]. intros [= <- <-].
       split; [unfold frame_bytes; simpl; by rewrite <- !app_assoc|by constructor]. }
  all: intros [= <- <-]; split; [|constructor; (done || apply Z_of_byte_range)].
  all: unfold frame_bytes; simpl; rewrite <- ?app_assoc, ?byte_of_Z_of_byte; done.
Qed.

Lemma frame_bytes_nonempty f : frame_bytes f <> [].
Proof. done. Qed.

(** ** Lemmas: the encoder on a buffered writer *)

Lemma wr_step_err p w : bw_err w = true -> wr_step p w w.
Proof. intros E. unfold wr_step. by rewrite E. Qed.

Lemma wr_step_more p q w w' : bw_err w' = true -> wr_step p w w' -> wr_step (p ++ q) w w'.
Proof. intros E S. eapply wr_step_trans; [done|by apply wr_step_err]. Qed.

Lemma putU64_step v w : wr_step (be_split 8 v) w (putU64 v w).
Proof.
  unfold putU64. destruct (bw_Write _ w) as [w' ok] eqn:E. by apply wr_step_Write in E as [? _].
Qed.

Lemma putU32_step v w : wr_step (be_split 4 v) w (putU32 v w).
Proof.
  unfold putU32. destruct (bw_Write _ w) as [w' ok] eqn:E. by apply wr_step_Write in E as [? _].
Qed.

(** The error a checked write reports is the writer's sticky error. *)
Definition sticky (w : bwriter) : option wire_error :=
  if bw_err w then Some WriteError else None.

Lemma io_Write_step p w w' e :
  io_result (bw_Write p w) = (w', e) -> wr_step p w w' /\ e = sticky w'.
Proof.
  unfold io_result. destruct (bw_Write p w) as [w1 ok] eqn:E. simpl. intros [= <- <-].
  apply wr_step_Write in E as [? ->]. split; [done|]. unfold sticky. by destruct (bw_err w1).
Qed.

Lemma putString_step s w w' e :
  str_len s <= maxString -> putString s w = (w', e) ->
  wr_step (string_bytes s) w w' /\ e = sticky w'.
Proof.
  intros Hs. unfold putString. destruct (Z.gtb_spec (str_len s) maxString); [lia|].
  unfold u16. rewrite Z.mod_small by (unfold str_len, maxString in *; pose proof (len_nonneg (str_bytes s)); lia).
  destruct (bw_Write _ w) as [w1 ok] eqn:E. apply wr_step_Write in E as [S1 ->].
  destruct (bw_err w1) eqn:E1; simpl.
  - intros [= <- <-]. unfold sticky. rewrite E1. split; [by apply wr_step_more|done].
  - intros [S2 ->]%io_Write_step. split; [by eapply wr_step_trans|done].
Qed.

Lemma encodeFrame_step f w w' e :
  wf_frame f -> encodeFrame f w = (w', e) ->
  wr_step (frame_bytes f) w w' /\ (e = sticky w' \/ e = None).
Proof.
  intros Hf. unfold encodeFrame.
  destruct (bw_WriteByte _ w) as [w1 ok] eqn:E. apply wr_step_WriteByte in E as [S1 ->].
  destruct (bw_err w1) eqn:E1; simpl.
  { intros [= <- <-]. unfold sticky. rewrite E1. split; [|by left].
    change (frame_bytes f) with ([byte_of_Z (fType f)] ++ tail (frame_bytes f)).
    by apply wr_step_more. }
  assert (forall p w2, wr_step p w1 w2 -> wr_step (byte_of_Z (fType f) :: p) w w2) as HS.
  { intros p w2 S2. apply (wr_step_trans [_] p _ _ _ S1 S2). }
  destruct Hf; simpl in HS |- *; unfold frame_bytes; simpl.
  - intros [S2 ->]%putString_step; [|done]. eauto.
  - intros [S2 ->]%putString_step; [|done]. split; [apply HS|by left].
    eapply wr_step_trans; [apply putU64_step|done].
  - intros [S2 ->]%putString_step; [|done]. split; [apply HS|by left].
    eapply wr_step_trans; [apply putU64_step|]. eapply wr_step_trans; [apply putU64_step|done].
  - intros [= <- <-]. split; [apply HS|by right].
    eapply wr_step_trans; [apply putU64_step|apply putU64_step].
  - destruct (Z.gtb_spec (len p) MaxPayload); [lia|].
    intros [S2 ->]%io_Write_step. split; [apply HS|by left].
    eapply wr_step_trans; [apply putU64_step|]. eapply wr_step_trans; [apply putU64_step|].
    eapply wr_step_trans; [|done]. unfold u32. rewrite Z.mod_small; [apply putU32_step|].
    unfold MaxPayload in *. pose proof (len_nonneg p). lia.
  - intros [= <- <-]. split; [apply HS|by right].
    eapply wr_step_trans; [apply putU64_step|apply putU64_step].
  - destruct (bw_WriteByte _ _) as [w2 ok2] eqn:E. apply wr_step_WriteByte in E as [S2 ->].
    assert (wr_step (be_split 8 sid ++ [byte_of_Z d]) w1 w2) as S12.
    { eapply wr_step_trans; [apply putU64_step|done]. }
    destruct (bw_err w2) eqn:E2; simpl.
    + intros [= <- <-]. split; [|left; unfold sticky; by rewrite E2]. apply HS.
      pose proof (wr_step_more _ (string_bytes r) _ _ E2 S12) as S.
      by rewrite <- app_assoc in S.
    + intros [S3 ->]%putString_step; [|done]. split; [apply HS|by left].
      pose proof (wr_step_trans _ _ _ _ _ S12 S3) as S. by rewrite <- app_assoc in S.
  - intros [= <- <-]. split; [apply HS, putU64_step|by right].
  - intros [= <- <-]. split; [apply HS, putU64_step|by right].
Qed.

(** The bytes a refused DATA frame leaves in the writer. *)
Definition data_residue (f : Frame) : list byte :=
  byte_of_Z TypeData :: be_split 8 (fSessionID f) ++ be_split 8 (fOffset f).

(** What can follow them: nothing, or the type byte of another frame. *)
Definition after_residue (x : list byte) : Prop :=
  match x with [] => True | b :: _ => 1 <= Z_of_byte b end.

(** ** The frame-writer interface

    What a session relies on when it calls [tc.write(f)]: [fw_sent] is the
    sequence of frames the peer's read loop will see; [fw_clean] says that the
    stream consists of whole frames, up to a point from which on, if the writer
    has failed or a frame was refused half way, the peer reads nothing more;
    [fw_healthy] that this point has not been reached and writes succeed.
    Sessions are defined and proved over any instance; [Conn] is the one the
    program uses. *)
Class FrameWriter (C : Type) := {
  fw_write : Frame -> C -> C * bool;
  fw_sent : C -> list Frame;
  fw_clean : C -> Prop;
  fw_healthy : C -> Prop;
  fw_new : C;
}.

Class FrameWriterLaws (C : Type) `{FrameWriter C} := {
  fw_new_ok : fw_clean fw_new /\ fw_healthy fw_new /\ fw_sent fw_new = [];
  fw_write_spec : forall (f : Frame) (c c' : C) (ok : bool),
    fw_clean c -> postable f -> fw_write f c = (c', ok) ->
    fw_clean c' /\ (fw_sent c' = fw_sent c \/ ok = true /\ wf_frame f /\ fw_sent c' = fw_sent c ++ [f]);
  fw_write_healthy : forall (f : Frame) (c : C),
    fw_healthy c -> wf_frame f ->
    exists c', fw_write f c = (c', true) /\ fw_healthy c' /\ fw_sent c' = fw_sent c ++ [f];
}.

Definition conn_healthy (c : Conn) : Prop := bw_healthy (c_bw c).

(** At a frame boundary, with nothing buffered. *)
Definition at_boundary (c : Conn) : Prop :=
  bw_buf (c_bw c) = [] /\ exists fs, Forall wf_frame fs /\ conn_out c = concat (map frame_bytes fs).

(** [q] is what follows the whole frames on the wire. *)
Inductive wire_tail (c : Conn) (q : list byte) : Prop :=
| wt_boundary : bw_err (c_bw c) = false -> q = [] -> bw_buf (c_bw c) = [] -> wire_tail c q
| wt_failed f r : bw_err (c_bw c) = true -> wf_frame f -> frame_bytes f = q ++ r -> r <> [] -> wire_tail c q
| wt_refused f x : is_u64 (fSessionID f) -> is_u64 (fOffset f) -> after_residue x ->
    (if bw_err (c_bw c) then q `prefix_of` data_residue f ++ x else q ++ bw_buf (c_bw c) = data_residue f ++ x) ->
    wire_tail c q.

#[export] Instance Conn_FrameWriter : FrameWriter Conn := {|
  fw_write f c := let '(c', e) := WriteFrame f c in (c', match e with None => true | Some _ => false end);
  fw_sent c := read_all (conn_out c);
  fw_clean c := exists fs q,
    Forall wf_frame fs /\ conn_out c = concat (map frame_bytes fs) ++ q /\ wire_tail c q;
  fw_healthy c := conn_healthy c /\ at_boundary c;
  fw_new := NewConn new_sock;
|}.

(** ** Lemmas: streams of frames *)

Lemma read_frames_app fs q n :
  Forall read_frame fs -> (length (concat (map frame_bytes fs)) <= n)%nat ->
  exists m, (length fs + m = n)%nat /\
  read_frames n (concat (map frame_bytes fs) ++ q) = fs ++ read_frames m q.
Proof.
  revert n. induction fs as [|f fs IH]; intros n Hwf Hn.
  { exists n. done. }
  apply Forall_cons in Hwf as [Hf Hfs]. simpl in Hn. rewrite length_app in Hn.
  assert (length (frame_bytes f) > 0)%nat by (unfold frame_bytes; simpl; lia).
  destruct n as [|n]; [lia|].
  destruct (IH n Hfs) as (m & Hm & IHm); [lia|]. exists m. split; [simpl; lia|].
  cbn [map concat read_frames]. unfold ReadFrame.
  rewrite <- app_assoc, (decodes_frame f Hf), IHm. done.
Qed.

(** A proper prefix of a frame does not decode. *)
Lemma partial_frame_unreadable f q r :
  read_frame f -> frame_bytes f = q ++ r -> r <> [] -> exists e, decodeFrame q = Err e.
Proof.
  intros Hf E Hr. destruct (decodeFrame q) as [[g s]|e] eqn:D; [|by eexists].
  apply decodeFrame_inv in D as [-> Hg]. exfalso.
  pose proof (decodes_frame f Hf []) as D1. rewrite app_nil_r, E, <- app_assoc in D1.
  rewrite (decodes_frame g Hg) in D1. injection D1 as _ D1.
  apply app_eq_nil in D1 as [_ ->]. done.
Qed.

Lemma read_all_stream fs q :
  Forall wf_frame fs -> (exists e, decodeFrame q = Err e) -> read_all (concat (map frame_bytes fs) ++ q) = fs.
Proof.
  intros Hfs (e & E). unfold read_all.
  destruct (read_frames_app fs q (length (concat (map frame_bytes fs) ++ q))) as (m & _ & ->).
  { eapply Forall_impl; [done|]. apply wf_read. }
  { rewrite length_app. lia. }
  destruct m as [|m]; [apply app_nil_r|]. simpl. unfold ReadFrame. rewrite E. apply app_nil_r.
Qed.

(** The head of a 32-bit length field decides that it is above [MaxPayload]. *)
Lemma big_length b l : 1 <= Z_of_byte b -> length l = 3%nat -> MaxPayload < be_combine (b :: l).
Proof.
  intros Hb Hl. destruct l as [|x [|y [|z [|]]]]; try done.
  change [b; x; y; z] with (((([] ++ [b]) ++ [x]) ++ [y]) ++ [z]). rewrite !be_combine_snoc.
  change (be_combine []) with 0. pose proof (Z_of_byte_range x). pose proof (Z_of_byte_range y). pose proof (Z_of_byte_range z).
  unfold MaxPayload. lia.
Qed.

(** What follows a refused DATA frame never decodes, however much of it has
    arrived. *)
Lemma residue_prefix_unreadable f x q :
  is_u64 (fSessionID f) -> is_u64 (fOffset f) -> after_residue x -> q `prefix_of` data_residue f ++ x ->
  exists e, decodeFrame q = Err e.
Proof.
  intros Hs Ho Hx [k Hq]. destruct (decodeFrame q) as [[g r]|e] eqn:D; [exfalso|by eexists].
  apply decodeFrame_inv in D as [-> Hg].
  pose proof (decodes_frame g Hg (r ++ k)) as D. rewrite app_assoc, <- Hq in D.
  unfold decodeFrame, data_residue in D. simpl in D. rewrite <- !app_assoc in D.
  rewrite decodes_getU64 in D by done. simpl in D. rewrite decodes_getU64 in D by done. simpl in D.
  unfold getU32, ReadFull in D. destruct (Z.leb_spec 4 (len x)) as [H4|H4]; [|by destruct x].
  destruct x as [|b x]; [by change (len []) with 0 in H4|]. simpl in D, Hx.
  assert (MaxPayload < be_combine (ztake 4 (b :: x))) as Hbig.
  { change (ztake 4 (b :: x)) with (b :: take 3 x). apply big_length; [done|].
    rewrite length_take. unfold len in H4. simpl in H4. lia. }
  rewrite Z.gtb_ltb, (proj2 (Z.ltb_lt _ _) Hbig) in D. done.
Qed.

(** What follows the whole frames cannot be read. *)
Lemma wire_tail_unreadable c q : wire_tail c q -> exists e, decodeFrame q = Err e.
Proof.
  intros [_ -> _|f r _ Hf E Hr|f x Hs Ho Hx Hq]; [by eexists|by eapply partial_frame_unreadable; [apply wf_read|..]|].
  apply (residue_prefix_unreadable f x); [done..|]. destruct (bw_err (c_bw c)); [done|]. rewrite <- Hq.
  by apply prefix_app_r.
Qed.

Lemma clean_sent c fs q :
  Forall wf_frame fs -> conn_out c = concat (map frame_bytes fs) ++ q -> wire_tail c q -> fw_sent c = fs.
Proof. intros Hfs E Hq. simpl. rewrite E. by eapply read_all_stream, wire_tail_unreadable. Qed.

(** The bytes the encoder appends for a frame it is handed. *)
Definition posted_bytes (f : Frame) : list byte :=
  if len (fPayload f) >? MaxPayload then data_residue f else frame_bytes f.

Lemma wf_payload f : wf_frame f -> len (fPayload f) <= MaxPayload.
Proof. by destruct 1. Qed.

Lemma posted_wf f : wf_frame f -> posted_bytes f = frame_bytes f.
Proof.
  intros Hf%wf_payload. unfold posted_bytes. by destruct (Z.gtb_spec (len (fPayload f)) MaxPayload); [lia|].
Qed.

Lemma encode_posted f w w' e :
  postable f -> encodeFrame f w = (w', e) ->
  wr_step (posted_bytes f) w w' /\ (e = sticky w' \/ e = None \/ posted_bytes f = data_residue f /\ e <> None).
Proof.
  intros [g Hg|sid o p Hs Ho Hp] E.
  - rewrite posted_wf by done.
    apply encodeFrame_step in E as [S [He|He]]; [| |done]; auto.
  - assert (posted_bytes (DataF sid o p) = data_residue (DataF sid o p)) as Hb.
    { unfold posted_bytes. simpl. by destruct (Z.gtb_spec (len p) MaxPayload); [|lia]. }
    revert E. unfold encodeFrame. destruct (bw_WriteByte _ w) as [w1 ok] eqn:E1.
    apply wr_step_WriteByte in E1 as [S1 ->]. rewrite Hb. unfold data_residue.
    destruct (bw_err w1) eqn:Ee; simpl.
    { intros [= <- <-]. split; [|left; unfold sticky; by rewrite Ee].
      change (?b :: ?l) with ([b] ++ l). by apply wr_step_more. }
    destruct (Z.gtb_spec (len p) MaxPayload); [|lia]. intros [= <- <-]. split; [|by right; right].
    apply (wr_step_trans [byte_of_Z TypeData] _ _ _ _ S1). eapply wr_step_trans; apply putU64_step.
Qed.

Lemma posted_head f : postable f -> after_residue (posted_bytes f) /\ posted_bytes f <> [].
Proof.
  intros Hf. assert (exists l, posted_bytes f = byte_of_Z (fType f) :: l /\ 1 <= fType f < 256) as (l & -> & Ht).
  { unfold posted_bytes. destruct Hf as [f Hf|sid o p _ _ Hp].
    - fold (posted_bytes f). rewrite posted_wf by done. eexists. split; [done|]. by destruct Hf.
    - simpl. destruct (Z.gtb_spec (len p) MaxPayload); [|lia]. by eexists. }
  split; [|done]. simpl. rewrite Z_of_byte_of_Z, Z.mod_small by lia. lia.
Qed.

Lemma after_residue_app x p : after_residue x -> after_residue p -> after_residue (x ++ p).
Proof. by destruct x. Qed.

(** Once a frame has been refused nothing that is written can be read. *)
Lemma refused_step c w f x q p fs :
  Forall wf_frame fs -> conn_out c = concat (map frame_bytes fs) ++ q ->
  is_u64 (fSessionID f) -> is_u64 (fOffset f) -> after_residue x -> after_residue p ->
  (if bw_err (c_bw c) then q `prefix_of` data_residue f ++ x else q ++ bw_buf (c_bw c) = data_residue f ++ x) ->
  wr_step p (c_bw c) w ->
  exists q', conn_out (MkConn w) = concat (map frame_bytes fs) ++ q' /\ wire_tail (MkConn w) q'.
Proof.
  intros Hfs Eo Hs Ho Hx Hp Hq S. unfold wr_step in S. unfold conn_out in *. simpl in *.
  destruct (bw_err (c_bw c)) eqn:Ec.
  { subst w. exists q. split; [done|]. apply (wt_refused _ _ f x); try done. simpl. by rewrite Ec. }
  destruct (bw_err w) eqn:Ew.
  - destruct S as (q1 & r & _ & Hb & Ho1). exists (q ++ q1). rewrite Ho1, Eo, app_assoc. split; [done|].
    apply (wt_refused _ _ f (x ++ p)); [done..|by apply after_residue_app|]. simpl. rewrite Ew.
    exists r. by rewrite <- !app_assoc, <- Hb, !app_assoc, Hq.
  - destruct S as (q1 & Ho1 & Hb). exists (q ++ q1). rewrite Ho1, Eo, app_assoc. split; [done|].
    apply (wt_refused _ _ f (x ++ p)); [done..|by apply after_residue_app|]. simpl. rewrite Ew.
    by rewrite <- !app_assoc, Hb, !app_assoc, Hq.
Qed.


(** [WriteFrame] appends the frame's bytes; without an error they are flushed. *)
Lemma WriteFrame_step f c c' e :
  postable f -> WriteFrame f c = (c', e) ->
  wr_step (posted_bytes f) (c_bw c) (c_bw c') /\
  (e = None -> bw_err (c_bw c') = false /\ bw_buf (c_bw c') = []) /\
  (e <> None -> bw_err (c_bw c') = true \/ posted_bytes f = data_residue f).
Proof.
  intros Hf. unfold WriteFrame. destruct (encodeFrame f (c_bw c)) as [w e1] eqn:E.
  apply encode_posted in E as [S He]; [|done]. destruct e1 as [e1|].
  { intros [= <- <-]. split_and!; [done|done|]. intros _. simpl. unfold sticky in He.
    destruct (bw_err w); [by left|right]. by destruct He as [?|[?|[? _]]]. }
  destruct (bw_err w) eqn:Ew.
  { unfold bw_Flush. rewrite Ew. intros [= <- <-]. simpl. rewrite Ew. split_and!; [done|done|by left]. }
  destruct (bw_Flush w) as [w2 ok] eqn:F. apply wr_step_Flush in F as (S2 & -> & Hb2); [|done].
  assert (wr_step (posted_bytes f) (c_bw c) w2) as S12.
  { rewrite <- (app_nil_r (posted_bytes f)). by eapply wr_step_trans. }
  destruct (bw_err w2) eqn:E2; simpl; intros [= <- <-]; simpl; rewrite ?E2; split_and!; auto; done.
Qed.

Lemma posted_cases f : postable f ->
  wf_frame f \/ posted_bytes f = data_residue f /\ is_u64 (fSessionID f) /\ is_u64 (fOffset f).
Proof.
  intros [g Hg|sid o p Hs Ho Hp]; [by left|right]. split; [|done]. unfold posted_bytes. simpl.
  by destruct (Z.gtb_spec (len p) MaxPayload); [|lia].
Qed.

Lemma residue_not_frame f : wf_frame f -> posted_bytes f <> data_residue f.
Proof.
  intros Hf E. rewrite posted_wf in E by done. assert (byte_of_Z (fType f) = byte_of_Z TypeData) as Hh.
  { apply (f_equal (fun l => hd x00 l)) in E. exact E. }
  destruct Hf; try (vm_compute in Hh; discriminate Hh). apply (f_equal length) in E.
  unfold frame_bytes, data_residue in E. simpl in E. rewrite !length_app, !length_be_split in E. lia.
Qed.

(** Writes at a frame boundary of a writer that has not failed: a frame that is
    accepted, and one that is not. *)
Lemma write_accepted f c c' fs :
  wf_frame f -> WriteFrame f c = (c', None) -> Forall wf_frame fs -> conn_out c = concat (map frame_bytes fs) ->
  bw_err (c_bw c) = false -> bw_buf (c_bw c) = [] ->
  Forall wf_frame (fs ++ [f]) /\ conn_out c' = concat (map frame_bytes (fs ++ [f])) /\
  bw_err (c_bw c') = false /\ bw_buf (c_bw c') = [].
Proof.
  intros Hf W Hfs Ho E0 B0. apply WriteFrame_step in W as (S & He & _); [|by apply pb_wf].
  destruct (He eq_refl) as [E1 B1]. unfold wr_step in S. rewrite E0, E1, B0, B1, posted_wf in S by done.
  destruct S as (q & Ho1 & Hq). rewrite app_nil_r in Hq. simpl in Hq. subst q.
  split_and!; try done; [apply Forall_app; auto|].
  unfold conn_out in *. rewrite Ho1, Ho, map_app, concat_app. simpl. by rewrite app_nil_r.
Qed.

Lemma write_refused f c c' e fs :
  postable f -> WriteFrame f c = (c', e) -> e <> None \/ ~ wf_frame f -> conn_out c = concat (map frame_bytes fs) ->
  bw_err (c_bw c) = false -> bw_buf (c_bw c) = [] ->
  exists q, conn_out c' = concat (map frame_bytes fs) ++ q /\ wire_tail c' q.
Proof.
  intros Hf W Hb Ho E0 B0. apply WriteFrame_step in W as (S & He & Hn); [|done].
  unfold wr_step in S. rewrite E0, B0 in S. simpl in S. unfold conn_out in *.
  destruct (posted_cases f Hf) as [Hw|(Hr & Hs & Hoff)].
  - destruct Hb as [Hb|]; [|done]. destruct (Hn Hb) as [E1|Hx]; [|by apply residue_not_frame in Hx].
    rewrite (posted_wf f Hw), E1 in S. destruct S as (q & r & Hr & Hq & Ho1).
    exists q. rewrite Ho1, Ho. split; [done|]. by apply (wt_failed _ _ f r).
  - rewrite Hr in S. destruct (bw_err (c_bw c')) eqn:E1.
    + destruct S as (q & r & _ & Hq & Ho1). exists q. rewrite Ho1, Ho. split; [done|].
      apply (wt_refused _ _ f []); try done. rewrite E1, app_nil_r. by exists r.
    + destruct S as (q & Ho1 & Hq). exists q. rewrite Ho1, Ho. split; [done|].
      apply (wt_refused _ _ f []); try done. by rewrite E1, app_nil_r.
Qed.

Lemma WriteFrame_clean f c c' e :
  fw_clean c -> postable f -> WriteFrame f c = (c', e) ->
  fw_clean c' /\ (fw_sent c' = fw_sent c \/ e = None /\ wf_frame f /\ fw_sent c' = fw_sent c ++ [f]).
Proof.
  intros (fs & q & Hfs & Ho & Ht) Hf W. rewrite (clean_sent c fs q Hfs Ho Ht).
  assert ((exists q', conn_out c' = concat (map frame_bytes fs) ++ q' /\ wire_tail c' q') ->
    fw_clean c' /\ fw_sent c' = fs) as K.
  { intros (q' & Ho' & Ht'). split; [by exists fs, q'|by eapply clean_sent]. }
  destruct Ht as [E0 -> B0|g r E0 Hg Hq Hr|g x Hs Hoff Hx Hq].
  - rewrite app_nil_r in Ho. destruct (decide (e = None /\ len (fPayload f) <= MaxPayload)) as [[-> Hl]|Hb].
    + assert (wf_frame f) as Hw by (destruct Hf as [|sid o p ? ? Hp]; [done|simpl in Hl; lia]).
      destruct (write_accepted f c c' fs Hw W Hfs Ho E0 B0) as (Hfs' & Ho' & E1 & B1).
      assert (wire_tail c' []) as Ht' by (by apply wt_boundary). rewrite <- (app_nil_r (concat _)) in Ho'.
      split; [by exists (fs ++ [f]), []|]. right. split_and!; [done|done|]. by eapply clean_sent.
    + destruct K; [|auto]. eapply write_refused; [done..| |done|done|done].
      destruct (decide (e = None)); [right|by left]. intros Hw. apply Hb. split; [done|]. by apply wf_payload.
  - apply WriteFrame_step in W as (S & _ & _); [|done]. unfold wr_step in S. rewrite E0 in S.
    destruct K; [|auto]. exists q. unfold conn_out in *. rewrite S. split; [done|]. apply (wt_failed _ _ g r); try done.
    by rewrite S.
  - apply WriteFrame_step in W as (S & _ & _); [|done]. destruct (posted_head f Hf) as [Hp _].
    destruct c' as [w']. destruct K; [|auto]. by apply (refused_step c w' g x q (posted_bytes f) fs).
Qed.

(** ** Lemmas: healthy connections *)

Lemma healthy_copy p w : bw_healthy w -> bw_healthy (bw_copy p w).
Proof. done. Qed.

Lemma healthy_Flush w w' ok : bw_healthy w -> bw_Flush w = (w', ok) -> bw_healthy w' /\ ok = true.
Proof.
  intros [Hs He]. unfold bw_Flush. rewrite He.
  destruct (bw_buf w) as [|b l]; [by intros [= <- <-]|].
  rewrite sock_write_healthy by done. by intros [= <- <-].
Qed.

Lemma healthy_direct p w w' ok :
  bw_healthy w -> bw_direct p w = (w', ok) -> bw_healthy w' /\ ok = true.
Proof. intros [Hs He]. unfold bw_direct. rewrite sock_write_healthy by done. by intros [= <- <-]. Qed.

Lemma healthy_Write p w w' ok : bw_healthy w -> bw_Write p w = (w', ok) -> bw_healthy w' /\ ok = true.
Proof.
  intros H. unfold bw_Write. rewrite (proj2 H).
  destruct (_ <=? _); [by intros [= <- <-]|].
  destruct (bw_buf w) as [|b l]; [by apply healthy_direct|].
  destruct (bw_Flush _) as [w1 ok1] eqn:F. apply healthy_Flush in F as [H1 ->]; [|done].
  destruct (_ <=? _); [by intros [= <- <-]|by apply healthy_direct].
Qed.

Lemma healthy_WriteByte b w w' ok :
  bw_healthy w -> bw_WriteByte b w = (w', ok) -> bw_healthy w' /\ ok = true.
Proof.
  intros H. unfold bw_WriteByte. rewrite (proj2 H).
  destruct (_ <=? _); [|by intros [= <- <-]].
  destruct (bw_Flush _) as [w1 ok1] eqn:F. apply healthy_Flush in F as [H1 ->]; [|done].
  by intros [= <- <-].
Qed.

Lemma healthy_putU64 v w : bw_healthy w -> bw_healthy (putU64 v w).
Proof. intros H. unfold putU64. destruct (bw_Write _ w) eqn:E. by eapply healthy_Write in E as [? _]. Qed.

Lemma healthy_putU32 v w : bw_healthy w -> bw_healthy (putU32 v w).
Proof. intros H. unfold putU32. destruct (bw_Write _ w) eqn:E. by eapply healthy_Write in E as [? _]. Qed.

Lemma healthy_putString s w w' e :
  bw_healthy w -> str_len s <= maxString -> putString s w = (w', e) -> bw_healthy w' /\ e = None.
Proof.
  intros H Hs. unfold putString. destruct (Z.gtb_spec (str_len s) maxString); [lia|].
  destruct (bw_Write _ w) as [w1 ok] eqn:E. apply healthy_Write in E as [H1 ->]; [|done].
  unfold io_result. destruct (bw_Write _ w1) as [w2 ok] eqn:E.
  apply healthy_Write in E as [H2 ->]; [|done]. by intros [= <- <-].
Qed.
#[local] Hint Resolve healthy_putU64 healthy_putU32 : tunnel.

Lemma healthy_encodeFrame f w w' e :
  bw_healthy w -> wf_frame f -> encodeFrame f w = (w', e) -> bw_healthy w' /\ e = None.
Proof.
  intros H Hf. unfold encodeFrame.
  destruct (bw_WriteByte _ w) as [w1 ok] eqn:E. apply healthy_WriteByte in E as [Hw1 ->]; [|done].
  destruct Hf; simpl; try (intros E; apply healthy_putString in E; auto with tunnel).
  - intros [= <- <-]. auto with tunnel.
  - destruct (Z.gtb_spec (len p) MaxPayload); [lia|]. unfold io_result.
    destruct (bw_Write p _) as [w2 ok2] eqn:E2.
    apply healthy_Write in E2 as [Hw2 ->]; [|by auto with tunnel]. by intros [= <- <-].
  - intros [= <- <-]. auto with tunnel.
  - destruct (bw_WriteByte _ _) as [w2 ok2] eqn:E2.
    apply healthy_WriteByte in E2 as [Hw2 ->]; [|by auto with tunnel]. simpl.
    intros E. by apply healthy_putString in E.
  - intros [= <- <-]. auto with tunnel.
  - intros [= <- <-]. auto with tunnel.
Qed.

Lemma healthy_WriteFrame f c :
  conn_healthy c -> wf_frame f -> exists c', WriteFrame f c = (c', None) /\ conn_healthy c'.
Proof.
  intros H Hf. unfold WriteFrame. destruct (encodeFrame f (c_bw c)) as [w e] eqn:E.
  apply healthy_encodeFrame in E as [H1 ->]; [|done..].
  destruct (bw_Flush w) as [w2 ok] eqn:F. apply healthy_Flush in F as [H2 ->]; [|done]. eauto.
Qed.

Lemma new_conn_healthy : conn_healthy (NewConn new_sock).
Proof. done. Qed.

#[export] Instance Conn_FrameWriterLaws : FrameWriterLaws Conn.
Proof.
  split.
  - split_and!; [|split; [done|split; [done|by exists []]]|done].
    exists [], []. split_and!; [done|done|by apply wt_boundary].
  - intros f c c' ok Hc Hf. simpl. destruct (WriteFrame f c) as [c1 e] eqn:W.
    intros [= <- <-]. apply WriteFrame_clean in W as [? [?|(-> & ? & ?)]]; auto.
  - intros f c [H (B & fs & Hfs & Ho)] Hf. destruct (healthy_WriteFrame f c H Hf) as (c' & W & H').
    destruct (write_accepted f c c' fs Hf W Hfs Ho (proj2 H) B) as (Hfs' & Ho' & E1 & B1).
    exists c'. simpl fw_write. rewrite W. split; [done|]. split; [by split; [|split; [|exists (fs ++ [f])]]|].
    rewrite (clean_sent c fs []), (clean_sent c' (fs ++ [f]) []); rewrite ?app_nil_r; try done;
      [by apply wt_boundary|by apply wt_boundary; [apply H|..]].
Qed.

Definition write_frames (fs : list Frame) (c : Conn) : Conn * list (option wire_error) :=
  foldl (fun '(c, es) f => let '(c, e) := WriteFrame f c in (c, es ++ [e])) (c, []) fs.

Lemma write_frames_healthy fs c es :
  fw_healthy c -> Forall wf_frame fs ->
  exists c', foldl (fun '(c, es) f => let '(c, e) := WriteFrame f c in (c, es ++ [e])) (c, es) fs
    = (c', es ++ replicate (length fs) None) /\ fw_healthy c' /\ fw_sent c' = fw_sent c ++ fs.
Proof.
  revert c es. induction fs as [|f fs IH]; intros c es H Hfs.
  { exists c. simpl. rewrite !app_nil_r. done. }
  apply Forall_cons in Hfs as [Hf Hfs].
  destruct (fw_write_healthy f c H Hf) as (c1 & W & H1 & Hs1). simpl foldl. simpl fw_write in W.
  destruct (WriteFrame f c) as [c2 [e|]]; [done|]. injection W as ->.
  destruct (IH c1 (es ++ [None]) H1 Hfs) as (c' & E & H' & Hs').
  exists c'. rewrite E, Hs', Hs1, <- !app_assoc. done.
Qed.

Lemma putU64_small v w :
  bw_err w = false -> 8 <= bw_available w -> putU64 v w = bw_copy (be_split 8 v) w.
Proof.
  intros E H. unfold putU64, bw_Write. rewrite E, len_be_split.
  destruct (Z.leb_spec (Z.of_nat 8) (bw_available w)); [done|lia].
Qed.

Lemma oversize_encode f w :
  fType f = TypeData -> bw_err w = false -> bw_buf w = [] -> MaxPayload < len (fPayload f) ->
  encodeFrame f w =
    (bw_copy (data_residue f) w, Some (PayloadExceedsMax (len (fPayload f)))).
Proof.
  intros Ht E B Hp. unfold encodeFrame, bw_WriteByte. rewrite E, Ht.
  unfold bw_available at 1. rewrite B, len_nil. simpl.
  set (w1 := bw_copy _ w).
  assert (bw_available w1 = 64 * 1024 - 1) as A1 by (unfold bw_available, w1; simpl; by rewrite B).
  rewrite (putU64_small _ w1) by (done || lia).
  set (w2 := bw_copy _ w1).
  assert (bw_available w2 = 64 * 1024 - 9) as A2.
  { unfold bw_available, w2, bufio_size in *. simpl. rewrite len_app, len_be_split. simpl in A1. lia. }
  rewrite (putU64_small _ w2) by (done || lia).
  destruct (Z.gtb_spec (len (fPayload f)) MaxPayload); [|lia].
  unfold w2, w1, bw_copy, data_residue. simpl. by rewrite B.
Qed.

(** Read as a 32-bit length, the start of any frame is far above [MaxPayload]. *)
Lemma frame_head_as_length g rest :
  wf_frame g -> fType g <> TypeHello ->
  exists n tl, frame_bytes g ++ rest = be_split 4 n ++ tl /\ 2 ^ 24 <= n < 2 ^ 32.
Proof.
  intros Hg Hh.
  assert (exists a b d tl, frame_bytes g ++ rest = [byte_of_Z (fType g); a; b; d] ++ tl) as
    (a & b & d & tl & ->).
  { assert (4 <= length (frame_bytes g))%nat as Hlen.
    { destruct Hg; try done; unfold frame_bytes, string_bytes; simpl;
        rewrite ?length_app, ?length_be_split; lia. }
    unfold frame_bytes in *.
    match goal with |- context [_ :: ?l] => destruct l as [|a [|b [|d tl]]] end;
      simpl in Hlen; try lia. by eexists a, b, d, (tl ++ rest). }
  exists (be_combine [byte_of_Z (fType g); a; b; d]), tl. split.
  { by rewrite be_split_combine. }
  pose proof (be_combine_range [byte_of_Z (fType g); a; b; d]) as Hr.
  change (256 ^ len _) with (2 ^ 32) in Hr. split; [|lia].
  change [byte_of_Z (fType g); a; b; d] with (((([] ++ [byte_of_Z (fType g)]) ++ [a]) ++ [b]) ++ [d]).
  rewrite !be_combine_snoc, Z_of_byte_of_Z.
  pose proof (Z_of_byte_range a). pose proof (Z_of_byte_range b). pose proof (Z_of_byte_range d).
  assert (1 <= fType g mod 256) by (destruct Hg; vm_compute; congruence).
  change (be_combine []) with 0. lia.
Qed.

Lemma residue_unreadable f g rest :
  is_u64 (fSessionID f) -> is_u64 (fOffset f) -> wf_frame g -> fType g <> TypeHello ->
  exists n, ReadFrame ((data_residue f ++ frame_bytes g) ++ rest) = Err (PayloadExceedsMax n).
Proof.
  intros Hsid Hoff Hg Hh. destruct (frame_head_as_length g rest Hg Hh) as (n & tl & E & Hn).
  exists n. unfold ReadFrame, decodeFrame, data_residue.
  rewrite <- app_assoc, E. simpl. rewrite <- app_assoc.
  rewrite decodes_getU64 by done. simpl. rewrite decodes_getU64 by done. simpl.
  rewrite decodes_getU32 by lia. simpl.
  destruct (Z.gtb_spec n MaxPayload); [done|]. unfold MaxPayload in *. lia.
Qed.

(** ** Properties *)

(** Round trip: every frame the code builds is written without error on a
    healthy connection, and the peer's [ReadFrame] returns that same frame and
    leaves exactly the bytes that follow it. *)
Theorem frame_roundtrip (f : Frame) (rest : list byte) (Hf : wf_frame f) :
  exists c, WriteFrame f (NewConn new_sock) = (c, None) /\
    ReadFrame (conn_out c ++ rest) = Ok (f, rest).
Proof.
  destruct (healthy_WriteFrame f _ new_conn_healthy Hf) as (c & W & _). exists c. split; [done|].
  unfold WriteFrame in W. destruct (encodeFrame f _) as [w e] eqn:E.
  apply encodeFrame_step in E as [S He]; [|done].
  destruct e as [e|]; [done|]. destruct (bw_err w) eqn:Ew.
  { unfold bw_Flush in W. by rewrite Ew in W. }
  destruct (bw_Flush w) as [w2 ok] eqn:F. apply wr_step_Flush in F as (S2 & -> & Hb); [|done].
  destruct (bw_err w2) eqn:E2; simpl in W; [done|]. injection W as <-.
  pose proof (wr_step_trans _ _ _ _ _ S S2) as S12. rewrite app_nil_r in S12.
  unfold wr_step in S12. simpl in S12. rewrite E2, Hb in S12 by done.
  destruct S12 as (q & Ho & Hq). rewrite app_nil_r in Hq.
  unfold conn_out. simpl. rewrite Ho, Hq. by apply decodes_frame, wf_read.
Qed.

(** C14. Self-delimitation: writing any sequence of well-formed frames (fields in the
    range of their widths, payloads of at most [MaxPayload], strings of at most
    [maxString] bytes) on one healthy connection succeeds every time and the
    peer's read loop gets back the same sequence, no frame lost, merged or
    split.  Larger payloads, which a replay can produce, are refused
    ([oversize_data_poisons_conn]). *)
Theorem frame_stream_roundtrip (fs : list Frame) (Hfs : Forall wf_frame fs) :
  let '(c, errs) := write_frames fs (NewConn new_sock) in
  Forall (fun e => e = None) errs /\ read_all (conn_out c) = fs.
Proof.
  unfold write_frames.
  destruct (write_frames_healthy fs (NewConn new_sock) []) as (c & -> & _ & Hs);
    [exact (proj1 (proj2 (fw_new_ok (C := Conn))))|done|].
  split; [|exact Hs]. simpl. apply Forall_replicate. done.
Qed.

(** C23. Exactness of the decoder: it accepts an input precisely when the input
    starts with the layout of the returned frame, it consumes at least one
    byte, and the frame is bounded ([MaxPayload] for payloads, the 16-bit
    length prefix for strings), whatever the bytes. *)
Theorem decode_exact (bs r : list byte) (f : Frame) :
  ReadFrame bs = Ok (f, r) <->
  (read_frame f /\ bs = frame_bytes f ++ r /\ (length r < length bs)%nat /\
   len (fPayload f) <= MaxPayload).
Proof.
  split.
  - intros [-> Hf]%decodeFrame_inv. split_and!; [done|done| |].
    + rewrite length_app. unfold frame_bytes. simpl. lia.
    + destruct Hf; unfold MaxPayload in *; simpl; rewrite ?len_nil; (done || lia).
  - intros (Hf & -> & _). by apply decodes_frame.
Qed.

(** Encoding errors: a frame whose string or payload exceeds its maximum, or
    whose type is unknown, is refused with the matching error on every
    connection that has not failed, and nothing reaches the wire. *)
Theorem encode_refuses_oversize (f : Frame) (c : Conn)
    (Hc : bw_err (c_bw c) = false) (Hb : bw_buf (c_bw c) = []) :
  (fType f = TypeData -> MaxPayload < len (fPayload f) ->
     exists c', WriteFrame f c = (c', Some (PayloadExceedsMax (len (fPayload f)))) /\
       conn_out c' = conn_out c) /\
  (fType f = TypeHello -> maxString < str_len (fActorID f) ->
     exists c', WriteFrame f c = (c', Some (StringExceedsMax (str_len (fActorID f)))) /\
       conn_out c' = conn_out c) /\
  (TypePong < fType f < 256 ->
     exists c', WriteFrame f c = (c', Some (CannotEncode (fType f))) /\
       conn_out c' = conn_out c).
Proof.
  assert (bw_WriteByte (byte_of_Z (fType f)) (c_bw c) =
    (bw_copy [byte_of_Z (fType f)] (c_bw c), true)) as W.
  { unfold bw_WriteByte, bw_available. by rewrite Hc, Hb. }
  split_and!; [intros Ht Hl..|intros Hl].
  - unfold WriteFrame. rewrite oversize_encode by done. by eexists.
  - unfold WriteFrame, encodeFrame. rewrite W, Ht. simpl. unfold putString.
    destruct (Z.gtb_spec (str_len (fActorID f)) maxString); [|lia]. by eexists.
  - unfold WriteFrame, encodeFrame. rewrite W. simpl.
    assert (forall t, t <= TypePong -> (fType f =? t) = false) as Hne
      by (intros; apply Z.eqb_neq; lia).
    rewrite !Hne by (vm_compute; congruence). simpl. by eexists.
Qed.

(** A refused DATA frame corrupts the connection: [encodeFrame] leaves the
    frame's header in the buffered writer, the caller sees an error, but the
    next frame written on the same connection (anything but the opening HELLO)
    is reported as sent and the peer
    cannot read it: its [ReadFrame] fails on the bogus length, so the tunnel
    connection is lost. *)
Theorem oversize_data_poisons_conn (sid off : Z) (p rest : list byte) (g : Frame) (c c1 c2 : Conn)
    (Hc : conn_healthy c) (Hb : bw_buf (c_bw c) = []) (Hp : MaxPayload < len p)
    (Hsid : is_u64 sid) (Hoff : is_u64 off) (Hg : wf_frame g)
    (Hh : fType g <> TypeHello)
    (W1 : fst (WriteFrame (DataF sid off p) c) = c1) (W2 : WriteFrame g c1 = (c2, None)) :
  snd (WriteFrame (DataF sid off p) c) = Some (PayloadExceedsMax (len p)) /\
  exists wire n, conn_out c2 = conn_out c ++ wire /\
    ReadFrame (wire ++ rest) = Err (PayloadExceedsMax n).
Proof.
  unfold WriteFrame in W1 at 1 |- * at 1.
  rewrite oversize_encode in W1 |- * by (apply Hc || done).
  simpl in W1 |- *. subst c1.
  split; [done|].
  set (w1 := bw_copy _ _) in W2.
  assert (wr_step (frame_bytes g) w1 (c_bw c2) /\ bw_buf (c_bw c2) = [] /\
    bw_err (c_bw c2) = false) as (S & Hb2 & E2).
  { unfold WriteFrame in W2. simpl in W2. destruct (encodeFrame g w1) as [w e] eqn:E.
    apply encodeFrame_step in E as E'; [|done]. destruct E' as [S _].
    apply healthy_encodeFrame in E as [H2 ->]; [|apply healthy_copy, Hc|done].
    destruct (bw_Flush w) as [w2 ok] eqn:F. apply healthy_Flush in F as F'; [|done].
    destruct F' as [H3 ->]. injection W2 as <-. simpl.
    apply wr_step_Flush in F as (S2 & _ & Hb2); [|apply H2].
    split_and!; [|by apply Hb2|apply H3].
    rewrite <- (app_nil_r (frame_bytes g)). by eapply wr_step_trans. }
  unfold wr_step in S. change (bw_err w1) with (bw_err (c_bw c)) in S.
  rewrite (proj2 Hc), E2 in S. destruct S as (q & Ho & Hq).
  rewrite Hb2, app_nil_r in Hq. unfold w1 in Hq, Ho. simpl in Hq, Ho. rewrite Hb in Hq. simpl in Hq.
  destruct (residue_unreadable (DataF sid off p) g rest) as [n Hn]; [done..|].
  exists q, n. split; [done|]. by rewrite Hq.
Qed.

Definition demo_data : Frame := DataF 7 512 [x70; x61; x79].

Lemma demo_data_wf : wf_frame demo_data.
Proof. apply wf_data; vm_compute; (split; congruence) || congruence. Qed.

Lemma frame_roundtrip_witness :
  exists c, WriteFrame demo_data (NewConn new_sock) = (c, None) /\
    ReadFrame (conn_out c ++ [xff]) = Ok (demo_data, [xff]).
Proof. exact (frame_roundtrip demo_data [xff] demo_data_wf). Defined.

Lemma frame_stream_roundtrip_witness :
  read_all (conn_out (fst (write_frames [demo_data; demo_data] (NewConn new_sock))))
  = [demo_data; demo_data].
Proof.
  pose proof (frame_stream_roundtrip [demo_data; demo_data]) as H.
  destruct (write_frames _ _) as [c errs]. simpl.
  apply H. apply Forall_cons; split; [|apply Forall_cons; split; [|apply Forall_nil_2]];
    apply demo_data_wf.
Defined.

Lemma encode_refuses_oversize_witness :
  exists c', WriteFrame (MkFrame 10 "" 0 "" 0 [] 0 "" 0) (NewConn new_sock)
    = (c', Some (CannotEncode 10)) /\ conn_out c' = [].
Proof.
  apply (encode_refuses_oversize (MkFrame 10 "" 0 "" 0 [] 0 "" 0) (NewConn new_sock));
    [reflexivity|reflexivity|vm_compute; split; congruence].
Defined.

(** One byte above the limit. *)
Definition big_payload : list byte := repeat x00 (Z.to_nat (MaxPayload + 1)).

Lemma oversize_data_poisons_conn_witness :
  let c := NewConn new_sock in
  let c1 := fst (WriteFrame (DataF 1 0 big_payload) c) in
  let c2 := fst (WriteFrame (PongF 3) c1) in
  exists wire n, conn_out c2 = conn_out c ++ wire /\
    ReadFrame (wire ++ []) = Err (PayloadExceedsMax n).
Proof.
  eapply (oversize_data_poisons_conn 1 0 big_payload [] (PongF 3));
    [done|done| | | | |done|reflexivity|].
  - vm_compute. reflexivity.
  - unfold is_u64. lia.
  - unfold is_u64. lia.
  - constructor. unfold is_u64. lia.
  - vm_compute. reflexivity.
Defined.
