(* ===== verification/Link.v ===== *)
(** * Link: histories, truthful frames and connections that carry them

    Shared by the end-to-end proofs.  A byte history is everything one side
    ever produced; [at_offset H o p] says that [p] is what [H] holds at offset
    [o].  Histories only grow, and every fact here is stable under growth,
    which is what makes replayed, reordered and duplicated frames harmless. *)
From S2P Require Import Prelude ReplayBuffer Socket Wire.

(** ** Histories *)

Definition at_offset (H : list byte) (o : Z) (p : list byte) : Prop :=
  0 <= o <= len H /\ ztake o H ++ p `prefix_of` H.

Lemma at_offset_mono H H' o p : H `prefix_of` H' -> at_offset H o p -> at_offset H' o p.
Proof.
  intros [k ->] [Ho Hp]. split.
  - rewrite len_app. pose proof (len_nonneg k). lia.
  - rewrite ztake_app_le by lia. etrans; [done|]. by apply prefix_app_r.
Qed.

Lemma at_offset_end H p : at_offset (H ++ p) (len H) p.
Proof.
  pose proof (len_nonneg H). pose proof (len_nonneg p).
  split; [rewrite len_app; lia|]. by rewrite ztake_app_len.
Qed.

Lemma at_offset_bound H o p : at_offset H o p -> o + len p <= len H.
Proof.
  intros [Ho [k Hk]]. apply (f_equal len) in Hk. rewrite !len_app, len_ztake in Hk by done.
  pose proof (len_nonneg k). lia.
Qed.

Lemma at_offset_extend H o p : at_offset H o p -> ztake (o + len p) H = ztake o H ++ p.
Proof.
  intros Hp. pose proof (at_offset_bound _ _ _ Hp) as Hb. destruct Hp as [Ho [k Hk]].
  rewrite Hk at 1. replace (o + len p) with (len (ztake o H ++ p)).
  - by rewrite ztake_app_len.
  - by rewrite len_app, len_ztake.
Qed.

Lemma at_offset_skip H o p k :
  at_offset H o p -> 0 <= k <= len p -> at_offset H (o + k) (zdrop k p).
Proof.
  intros Hp Hk. pose proof (at_offset_bound _ _ _ Hp) as Hb.
  assert (at_offset H o (ztake k p)) as Hq.
  { destruct Hp as [Ho Hp]. split; [done|]. etrans; [|done].
    apply prefix_app, ztake_prefix. }
  apply at_offset_extend in Hq. rewrite len_ztake in Hq by done.
  destruct Hp as [Ho Hp]. split; [lia|].
  by rewrite Hq, <- app_assoc, ztake_zdrop.
Qed.

Lemma at_offset_zdrop H o : 0 <= o <= len H -> at_offset H o (zdrop o H).
Proof. intros. split; [done|]. by rewrite ztake_zdrop. Qed.

Lemma at_offset_prefix H o p q : q `prefix_of` p -> at_offset H o p -> at_offset H o q.
Proof. intros Hq [Ho Hp]. split; [done|]. etrans; [|done]. by apply prefix_app. Qed.

Lemma rep_from_at_offset b H acked o q :
  rb_rep b (MkStream H acked) -> From b o = Ok q -> at_offset H o q /\ len q <= rb_max b.
Proof.
  intros R. rewrite (rep_from R). simpl. pose proof (rep_range _ _ R). simpl in *.
  zcases; [done|done|]. intros [= <-]. split; [apply at_offset_zdrop; lia|].
  pose proof (rep_cap _ _ R). pose proof (rep_len R). simpl in *.
  rewrite len_zdrop by lia. lia.
Qed.

(** ** Sinks: a connection that receives a history in order *)

(** The bytes accepted by [u] are the first [n] bytes of [H]; a write that
    failed half way leaves some bytes of [H] more, and then nothing else is
    accepted. *)
Definition sink_ok (H : list byte) (n : Z) (u : sock) : Prop :=
  exists x, sk_out u = ztake n H ++ x /\ sk_out u `prefix_of` H /\
    (x = [] \/ sk_cap u = Some 0%nat).

Lemma sink_ok_mono H H' n u : H `prefix_of` H' -> n <= len H -> sink_ok H n u -> sink_ok H' n u.
Proof.
  intros [k ->] Hn (x & Hx & Hp & Hc). exists x. rewrite ztake_app_le by done.
  split_and!; [done| |done]. etrans; [done|]. by apply prefix_app_r.
Qed.

Lemma sink_ok_new H c : sink_ok H 0 (MkSock [] c false false).
Proof. exists []. split_and!; [done|apply prefix_nil|by left]. Qed.

Lemma sink_ok_same H n u u' :
  sk_out u' = sk_out u -> sk_cap u' = sk_cap u -> sink_ok H n u -> sink_ok H n u'.
Proof. intros E1 E2 (x & ?). exists x. by rewrite E1, E2. Qed.

Lemma sink_write H n p u u' ok :
  sink_ok H n u -> at_offset H n p -> sock_write p u = (u', ok) ->
  if ok then sink_ok H (n + len p) u' else sink_ok H n u'.
Proof.
  intros (x & Hx & Hp & Hc) Hat. unfold sock_write.
  destruct (_ || _); [intros [= <- <-]; by exists x|].
  pose proof (at_offset_extend _ _ _ Hat) as He. destruct Hat as [Hn Hat].
  destruct (sk_cap u) as [c|] eqn:Ec.
  2: { destruct Hc as [->|Hc]; [|done]. intros [= <- <-]. exists []. simpl.
       rewrite Hx, He, !app_nil_r. split_and!; [done|done|by left]. }
  destruct (Nat.leb_spec (length p) c) as [Hl|Hl]; intros [= <- <-].
  - destruct Hc as [->|[= ->]].
    + exists []. simpl. rewrite Hx, He, !app_nil_r. split_and!; [done|done|by left].
    + destruct p as [|b p]; [|simpl in Hl; lia]. exists x. simpl.
      rewrite app_nil_r, len_nil, Z.add_0_r. split_and!; [done|done|by right].
  - destruct Hc as [->|[= ->]].
    + exists (take c p). simpl. rewrite Hx, app_nil_r. split_and!; [done| |by right].
      etrans; [|done]. apply prefix_app. exists (drop c p). by rewrite take_drop.
    + exists x. simpl. rewrite app_nil_r. split_and!; [done|done|by right].
Qed.

Lemma sink_healthy_exact H n u : sock_healthy u -> sink_ok H n u -> sk_out u = ztake n H.
Proof. intros (Hc & _) (x & Hx & _ & [->|Hc']); [by rewrite Hx, app_nil_r|congruence]. Qed.

Lemma sink_counted H n u : n <= len H -> sink_ok H n u -> n <= len (sk_out u).
Proof.
  intros Hn (q & -> & _). rewrite len_app. pose proof (len_nonneg q). pose proof (len_nonneg (ztake n H)).
  destruct (Z.le_gt_cases 0 n); [rewrite len_ztake|]; lia.
Qed.

Lemma sink_prefix H n u : sink_ok H n u -> sk_out u `prefix_of` H.
Proof. by intros (x & _ & ? & _). Qed.

(** ** De-duplication by offset *)

(** What of [p], sent as starting at [o], is new to a receiver that has
    accepted everything below [acc]: the reference for both receivers. *)
Definition dedup (acc o : Z) (p : list byte) : option (list byte) :=
  if o <? acc then
    if u64 (acc - o) >=? len p then None else Some (zdrop (u64 (acc - o)) p)
  else if o >? acc then None else Some p.

Lemma dedup_spec H acc o p :
  at_offset H o p -> 0 <= acc < 2 ^ 64 ->
  match dedup acc o p with
  | Some q => at_offset H acc q /\ o <= acc /\ acc + len q = o + len p
  | None => o + len p <= acc \/ acc < o
  end.
Proof.
  intros Hp Hacc. pose proof (at_offset_bound _ _ _ Hp) as Hb. pose proof (proj1 Hp) as Ho.
  unfold dedup. zcases; rewrite ?u64_small in * by lia; [lia| |lia|].
  - pose proof (at_offset_skip _ _ _ (acc - o) Hp ltac:(lia)) as Hq.
    replace (o + (acc - o)) with acc in Hq by lia. rewrite len_zdrop by lia.
    split_and!; [done|lia..].
  - assert (o = acc) as -> by lia. done.
Qed.

(** ** Connections carrying only frames that satisfy [P] *)

Section net.
Context {C : Type} `{FrameWriterLaws C}.
Implicit Types (n : gmap nat C) (P Q : Frame -> Prop).

Definition net_ok P n : Prop :=
  map_Forall (fun _ c => fw_clean c /\ Forall P (fw_sent c)) n.

Lemma net_ok_impl P Q n : (forall f, P f -> Q f) -> net_ok P n -> net_ok Q n.
Proof.
  intros HPQ Hn tc c Hc. destruct (Hn tc c Hc) as [? HF]. split; [done|].
  eapply Forall_impl; eauto.
Qed.

Lemma net_ok_write P n tc c c' f ok :
  net_ok P n -> n !! tc = Some c -> postable f -> (wf_frame f -> P f) -> fw_write f c = (c', ok) ->
  net_ok P (<[tc:=c']> n).
Proof.
  intros Hn Hc Hf HP W. apply map_Forall_insert_2; [|done].
  destruct (Hn tc c Hc) as [Hcl HF].
  destruct (fw_write_spec f c c' ok Hcl Hf W) as [? [->|(_ & Hw & ->)]]; split; auto.
  apply Forall_app. auto.
Qed.

Lemma net_ok_insert P n tc c :
  net_ok P n -> fw_clean c -> Forall P (fw_sent c) -> net_ok P (<[tc:=c]> n).
Proof. intros Hn Hc HF. by apply map_Forall_insert_2. Qed.

(** The same for the connections that belong to one sidecar ([owns]), when
    those of others are in the map too. *)
Class Ownership : Type := owns : nat -> Prop.

Definition onet_ok {Own : Ownership} P n : Prop :=
  forall tc c, owns tc -> n !! tc = Some c -> fw_clean c /\ Forall P (fw_sent c).

Context {Own : Ownership}.

Lemma onet_ok_impl P Q n : (forall f, P f -> Q f) -> onet_ok P n -> onet_ok Q n.
Proof.
  intros HPQ Hn tc c Ho Hc. destruct (Hn tc c Ho Hc) as [? HF]. split; [done|]. eapply Forall_impl; eauto.
Qed.

Lemma onet_ok_insert P n tc c :
  onet_ok P n -> fw_clean c -> Forall P (fw_sent c) -> onet_ok P (<[tc:=c]> n).
Proof.
  intros Hn Hc HF tc' c' Ho. rewrite lookup_insert_Some. intros [[_ <-]|[_ E]]; [done|by apply (Hn tc')].
Qed.

(** Writing to a connection of somebody else needs no justification. *)
Lemma onet_ok_write P n tc c c' f ok :
  onet_ok P n -> n !! tc = Some c -> (owns tc -> postable f /\ (wf_frame f -> P f)) -> fw_write f c = (c', ok) ->
  onet_ok P (<[tc:=c']> n).
Proof.
  intros Hn Hc Hf W tc' x Ho. rewrite lookup_insert_Some. intros [[-> <-]|[_ E]]; [|by apply (Hn tc')].
  destruct (Hn tc' c Ho Hc) as [Hcl HF]. destruct (Hf Ho) as [Hwf HP].
  destruct (fw_write_spec f c c' ok Hcl Hwf W) as [? [->|(_ & Hw & ->)]]; split; auto.
  apply Forall_app. auto.
Qed.
End net.
