(* ===== verification/BrokerSession.v ===== *)
(** * BrokerSession: one agent-side connection, terminated at the broker

    Models [internal/broker/session.go] (and [tunnelConn.write]): the [session]
    struct, every method of it, and the upstream reader loop.  A method runs on
    [sst]: the session, the tunnel connections it may write to, and the calls
    it has made back into the broker ([wake], [removeSession]).  Methods that
    release the mutex around a blocking write are split at that point, and the
    method is the composition of its critical sections; [Interleavings] looks
    at what happens when another goroutine runs in between.

    The definitions are generic in the connection type, through [FrameWriter].
    [os_error] is the text of an operating-system write error. *)
From S2P Require Import Prelude ReplayBuffer Socket Wire.

(** ** State *)

Record session : Type := MkSession {
  s_actorID : string;
  s_sessionID : Z;
  s_target : string;
  s_tconn : option nat;            (* *tunnelConn *)
  s_upstream : option sock;        (* net.Conn *)
  s_connected : bool;
  s_preConn : list byte;
  s_downBuf : ReplayBuffer;
  s_upstreamWritten : Z;           (* uint64 *)
  s_requestOutstanding : bool;
  s_upClosed : bool;
  s_downClosed : bool;
  s_dead : bool;
  s_watchdog : option bool;        (* *time.Timer: nil, or still pending? *)
}.

Definition newSession (bufferBytes : Z) (actorID : string) (sessionID : Z) (target : string) : session :=
  MkSession actorID sessionID target None None false [] (NewReplayBuffer bufferBytes) 0
    false false false false None.

(** Field assignments. *)
Definition set_tconn (v : option nat) (s : session) : session :=
  MkSession (s_actorID s) (s_sessionID s) (s_target s) v (s_upstream s) (s_connected s)
    (s_preConn s) (s_downBuf s) (s_upstreamWritten s) (s_requestOutstanding s) (s_upClosed s)
    (s_downClosed s) (s_dead s) (s_watchdog s).
Definition set_upstream (v : option sock) (s : session) : session :=
  MkSession (s_actorID s) (s_sessionID s) (s_target s) (s_tconn s) v (s_connected s)
    (s_preConn s) (s_downBuf s) (s_upstreamWritten s) (s_requestOutstanding s) (s_upClosed s)
    (s_downClosed s) (s_dead s) (s_watchdog s).
Definition set_connected (v : bool) (s : session) : session :=
  MkSession (s_actorID s) (s_sessionID s) (s_target s) (s_tconn s) (s_upstream s) v
    (s_preConn s) (s_downBuf s) (s_upstreamWritten s) (s_requestOutstanding s) (s_upClosed s)
    (s_downClosed s) (s_dead s) (s_watchdog s).
Definition set_preConn (v : list byte) (s : session) : session :=
  MkSession (s_actorID s) (s_sessionID s) (s_target s) (s_tconn s) (s_upstream s) (s_connected s)
    v (s_downBuf s) (s_upstreamWritten s) (s_requestOutstanding s) (s_upClosed s)
    (s_downClosed s) (s_dead s) (s_watchdog s).
Definition set_downBuf (v : ReplayBuffer) (s : session) : session :=
  MkSession (s_actorID s) (s_sessionID s) (s_target s) (s_tconn s) (s_upstream s) (s_connected s)
    (s_preConn s) v (s_upstreamWritten s) (s_requestOutstanding s) (s_upClosed s)
    (s_downClosed s) (s_dead s) (s_watchdog s).
Definition set_upstreamWritten (v : Z) (s : session) : session :=
  MkSession (s_actorID s) (s_sessionID s) (s_target s) (s_tconn s) (s_upstream s) (s_connected s)
    (s_preConn s) (s_downBuf s) v (s_requestOutstanding s) (s_upClosed s)
    (s_downClosed s) (s_dead s) (s_watchdog s).
Definition set_requestOutstanding (v : bool) (s : session) : session :=
  MkSession (s_actorID s) (s_sessionID s) (s_target s) (s_tconn s) (s_upstream s) (s_connected s)
    (s_preConn s) (s_downBuf s) (s_upstreamWritten s) v (s_upClosed s)
    (s_downClosed s) (s_dead s) (s_watchdog s).
Definition set_upClosed (v : bool) (s : session) : session :=
  MkSession (s_actorID s) (s_sessionID s) (s_target s) (s_tconn s) (s_upstream s) (s_connected s)
    (s_preConn s) (s_downBuf s) (s_upstreamWritten s) (s_requestOutstanding s) v
    (s_downClosed s) (s_dead s) (s_watchdog s).
Definition set_downClosed (v : bool) (s : session) : session :=
  MkSession (s_actorID s) (s_sessionID s) (s_target s) (s_tconn s) (s_upstream s) (s_connected s)
    (s_preConn s) (s_downBuf s) (s_upstreamWritten s) (s_requestOutstanding s) (s_upClosed s)
    v (s_dead s) (s_watchdog s).
Definition set_dead (v : bool) (s : session) : session :=
  MkSession (s_actorID s) (s_sessionID s) (s_target s) (s_tconn s) (s_upstream s) (s_connected s)
    (s_preConn s) (s_downBuf s) (s_upstreamWritten s) (s_requestOutstanding s) (s_upClosed s)
    (s_downClosed s) v (s_watchdog s).
Definition set_watchdog (v : option bool) (s : session) : session :=
  MkSession (s_actorID s) (s_sessionID s) (s_target s) (s_tconn s) (s_upstream s) (s_connected s)
    (s_preConn s) (s_downBuf s) (s_upstreamWritten s) (s_requestOutstanding s) (s_upClosed s)
    (s_downClosed s) (s_dead s) v.

(** Calls from the session into the broker. *)
Inductive event : Type :=
| EvWake (actorID reason : string)          (* b.wake *)
| EvRemove (actorID : string) (sessionID : Z). (* b.removeSession *)

#[export] Instance event_eq_dec : EqDecision event.
Proof. solve_decision. Defined.

Record sst (C : Type) : Type := MkSst {
  ss : session;
  net : gmap nat C;
  evs : list event;
}.
Arguments MkSst {C} _ _ _.
Arguments ss {C} _.
Arguments net {C} _.
Arguments evs {C} _.

(** Outcomes of [produceDownstream]: done, waiting on the condition variable
    with [rest] still to append, or one of its error returns. *)
Inductive produce_result : Type :=
| PDone
| PBlocked (rest : list byte)
| PDead
| PErr (e : rb_error)
| PFuel.

Section ops.
Context {C : Type} `{FrameWriter C} (os_error : string).
Implicit Types (st : sst C) (s : session).

Definition upd (f : session -> session) (st : sst C) : sst C := MkSst (f (ss st)) (net st) (evs st).

Definition emit (e : event) (st : sst C) : sst C := MkSst (ss st) (net st) (evs st ++ [e]).

(** [tunnelConn.write]. *)
Definition tc_write (tc : nat) (f : Frame) (st : sst C) : sst C * bool :=
  match net st !! tc with
  | Some c => let '(c', ok) := fw_write f c in (MkSst (ss st) (<[tc:=c']> (net st)) (evs st), ok)
  | None => (st, false)
  end.

(** [s.b.wake(s.actorID, reason)]. *)
Definition wake (reason : string) (st : sst C) : sst C := emit (EvWake (s_actorID (ss st)) reason) st.

(** The part of [bind] that touches the session. *)
Definition bind (tc : nat) (st : sst C) : sst C := upd (set_tconn (Some tc)) st.

Definition detach (tc : nat) (st : sst C) : sst C :=
  if decide (s_tconn (ss st) = Some tc) then
    let st := upd (set_tconn None) st in
    let s := ss st in
    if s_requestOutstanding s && ((Len (s_downBuf s) >? 0) || s_downClosed s)
    then wake "undelivered data on detach" st
    else st
  else st.

Definition sendToSidecar (f : Frame) (st : sst C) : sst C :=
  match s_tconn (ss st) with
  | None => st
  | Some tc => let '(st, ok) := tc_write tc f st in if ok then st else detach tc st
  end.

Definition destroy (st : sst C) : sst C :=
  let s := ss st in
  if s_dead s then st
  else
    let st := upd (fun s => set_watchdog (option_map (fun _ => false) (s_watchdog s))
                             (set_upstream (option_map sock_close (s_upstream s))
                               (set_dead true s))) st in
    emit (EvRemove (s_actorID s) (s_sessionID s)) st.

Definition maybeDestroy (st : sst C) : sst C :=
  let s := ss st in
  if s_upClosed s && s_downClosed s && (Len (s_downBuf s) =? 0) then destroy st else st.

(** [closeUpstream]; [cause] is [None] for nil and [io.EOF], otherwise the
    error's text. *)
Definition closeUpstream (cause : option string) (st : sst C) : sst C :=
  if s_downClosed (ss st) then st
  else
    let st := upd (set_downClosed true) st in
    let pending := s_requestOutstanding (ss st) in
    let bound := bool_decide (s_tconn (ss st) <> None) in
    let reason := default "upstream EOF" cause in
    let st :=
      if bound then sendToSidecar (CloseF (s_sessionID (ss st)) DirDown reason) st
      else if pending then wake "upstream close on pending session" st
      else st in
    maybeDestroy st.

Definition armWatchdogLocked (s : session) : session := set_watchdog (Some true) s.

(** The timer callback. *)
Definition watchdog_fire (st : sst C) : sst C :=
  let st := upd (set_watchdog (Some false)) st in
  let s := ss st in
  if negb (s_dead s) && s_requestOutstanding s && bool_decide (s_tconn s = None)
  then wake "max-suspend watchdog" st else st.

(** [dialUpstream] up to the unlock after a successful dial: the bytes to
    flush, or [None] when the session died meanwhile. *)
Definition dial_connect (conn : sock) (st : sst C) : sst C * option (list byte) :=
  let s := ss st in
  if s_dead s then (st, None)
  else (upd (fun s => armWatchdogLocked (set_preConn [] (set_connected true
          (set_upstream (Some conn) s)))) st, Some (s_preConn s)).

(** The commit after a successful upstream write of [n] bytes: new offset,
    request outstanding, ack. *)
Definition commit_upstream (n : Z) (st : sst C) : sst C :=
  let st := upd (fun s => set_requestOutstanding true
                            (set_upstreamWritten (u64 (s_upstreamWritten s + n)) s)) st in
  sendToSidecar (AckF (s_sessionID (ss st)) (s_upstreamWritten (ss st))) st.

(** [conn.Write] on the upstream connection. *)
Definition up_write (p : list byte) (st : sst C) : sst C * bool :=
  match s_upstream (ss st) with
  | None => (st, false)
  | Some u => let '(u', ok) := sock_write p u in (upd (set_upstream (Some u')) st, ok)
  end.

(** The flush of [pre] outside the lock and the commit that follows; [true]
    when the reader loop is started. *)
Definition dial_flush (pre : list byte) (st : sst C) : sst C * bool :=
  if len pre >? 0 then
    let '(st, ok) := up_write pre st in
    if ok then (commit_upstream (len pre) st, true)
    else (closeUpstream (Some os_error) st, false)
  else (st, true).

(** [dialUpstream], given the result of the dial. *)
Definition dialUpstream (dialed : res string sock) (st : sst C) : sst C * bool :=
  match dialed with
  | Err e =>
      let st := sendToSidecar (CloseF (s_sessionID (ss st)) DirDown ("dial failed: " +:+ e)) st in
      (destroy st, false)
  | Ok conn =>
      let '(st, pre) := dial_connect conn st in
      match pre with
      | None => (st, false)
      | Some pre => dial_flush pre st
      end
  end.

(** Forwarding the chunk just appended, if a connection is bound; a failed
    write only unbinds it. *)
Definition try_forward (startOffset : Z) (chunk : list byte) (st : sst C) : sst C :=
  match s_tconn (ss st) with
  | Some tc =>
      let '(st, ok) := tc_write tc (DataF (s_sessionID (ss st)) startOffset chunk) st in
      if ok then st else upd (set_tconn None) st
  | None => st
  end.

Definition wake_if_detached (st : sst C) : sst C :=
  if bool_decide (s_tconn (ss st) = None) && s_requestOutstanding (ss st)
  then wake "downstream data on pending session" st else st.

(** One turn of [produceDownstream]'s loop per unit of fuel; every turn that
    does not block appends at least one byte. *)
Fixpoint produce_loop (fuel : nat) (p : list byte) (st : sst C) : sst C * produce_result :=
  match p, fuel with
  | [], _ => (st, PDone)
  | _, O => (st, PFuel)
  | _, S fuel =>
      if s_dead (ss st) then (st, PDead)
      else
        let free := Free (s_downBuf (ss st)) in
        if free =? 0 then (st, PBlocked p)
        else
          let take := if len p >? free then free else len p in
          let chunk := ztake take p in
          let startOffset := End_ (s_downBuf (ss st)) in
          match Append (s_downBuf (ss st)) chunk with
          | Err e => (st, PErr e)
          | Ok b =>
              let st := upd (set_downBuf b) st in
              let st := try_forward startOffset chunk st in
              let st := wake_if_detached st in
              produce_loop fuel (zdrop take p) st
          end
  end.

Definition produceDownstream (p : list byte) (st : sst C) : sst C * produce_result :=
  produce_loop (length p) p st.

(** One turn of [readUpstreamLoop]: [p] is what [Read] returned (it may be
    empty) and [err] its error, if any ([Some None] is [io.EOF]).  The result
    is what is left to append when the loop blocks, and whether it goes on. *)
Inductive read_next : Type := RNext | RStopped | RWait (rest : list byte) (err : option (option string)).

Definition readUpstream (p : list byte) (err : option (option string)) (st : sst C) : sst C * read_next :=
  let '(st, r) := match p with [] => (st, PDone) | _ => produceDownstream p st end in
  match r with
  | PBlocked rest => (st, RWait rest err)
  | PDone => match err with
             | Some cause => (closeUpstream cause st, RStopped)
             | None => (st, RNext)
             end
  | _ => (destroy st, RStopped)
  end.

(** [onData] up to the unlock before the upstream write: the bytes to write,
    if any. *)
Definition onData_check (offset : Z) (payload : list byte) (s : session) : session * option (list byte) :=
  if s_dead s then (s, None)
  else if negb (s_connected s) then
    let accepted := u64 (s_upstreamWritten s + len (s_preConn s)) in
    if offset <? accepted then
      let skip := u64 (accepted - offset) in
      if skip >=? len payload then (s, None)
      else (set_preConn (s_preConn s ++ zdrop skip payload) s, None)
    else if offset >? accepted then (s, None)
    else (set_preConn (s_preConn s ++ payload) s, None)
  else if offset <? s_upstreamWritten s then
    let skip := u64 (s_upstreamWritten s - offset) in
    if skip >=? len payload then (s, None) else (s, Some (zdrop skip payload))
  else if offset >? s_upstreamWritten s then (s, None)
  else (s, Some payload).

(** The upstream write and the commit. *)
Definition onData_write (payload : list byte) (st : sst C) : sst C :=
  let '(st, ok) := up_write payload st in
  if ok then commit_upstream (len payload) (upd armWatchdogLocked st)
  else closeUpstream (Some os_error) st.

Definition onData (offset : Z) (payload : list byte) (st : sst C) : sst C :=
  let '(s, w) := onData_check offset payload (ss st) in
  let st := upd (fun _ => s) st in
  match w with None => st | Some p => onData_write p st end.

Definition onDownstreamAck (offset : Z) (st : sst C) : sst C :=
  upd (fun s =>
    let s := set_downBuf (TrimTo (s_downBuf s) offset) s in
    if Len (s_downBuf s) =? 0 then set_requestOutstanding false s else s) st.

Definition onSidecarAttach (deliveredOffset : Z) (st : sst C) : sst C :=
  let s := ss st in
  let written := s_upstreamWritten s in
  let replay := match From (s_downBuf s) deliveredOffset with Ok p => p | Err _ => [] end in
  let downClosed := s_downClosed s && (End_ (s_downBuf s) =? u64 (deliveredOffset + len replay)) in
  let st := sendToSidecar (AttachOKF (s_sessionID s) written) st in
  let st := if len replay >? 0 then sendToSidecar (DataF (s_sessionID s) deliveredOffset replay) st else st in
  if downClosed then sendToSidecar (CloseF (s_sessionID s) DirDown "upstream EOF") st else st.

Definition onSidecarClose (dir : Z) (reason : string) (st : sst C) : sst C :=
  if negb (dir =? DirUp) then st
  else
    let st := upd (fun s => set_upstream (option_map sock_close_write (s_upstream s))
                              (set_upClosed true s)) st in
    maybeDestroy st.

(** The operations another goroutine can run on a session, so that a history
    of the session is a list of them. *)
Inductive sop : Type :=
| OBind (tc : nat)
| ODetach (tc : nat)
| ODial (dialed : res string sock)
| ORead (p : list byte) (err : option (option string))
| OData (offset : Z) (payload : list byte)
| OAck (offset : Z)
| OAttach (tc : nat) (delivered : Z)
| OClose (dir : Z) (reason : string)
| OWatchdog
| OSend (f : Frame).

Definition sexec (o : sop) (st : sst C) : sst C :=
  match o with
  | OBind tc => bind tc st
  | ODetach tc => detach tc st
  | ODial r => fst (dialUpstream r st)
  | ORead p err => fst (readUpstream p err st)
  | OData o p => onData o p st
  | OAck o => onDownstreamAck o st
  | OAttach tc d => onSidecarAttach d (bind tc st)
  | OClose d r => onSidecarClose d r st
  | OWatchdog => watchdog_fire st
  | OSend f => sendToSidecar f st
  end.
End ops.

(** [session.info], the debug snapshot. *)
Record SessionInfo : Type := MkSessionInfo {
  si_ActorID : string;
  si_SessionID : Z;
  si_Target : string;
  si_Attached : bool;
  si_Pending : bool;
  si_UpBufferBytes : Z;
  si_DownBufBytes : Z;
  si_UpstreamAlive : bool;
}.

Definition info (k : string * Z) (s : session) : SessionInfo :=
  MkSessionInfo (fst k) (snd k) (s_target s) (bool_decide (s_tconn s <> None))
    (s_requestOutstanding s) 0 (Len (s_downBuf s))
    (bool_decide (s_upstream s <> None) && negb (s_dead s)).

(** ** Wake policy: vocabulary *)

(** A request awaits its response and no tunnel connection is bound. *)
Definition pend_det (s : session) : Prop := s_tconn s = None /\ s_requestOutstanding s = true.

(** The agent is owed something that only a re-attach can deliver. *)
Definition owed (s : session) : Prop :=
  pend_det s /\ (0 < Len (s_downBuf s) \/ s_downClosed s = true).

#[export] Instance pend_det_dec s : Decision (pend_det s).
Proof. unfold pend_det. solve_decision. Defined.
#[export] Instance owed_dec s : Decision (owed s).
Proof. unfold owed. solve_decision. Defined.

(** The guard under which bytes from the sidecar arrive: over the bound
    connection, or before anything was produced downstream. *)
Definition fed_while_bound (s : session) : Prop :=
  s_tconn s <> None \/ (Len (s_downBuf s) <= 0 /\ s_downClosed s = false).

Section wake.
Context {C : Type} `{FrameWriter C} (os_error : string).
(** With [G] the no-lost-wake half is claimed too. *)
Context (G : Prop).
Implicit Types (st : sst C).

(** What a piece of session code may do as far as waking is concerned. *)
Record step_ok st st' : Prop := {
  so_evs : exists es, evs st' = evs st ++ es /\
    (forall a r, EvWake a r ∈ es -> a = s_actorID (ss st) /\ pend_det (ss st')) /\
    (G -> ~ owed (ss st) -> owed (ss st') -> exists r, EvWake (s_actorID (ss st)) r ∈ es);
  so_keep : pend_det (ss st) -> pend_det (ss st');
  so_actor : s_actorID (ss st') = s_actorID (ss st);
}.

Lemma step_ok_trans st1 st2 st3 : step_ok st1 st2 -> step_ok st2 st3 -> step_ok st1 st3.
Proof.
  intros [(es1 & E1 & W1 & O1) K1 A1] [(es2 & E2 & W2 & O2) K2 A2].
  split; [|auto|congruence].
  exists (es1 ++ es2). rewrite E2, E1, app_assoc. split_and!; [done| |].
  - intros a r [Hr|Hr]%elem_of_app; [destruct (W1 a r Hr)|destruct (W2 a r Hr)]; auto.
    split; [congruence|done].
  - intros g H1 H3. destruct (decide (owed (ss st2))) as [H2|H2].
    + destruct (O1 g H1 H2) as [r ?]. exists r. apply elem_of_app. by left.
    + destruct (O2 g H2 H3) as [r Hr]. exists r. rewrite A1 in Hr. apply elem_of_app. by right.
Qed.

(** Code that makes no callback and keeps the fields the policy looks at. *)
Lemma step_ok_silent st st' :
  evs st' = evs st -> s_actorID (ss st') = s_actorID (ss st) ->
  (pend_det (ss st) -> pend_det (ss st')) ->
  (G -> owed (ss st') -> owed (ss st)) -> step_ok st st'.
Proof.
  intros E A K O. split; [|done|done]. exists []. rewrite E, app_nil_r.
  split_and!; [done|set_solver|tauto].
Qed.

Lemma step_ok_refl st : step_ok st st.
Proof. by apply step_ok_silent. Qed.

Lemma step_ok_upd f st :
  s_actorID (f (ss st)) = s_actorID (ss st) -> s_tconn (f (ss st)) = s_tconn (ss st) ->
  s_requestOutstanding (f (ss st)) = s_requestOutstanding (ss st) ->
  s_downBuf (f (ss st)) = s_downBuf (ss st) -> s_downClosed (f (ss st)) = s_downClosed (ss st) ->
  step_ok st (upd f st).
Proof.
  intros A T R D Cl. apply step_ok_silent; [done|done| |];
    unfold owed, pend_det; simpl; rewrite ?T, ?R, ?D, ?Cl; done.
Qed.

Lemma step_ok_wake reason st :
  pend_det (ss st) -> step_ok st (wake reason st).
Proof.
  intros P. split; [|done|done]. exists [EvWake (s_actorID (ss st)) reason].
  split_and!; [done| |].
  - intros a r ?%list_elem_of_singleton. naive_solver.
  - intros _ _ _. exists reason. by apply list_elem_of_singleton.
Qed.

Lemma tc_write_ss tc f st st' ok :
  tc_write tc f st = (st', ok) -> ss st' = ss st /\ evs st' = evs st.
Proof.
  unfold tc_write. destruct (net st !! tc); [|by intros [= <- <-]].
  destruct (fw_write f c) as [c' ok']. by intros [= <- <-].
Qed.

Lemma step_ok_tc_write tc f st st' ok : tc_write tc f st = (st', ok) -> step_ok st st'.
Proof.
  intros [E1 E2]%tc_write_ss. apply step_ok_silent; rewrite ?E1; done.
Qed.

Lemma step_ok_detach tc st : step_ok st (detach tc st).
Proof.
  unfold detach. destruct (decide _) as [E|_]; [|apply step_ok_refl].
  set (st1 := upd (set_tconn None) st).
  destruct (s_requestOutstanding (ss st1)) eqn:R; cbn [andb].
  - destruct ((Len (s_downBuf (ss st1)) >? 0) || s_downClosed (ss st1)) eqn:B.
    + split; [|intros []; congruence|done].
      exists [EvWake (s_actorID (ss st)) "undelivered data on detach"]. split_and!; [done| |].
      * intros a r ?%list_elem_of_singleton. simplify_eq. done.
      * intros _ _ _. eexists. by apply list_elem_of_singleton.
    + apply orb_false_iff in B as [B1 B2]. rewrite Z.gtb_ltb, Z.ltb_ge in B1.
      apply step_ok_silent; [done|done|intros []; congruence|].
      intros _ (_ & [Ho|Ho]); [lia|congruence].
  - apply step_ok_silent; [done|done|intros []; congruence|].
    intros _ ([_ Ho] & _). simpl in *. congruence.
Qed.

Lemma step_ok_send f st : step_ok st (sendToSidecar f st).
Proof.
  unfold sendToSidecar. destruct (s_tconn (ss st)) as [tc|]; [|apply step_ok_refl].
  destruct (tc_write tc f st) as [st1 ok] eqn:W. apply step_ok_tc_write in W.
  destruct ok; [done|]. eapply step_ok_trans; [done|apply step_ok_detach].
Qed.

Lemma step_ok_destroy st : step_ok st (destroy st).
Proof.
  unfold destroy. destruct (s_dead (ss st)); [apply step_ok_refl|].
  split; [|done|done]. eexists. split_and!; [reflexivity| |].
  - intros a r ?%list_elem_of_singleton. done.
  - done.
Qed.

Lemma step_ok_maybeDestroy st : step_ok st (maybeDestroy st).
Proof. unfold maybeDestroy. destruct (_ && _); [apply step_ok_destroy|apply step_ok_refl]. Qed.

(** Marking the stream closed and waking, or sending the close. *)
Lemma step_ok_closeUpstream cause st : step_ok st (closeUpstream cause st).
Proof.
  unfold closeUpstream. destruct (s_downClosed (ss st)) eqn:D; [apply step_ok_refl|].
  set (st1 := upd (set_downClosed true) st).
  eapply step_ok_trans; [|apply step_ok_maybeDestroy].
  destruct (s_tconn (ss st)) as [tc|] eqn:T.
  - rewrite bool_decide_eq_true_2 by (simpl; congruence).
    eapply step_ok_trans; [|apply step_ok_send].
    apply step_ok_silent; [done|done|done|]. intros _ [[Ho _] _]. simpl in Ho. congruence.
  - rewrite bool_decide_eq_false_2 by (simpl; rewrite T; naive_solver).
    destruct (s_requestOutstanding (ss st1)) eqn:R; simpl in R.
    + assert (pend_det (ss st1)) as P by done.
      destruct (step_ok_wake "upstream close on pending session" st1 P) as [(es & E & W & _) K A].
      split; [|done|done]. exists es. split_and!; [done|done|].
      intros _ _ _. assert (es = [EvWake (s_actorID (ss st)) "upstream close on pending session"]) as ->
        by (by apply app_inv_head in E).
      eexists. by apply list_elem_of_singleton.
    + apply step_ok_silent; [done|done|done|]. intros _ [[_ Ho] _]. simpl in Ho. congruence.
Qed.

Lemma up_write_ss p st st' ok :
  up_write p st = (st', ok) ->
  (st' = st \/ exists u, st' = upd (set_upstream (Some u)) st) /\ net st' = net st.
Proof.
  unfold up_write. destruct (s_upstream (ss st)) as [u|]; [|naive_solver].
  destruct (sock_write p u) as [u' ok']. intros [= <- <-]. eauto.
Qed.

Lemma step_ok_up_write p st st' ok : up_write p st = (st', ok) -> step_ok st st'.
Proof.
  intros [[->|[u ->]] _]%up_write_ss; [apply step_ok_refl|by apply step_ok_upd].
Qed.

Lemma step_ok_commit n st : (G -> fed_while_bound (ss st)) -> step_ok st (commit_upstream n st).
Proof.
  intros F. unfold commit_upstream. eapply step_ok_trans; [|apply step_ok_send].
  apply step_ok_silent; [done|done|intros []; done|].
  intros g [[Ho1 Ho2] Ho3]. specialize (F g). simpl in *. unfold fed_while_bound in F.
  destruct F as [F|[F1 F2]]; [done|]. destruct Ho3; [lia|congruence].
Qed.

Lemma fed_up_write p st st' ok :
  up_write p st = (st', ok) -> fed_while_bound (ss st) -> fed_while_bound (ss st').
Proof. intros [[->|[u ->]] _]%up_write_ss; done. Qed.

Lemma step_ok_onData_check o p s s' w :
  onData_check o p s = (s', w) ->
  s_actorID s' = s_actorID s /\ s_tconn s' = s_tconn s /\
  s_requestOutstanding s' = s_requestOutstanding s /\
  s_downBuf s' = s_downBuf s /\ s_downClosed s' = s_downClosed s.
Proof.
  unfold onData_check. intros E.
  repeat (case_match; simplify_eq; try done).
Qed.

Lemma step_ok_onData o p st :
  (G -> fed_while_bound (ss st)) -> step_ok st (onData os_error o p st).
Proof.
  intros F. unfold onData. destruct (onData_check o p (ss st)) as [s w] eqn:E.
  apply step_ok_onData_check in E as (E1 & E2 & E3 & E4 & E5).
  set (st1 := upd (fun _ => s) st).
  assert (step_ok st st1) as S1 by (by apply step_ok_upd).
  destruct w as [q|]; [|done]. eapply step_ok_trans; [done|].
  unfold onData_write. destruct (up_write q st1) as [st2 ok] eqn:W.
  assert (G -> fed_while_bound (ss st1)) as F1
    by (unfold fed_while_bound; simpl; by rewrite E2, E4, E5).
  pose proof (fun g => fed_up_write _ _ _ _ W (F1 g)) as F2. apply step_ok_up_write in W.
  eapply step_ok_trans; [done|]. destruct ok; [|apply step_ok_closeUpstream].
  eapply step_ok_trans; [|by apply step_ok_commit]. by apply step_ok_upd.
Qed.

Lemma step_ok_dial r st :
  (G -> fed_while_bound (ss st)) -> step_ok st (fst (dialUpstream os_error r st)).
Proof.
  intros F. unfold dialUpstream. destruct r as [conn|e]; [|simpl].
  2: { eapply step_ok_trans; [apply step_ok_send|apply step_ok_destroy]. }
  unfold dial_connect. destruct (s_dead (ss st)); [apply step_ok_refl|].
  set (st1 := upd _ st).
  assert (step_ok st st1) as S1 by (by apply step_ok_upd).
  eapply step_ok_trans; [done|]. unfold dial_flush.
  destruct (_ >? 0); [|apply step_ok_refl].
  destruct (up_write _ st1) as [st2 ok] eqn:W.
  pose proof (fun g => fed_up_write _ _ _ _ W (F g)) as F2. apply step_ok_up_write in W.
  eapply step_ok_trans; [done|]. destruct ok; [by apply step_ok_commit|apply step_ok_closeUpstream].
Qed.

(** Forwarding changes nothing of the session but the binding. *)
Lemma try_forward_ss o q st :
  let st' := try_forward o q st in
  evs st' = evs st /\ s_actorID (ss st') = s_actorID (ss st) /\
  s_requestOutstanding (ss st') = s_requestOutstanding (ss st) /\
  (exists v, ss st' = set_tconn v (ss st)) /\
  s_downBuf (ss st') = s_downBuf (ss st) /\
  (s_tconn (ss st') = s_tconn (ss st) \/ s_tconn (ss st') = None).
Proof.
  unfold try_forward. destruct (s_tconn (ss st)) as [tc|] eqn:T; simpl.
  - destruct (tc_write _ _ _) as [st3 ok] eqn:W. apply tc_write_ss in W as [W1 W2].
    destruct ok; simpl; rewrite ?W1, ?W2; split_and!; auto; [|by exists None].
    exists (Some tc). rewrite <- T. by destruct (ss st).
  - split_and!; auto. exists None. rewrite <- T. by destruct (ss st).
Qed.

Lemma step_ok_produce fuel p st : step_ok st (fst (produce_loop fuel p st)).
Proof.
  revert p st. induction fuel as [|fuel IH]; intros p st; destruct p as [|b p]; simpl;
    try apply step_ok_refl.
  destruct (s_dead (ss st)); [apply step_ok_refl|].
  destruct (_ =? 0); [apply step_ok_refl|].
  set (n := if _ >? _ then _ else _).
  destruct (Append _ _) as [d|e]; [|apply step_ok_refl].
  set (st1 := upd (set_downBuf d) st).
  eapply step_ok_trans; [|apply IH].
  set (o := End_ _). set (q := ztake _ _).
  destruct (try_forward_ss o q st1) as (E2 & A2 & R2 & _ & _ & T2).
  set (st2 := try_forward o q st1) in *. unfold wake_if_detached.
  change (s_actorID (ss st1)) with (s_actorID (ss st)) in A2.
  change (evs st1) with (evs st) in E2.
  assert (pend_det (ss st) -> pend_det (ss st2)) as K.
  { intros [P1 P2]. split; [destruct T2; simpl in *; congruence|simpl in *; congruence]. }
  destruct (bool_decide (s_tconn (ss st2) = None) && s_requestOutstanding (ss st2)) eqn:B.
  - apply andb_true_iff in B as [B1%bool_decide_eq_true B2].
    destruct (step_ok_wake "downstream data on pending session" st2) as [(es & E & W & _) K2 A];
      [done|].
    split; [|auto|congruence]. exists es. rewrite E, E2. split_and!; [done| |].
    + intros a r Hr. rewrite A2 in W. eauto.
    + intros _ _ _. simpl in E. apply app_inv_head in E as <-. rewrite A2.
      eexists. by apply list_elem_of_singleton.
  - apply step_ok_silent; [done|done|done|].
    intros _ [[Ho1 Ho2] _]. rewrite Ho1, Ho2 in B. done.
Qed.

Lemma step_ok_read p err st : step_ok st (fst (readUpstream p err st)).
Proof.
  unfold readUpstream.
  assert (step_ok st (fst (match p with [] => (st, PDone) | _ => produceDownstream p st end))) as S.
  { destruct p; [apply step_ok_refl|apply step_ok_produce]. }
  destruct (match p with [] => _ | _ => _ end) as [st1 r]. simpl in S.
  eapply step_ok_trans; [done|].
  destruct r; [destruct err|..]; simpl; try apply step_ok_destroy; try apply step_ok_refl.
  apply step_ok_closeUpstream.
Qed.

Lemma step_ok_attach d st : step_ok st (onSidecarAttach d st).
Proof.
  unfold onSidecarAttach. eapply step_ok_trans; [apply step_ok_send|].
  destruct (_ >? 0); [eapply step_ok_trans; [apply step_ok_send|]|];
    (destruct (_ && _); [apply step_ok_send|apply step_ok_refl]).
Qed.

Lemma step_ok_close d r st : step_ok st (onSidecarClose d r st).
Proof.
  unfold onSidecarClose. destruct (negb _); [apply step_ok_refl|].
  eapply step_ok_trans; [|apply step_ok_maybeDestroy]. by apply step_ok_upd.
Qed.

Lemma step_ok_watchdog st : step_ok st (watchdog_fire st).
Proof.
  unfold watchdog_fire. set (st1 := upd _ st).
  assert (step_ok st st1) as S1 by (by apply step_ok_upd).
  destruct (_ && _ && _) eqn:B; [|done].
  apply andb_true_iff in B as [[_ B1]%andb_true_iff B2%bool_decide_eq_true].
  eapply step_ok_trans; [done|by apply step_ok_wake].
Qed.
End wake.

(** ** Wake policy: properties *)

Section wake_properties.
Context {C : Type} `{FrameWriter C} (os_error : string).
Implicit Types (st : sst C).

(** Operations that feed request bytes; the no-lost-wake guarantee needs the
    guard for them, and [OBind] and [OAck] only ever cancel a debt. *)
Definition feeds (o : sop) : bool :=
  match o with OData _ _ | ODial _ => true | _ => false end.

Lemma sexec_events (G : Prop) o st :
  (G -> feeds o = true -> fed_while_bound (ss st)) ->
  let st' := sexec os_error o st in
  exists es, evs st' = evs st ++ es /\
    (forall a r, EvWake a r ∈ es -> a = s_actorID (ss st) /\ pend_det (ss st')) /\
    (G -> ~ owed (ss st) -> owed (ss st') -> exists r, EvWake (s_actorID (ss st)) r ∈ es).
Proof.
  intros F st'. unfold st'. destruct o as [tc|tc|r|p err|o p|o|tc d|d r| |f]; simpl.
  - exists []. rewrite app_nil_r. split_and!; [done|set_solver|]. intros _ _ [[? _] _]. done.
  - apply (step_ok_detach G).
  - apply (step_ok_dial os_error G). auto.
  - apply (step_ok_read G).
  - apply (step_ok_onData os_error G). auto.
  - exists []. rewrite app_nil_r. split_and!; [done|set_solver|].
    intros _ Hn Ho. exfalso. apply Hn. revert Ho. unfold onDownstreamAck, owed, pend_det. simpl.
    destruct (Z.eqb_spec (Len (TrimTo (s_downBuf (ss st)) o)) 0) as [E|E]; simpl;
      [intros [[_ ?] _]; done|].
    intros [[T R] [L|D]]; [|auto]. split; [done|]. left.
    eapply Z.lt_le_trans; [exact L|apply TrimTo_shrinks].
  - destruct (step_ok_attach G d (bind tc st)) as [(es & E & W & O) _ _].
    exists es. split_and!; [done|done|]. intros g _ Ho. apply O; [done|by intros [[? _] _]|done].
  - apply (step_ok_close G).
  - apply (step_ok_watchdog G).
  - apply (step_ok_send G).
Qed.

(** C11. Every wake is justified: whatever the session does, it asks for the actor
    to be resumed only for its own actor and only when it ends up detached
    with a request still awaiting its response.  Traffic on a quiescent or
    attached session never resurrects a suspended actor. *)
Theorem wake_only_when_pending_and_detached (o : sop) st a r es
    (E : evs (sexec os_error o st) = evs st ++ es) (Hw : EvWake a r ∈ es) :
  a = s_actorID (ss st) /\ s_tconn (ss (sexec os_error o st)) = None /\
  s_requestOutstanding (ss (sexec os_error o st)) = true.
Proof.
  destruct (sexec_events False o st) as (es' & E' & W & _); [done|].
  rewrite E in E'. apply app_inv_head in E' as <-. apply (W a r Hw).
Qed.

(** C10. No wake is lost, one operation after the other: when an operation leaves the
    session owing undelivered data or a close to a detached agent with a request
    outstanding, and it did not owe it before, the operation itself has asked for
    the resume, even if every tunnel write on the way failed.  Request bytes are
    the exception the guard makes: for [onData] and the dial it is assumed that
    the session is bound, or has nothing buffered and its destination open
    ([fed_while_bound]).  A request that reaches a session already detached with
    undelivered data makes it owe them without a wake; only the watchdog, armed
    by the same operation, is left. *)
Theorem no_wake_is_lost (o : sop) st
    (F : feeds o = true -> fed_while_bound (ss st))
    (Hbefore : ~ owed (ss st)) (Hafter : owed (ss (sexec os_error o st))) :
  exists r es, evs (sexec os_error o st) = evs st ++ es /\ EvWake (s_actorID (ss st)) r ∈ es.
Proof.
  destruct (sexec_events True o st) as (es & E & _ & O); [auto|].
  destruct (O I Hbefore Hafter) as [r Hr]. eauto.
Qed.
End wake_properties.

(** A detached session with a request outstanding, when the response arrives. *)
Definition demo_pending : sst Conn :=
  MkSst (set_requestOutstanding true (newSession 8 "ns/a" 1 "mcp:80")) ∅ [].

Lemma wake_only_when_pending_and_detached_witness :
  evs (sexec "reset" (ORead [x61] None) demo_pending) =
    [EvWake "ns/a" "downstream data on pending session"] /\
  "ns/a" = s_actorID (ss demo_pending) /\ s_tconn (ss (sexec "reset" (ORead [x61] None) demo_pending)) = None /\
  s_requestOutstanding (ss (sexec "reset" (ORead [x61] None) demo_pending)) = true.
Proof.
  split; [reflexivity|].
  apply (wake_only_when_pending_and_detached "reset" (ORead [x61] None) demo_pending "ns/a"
    "downstream data on pending session" [EvWake "ns/a" "downstream data on pending session"]);
    [reflexivity|by apply list_elem_of_singleton].
Defined.

Lemma no_wake_is_lost_witness :
  exists r es, evs (sexec "reset" (ORead [x61] None) demo_pending) = evs demo_pending ++ es /\
    EvWake "ns/a" r ∈ es.
Proof.
  apply (no_wake_is_lost "reset" (ORead [x61] None) demo_pending).
  - discriminate.
  - intros [_ [Hl|Hc]]; [by vm_compute in Hl|discriminate].
  - split; [done|]. left. reflexivity.
Defined.
