(* ===== verification/Sidecar.v ===== *)
(** * Sidecar: the tunnel client inside the actor

    Models [internal/sidecar/session.go] (the [clientSession] methods) and
    [internal/sidecar/client.go] (the [Client]: session table, connect, frame
    dispatch, ping loop).  Session methods run on [cst]: the session, the
    client's current connection, and the connections by identity; [closeAll]'s
    call to [removeSession] is recorded as an event. *)
From S2P Require Import Prelude ReplayBuffer Socket Wire.

(** ** Sessions *)

Record clientSession : Type := MkClientSession {
  cs_sessionID : Z;
  cs_target : string;
  cs_agent : sock;                 (* net.Conn to the agent *)
  cs_canCloseWrite : bool;         (* the agent conn implements CloseWrite *)
  cs_upBuf : ReplayBuffer;
  cs_downDelivered : Z;            (* uint64 *)
  cs_upClosed : bool;
  cs_downClosed : bool;
  cs_dead : bool;
}.

Definition newClientSession (sessionBuffer id : Z) (target : string) (agent : sock)
    (canCloseWrite : bool) : clientSession :=
  MkClientSession id target agent canCloseWrite (NewReplayBuffer sessionBuffer) 0 false false false.

Definition set_cs_agent (v : sock) (s : clientSession) : clientSession :=
  MkClientSession (cs_sessionID s) (cs_target s) v (cs_canCloseWrite s) (cs_upBuf s)
    (cs_downDelivered s) (cs_upClosed s) (cs_downClosed s) (cs_dead s).
Definition set_cs_upBuf (v : ReplayBuffer) (s : clientSession) : clientSession :=
  MkClientSession (cs_sessionID s) (cs_target s) (cs_agent s) (cs_canCloseWrite s) v
    (cs_downDelivered s) (cs_upClosed s) (cs_downClosed s) (cs_dead s).
Definition set_cs_downDelivered (v : Z) (s : clientSession) : clientSession :=
  MkClientSession (cs_sessionID s) (cs_target s) (cs_agent s) (cs_canCloseWrite s) (cs_upBuf s)
    v (cs_upClosed s) (cs_downClosed s) (cs_dead s).
Definition set_cs_upClosed (v : bool) (s : clientSession) : clientSession :=
  MkClientSession (cs_sessionID s) (cs_target s) (cs_agent s) (cs_canCloseWrite s) (cs_upBuf s)
    (cs_downDelivered s) v (cs_downClosed s) (cs_dead s).
Definition set_cs_downClosed (v : bool) (s : clientSession) : clientSession :=
  MkClientSession (cs_sessionID s) (cs_target s) (cs_agent s) (cs_canCloseWrite s) (cs_upBuf s)
    (cs_downDelivered s) (cs_upClosed s) v (cs_dead s).
Definition set_cs_dead (v : bool) (s : clientSession) : clientSession :=
  MkClientSession (cs_sessionID s) (cs_target s) (cs_agent s) (cs_canCloseWrite s) (cs_upBuf s)
    (cs_downDelivered s) (cs_upClosed s) (cs_downClosed s) v.

Record cst (C : Type) : Type := MkCst {
  cs : clientSession;
  cconn : option nat;              (* Client.conn *)
  cnet : gmap nat C;
  cremoved : list Z;               (* removeSession calls *)
}.
Arguments MkCst {C} _ _ _ _.
Arguments cs {C} _.
Arguments cconn {C} _.
Arguments cnet {C} _.
Arguments cremoved {C} _.

(** Outcomes of [writeUp]. *)
Inductive write_result : Type :=
| WDone
| WBlocked (rest : list byte)
| WClosed                          (* net.ErrClosed *)
| WErr (e : rb_error)
| WFuel.

Section ops.
Context {C : Type} `{FrameWriter C}.
Implicit Types (st : cst C) (s : clientSession).

Definition cupd (f : clientSession -> clientSession) (st : cst C) : cst C :=
  MkCst (f (cs st)) (cconn st) (cnet st) (cremoved st).

(** [Client.send]: errors are ignored, a missing connection too. *)
Definition csend (f : Frame) (st : cst C) : cst C :=
  match cconn st with
  | None => st
  | Some tc =>
      match cnet st !! tc with
      | None => st
      | Some c => MkCst (cs st) (cconn st) (<[tc := fst (fw_write f c)]> (cnet st)) (cremoved st)
      end
  end.

Fixpoint write_loop (fuel : nat) (p : list byte) (st : cst C) : cst C * write_result :=
  match p, fuel with
  | [], _ => (st, WDone)
  | _, O => (st, WFuel)
  | _, S fuel =>
      if cs_dead (cs st) then (st, WClosed)
      else
        let free := Free (cs_upBuf (cs st)) in
        if free =? 0 then (st, WBlocked p)
        else
          let take := if len p >? free then free else len p in
          let chunk := ztake take p in
          let offset := End_ (cs_upBuf (cs st)) in
          match Append (cs_upBuf (cs st)) chunk with
          | Err e => (st, WErr e)
          | Ok b =>
              let st := cupd (set_cs_upBuf b) st in
              let st := csend (DataF (cs_sessionID (cs st)) offset chunk) st in
              write_loop fuel (zdrop take p) st
          end
  end.

Definition writeUp (p : list byte) (st : cst C) : cst C * write_result := write_loop (length p) p st.

Definition onUpstreamAck (offset : Z) (st : cst C) : cst C :=
  cupd (fun s => set_cs_upBuf (TrimTo (cs_upBuf s) offset) s) st.

Definition closeAll (st : cst C) : cst C :=
  if cs_dead (cs st) then st
  else MkCst (set_cs_agent (sock_close (cs_agent (cs st))) (set_cs_dead true (cs st)))
         (cconn st) (cnet st) (cremoved st ++ [cs_sessionID (cs st)]).

(** [deliverDown] up to the agent write: what to write, if anything. *)
Definition deliver_check (offset : Z) (payload : list byte) (s : clientSession) : option (list byte) :=
  if cs_dead s then None
  else if offset <? cs_downDelivered s then
    let skip := u64 (cs_downDelivered s - offset) in
    if skip >=? len payload then None else Some (zdrop skip payload)
  else if offset >? cs_downDelivered s then None
  else Some payload.

Definition deliver_write (payload : list byte) (st : cst C) : cst C :=
  let '(a, ok) := sock_write payload (cs_agent (cs st)) in
  let st := cupd (set_cs_agent a) st in
  if ok then
    let st := cupd (fun s => set_cs_downDelivered (u64 (cs_downDelivered s + len payload)) s) st in
    csend (AckF (cs_sessionID (cs st)) (cs_downDelivered (cs st))) st
  else closeAll st.

Definition deliverDown (offset : Z) (payload : list byte) (st : cst C) : cst C :=
  match deliver_check offset payload (cs st) with
  | None => st
  | Some p => deliver_write p st
  end.

Definition attachFrame (s : clientSession) : Frame :=
  AttachF (cs_sessionID s) (cs_downDelivered s) (cs_target s).

Definition onAttachOK (offset : Z) (st : cst C) : cst C :=
  let st := cupd (fun s => set_cs_upBuf (TrimTo (cs_upBuf s) offset) s) st in
  match From (cs_upBuf (cs st)) offset with
  | Err _ => st
  | Ok replay =>
      if len replay >? 0 then csend (DataF (cs_sessionID (cs st)) offset replay) st else st
  end.

Definition onClose (dir : Z) (reason : string) (st : cst C) : cst C :=
  if dir =? DirDown then
    let st := cupd (set_cs_downClosed true) st in
    if cs_canCloseWrite (cs st) then cupd (fun s => set_cs_agent (sock_close_write (cs_agent s)) s) st
    else closeAll st
  else st.

Definition closeUp (reason : string) (st : cst C) : cst C :=
  if cs_upClosed (cs st) then st
  else
    let st := cupd (set_cs_upClosed true) st in
    csend (CloseF (cs_sessionID (cs st)) DirUp reason) st.

(** What [connectOnce] does for this session on a freshly dialed connection
    [c] with identity [tc]: HELLO, publish the connection, ATTACH. *)
Definition session_connect (actorID : string) (tc : nat) (c : C) (st : cst C) : cst C * bool :=
  let '(c', ok) := fw_write (HelloF actorID) c in
  let net' := <[tc := c']> (cnet st) in
  if negb ok then (MkCst (cs st) (cconn st) net' (cremoved st), false)
  else
    let st := MkCst (cs st) (Some tc) net' (cremoved st) in
    (csend (attachFrame (cs st)) st, true).

Definition session_disconnect (tc : nat) (st : cst C) : cst C :=
  if decide (cconn st = Some tc) then MkCst (cs st) None (cnet st) (cremoved st) else st.

(** The session part of [readLoop]'s dispatch. *)
Definition session_dispatch (f : Frame) (st : cst C) : cst C :=
  if fType f =? TypeAttachOK then onAttachOK (fOffset f) st
  else if fType f =? TypeData then deliverDown (fOffset f) (fPayload f) st
  else if fType f =? TypeAck then onUpstreamAck (fOffset f) st
  else if fType f =? TypeClose then onClose (fDir f) (fReason f) st
  else st.
End ops.

(** ** The client *)

(** Times are nanoseconds. *)
Definition second : Z := 1000 * 1000 * 1000.
Definition millisecond : Z := 1000 * 1000.

Record ClientConfig : Type := MkClientConfig {
  cc_SessionBuffer : Z;
  cc_PingInterval : Z;
  cc_PongTimeout : Z;
  cc_DialBackoff : Z;
}.

(** The defaulting at the top of [NewClient]. *)
Definition client_defaults (c : ClientConfig) : ClientConfig :=
  let dflt v d := if v =? 0 then d else v in
  MkClientConfig (dflt (cc_SessionBuffer c) (4 * 1024 * 1024)) (dflt (cc_PingInterval c) second)
    (dflt (cc_PongTimeout c) (3 * second)) (dflt (cc_DialBackoff c) (500 * millisecond)).

Record Client (C : Type) : Type := MkClient {
  cl_cfg : ClientConfig;
  cl_nextID : Z;                           (* atomic.Uint64 *)
  cl_conn : option nat;
  cl_sessions : gmap Z clientSession;
  cl_net : gmap nat C;
  cl_lastPong : Z;
}.
Arguments MkClient {C} _ _ _ _ _ _.
Arguments cl_cfg {C} _.
Arguments cl_nextID {C} _.
Arguments cl_conn {C} _.
Arguments cl_sessions {C} _.
Arguments cl_net {C} _.
Arguments cl_lastPong {C} _.

Definition NewClient {C} (cfg : ClientConfig) : Client C :=
  MkClient (client_defaults cfg) 0 None ∅ ∅ 0.

Section client.
Context {C : Type} `{FrameWriter C}.
Implicit Types (cl : Client C).

Definition conn_write (tc : nat) (f : Frame) cl : Client C * bool :=
  match cl_net cl !! tc with
  | None => (cl, false)
  | Some c => let '(c', ok) := fw_write f c in
      (MkClient (cl_cfg cl) (cl_nextID cl) (cl_conn cl) (cl_sessions cl) (<[tc:=c']> (cl_net cl))
         (cl_lastPong cl), ok)
  end.

Definition send (f : Frame) cl : Client C :=
  match cl_conn cl with None => cl | Some tc => fst (conn_write tc f cl) end.

Definition lookup_session (id : Z) cl : option clientSession := cl_sessions cl !! id.

(** Run a session method of session [id] in the client. *)
Definition run_session {A} (id : Z) (op : cst C -> cst C * A) cl : Client C * option A :=
  match cl_sessions cl !! id with
  | None => (cl, None)
  | Some s =>
      let '(st, a) := op (MkCst s (cl_conn cl) (cl_net cl) []) in
      let sessions := foldr (fun i m => delete i m) (<[id := cs st]> (cl_sessions cl)) (cremoved st) in
      (MkClient (cl_cfg cl) (cl_nextID cl) (cl_conn cl) sessions (cnet st) (cl_lastPong cl), Some a)
  end.

Definition OpenSession (agent : sock) (canCloseWrite : bool) (target : string) cl : Client C * Z :=
  let id := u64 (cl_nextID cl + 1) in
  let s := newClientSession (cc_SessionBuffer (cl_cfg cl)) id target agent canCloseWrite in
  let cl := MkClient (cl_cfg cl) id (cl_conn cl) (<[id := s]> (cl_sessions cl)) (cl_net cl)
              (cl_lastPong cl) in
  (send (OpenF id target) cl, id).

(** [connectOnce] up to the start of the read loop, on a freshly dialed
    connection [c] with identity [tc]; [false] when HELLO could not be sent. *)
Definition connect (actorID : string) (tc : nat) (c : C) (now : Z) cl : Client C * bool :=
  let '(c', ok) := fw_write (HelloF actorID) c in
  let net' := <[tc := c']> (cl_net cl) in
  if negb ok then
    (MkClient (cl_cfg cl) (cl_nextID cl) (cl_conn cl) (cl_sessions cl) net' (cl_lastPong cl), false)
  else
    let cl := MkClient (cl_cfg cl) (cl_nextID cl) (Some tc) (cl_sessions cl) net' now in
    let live := map snd (map_to_list (cl_sessions cl)) in
    (foldl (fun cl s => fst (conn_write tc (attachFrame s) cl)) cl live, true).

(** The end of [connectOnce], when the read loop of [tc] has returned. *)
Definition disconnect (tc : nat) cl : Client C :=
  MkClient (cl_cfg cl) (cl_nextID cl) (if decide (cl_conn cl = Some tc) then None else cl_conn cl)
    (cl_sessions cl) (cl_net cl) (cl_lastPong cl).

(** One turn of [readLoop] on connection [tc]. *)
Definition handle_frame (tc : nat) (now : Z) (f : Frame) cl : Client C :=
  if fType f =? TypePong then
    MkClient (cl_cfg cl) (cl_nextID cl) (cl_conn cl) (cl_sessions cl) (cl_net cl) now
  else if fType f =? TypePing then fst (conn_write tc (PongF (fNonce f)) cl)
  else fst (run_session (fSessionID f) (fun st => (session_dispatch f st, tt)) cl).

(** One tick of [pingLoop]: close the connection when a PONG is overdue or
    the PING cannot be written, otherwise go on with the next nonce. *)
Inductive ping_next : Type := PingClose | PingGoOn (nonce : Z).

Definition ping_tick (tc : nat) (now nonce : Z) cl : Client C * ping_next :=
  if now - cl_lastPong cl >? cc_PongTimeout (cl_cfg cl) then (cl, PingClose)
  else
    let nonce := u64 (nonce + 1) in
    let '(cl, ok) := conn_write tc (PingF nonce) cl in
    (cl, if ok then PingGoOn nonce else PingClose).
End client.

(** [Run]'s redial loop: [durs] is how long each call of [connectOnce] lasts,
    [stop] when the context is cancelled; the result is the time at which each
    attempt starts. *)
Fixpoint redials (backoff stop now : Z) (durs : list Z) : list Z :=
  match durs with
  | [] => []
  | d :: durs =>
      if stop <=? now then []
      else now :: (if stop <=? now + d + backoff then [] else redials backoff stop (now + d + backoff) durs)
  end.

Definition client_Run {C} (cl : Client C) (stop now : Z) (durs : list Z) : list Z :=
  redials (cc_DialBackoff (cl_cfg cl)) stop now durs.
