(* ===== verification/BrokerStream.v ===== *)
(** * BrokerStream: the broker session keeps the byte streams exact

    The invariant of [BrokerSession.session] that makes the tunnel resumable,
    relative to two histories: [A], the bytes the sidecar has accepted from the
    agent, and [D], the bytes the broker has read from the destination.  Every
    operation of the session preserves it, every frame it sends is true of the
    histories ([good_down]), and the operations are specified on every branch. *)
From S2P Require Import Prelude ReplayBuffer Socket Wire Link BrokerSession.

(** ** Frames a broker may send

    About the session, only what is true of it; frames of the other sessions on
    the same connection are arbitrary. *)

Inductive good_down (sid : Z) (D : list byte) (uw : Z) : Frame -> Prop :=
| gd_attachok o : 0 <= o <= uw -> is_u64 o -> good_down sid D uw (AttachOKF sid o)
| gd_data o p : at_offset D o p -> is_u64 o -> good_down sid D uw (DataF sid o p)
| gd_ack o : 0 <= o <= uw -> is_u64 o -> good_down sid D uw (AckF sid o)
| gd_close d r : 0 <= d < 256 -> str_len r <= maxString -> good_down sid D uw (CloseF sid d r)
| gd_pong n : is_u64 n -> good_down sid D uw (PongF n)
| gd_other f : postable f -> fSessionID f <> sid -> good_down sid D uw f.
#[export] Hint Constructors good_down : tunnel.

Lemma good_down_postable sid D uw f : is_u64 sid -> good_down sid D uw f -> postable f.
Proof. intros Hs []; auto with tunnel. Qed.

Lemma good_down_mono sid D D' uw uw' f :
  D `prefix_of` D' -> uw <= uw' -> good_down sid D uw f -> good_down sid D' uw' f.
Proof.
  intros HD Hw []; constructor; try done; try lia. by eapply at_offset_mono.
Qed.

Lemma good_down_data sid D uw f :
  good_down sid D uw f -> fType f = TypeData -> fSessionID f = sid -> at_offset D (fOffset f) (fPayload f).
Proof. by intros []. Qed.

Lemma good_down_count sid D uw f :
  good_down sid D uw f -> fType f = TypeAck \/ fType f = TypeAttachOK -> fSessionID f = sid -> 0 <= fOffset f <= uw.
Proof. intros [] [Ht|Ht]; by try discriminate Ht. Qed.

(** ** The invariant *)

Section stream.
Context {C : Type} `{FrameWriterLaws C} {Own : Ownership}.
Context (sid : Z) (Hsid : is_u64 sid).
Context (os_error : string) (Hos : str_len os_error <= maxString).
Implicit Types (st : sst C) (A D : list byte).

Abbreviation uw st := (s_upstreamWritten (ss st)).

(** [dl] is how much of [D] the agent has received. *)
Record binv A D (dl : Z) st : Prop := {
  bi_sid : s_sessionID (ss st) = sid;
  bi_down : exists acked, rb_rep (s_downBuf (ss st)) (MkStream D acked) /\ acked <= dl;
  bi_pre : at_offset A (uw st) (s_preConn (ss st));
  bi_A : len A < 2 ^ 64;
  bi_conn : match s_upstream (ss st) with
            | Some u => s_connected (ss st) = true /\ s_preConn (ss st) = [] /\ sink_ok A (uw st) u
            | None => s_connected (ss st) = false /\ uw st = 0
            end;
  bi_net : onet_ok (good_down sid D (uw st)) (net st);
}.

Lemma binv_uw A D dl st : binv A D dl st -> 0 <= uw st <= len A /\ is_u64 (uw st).
Proof.
  intros B. pose proof (bi_A _ _ _ _ B). destruct (bi_pre _ _ _ _ B) as [? _].
  unfold is_u64. lia.
Qed.

Lemma binv_D A D dl st : binv A D dl st -> len D < 2 ^ 64.
Proof. intros B. destruct (bi_down _ _ _ _ B) as (a & R & _). apply (rep_u64 _ _ R). Qed.

(** More bytes from the agent, or more of [D] delivered, keep the invariant. *)
Lemma binv_mono A A' D dl dl' st :
  A `prefix_of` A' -> len A' < 2 ^ 64 -> dl <= dl' -> binv A D dl st -> binv A' D dl' st.
Proof.
  intros HA HA' Hd B. destruct (binv_uw _ _ _ _ B) as [Hu _].
  destruct B as [? (a & R & Ha) Hp ? Hc ?]. split; auto.
  - exists a. split; [done|lia].
  - by eapply at_offset_mono.
  - destruct (s_upstream (ss st)) as [u|]; [|done]. destruct Hc as (? & ? & ?). split_and!; auto.
    eapply sink_ok_mono; [done|lia|done].
Qed.

(** Changes that do not touch the streams: the binding, flags, and closing the
    upstream connection. *)
Definition same_stream (s s' : session) : Prop :=
  s_sessionID s' = s_sessionID s /\ s_downBuf s' = s_downBuf s /\
  s_preConn s' = s_preConn s /\ s_upstreamWritten s' = s_upstreamWritten s /\
  s_connected s' = s_connected s /\
  option_map (fun u => (sk_out u, sk_cap u)) (s_upstream s') =
  option_map (fun u => (sk_out u, sk_cap u)) (s_upstream s).

Lemma same_refl s : same_stream s s.
Proof. done. Qed.

Lemma binv_same A D dl st st' :
  same_stream (ss st) (ss st') -> onet_ok (good_down sid D (uw st')) (net st') ->
  binv A D dl st -> binv A D dl st'.
Proof.
  intros (E1 & E2 & E3 & E4 & E5 & E6) Hn [? ? ? ? Hc ?].
  split; rewrite ?E1, ?E2, ?E3, ?E4, ?E5 in *; auto.
  destruct (s_upstream (ss st)) as [u|], (s_upstream (ss st')) as [u'|]; simpl in *; simplify_eq; try done.
  destruct Hc as (? & ? & ?). split_and!; auto. eapply sink_ok_same; eauto.
Qed.

(** As [binv_same], when the connections are untouched too. *)
Lemma binv_upd A D dl st f :
  same_stream (ss st) (f (ss st)) -> binv A D dl st -> binv A D dl (upd f st).
Proof.
  intros S B. eapply binv_same; [exact S| |done]. simpl.
  destruct S as (_ & _ & _ & -> & _). by destruct B.
Qed.

Lemma binv_emit A D dl st e : binv A D dl st -> binv A D dl (emit e st).
Proof. by intros []. Qed.

Lemma binv_tc_write A D dl st tc f st' ok :
  tc_write tc f st = (st', ok) -> good_down sid D (uw st) f -> binv A D dl st -> binv A D dl st'.
Proof.
  intros W Hf B. assert (onet_ok (good_down sid D (uw st)) (net st')) as Hn.
  { revert W. unfold tc_write. destruct (net st !! tc) as [c|] eqn:E.
    - destruct (fw_write f c) as [c' ok'] eqn:W. intros [= <- <-].
      eapply onet_ok_write; [apply B|done| |done]. intros _. split; [by eapply good_down_postable|done].
    - intros [= <- <-]. apply B. }
  apply tc_write_ss in W as [E _]. eapply (binv_same A D dl st); [rewrite E; apply same_refl|by rewrite E|done].
Qed.

Lemma binv_detach A D dl st tc : binv A D dl st -> binv A D dl (detach tc st).
Proof.
  intros B. unfold detach. destruct (decide _); [|done].
  destruct (_ && _); [apply binv_emit|]; by apply binv_upd.
Qed.

Lemma binv_send A D dl st f :
  good_down sid D (uw st) f -> binv A D dl st -> binv A D dl (sendToSidecar f st).
Proof.
  intros Hf B. unfold sendToSidecar. destruct (s_tconn (ss st)) as [tc|]; [|done].
  destruct (tc_write tc f st) as [st1 ok] eqn:W. apply (binv_tc_write A D dl) in W; [|done..].
  destruct ok; [done|by apply binv_detach].
Qed.

Lemma binv_destroy A D dl st : binv A D dl st -> binv A D dl (destroy st).
Proof.
  intros B. unfold destroy. destruct (s_dead (ss st)); [done|].
  apply binv_emit, binv_upd; [|done]. unfold same_stream. simpl. split_and!; try done.
  by destruct (s_upstream (ss st)).
Qed.

Lemma binv_maybeDestroy A D dl st : binv A D dl st -> binv A D dl (maybeDestroy st).
Proof. intros B. unfold maybeDestroy. destruct (_ && _); [by apply binv_destroy|done]. Qed.

Lemma binv_close_frame A D dl st r :
  binv A D dl st -> str_len r <= maxString ->
  good_down sid D (uw st) (CloseF (s_sessionID (ss st)) DirDown r).
Proof. intros B Hr. rewrite (bi_sid _ _ _ _ B). constructor; [done|done]. Qed.

Lemma binv_closeUpstream A D dl st cause :
  str_len (default "upstream EOF" cause) <= maxString ->
  binv A D dl st -> binv A D dl (closeUpstream cause st).
Proof.
  intros Hr B. unfold closeUpstream. destruct (s_downClosed (ss st)); [done|].
  set (st1 := upd _ st). assert (binv A D dl st1) as B1 by (by apply binv_upd).
  apply binv_maybeDestroy. destruct (bool_decide _).
  - apply binv_send; [|done]. by eapply binv_close_frame.
  - destruct (s_requestOutstanding _); [by apply binv_emit|done].
Qed.

Lemma binv_watchdog A D dl st : binv A D dl st -> binv A D dl (watchdog_fire st).
Proof.
  intros B. unfold watchdog_fire. destruct (_ && _); [apply binv_emit|]; by apply binv_upd.
Qed.

(** ** Agent to destination *)

(** Committing [p] at the current offset after [p] was written; the timer may
    be re-armed on the way. *)
Lemma binv_commit A D dl st p u u' f :
  f = id \/ f = armWatchdogLocked ->
  binv A D dl st -> s_upstream (ss st) = Some u -> at_offset A (uw st) p ->
  sink_ok A (uw st + len p) u' ->
  binv A D dl (commit_upstream (len p) (upd f (upd (set_upstream (Some u')) st))).
Proof.
  intros Hf B Hu Hp Hk. destruct (binv_uw _ _ _ _ B) as [Hw _]. pose proof (bi_A _ _ _ _ B) as HA.
  pose proof (at_offset_bound _ _ _ Hp) as Hb. pose proof (len_nonneg p).
  unfold commit_upstream. set (st1 := upd _ (upd _ (upd _ st))).
  assert (uw st1 = uw st + len p) as E by (destruct Hf as [-> | ->]; apply u64_small; lia).
  assert (binv A D dl st1) as B1.
  { destruct B as [? ? ? ? Hc ?]. rewrite Hu in Hc. destruct Hc as (? & Hpre & _).
    split; try (by destruct Hf as [-> | ->]).
    - rewrite E. replace (s_preConn (ss st1)) with (@nil byte) by (by destruct Hf as [-> | ->]).
      split; [lia|]. rewrite app_nil_r. apply ztake_prefix.
    - rewrite E. by destruct Hf as [-> | ->].
    - rewrite E. eapply onet_ok_impl; [|done]. intros g. apply good_down_mono; [done|lia]. }
  apply binv_send; [|done]. rewrite (bi_sid _ _ _ _ B1).
  destruct (binv_uw _ _ _ _ B1). constructor; [lia|done].
Qed.

Lemma binv_up_write A D dl st p st' ok u :
  binv A D dl st -> s_upstream (ss st) = Some u -> at_offset A (uw st) p ->
  up_write p st = (st', ok) ->
  if ok then forall f, f = id \/ f = armWatchdogLocked -> binv A D dl (commit_upstream (len p) (upd f st'))
  else binv A D dl st'.
Proof.
  intros B Hu Hp. unfold up_write. rewrite Hu. destruct (sock_write p u) as [u' ok'] eqn:W.
  intros [= <- <-]. pose proof (bi_conn _ _ _ _ B) as Hc. rewrite Hu in Hc.
  destruct Hc as (Hc1 & Hc2 & Hk). pose proof (sink_write _ _ _ _ _ _ Hk Hp W) as Hk'.
  destruct ok'; [intros f Hf; by eapply binv_commit|].
  destruct B. split; try done. 
Qed.

Lemma os_reason : str_len (default "upstream EOF" (Some os_error)) <= maxString.
Proof. done. Qed.

(** Before the dial completes new bytes are queued, afterwards they are handed
    to the upstream connection. *)
Lemma onData_check_dedup o p s :
  s_dead s = false ->
  onData_check o p s =
    if s_connected s then (s, dedup (s_upstreamWritten s) o p)
    else (match dedup (u64 (s_upstreamWritten s + len (s_preConn s))) o p with
          | Some q => set_preConn (s_preConn s ++ q) s
          | None => s
          end, None).
Proof.
  intros Hd. unfold onData_check, dedup. rewrite Hd. destruct (s_connected s); simpl;
    repeat case_match; simplify_eq; done.
Qed.

Lemma binv_queue A D dl st q :
  binv A D dl st -> s_connected (ss st) = false ->
  at_offset A (uw st + len (s_preConn (ss st))) q ->
  binv A D dl (upd (set_preConn (s_preConn (ss st) ++ q)) st).
Proof.
  intros B Hc Hq. destruct (binv_uw _ _ _ _ B) as [Hw _]. destruct B as [? ? Hp ? Hu ?].
  split; try done; simpl.
  - split; [done|]. rewrite app_assoc, <- (at_offset_extend _ _ _ Hp). apply Hq.
  - destruct (s_upstream (ss st)); [|done]. destruct Hu. congruence.
Qed.

(** [onData] on a truthful frame: nothing that is already written is written
    again, nothing is skipped. *)
Lemma binv_onData A D dl st o p :
  binv A D dl st -> at_offset A o p -> binv A D dl (onData os_error o p st).
Proof.
  intros B Hp. destruct (binv_uw _ _ _ _ B) as [Hw Hw']. pose proof (bi_A _ _ _ _ B) as HA.
  pose proof (at_offset_bound _ _ _ (bi_pre _ _ _ _ B)) as Hpb.
  pose proof (len_nonneg (s_preConn (ss st))).
  assert (upd (fun _ => ss st) st = st) as Eid by (by destruct st).
  unfold onData. destruct (s_dead (ss st)) eqn:Hd.
  { unfold onData_check. rewrite Hd. by rewrite Eid. }
  rewrite onData_check_dedup by done. destruct (s_connected (ss st)) eqn:Ec.
  - rewrite Eid. pose proof (dedup_spec A (uw st) o p Hp Hw') as Hq.
    destruct (dedup _ o p) as [q|]; [|done]. destruct Hq as (Hq & _ & _).
    unfold onData_write. destruct (up_write q st) as [st1 ok] eqn:W.
    pose proof (bi_conn _ _ _ _ B) as Hu.
    destruct (s_upstream (ss st)) as [u|] eqn:Eu; [|destruct Hu; congruence].
    apply (binv_up_write A D dl) with (u := u) in W as W'; [|done..].
    destruct ok; [|by apply binv_closeUpstream].
    apply W'. by right.
  - rewrite u64_small by lia.
    pose proof (dedup_spec A (uw st + len (s_preConn (ss st))) o p Hp ltac:(lia)) as Hq.
    destruct (dedup _ o p) as [q|]; [|by rewrite Eid].
    apply binv_queue; [done|done|apply Hq].
Qed.

Lemma binv_dial_fail A D dl st e :
  str_len ("dial failed: " +:+ e) <= maxString ->
  binv A D dl st -> binv A D dl (fst (dialUpstream os_error (Err e) st)).
Proof.
  intros He B. simpl. apply binv_destroy, binv_send; [|done]. by eapply binv_close_frame.
Qed.

(** A successful dial flushes the queued bytes, and they are then accounted
    for exactly like bytes written later. *)
Lemma binv_dial A D dl st c :
  binv A D dl st -> s_upstream (ss st) = None ->
  binv A D dl (fst (dialUpstream os_error (Ok (MkSock [] c false false)) st)).
Proof.
  intros B Hu. pose proof (bi_conn _ _ _ _ B) as Hc. rewrite Hu in Hc. destruct Hc as [Hc Hw].
  unfold dialUpstream, dial_connect. destruct (s_dead (ss st)); [done|].
  set (st1 := upd _ st).
  assert (binv A D dl st1) as B1.
  { destruct B as [? ? [? _] ? _ ?]. split; try done; simpl.
    - split; [done|]. rewrite app_nil_r. apply ztake_prefix.
    - split_and!; [done|done|]. rewrite Hw. apply sink_ok_new. }
  unfold dial_flush. destruct (_ >? 0); [|done].
  destruct (up_write _ st1) as [st2 ok] eqn:W.
  apply (binv_up_write A D dl) with (u := MkSock [] c false false) in W; [|done|done|apply B].
  destruct ok; [|by apply binv_closeUpstream].
  replace st2 with (upd id st2) by (by destruct st2). apply W. by left.
Qed.

Lemma binv_close A D dl st d r : binv A D dl st -> binv A D dl (onSidecarClose d r st).
Proof.
  intros B. unfold onSidecarClose. destruct (negb _); [done|].
  apply binv_maybeDestroy, binv_upd; [|done]. unfold same_stream. simpl. split_and!; try done.
  by destruct (s_upstream (ss st)).
Qed.

(** ** Destination to agent *)

Lemma binv_ack A D dl st o :
  o <= dl -> binv A D dl st -> binv A D dl (onDownstreamAck o st).
Proof.
  intros Ho [? (a & R & Ha) ? ? Hc ?]. destruct (rep_trim R o) as [R' _].
  assert (exists acked, rb_rep (TrimTo (s_downBuf (ss st)) o) (MkStream D acked) /\ acked <= dl) as Hd.
  { eexists. split; [exact R'|]. simpl. lia. }
  unfold onDownstreamAck.
  split; simpl; destruct (Len (TrimTo (s_downBuf (ss st)) o) =? 0); simpl; done.
Qed.

(** Appending a chunk that fits, before it is forwarded. *)
Lemma binv_append A D dl st q :
  binv A D dl st -> len q <= Free (s_downBuf (ss st)) -> len D + len q < 2 ^ 64 ->
  exists b, Append (s_downBuf (ss st)) q = Ok b /\ binv A (D ++ q) dl (upd (set_downBuf b) st).
Proof.
  intros [? (a & R & Ha) ? ? Hc ?] Hq HD.
  destruct (rep_append R q Hq HD) as (b & Hb & R' & _). exists b. split; [done|].
  split; simpl; try done.
  - by exists a.
  - eapply onet_ok_impl; [|done]. intros g. apply good_down_mono; [|lia]. by apply prefix_app_r.
Qed.

Lemma binv_forward A D dl st q o :
  binv A D dl st -> at_offset D o q ->
  binv A D dl (try_forward o q st).
Proof.
  intros B Hq. unfold try_forward. destruct (s_tconn (ss st)) as [tc|]; [|done].
  destruct (tc_write _ _ _) as [st1 ok] eqn:W.
  assert (is_u64 o) as Ho by (pose proof (binv_D _ _ _ _ B); destruct Hq; unfold is_u64; lia).
  apply (binv_tc_write A D dl) in W; [|rewrite (bi_sid _ _ _ _ B); by constructor|done].
  destruct ok; [done|by apply binv_upd].
Qed.

(** What the outcome of [produceDownstream] says about the bytes that were not
    appended.  The two error outcomes the code could return do not occur, and
    the loop has enough fuel. *)
Definition produce_rest (r : produce_result) (rest : list byte) st' : Prop :=
  match r with
  | PDone => rest = []
  | PBlocked k => k = rest /\ rest <> [] /\ Free (s_downBuf (ss st')) = 0
  | PDead => s_dead (ss st') = true
  | PErr _ | PFuel => False
  end.

Lemma binv_produce fuel p A D dl st st' r :
  (length p <= fuel)%nat -> binv A D dl st -> len D + len p < 2 ^ 64 ->
  produce_loop fuel p st = (st', r) ->
  exists q rest, p = q ++ rest /\ binv A (D ++ q) dl st' /\ produce_rest r rest st'.
Proof.
  revert p D st. induction fuel as [|fuel IH]; intros p D st Hf B HD; destruct p as [|b0 p'];
    try (simpl; intros [= <- <-]; exists [], []; by rewrite (app_nil_r D)); [simpl in Hf; lia|..].
  set (p := b0 :: p') in *. simpl produce_loop. fold p.
  destruct (s_dead (ss st)) eqn:Hd.
  { intros [= <- <-]. exists [], p. by rewrite (app_nil_r D). }
  destruct (Z.eqb_spec (Free (s_downBuf (ss st))) 0) as [E|E].
  { intros [= <- <-]. exists [], p. by rewrite (app_nil_r D). }
  assert (0 < Free (s_downBuf (ss st))) as Hfree.
  { destruct (bi_down _ _ _ _ B) as (a & R & _). pose proof (rep_cap _ _ R).
    pose proof (len_nonneg (rb_buf (s_downBuf (ss st)))).
    unfold Free in *. lia. }
  set (n := if _ >? _ then _ else _).
  assert (0 < n <= len p /\ n <= Free (s_downBuf (ss st))) as [Hn Hnf].
  { unfold n. assert (0 < len p) by (unfold p; len_solve). zcases; lia. }
  set (q := ztake n p).
  assert (len q = n) as Lq by (apply len_ztake; lia).
  destruct (binv_append A D dl st q) as (b & -> & B1); [done|lia|lia|].
  destruct (bi_down _ _ _ _ B) as (a & R & _). rewrite (rep_End R). simpl st_hist.
  set (st1 := upd (set_downBuf b) st) in *.
  assert (binv A (D ++ q) dl (wake_if_detached (try_forward (len D) q st1))) as B2.
  { unfold wake_if_detached. destruct (_ && _); [apply binv_emit|];
      (apply binv_forward; [done|apply at_offset_end]). }
  intros Hl. apply (IH _ (D ++ q)) in Hl as (q2 & rest & Hp & B3 & Hr); [|..|done|].
  - exists (q ++ q2), rest. rewrite <- (ztake_zdrop n p), Hp. fold q.
    rewrite <- app_assoc in B3. by rewrite <- app_assoc.
  - simpl in Hf. unfold zdrop. rewrite length_drop. unfold p in *. simpl length in *. lia.
  - rewrite len_app, len_zdrop by lia. lia.
Qed.

(** One turn of the reader; [rest] is what a blocked turn has still to append. *)
Definition reader_wait (r : read_next) : list byte :=
  match r with RWait rest _ => rest | _ => [] end.

Lemma binv_read p err A D dl st st' r :
  (forall e, err = Some (Some e) -> str_len e <= maxString) ->
  binv A D dl st -> len D + len p < 2 ^ 64 -> readUpstream p err st = (st', r) ->
  exists q rest, p = q ++ rest /\ binv A (D ++ q) dl st' /\
    (r = RNext -> rest = []) /\
    (forall k e, r = RWait k e -> k = rest /\ e = err /\ Free (s_downBuf (ss st')) = 0) /\
    (r = RStopped -> (rest = [] /\ err <> None) \/ s_dead (ss st') = true).
Proof.
  intros He B HD. unfold readUpstream.
  destruct (match p with [] => _ | _ => _ end) as [st1 r1] eqn:E.
  assert (produceDownstream p st = (st1, r1)) as E' by (by destruct p).
  apply (binv_produce _ p A D dl) in E' as (q & rest & Hp & B1 & Hr); [|done..].
  destruct r1; simpl in Hr; [|..|done|done].
  - subst rest. destruct err as [cause|]; intros [= <- <-]; exists q, [];
      split_and!; auto; try done. apply binv_closeUpstream; [|done].
    destruct cause; [by apply He|done].
  - intros [= <- <-]. exists q, rest. destruct Hr as (-> & ? & ?). split_and!; try done; naive_solver.
  - intros [= <- <-]. exists q, rest. split_and!; try done; [by apply binv_destroy|].
    intros _. right. unfold destroy. by rewrite Hr.
Qed.

(** ** Re-attach *)

Lemma binv_attach A D dl st o :
  binv A D dl st -> is_u64 o -> binv A D dl (onSidecarAttach o st).
Proof.
  intros B Ho. destruct (binv_uw _ _ _ _ B) as [Hw Hw'].
  destruct (bi_down _ _ _ _ B) as (a & R & _).
  unfold onSidecarAttach. rewrite !(bi_sid _ _ _ _ B).
  set (replay := match From _ _ with Ok p => p | Err _ => [] end).
  assert (binv A D dl (sendToSidecar (AttachOKF sid (uw st)) st)) as B1.
  { apply binv_send; [|done]. constructor; [lia|done]. }
  match goal with |- context [if len replay >? 0 then ?x else ?y] =>
    assert (binv A D dl (if len replay >? 0 then x else y)) as B2 end.
  { destruct (Z.gtb_spec (len replay) 0) as [Hr|]; [|done]. apply binv_send; [|done].
    unfold replay in *. destruct (From _ o) as [q|] eqn:Ef; [|change (0 < 0) in Hr; lia].
    apply (rep_from_at_offset _ _ _ _ _ R) in Ef as [? ?]. by constructor. }
  destruct (_ && _); [|done]. apply binv_send; [|done].
  by constructor.
Qed.

Lemma binv_bind A D dl st tc : binv A D dl st -> binv A D dl (bind tc st).
Proof. by apply binv_upd. Qed.

(** A connection accepted from the sidecar. *)
Lemma binv_new_conn A D dl st tc c :
  binv A D dl st -> fw_clean c -> fw_sent c = [] ->
  binv A D dl (MkSst (ss st) (<[tc:=c]> (net st)) (evs st)).
Proof. intros [] Hc Hs. split; try done. apply onet_ok_insert; [done|done|by rewrite Hs]. Qed.

(** ** A dead session stays dead, a live upstream stays the same connection *)

Lemma detach_ss tc st : exists v, ss (detach tc st) = set_tconn v (ss st).
Proof.
  unfold detach. destruct (decide _) as [E|_].
  - exists None. by destruct (_ && _).
  - exists (s_tconn (ss st)). by destruct (ss st).
Qed.

Lemma send_ss f st : exists v, ss (sendToSidecar f st) = set_tconn v (ss st).
Proof.
  unfold sendToSidecar. destruct (s_tconn (ss st)) as [tc|] eqn:T.
  - destruct (tc_write tc f st) as [st1 ok] eqn:W. apply tc_write_ss in W as [E _].
    destruct ok; [|rewrite <- E; apply detach_ss]. exists (Some tc). rewrite E, <- T. by destruct (ss st).
  - exists None. rewrite <- T. by destruct (ss st).
Qed.

Lemma send_dead f st : s_dead (ss (sendToSidecar f st)) = s_dead (ss st).
Proof. by destruct (send_ss f st) as [v ->]. Qed.

Lemma destroy_dead st : s_dead (ss (destroy st)) = true.
Proof. unfold destroy. by destruct (s_dead (ss st)) eqn:E. Qed.

Lemma dead_maybeDestroy st : s_dead (ss st) = true -> s_dead (ss (maybeDestroy st)) = true.
Proof. intros E. unfold maybeDestroy. destruct (_ && _); [apply destroy_dead|done]. Qed.

Lemma dead_closeUpstream c st : s_dead (ss st) = true -> s_dead (ss (closeUpstream c st)) = true.
Proof.
  intros E. unfold closeUpstream. destruct (s_downClosed _); [done|].
  apply dead_maybeDestroy. repeat case_match; rewrite ?send_dead; done.
Qed.

Lemma dead_produce fuel p st :
  s_dead (ss st) = true -> s_dead (ss (fst (produce_loop fuel p st))) = true.
Proof. intros E. destruct fuel, p; simpl; try done. by rewrite E. Qed.

Lemma dead_read p err st : s_dead (ss st) = true -> s_dead (ss (fst (readUpstream p err st))) = true.
Proof.
  intros E. unfold readUpstream.
  destruct (match p with [] => _ | _ => _ end) as [st1 r] eqn:E1.
  assert (s_dead (ss st1) = true) as E2.
  { destruct p as [|b p]; [by simplify_eq|]. change st1 with (fst (st1, r)). rewrite <- E1. by apply dead_produce. }
  destruct r as [|k| |e|]; simpl; try apply destroy_dead; [|done].
  destruct err; [by apply dead_closeUpstream|done].
Qed.

Lemma dead_attach o st : s_dead (ss (onSidecarAttach o st)) = s_dead (ss st).
Proof. unfold onSidecarAttach. repeat case_match; rewrite ?send_dead; done. Qed.

(** ** The written offset only grows *)

Lemma send_upstreamWritten f st : uw (sendToSidecar f st) = uw st.
Proof. by destruct (send_ss f st) as [v ->]. Qed.

Lemma destroy_uw st : uw (destroy st) = uw st.
Proof. unfold destroy. by case_match. Qed.

Lemma maybeDestroy_uw st : uw (maybeDestroy st) = uw st.
Proof. unfold maybeDestroy. case_match; [apply destroy_uw|done]. Qed.

Lemma closeUpstream_uw c st : uw (closeUpstream c st) = uw st.
Proof.
  unfold closeUpstream. case_match; [done|]. rewrite maybeDestroy_uw.
  repeat case_match; rewrite ?send_upstreamWritten; done.
Qed.

Lemma commit_uw n st : uw (commit_upstream n st) = u64 (uw st + n).
Proof. unfold commit_upstream. by rewrite send_upstreamWritten. Qed.

Lemma up_write_uw p st st' ok : up_write p st = (st', ok) -> uw st' = uw st.
Proof. intros [[->|[u ->]] _]%up_write_ss; done. Qed.

Lemma commit_uw_le A D dl st st' p :
  binv A D dl st -> at_offset A (uw st) p -> uw st' = uw st ->
  uw st <= uw (commit_upstream (len p) st').
Proof.
  intros B Hp E. rewrite commit_uw, E. pose proof (at_offset_bound _ _ _ Hp).
  pose proof (bi_A _ _ _ _ B). pose proof (binv_uw _ _ _ _ B) as [? _]. pose proof (len_nonneg p).
  rewrite u64_small; lia.
Qed.

Lemma onData_uw A D dl st o p :
  binv A D dl st -> at_offset A o p -> uw st <= uw (onData os_error o p st).
Proof.
  intros B Hp. destruct (binv_uw _ _ _ _ B) as [_ Hw]. unfold onData.
  destruct (s_dead (ss st)) eqn:Hd; [unfold onData_check; by rewrite Hd|].
  rewrite onData_check_dedup by done. destruct (s_connected (ss st)).
  - pose proof (dedup_spec A (uw st) o p Hp Hw) as Hq. destruct (dedup _ o p) as [q|]; [|done].
    unfold onData_write. destruct (up_write q _) as [st1 ok] eqn:W. apply up_write_uw in W.
    destruct ok; [eapply (commit_uw_le A D dl st); [done|apply Hq|done]|by rewrite closeUpstream_uw, W].
  - by case_match.
Qed.

Lemma dial_uw A D dl st r :
  binv A D dl st -> uw st <= uw (fst (dialUpstream os_error r st)).
Proof.
  intros B. unfold dialUpstream. destruct r as [conn|e].
  - unfold dial_connect. destruct (s_dead (ss st)); [done|].
    unfold dial_flush. set (st1 := upd _ st). destruct (_ >? 0); [|done].
    destruct (up_write _ st1) as [st2 ok] eqn:W. apply up_write_uw in W.
    destruct ok; [|simpl; by rewrite closeUpstream_uw, W].
    eapply commit_uw_le; [done|apply B|done].
  - simpl. by rewrite destroy_uw, send_upstreamWritten.
Qed.

Lemma forward_uw o q st : uw (try_forward o q st) = uw st.
Proof. destruct (try_forward_ss o q st) as (_ & _ & _ & [v ->] & _). done. Qed.

Lemma produce_uw fuel p st : uw (fst (produce_loop fuel p st)) = uw st.
Proof.
  revert p st. induction fuel as [|fuel IH]; intros p st; destruct p as [|b p]; simpl; try done.
  destruct (s_dead (ss st)); [done|]. destruct (_ =? 0); [done|].
  destruct (Append _ _); [|done]. rewrite IH. unfold wake_if_detached.
  destruct (bool_decide _ && _); simpl; by rewrite forward_uw.
Qed.

Lemma read_uw p err st : uw (fst (readUpstream p err st)) = uw st.
Proof.
  unfold readUpstream.
  assert (uw (fst (match p with [] => (st, PDone) | _ => produceDownstream p st end)) = uw st) as E
    by (destruct p; [done|apply produce_uw]).
  destruct (match p with [] => _ | _ => _ end) as [st1 r]. simpl in E.
  destruct r as [|k| |e|]; simpl; rewrite ?destroy_uw; try done.
  destruct err; simpl; by rewrite ?closeUpstream_uw.
Qed.

Lemma attach_uw o st : uw (onSidecarAttach o st) = uw st.
Proof. unfold onSidecarAttach. repeat case_match; rewrite ?send_upstreamWritten; done. Qed.

(** ** Only the dial installs an upstream connection *)

Abbreviation no_upstream st := (s_upstream (ss st) = None).

Lemma attach_ss o st : exists v, ss (onSidecarAttach o st) = set_tconn v (ss st).
Proof.
  unfold onSidecarAttach.
  assert (forall f st0 st1, (exists v, ss st1 = set_tconn v (ss st0)) ->
            exists v, ss (sendToSidecar f st1) = set_tconn v (ss st0)) as Hset.
  { intros f st0 st1 [v Hv]. destruct (send_ss f st1) as [w ->]. exists w. by rewrite Hv. }
  repeat case_match; repeat (apply send_ss || apply Hset).
Qed.

Lemma maybeDestroy_no_upstream st : no_upstream st -> no_upstream (maybeDestroy st).
Proof.
  intros E. unfold maybeDestroy, destroy. repeat case_match; try done. simpl. by rewrite E.
Qed.

Lemma onData_no_upstream A D dl st o p :
  binv A D dl st -> at_offset A o p -> no_upstream st -> no_upstream (onData os_error o p st).
Proof.
  intros B Hp E. pose proof (bi_conn _ _ _ _ B) as Hc. rewrite E in Hc. destruct Hc as [Hc _].
  unfold onData. destruct (s_dead (ss st)) eqn:Hd; [unfold onData_check; by rewrite Hd|].
  rewrite onData_check_dedup, Hc by done. by case_match.
Qed.

(** A dead session's reader stops without keeping anything. *)
Lemma binv_read_dead A D dl p err st :
  binv A D dl st -> s_dead (ss st) = true ->
  (forall e, err = Some (Some e) -> str_len e <= maxString) ->
  binv A D dl (fst (readUpstream p err st)) /\ reader_wait (snd (readUpstream p err st)) = [].
Proof.
  intros B Hd He. destruct p as [|b p].
  - unfold readUpstream. destruct err as [cause|]; simpl; [|done]. split; [|done].
    apply binv_closeUpstream; [|done]. destruct cause; [by apply He|done].
  - unfold readUpstream, produceDownstream. simpl. rewrite Hd. simpl. split; [|done].
    by apply binv_destroy.
Qed.
End stream.
