(* ===== verification/SidecarStream.v ===== *)
(** * SidecarStream: the sidecar session keeps the byte streams exact

    The counterpart of [BrokerStream] for [Sidecar.clientSession]: relative to
    the same histories [A] (agent to destination) and [D] (destination to
    agent), every operation preserves the invariant and every frame sent is
    true of the histories ([good_up]). *)
From S2P Require Import Prelude ReplayBuffer Socket Wire Link Sidecar.

(** ** Frames a sidecar may send

    About the session, only what is true of it; frames of the other sessions on
    the same connection are arbitrary. *)

Inductive good_up (sid : Z) (A : list byte) (dl : Z) : Frame -> Prop :=
| gu_hello a : str_len a <= maxString -> good_up sid A dl (HelloF a)
| gu_open t : str_len t <= maxString -> good_up sid A dl (OpenF sid t)
| gu_attach o t : 0 <= o <= dl -> is_u64 o -> str_len t <= maxString -> good_up sid A dl (AttachF sid o t)
| gu_data o p : at_offset A o p -> is_u64 o -> good_up sid A dl (DataF sid o p)
| gu_ack o : 0 <= o <= dl -> is_u64 o -> good_up sid A dl (AckF sid o)
| gu_close d r : 0 <= d < 256 -> str_len r <= maxString -> good_up sid A dl (CloseF sid d r)
| gu_ping n : is_u64 n -> good_up sid A dl (PingF n)
| gu_other f : postable f -> fSessionID f <> sid -> good_up sid A dl f.
#[export] Hint Constructors good_up : tunnel.

Lemma good_up_postable sid A dl f : is_u64 sid -> good_up sid A dl f -> postable f.
Proof. intros Hs []; auto with tunnel. Qed.

Lemma good_up_mono sid A A' dl dl' f :
  A `prefix_of` A' -> dl <= dl' -> good_up sid A dl f -> good_up sid A' dl' f.
Proof. intros HA Hd []; constructor; try done; try lia. by eapply at_offset_mono. Qed.

Lemma good_up_data sid A dl f :
  good_up sid A dl f -> fType f = TypeData -> fSessionID f = sid -> at_offset A (fOffset f) (fPayload f).
Proof. by intros []. Qed.

Lemma good_up_count sid A dl f :
  good_up sid A dl f -> fType f = TypeAck \/ fType f = TypeAttach -> fSessionID f = sid -> 0 <= fOffset f <= dl.
Proof. intros [] [Ht|Ht]; by try discriminate Ht. Qed.

(** ** The invariant *)

Section stream.
Context {C : Type} `{FrameWriterLaws C}.
Context (sid : Z) (Hsid : is_u64 sid).
Implicit Types (st : cst C) (A D : list byte).

Abbreviation delivered st := (cs_downDelivered (cs st)).

(** [uw] is how much of [A] the destination has received. *)
Record cinv A D (uw : Z) st : Prop := {
  ci_sid : cs_sessionID (cs st) = sid;
  ci_target : str_len (cs_target (cs st)) <= maxString;
  ci_up : exists acked, rb_rep (cs_upBuf (cs st)) (MkStream A acked) /\ acked <= uw;
  ci_D : len D < 2 ^ 64;
  ci_range : 0 <= delivered st <= len D;
  ci_sink : sink_ok D (delivered st) (cs_agent (cs st));
  ci_net : net_ok (good_up sid A (delivered st)) (cnet st);
}.

Lemma cinv_dl A D uw st : cinv A D uw st -> is_u64 (delivered st).
Proof. intros []. unfold is_u64. lia. Qed.

Lemma cinv_A A D uw st : cinv A D uw st -> len A < 2 ^ 64.
Proof. intros B. destruct (ci_up _ _ _ _ B) as (a & R & _). apply (rep_u64 _ _ R). Qed.

Lemma cinv_mono A D D' uw uw' st :
  D `prefix_of` D' -> len D' < 2 ^ 64 -> uw <= uw' -> cinv A D uw st -> cinv A D' uw' st.
Proof.
  intros HD HD' Hu [? ? (a & R & Ha) ? ? ? ?]. split; auto.
  - exists a. split; [done|lia].
  - apply prefix_length in HD. unfold len in *. lia.
  - eapply sink_ok_mono; [done|lia|done].
Qed.

(** Changes that do not touch the streams. *)
Definition same_cstream (s s' : clientSession) : Prop :=
  cs_sessionID s' = cs_sessionID s /\ cs_target s' = cs_target s /\
  cs_upBuf s' = cs_upBuf s /\ cs_downDelivered s' = cs_downDelivered s /\
  sk_out (cs_agent s') = sk_out (cs_agent s) /\ sk_cap (cs_agent s') = sk_cap (cs_agent s).

Lemma cinv_same A D uw st st' :
  same_cstream (cs st) (cs st') -> cnet st' = cnet st -> cinv A D uw st -> cinv A D uw st'.
Proof.
  intros (E1 & E2 & E3 & E4 & E5 & E6) En [].
  split; rewrite ?E1, ?E2, ?E3, ?E4, ?En; auto. by eapply sink_ok_same.
Qed.

Lemma cinv_send A D uw st f :
  good_up sid A (delivered st) f -> cinv A D uw st -> cinv A D uw (csend f st).
Proof.
  intros Hf B. unfold csend. destruct (cconn st) as [tc|]; [|done].
  destruct (cnet st !! tc) as [c|] eqn:E; [|done].
  destruct (fw_write f c) as [c' ok] eqn:W. simpl.
  destruct B as [? ? ? ? ? ? Hn]. split; try done. simpl.
  eapply net_ok_write; [done|done| |done|done]. by eapply good_up_postable.
Qed.

Lemma cinv_closeAll A D uw st : cinv A D uw st -> cinv A D uw (closeAll st).
Proof.
  intros B. unfold closeAll. destruct (cs_dead (cs st)); [done|]. by apply (cinv_same A D uw st).
Qed.

(** ** Agent to destination *)

Lemma cinv_trim A D uw st o :
  o <= uw -> cinv A D uw st ->
  cinv A D uw (cupd (fun s => set_cs_upBuf (TrimTo (cs_upBuf s) o) s) st).
Proof.
  intros Ho [? ? (a & R & Ha) ? ? ? ?]. destruct (rep_trim R o) as [R' _].
  split; simpl; try done. eexists. split; [exact R'|]. simpl. lia.
Qed.

Lemma cinv_append A D uw st q :
  cinv A D uw st -> len q <= Free (cs_upBuf (cs st)) -> len A + len q < 2 ^ 64 ->
  exists b, Append (cs_upBuf (cs st)) q = Ok b /\ cinv (A ++ q) D uw (cupd (set_cs_upBuf b) st).
Proof.
  intros [? ? (a & R & Ha) ? ? ? ?] Hq HA.
  destruct (rep_append R q Hq HA) as (b & Hb & R' & _). exists b. split; [done|].
  split; simpl; try done.
  - by exists a.
  - eapply net_ok_impl; [|done]. intros g. apply good_up_mono; [|lia]. by apply prefix_app_r.
Qed.

Definition write_rest (r : write_result) (rest : list byte) st' : Prop :=
  match r with
  | WDone => rest = []
  | WBlocked k => k = rest /\ rest <> [] /\ Free (cs_upBuf (cs st')) = 0
  | WClosed => cs_dead (cs st') = true
  | WErr _ | WFuel => False
  end.

Lemma cinv_write fuel p A D uw st st' r :
  (length p <= fuel)%nat -> cinv A D uw st -> len A + len p < 2 ^ 64 ->
  write_loop fuel p st = (st', r) ->
  exists q rest, p = q ++ rest /\ cinv (A ++ q) D uw st' /\ write_rest r rest st'.
Proof.
  revert p A st. induction fuel as [|fuel IH]; intros p A st Hf B HA; destruct p as [|b0 p'];
    try (simpl; intros [= <- <-]; exists [], []; by rewrite (app_nil_r A)); [simpl in Hf; lia|].
  set (p := b0 :: p') in *. simpl write_loop. fold p.
  destruct (cs_dead (cs st)) eqn:Hd.
  { intros [= <- <-]. exists [], p. by rewrite (app_nil_r A). }
  destruct (Z.eqb_spec (Free (cs_upBuf (cs st))) 0) as [E|E].
  { intros [= <- <-]. exists [], p. by rewrite (app_nil_r A). }
  destruct (ci_up _ _ _ _ B) as (a & R & _).
  assert (0 < Free (cs_upBuf (cs st))) as Hfree.
  { pose proof (rep_cap _ _ R). pose proof (len_nonneg (rb_buf (cs_upBuf (cs st)))). unfold Free in *. lia. }
  set (n := if _ >? _ then _ else _).
  assert (0 < n <= len p /\ n <= Free (cs_upBuf (cs st))) as [Hn Hnf].
  { unfold n. assert (0 < len p) by (unfold p; len_solve). zcases; lia. }
  set (q := ztake n p).
  assert (len q = n) as Lq by (apply len_ztake; lia).
  destruct (cinv_append A D uw st q) as (b & -> & B1); [done|lia|lia|].
  rewrite (rep_End R). simpl st_hist. set (st1 := cupd (set_cs_upBuf b) st) in *.
  assert (cinv (A ++ q) D uw (csend (DataF (cs_sessionID (cs st1)) (len A) q) st1)) as B2.
  { apply cinv_send; [|done]. rewrite (ci_sid _ _ _ _ B1). pose proof (len_nonneg A).
    apply gu_data; [apply at_offset_end|unfold is_u64; lia]. }
  intros Hl. apply (IH _ (A ++ q)) in Hl as (q2 & rest & Hp & B3 & Hr); [|..|done|].
  - exists (q ++ q2), rest. rewrite <- (ztake_zdrop n p), Hp. fold q.
    rewrite <- app_assoc in B3. by rewrite <- app_assoc.
  - simpl in Hf. unfold zdrop. rewrite length_drop. unfold p in *. simpl length in *. lia.
  - rewrite len_app, len_zdrop by lia. lia.
Qed.

(** After a reconnect everything the broker has not written is sent again, and
    an offset it has confirmed never reaches below the replay buffer. *)
Lemma cinv_attachOK A D uw st o :
  cinv A D uw st -> 0 <= o <= uw -> uw <= len A -> cinv A D uw (onAttachOK o st).
Proof.
  intros B Ho Hu. pose proof (cinv_A _ _ _ _ B) as HA.
  unfold onAttachOK. set (st1 := cupd _ st).
  assert (cinv A D uw st1) as B1 by (apply cinv_trim; [lia|done]).
  destruct (ci_up _ _ _ _ B1) as (a & R & Ha).
  destruct (From _ o) as [q|] eqn:Ef; [|done]. destruct (_ >? 0); [|done].
  apply (rep_from_at_offset _ _ _ _ _ R) in Ef as [? ?].
  apply cinv_send; [|done]. rewrite (ci_sid _ _ _ _ B1). apply gu_data; [done|unfold is_u64; lia].
Qed.

Lemma cinv_closeUp A D uw st reason :
  str_len reason <= maxString -> cinv A D uw st -> cinv A D uw (closeUp reason st).
Proof.
  intros Hr B. unfold closeUp. destruct (cs_upClosed (cs st)); [done|].
  set (st1 := cupd _ st). assert (cinv A D uw st1) as B1 by (by apply (cinv_same A D uw st)).
  apply cinv_send; [|done]. rewrite (ci_sid _ _ _ _ B1). by constructor.
Qed.

(** ** Destination to agent *)

Lemma deliver_check_dedup o p s :
  cs_dead s = false -> deliver_check o p s = dedup (cs_downDelivered s) o p.
Proof. intros Hd. unfold deliver_check, dedup. by rewrite Hd. Qed.

Lemma cinv_deliver A D uw st o p :
  cinv A D uw st -> at_offset D o p -> cinv A D uw (deliverDown o p st).
Proof.
  intros B Hp. pose proof (cinv_dl _ _ _ _ B) as Hd. unfold deliverDown.
  destruct (cs_dead (cs st)) eqn:Ed; [unfold deliver_check; by rewrite Ed|].
  rewrite deliver_check_dedup by done. pose proof (dedup_spec D (delivered st) o p Hp Hd) as Hq.
  destruct (dedup _ o p) as [q|]; [|done]. destruct Hq as (Hq & _ & _).
  pose proof (at_offset_bound _ _ _ Hq) as Hb. pose proof (len_nonneg q).
  unfold deliver_write. destruct (sock_write q _) as [u ok] eqn:W.
  pose proof (sink_write _ _ _ _ _ _ (ci_sink _ _ _ _ B) Hq W) as Hk. destruct ok.
  - set (st1 := cupd _ (cupd _ st)). pose proof (ci_D _ _ _ _ B). pose proof (ci_range _ _ _ _ B).
    assert (delivered st1 = delivered st + len q) as E by (apply u64_small; lia).
    assert (cinv A D uw st1) as B1.
    { destruct B. split; rewrite ?E; try done; [lia|].
      eapply net_ok_impl; [|done]. intros g. apply good_up_mono; [done|lia]. }
    apply cinv_send; [|done]. rewrite (ci_sid _ _ _ _ B1).
    constructor; [lia|]. apply (cinv_dl _ _ _ _ B1).
  - apply cinv_closeAll. destruct B. by split.
Qed.

Lemma cinv_onClose A D uw st d r : cinv A D uw st -> cinv A D uw (onClose d r st).
Proof.
  intros B. unfold onClose. destruct (_ =? _); [|done].
  set (st1 := cupd _ st). assert (cinv A D uw st1) as B1 by (by apply (cinv_same A D uw st)).
  destruct (cs_canCloseWrite _); [by apply (cinv_same A D uw st1)|by apply cinv_closeAll].
Qed.

Lemma cinv_dispatch A D uw st f :
  cinv A D uw st -> uw <= len A ->
  (fType f = TypeAttachOK -> 0 <= fOffset f <= uw) ->
  (fType f = TypeAck -> 0 <= fOffset f <= uw) ->
  (fType f = TypeData -> at_offset D (fOffset f) (fPayload f)) ->
  cinv A D uw (session_dispatch f st).
Proof.
  intros B Hu H1 H2 H3. unfold session_dispatch.
  destruct (Z.eqb_spec (fType f) TypeAttachOK); [by apply cinv_attachOK; auto|].
  destruct (Z.eqb_spec (fType f) TypeData); [by apply cinv_deliver; auto|].
  destruct (Z.eqb_spec (fType f) TypeAck); [apply cinv_trim; [|done]; by apply H2|].
  destruct (_ =? _); [by apply cinv_onClose|done].
Qed.

(** ** Reconnects *)

Lemma cinv_new_conn A D uw st tc c :
  cinv A D uw st -> fw_clean c -> Forall (good_up sid A (delivered st)) (fw_sent c) ->
  forall o, cinv A D uw (MkCst (cs st) o (<[tc:=c]> (cnet st)) (cremoved st)).
Proof. intros [] Hc HF o. split; try done. by apply net_ok_insert. Qed.

Lemma cinv_connect A D uw st actorID tc c :
  cinv A D uw st -> str_len actorID <= maxString -> fw_clean c -> fw_sent c = [] ->
  cinv A D uw (fst (session_connect actorID tc c st)).
Proof.
  intros B Ha Hc Hs. unfold session_connect. destruct (fw_write _ c) as [c' ok] eqn:W.
  apply fw_write_spec in W as [Hc' Hs']; [|done|by apply pb_wf, wf_hello].
  assert (Forall (good_up sid A (delivered st)) (fw_sent c')) as HF.
  { rewrite Hs in Hs'. destruct Hs' as [->|(_ & _ & ->)]; repeat constructor. done. }
  pose proof (cinv_new_conn A D uw st tc c' B Hc' HF) as B1.
  destruct ok; simpl; [|apply B1]. apply cinv_send; [|apply B1].
  unfold attachFrame. simpl. rewrite (ci_sid _ _ _ _ B). pose proof (ci_range _ _ _ _ B).
  constructor; [lia|by eapply cinv_dl|apply B].
Qed.

Lemma cinv_disconnect A D uw st tc : cinv A D uw st -> cinv A D uw (session_disconnect tc st).
Proof.
  intros B. unfold session_disconnect. destruct (decide _); [|done].
  by apply (cinv_same A D uw st).
Qed.

(** A dead session stays dead. *)
Lemma csend_cs (f : Frame) st : cs (csend f st) = cs st.
Proof. unfold csend. by repeat case_match. Qed.

Lemma closeAll_dead st : cs_dead (cs (closeAll st)) = true.
Proof. unfold closeAll. by destruct (cs_dead (cs st)) eqn:E. Qed.

Lemma dead_write fuel p st :
  cs_dead (cs st) = true -> cs_dead (cs (fst (write_loop fuel p st))) = true.
Proof. intros E. destruct fuel, p; simpl; try done. by rewrite E. Qed.

Lemma dead_dispatch f st :
  cs_dead (cs st) = true -> cs_dead (cs (session_dispatch f st)) = true.
Proof.
  intros E. unfold session_dispatch, onAttachOK, deliverDown, deliver_check, onUpstreamAck, onClose.
  rewrite E. repeat case_match; rewrite ?csend_cs, ?closeAll_dead; done.
Qed.

Lemma dead_closeUp r st : cs_dead (cs st) = true -> cs_dead (cs (closeUp r st)) = true.
Proof. intros E. unfold closeUp. case_match; [done|]. by rewrite csend_cs. Qed.

Lemma connect_cs a tc c st : cs (fst (session_connect a tc c st)) = cs st.
Proof.
  unfold session_connect. destruct (fw_write _ c) as [c' []]; simpl; [by rewrite csend_cs|done].
Qed.

(** The delivered offset only grows. *)
Lemma deliver_delivered A D uw st o p :
  cinv A D uw st -> at_offset D o p -> delivered st <= delivered (deliverDown o p st).
Proof.
  intros B Hp. pose proof (cinv_dl _ _ _ _ B) as Hd. unfold deliverDown.
  destruct (cs_dead (cs st)) eqn:Ed; [unfold deliver_check; by rewrite Ed|].
  rewrite deliver_check_dedup by done. pose proof (dedup_spec D (delivered st) o p Hp Hd) as Hq.
  destruct (dedup _ o p) as [q|]; [|done]. destruct Hq as (Hq & _ & _).
  pose proof (at_offset_bound _ _ _ Hq). pose proof (len_nonneg q).
  pose proof (ci_D _ _ _ _ B). pose proof (ci_range _ _ _ _ B).
  unfold deliver_write. destruct (sock_write q _) as [u ok]. destruct ok.
  - rewrite csend_cs. simpl. rewrite u64_small; lia.
  - unfold closeAll. simpl. by case_match.
Qed.

Lemma dispatch_delivered A D uw st f :
  cinv A D uw st -> (fType f = TypeData -> at_offset D (fOffset f) (fPayload f)) ->
  delivered st <= delivered (session_dispatch f st).
Proof.
  intros B H3. unfold session_dispatch.
  destruct (Z.eqb_spec (fType f) TypeAttachOK).
  { unfold onAttachOK. repeat case_match; rewrite ?csend_cs; done. }
  destruct (Z.eqb_spec (fType f) TypeData); [eapply deliver_delivered; eauto|].
  unfold onUpstreamAck, onClose, closeAll. by repeat case_match.
Qed.

Lemma write_delivered fuel p st : delivered (fst (write_loop fuel p st)) = delivered st.
Proof.
  revert p st. induction fuel as [|fuel IH]; intros p st; destruct p as [|b p]; simpl; try done.
  destruct (cs_dead (cs st)); [done|]. destruct (_ =? 0); [done|].
  destruct (Append _ _); [|done]. by rewrite IH, csend_cs.
Qed.
End stream.
