(* ===== verification/System.v ===== *)
(** * System: one session end to end

    Puts the sidecar's half ([Sidecar]) and the broker's half ([BrokerSession])
    of one session together with the agent, the destination and any number of
    tunnel connections, and runs them with every handler atomic: an agent
    write, a read from the destination, a frame arriving at either end, the
    dial, a suspend (the tunnel drops), a resume (a new tunnel is dialed).

    The session shares its connections with others: frames with other session
    ids are written to them at any time, arrive in between, and are passed on to
    other sessions by the dispatch ([broker_frame], [client_frame]).

    The network is modelled as weakly as the safety proof allows: a step may
    hand a receiver any frame that was ever sent to it on any connection, in
    any order and any number of times.  TCP's in-order delivery, and losing
    everything in flight in a suspend, are special cases. *)
From S2P Require Import Prelude ReplayBuffer Socket Wire Link BrokerSession Sidecar.
From S2P Require Import BrokerStream SidecarStream.

Section system.
Context {C : Type} `{FrameWriter C}.
Context (os_error : string).

Record sys : Type := MkSys {
  y_c : cst C;                   (* the sidecar's session *)
  y_b : sst C;                   (* the broker's session *)
  y_created : bool;              (* is it in the broker's table yet? *)
  y_dialed : bool;               (* has dialUpstream finished? *)
  y_reader : read_next;          (* where readUpstreamLoop is *)
  y_upwait : list byte;          (* what a blocked writeUp has still to send *)
  y_agent : list byte;           (* everything the agent has sent so far *)
  y_dest : list byte;            (* everything the destination has sent so far *)
}.

Definition with_c (c : cst C) (y : sys) : sys :=
  MkSys c (y_b y) (y_created y) (y_dialed y) (y_reader y) (y_upwait y) (y_agent y) (y_dest y).
Definition with_b (b : sst C) (y : sys) : sys :=
  MkSys (y_c y) b (y_created y) (y_dialed y) (y_reader y) (y_upwait y) (y_agent y) (y_dest y).
Definition with_created (y : sys) : sys :=
  MkSys (y_c y) (y_b y) true (y_dialed y) (y_reader y) (y_upwait y) (y_agent y) (y_dest y).

(** ** Steps *)

(** The proxy pump hands [p] to [WriteUp]; a pump that is blocked does not
    read more. *)
Definition agent_write (p : list byte) (y : sys) : sys :=
  let '(c, r) := writeUp p (y_c y) in
  MkSys c (y_b y) (y_created y) (y_dialed y) (y_reader y)
    (match r with WBlocked k => k | _ => [] end) (y_agent y ++ p) (y_dest y).

(** [writeUp] goes round its loop again after the condition variable fired. *)
Definition agent_retry (y : sys) : sys :=
  let '(c, r) := writeUp (y_upwait y) (y_c y) in
  MkSys c (y_b y) (y_created y) (y_dialed y) (y_reader y)
    (match r with WBlocked k => k | _ => [] end) (y_agent y) (y_dest y).

(** [Read] on the upstream connection returned [p] and [err]. *)
Definition dest_read (p : list byte) (err : option (option string)) (y : sys) : sys :=
  let '(b, r) := readUpstream p err (y_b y) in
  MkSys (y_c y) b (y_created y) (y_dialed y) r (y_upwait y) (y_agent y) (y_dest y ++ p).

(** A blocked [produceDownstream] goes round its loop again. *)
Definition dest_retry (rest : list byte) (err : option (option string)) (y : sys) : sys :=
  let '(b, r) := readUpstream rest err (y_b y) in
  MkSys (y_c y) b (y_created y) (y_dialed y) r (y_upwait y) (y_agent y) (y_dest y).

Definition dial (r : res string sock) (y : sys) : sys :=
  let '(b, go) := dialUpstream os_error r (y_b y) in
  MkSys (y_c y) b (y_created y) true (if go then RNext else RStopped) (y_upwait y) (y_agent y) (y_dest y).

(** [Broker.handleFrame], [openSession] and [attachSession] as far as this
    session is concerned: frame [f] arrives on tunnel connection [tc]. *)
Definition broker_recv (tc : nat) (f : Frame) (y : sys) : sys :=
  let b := y_b y in
  if fType f =? TypePing then with_b (fst (tc_write tc (PongF (fNonce f)) b)) y
  else if fType f =? TypeOpen then
    if y_created y then with_b (onSidecarAttach 0 (bind tc b)) y
    else with_created (with_b (bind tc b) y)
  else if fType f =? TypeAttach then
    if y_created y then with_b (onSidecarAttach (fOffset f) (bind tc b)) y
    else if (fOffset f =? 0) && bool_decide (fTarget f <> "") then
      with_created (with_b (onSidecarAttach (fOffset f) (bind tc b)) y)
    else with_b (fst (tc_write tc (CloseF (fSessionID f) DirDown "session lost") b)) y
  else if negb (y_created y) then y
  else if fType f =? TypeData then with_b (onData os_error (fOffset f) (fPayload f) b) y
  else if fType f =? TypeAck then with_b (onDownstreamAck (fOffset f) b) y
  else if fType f =? TypeClose then with_b (onSidecarClose (fDir f) (fReason f) b) y
  else y.

(** [readLoop]'s dispatch. *)
Definition client_recv (f : Frame) (y : sys) : sys := with_c (session_dispatch f (y_c y)) y.

(** The dispatch by session id; PING is answered whatever it carries. *)
Definition broker_frame (tc : nat) (f : Frame) (y : sys) : sys :=
  if (fType f =? TypePing) || (fSessionID f =? s_sessionID (ss (y_b y))) then broker_recv tc f y else y.
Definition client_frame (f : Frame) (y : sys) : sys :=
  if fSessionID f =? cs_sessionID (cs (y_c y)) then client_recv f y else y.

(** Another session of the client, or of the broker, writes [f] to [tc]. *)
Definition other_up (tc : nat) (f : Frame) (c : cst C) : cst C :=
  match cnet c !! tc with
  | None => c
  | Some x => MkCst (cs c) (cconn c) (<[tc := fst (fw_write f x)]> (cnet c)) (cremoved c)
  end.

(** The sidecar dials the broker: [cu] and [cd] are the two directions. *)
Definition connect_step (actorID : string) (tc : nat) (cu cd : C) (y : sys) : sys :=
  let b := y_b y in
  with_b (MkSst (ss b) (<[tc := cd]> (net b)) (evs b))
    (with_c (fst (session_connect actorID tc cu (y_c y))) y).

Definition sent_up (tc : nat) (y : sys) : list Frame :=
  match cnet (y_c y) !! tc with Some c => fw_sent c | None => [] end.
Definition sent_down (tc : nat) (y : sys) : list Frame :=
  match net (y_b y) !! tc with Some c => fw_sent c | None => [] end.

Inductive ystep (y : sys) : sys -> Prop :=
| YAgentWrite p : y_upwait y = [] -> ystep y (agent_write p y)
| YAgentRetry : ystep y (agent_retry y)
| YDestRead p err :
    y_reader y = RNext -> (forall e, err = Some (Some e) -> str_len e <= maxString) ->
    ystep y (dest_read p err y)
| YDestRetry rest err :
    y_reader y = RWait rest err -> (forall e, err = Some (Some e) -> str_len e <= maxString) ->
    ystep y (dest_retry rest err y)
| YDialOk cap :
    y_created y = true -> y_dialed y = false -> ystep y (dial (Ok (MkSock [] cap false false)) y)
| YDialFail e :
    y_created y = true -> y_dialed y = false -> str_len ("dial failed: " +:+ e) <= maxString ->
    ystep y (dial (Err e) y)
| YBrokerRecv from tc f :
    s_dead (ss (y_b y)) = false -> f ∈ sent_up from y -> ystep y (broker_frame tc f y)
| YClientRecv from f : f ∈ sent_down from y -> ystep y (client_frame f y)
| YDetach tc : ystep y (with_b (detach tc (y_b y)) y)
| YWatchdog : ystep y (with_b (watchdog_fire (y_b y)) y)
| YConnect actorID tc cu cd :
    str_len actorID <= maxString -> fw_clean cu -> fw_sent cu = [] -> fw_clean cd -> fw_sent cd = [] ->
    ystep y (connect_step actorID tc cu cd y)
| YDisconnect tc : ystep y (with_c (session_disconnect tc (y_c y)) y)
| YPing n : is_u64 n -> ystep y (with_c (csend (PingF n) (y_c y)) y)
| YOpen : ystep y (with_c (csend (OpenF (cs_sessionID (cs (y_c y))) (cs_target (cs (y_c y)))) (y_c y)) y)
| YCloseUp reason : str_len reason <= maxString -> ystep y (with_c (closeUp reason (y_c y)) y)
| YOtherUp tc f :
    postable f -> fSessionID f <> cs_sessionID (cs (y_c y)) -> ystep y (with_c (other_up tc f (y_c y)) y)
| YOtherDown tc f :
    postable f -> fSessionID f <> s_sessionID (ss (y_b y)) -> ystep y (with_b (fst (tc_write tc f (y_b y))) y)
| YRefused tc :
    y_created y = false ->
    ystep y (with_b (fst (tc_write tc (CloseF (s_sessionID (ss (y_b y))) DirDown "target not allowed") (y_b y))) y).

(** ** A reconnect, played out in order *)

(** One round trip on connection [tc]: the broker handles the frames it has not
    seen yet ([ku] were handled before), then the sidecar does ([kd]). *)
Definition exchange (tc : nat) (s : sys * nat * nat) : sys * nat * nat :=
  let '(y, ku, kd) := s in
  let ups := drop ku (sent_up tc y) in
  let y := foldl (fun y f => broker_recv tc f y) y ups in
  let downs := drop kd (sent_down tc y) in
  let y := foldl (fun y f => client_recv f y) y downs in
  (y, ku + length ups, kd + length downs)%nat.

(** Dial the broker and let the handshake run for two round trips; HELLO, the
    first frame up, is consumed by [serveTunnel] itself. *)
Definition heal (actorID : string) (tc : nat) (cu cd : C) (y : sys) : sys * nat * nat :=
  exchange tc (exchange tc (connect_step actorID tc cu cd y, 1%nat, 0%nat)).

(** The session as [OpenSession] makes it, with no tunnel up yet. *)
Definition initial (sid : Z) (target : string) (cbuf bbuf : Z) (actorID : string)
    (agentCap : option nat) (canCloseWrite : bool) : sys :=
  MkSys (MkCst (newClientSession cbuf sid target (MkSock [] agentCap false false) canCloseWrite) None ∅ [])
    (MkSst (newSession bbuf actorID sid target) ∅ []) false false RStopped [] [] [].
End system.
Arguments sys C : clear implicits.

(** ** Safety *)

Section safety.
Context {C : Type} `{FrameWriterLaws C} {Own : Ownership}.
Context (sid : Z) (Hsid : is_u64 sid).
Context (os_error : string) (Hos : str_len os_error <= maxString).
Implicit Types (y : sys C).

Abbreviation uw y := (s_upstreamWritten (ss (y_b y))).
Abbreviation delivered y := (cs_downDelivered (cs (y_c y))).

(** The two histories: what has entered each replay buffer. *)
Record yinv y (A D : list byte) : Prop := {
  yi_c : cinv sid A D (uw y) (y_c y);
  yi_b : binv sid A D (delivered y) (y_b y);
  yi_A : A ++ y_upwait y `prefix_of` y_agent y;
  yi_A' : cs_dead (cs (y_c y)) = false -> y_agent y = A ++ y_upwait y;
  yi_D : D ++ reader_wait (y_reader y) `prefix_of` y_dest y;
  yi_D' : s_dead (ss (y_b y)) = false -> y_dest y = D ++ reader_wait (y_reader y);
  yi_dial : y_dialed y = false -> s_upstream (ss (y_b y)) = None /\ y_reader y = RStopped;
}.

(** Steps of one half leave the other half's facts alone. *)
Lemma yinv_client y A D c :
  yinv y A D -> cinv sid A D (uw y) c -> delivered y <= cs_downDelivered (cs c) ->
  (cs_dead (cs c) = false -> cs_dead (cs (y_c y)) = false) ->
  yinv (with_c c y) A D.
Proof.
  intros [Hc Hb ? ? ? ? ?] Hc' Hd Hdead. split; simpl; auto.
  eapply binv_mono; [done| |done|done]. by eapply bi_A.
Qed.

Lemma yinv_broker y A D b :
  yinv y A D -> binv sid A D (delivered y) b -> uw y <= s_upstreamWritten (ss b) ->
  (s_dead (ss b) = false -> s_dead (ss (y_b y)) = false) ->
  (s_upstream (ss (y_b y)) = None -> s_upstream (ss b) = None) ->
  yinv (with_b b y) A D.
Proof.
  intros [Hc Hb ? ? ? ? Hd] Hb' Hu Hdead Hup. split; simpl; auto.
  - eapply cinv_mono; [done| |done|done]. by eapply ci_D.
  - intros E. destruct (Hd E). auto.
Qed.

Lemma not_dead (b b' : bool) : (b = true -> b' = true) -> b' = false -> b = false.
Proof. destruct b, b'; intuition congruence. Qed.

Lemma sent_up_good y A D from f :
  yinv y A D -> f ∈ sent_up from y -> good_up sid A (delivered y) f.
Proof.
  intros I. unfold sent_up. destruct (cnet (y_c y) !! from) as [c|] eqn:E; [|by intros ?%elem_of_nil].
  destruct (ci_net _ _ _ _ _ (yi_c _ _ _ I) from c E) as [_ HF]. rewrite Forall_forall in HF. apply HF.
Qed.

Lemma sent_down_good y A D from f :
  yinv y A D -> owns from -> f ∈ sent_down from y -> good_down sid D (uw y) f.
Proof.
  intros I Ho. unfold sent_down. destruct (net (y_b y) !! from) as [c|] eqn:E; [|by intros ?%elem_of_nil].
  destruct (bi_net _ _ _ _ _ (yi_b _ _ _ I) from c Ho E) as [_ HF]. rewrite Forall_forall in HF. apply HF.
Qed.

Lemma yinv_client_recv y A D f :
  yinv y A D -> good_down sid D (uw y) f -> fSessionID f = sid -> yinv (client_recv f y) A D.
Proof.
  intros I Hf Hsf. pose proof (binv_uw _ _ _ _ _ (yi_b _ _ _ I)) as [Hu _].
  assert ((fType f = TypeAttachOK -> 0 <= fOffset f <= uw y) /\
          (fType f = TypeAck -> 0 <= fOffset f <= uw y) /\
          (fType f = TypeData -> at_offset D (fOffset f) (fPayload f))) as (H1 & H2 & H3)
    by (by destruct Hf).
  apply yinv_client; [done|..].
  - apply cinv_dispatch; [done|apply I|lia|done..].
  - eapply dispatch_delivered; [apply I|done].
  - apply not_dead, dead_dispatch.
Qed.

(** Attaching is [onSidecarAttach] after [bind]. *)
Lemma yinv_attach y A D tc o :
  yinv y A D -> is_u64 o -> yinv (with_b (onSidecarAttach o (bind tc (y_b y))) y) A D.
Proof.
  intros I Ho. apply yinv_broker; [done|..].
  - apply binv_attach; [done| |done]. by apply binv_bind, (yi_b _ _ _ I).
  - by rewrite attach_uw.
  - by rewrite dead_attach.
  - intros E. by destruct (attach_ss o (bind tc (y_b y))) as [v ->].
Qed.

Lemma yinv_created y A D : yinv y A D -> yinv (with_created y) A D.
Proof. by intros []. Qed.

Lemma yinv_tc_write y A D tc f :
  yinv y A D -> good_down sid D (uw y) f -> yinv (with_b (fst (tc_write tc f (y_b y))) y) A D.
Proof.
  intros I Hf. destruct (tc_write tc f (y_b y)) as [b ok] eqn:W. simpl.
  pose proof (tc_write_ss _ _ _ _ _ W) as [E _].
  apply yinv_broker; rewrite ?E; try done. eapply binv_tc_write; [done|done|done|apply I].
Qed.

Lemma yinv_broker_recv y A D tc f :
  yinv y A D -> good_up sid A (delivered y) f -> fType f = TypePing \/ fSessionID f = sid ->
  yinv (broker_recv os_error tc f y) A D.
Proof.
  intros I Hf Hsf. pose proof (yi_b _ _ _ I) as B. destruct Hf as [a|t|o t Ho|o p Hp|o Ho|d r|n|f Hwf Hne].
  - change (yinv (if negb (y_created y) then y else y) A D). by destruct (y_created y).
  - change (yinv (if y_created y then with_b (onSidecarAttach 0 (bind tc (y_b y))) y
                  else with_created (with_b (bind tc (y_b y)) y)) A D).
    destruct (y_created y); [by apply yinv_attach|].
    apply yinv_created, yinv_broker; try done. by apply binv_bind.
  - unfold broker_recv. cbn [fType fOffset fTarget fSessionID AttachF].
    change (TypeAttach =? TypePing) with false. change (TypeAttach =? TypeOpen) with false.
    change (TypeAttach =? TypeAttach) with true. cbn iota.
    destruct (y_created y); [by apply yinv_attach|].
    destruct (_ && _); [by apply yinv_created, yinv_attach|].
    apply yinv_tc_write; [done|by constructor].
  - change (yinv (if negb (y_created y) then y else with_b (onData os_error o p (y_b y)) y) A D).
    destruct (y_created y); [|done]. apply yinv_broker; [done|..].
    + by apply binv_onData.
    + by eapply onData_uw.
    + apply not_dead. intros E. unfold onData, onData_check. rewrite E. by destruct (y_b y).
    + intros E. eapply onData_no_upstream; [done|done|done].
  - change (yinv (if negb (y_created y) then y else with_b (onDownstreamAck o (y_b y)) y) A D).
    destruct (y_created y); [|done]. apply yinv_broker; [done|..].
    + apply binv_ack; [lia|done].
    + unfold onDownstreamAck. simpl. by case_match.
    + unfold onDownstreamAck. simpl. by case_match.
    + unfold onDownstreamAck. simpl. by case_match.
  - change (yinv (if negb (y_created y) then y else with_b (onSidecarClose d r (y_b y)) y) A D).
    destruct (y_created y); [|done]. apply yinv_broker; [done|..].
    + by apply binv_close.
    + unfold onSidecarClose. case_match; [done|]. by rewrite maybeDestroy_uw.
    + apply not_dead. intros E. unfold onSidecarClose. case_match; [done|]. by apply dead_maybeDestroy.
    + intros E. unfold onSidecarClose. case_match; [done|]. apply maybeDestroy_no_upstream. simpl. by rewrite E.
  - change (yinv (with_b (fst (tc_write tc (PongF n) (y_b y))) y) A D).
    apply yinv_tc_write; [done|by constructor].
  - destruct Hsf as [Ht|]; [|done]. unfold broker_recv. rewrite Ht. change (TypePing =? TypePing) with true. cbn iota.
    apply yinv_tc_write; [done|]. apply gd_pong. by destruct Hwf as [f []|].
Qed.

Lemma yinv_broker_frame y A D tc f :
  yinv y A D -> good_up sid A (delivered y) f -> yinv (broker_frame os_error tc f y) A D.
Proof.
  intros I Hf. unfold broker_frame. rewrite (bi_sid _ _ _ _ _ (yi_b _ _ _ I)).
  destruct (Z.eqb_spec (fType f) TypePing); [apply yinv_broker_recv; auto|].
  destruct (Z.eqb_spec (fSessionID f) sid); [apply yinv_broker_recv; auto|done].
Qed.

Lemma yinv_client_frame y A D f :
  yinv y A D -> good_down sid D (uw y) f -> yinv (client_frame f y) A D.
Proof.
  intros I Hf. unfold client_frame. rewrite (ci_sid _ _ _ _ _ (yi_c _ _ _ I)).
  destruct (Z.eqb_spec (fSessionID f) sid); [by apply yinv_client_recv|done].
Qed.

(** Other sessions' frames. *)
Lemma yinv_other_up y A D tc f :
  yinv y A D -> postable f -> fSessionID f <> sid -> yinv (with_c (other_up tc f (y_c y)) y) A D.
Proof.
  intros I Hwf Hne. pose proof (yi_c _ _ _ I) as Cc.
  unfold other_up. destruct (cnet (y_c y) !! tc) as [x|] eqn:E; [|by destruct y].
  apply yinv_client; [done| |done|done]. destruct Cc. split; simpl; try done.
  destruct (fw_write f x) as [x' ok] eqn:W. simpl. eapply net_ok_write; [done|exact E|exact Hwf| |exact W]. intros _. by apply gu_other.
Qed.

(** A turn of the agent's pump. *)
Lemma yinv_write y A D p c r agent' :
  yinv y A D -> writeUp p (y_c y) = (c, r) -> A `prefix_of` agent' -> len agent' < 2 ^ 64 ->
  (cs_dead (cs (y_c y)) = false -> agent' = A ++ p) ->
  exists A', yinv (MkSys c (y_b y) (y_created y) (y_dialed y) (y_reader y)
    (match r with WBlocked k => k | _ => [] end) agent' (y_dest y)) A' D.
Proof.
  intros [Hc Hb HA HA' ? ? ?] W Hpre Hlen Heq. destruct (cs_dead (cs (y_c y))) eqn:Hd.
  - assert (c = y_c y /\ (r = WClosed \/ r = WDone)) as [-> Hr].
    { revert W. unfold writeUp. destruct p; simpl; [by intros [= <- <-]; auto|].
      rewrite Hd. intros [= <- <-]. auto. }
    exists A. split; simpl; try done; [|congruence].
    destruct Hr as [-> | ->]; by rewrite app_nil_r.
  - specialize (Heq eq_refl). subst agent'. rewrite len_app in Hlen.
    pose proof (write_delivered (length p) p (y_c y)) as Edl. fold (writeUp p (y_c y)) in Edl.
    rewrite W in Edl. simpl in Edl.
    apply (cinv_write sid Hsid _ p A D (uw y)) in W as (q & rest & -> & Hc' & Hr); [|done..].
    rewrite len_app in Hlen. pose proof (len_nonneg rest).
    set (w := match r with WBlocked k => k | _ => [] end).
    assert (w `prefix_of` rest /\ (cs_dead (cs c) = false -> rest = w)) as [Hw Hw'].
    { unfold w. destruct r; simpl in Hr; try done.
      - by rewrite Hr.
      - by destruct Hr as (-> & _).
      - split; [apply prefix_nil|congruence]. }
    exists (A ++ q). split; simpl; try done.
    + rewrite Edl. eapply binv_mono; [by apply prefix_app_r|rewrite len_app; lia|done|done].
    + rewrite <- app_assoc. by do 2 apply prefix_app.
    + intros Hd'. rewrite <- app_assoc. by rewrite <- Hw'.
Qed.

(** A turn of the destination's reader. *)
Lemma yinv_dest y A D p err b r dest' :
  yinv y A D -> readUpstream p err (y_b y) = (b, r) -> y_dialed y = true ->
  D `prefix_of` dest' -> len dest' < 2 ^ 64 ->
  (s_dead (ss (y_b y)) = false -> dest' = D ++ p) ->
  (forall e, err = Some (Some e) -> str_len e <= maxString) ->
  exists D', yinv (MkSys (y_c y) b (y_created y) (y_dialed y) r (y_upwait y) (y_agent y) dest') A D'.
Proof.
  intros [Hc Hb ? ? HD HD' ?] W Hdial Hpre Hlen Heq He.
  pose proof (read_uw p err (y_b y)) as Eu. rewrite W in Eu. simpl in Eu.
  pose proof (dead_read p err (y_b y)) as Hdead. rewrite W in Hdead. simpl in Hdead.
  destruct (s_dead (ss (y_b y))) eqn:Ed.
  { destruct (binv_read_dead sid Hsid A D (delivered y) p err (y_b y)) as [Hb' Hr]; [done..|].
    rewrite W in Hb', Hr. simpl in Hb', Hr. exists D.
    split; simpl; rewrite ?Eu, ?Hr, ?app_nil_r; try done; [|congruence].
    intros E. rewrite Hdead in E; done. }
  specialize (Heq eq_refl). subst dest'. rewrite len_app in Hlen.
  apply (binv_read sid Hsid p err A D (delivered y)) in W as (q & rest & -> & Hb' & H1 & H2 & H3);
    [|done..].
  rewrite len_app in Hlen. pose proof (len_nonneg rest).
  exists (D ++ q).
  assert (rest = reader_wait r \/ (reader_wait r = [] /\ s_dead (ss b) = true)) as Hw.
  { destruct r as [| |k e]; simpl.
    - left. auto.
    - destruct (H3 eq_refl) as [[-> _]|]; auto.
    - left. by destruct (H2 k e eq_refl). }
  split; simpl; try done; [..|congruence].
  - rewrite Eu. eapply cinv_mono; [by apply prefix_app_r|rewrite len_app; lia|done|done].
  - destruct Hw as [<- | [-> _]]; [by rewrite <- app_assoc|].
    rewrite app_nil_r. apply prefix_app. by apply prefix_app_r.
  - intros Hd. destruct Hw as [<- | [_ ?]]; [|congruence]. by rewrite <- app_assoc.
Qed.

Lemma yinv_dial y A D r b go :
  yinv y A D -> y_dialed y = false -> dialUpstream os_error r (y_b y) = (b, go) ->
  (exists cap, r = Ok (MkSock [] cap false false)) \/
  (exists e, r = Err e /\ str_len ("dial failed: " +:+ e) <= maxString) ->
  yinv (MkSys (y_c y) b (y_created y) true (if go then RNext else RStopped) (y_upwait y)
          (y_agent y) (y_dest y)) A D.
Proof.
  intros I Hn W Hr. pose proof (dial_uw sid os_error A D _ (y_b y) r (yi_b _ _ _ I)) as Eu.
  destruct I as [Hc Hb ? ? HD HD' Hdial].
  destruct (Hdial Hn) as [Hup Hrd]. rewrite Hrd in *. simpl reader_wait in *.
  assert (binv sid A D (delivered y) b) as Hb'.
  { change b with (fst (b, go)). rewrite <- W. destruct Hr as [[cap ->]|(e & -> & He)].
    - by apply binv_dial.
    - by apply binv_dial_fail. }
  assert (s_dead (ss b) = false -> s_dead (ss (y_b y)) = false) as Hd.
  { apply not_dead. intros E. change b with (fst (b, go)). rewrite <- W.
    destruct r as [c|e]; simpl; [|apply destroy_dead].
    unfold dial_connect. by rewrite E. }
  rewrite W in Eu. simpl in Eu.
  split; simpl; try done.
  - eapply cinv_mono; [done| |done|done]. by eapply ci_D.
  - by destruct go.
  - intros ?%Hd. destruct go; simpl; auto.
Qed.

Lemma reader_dialed y A D : yinv y A D -> y_reader y <> RStopped -> y_dialed y = true.
Proof.
  intros I Hr. destruct (y_dialed y) eqn:E; [done|]. by destruct (yi_dial _ _ _ I E).
Qed.

Lemma yinv_csend y A D f :
  yinv y A D -> good_up sid A (delivered y) f -> yinv (with_c (csend f (y_c y)) y) A D.
Proof.
  intros I Hf. apply yinv_client; rewrite ?csend_cs; try done. apply cinv_send; [done|done|apply I].
Qed.

Lemma detach_dead tc (b : sst C) : s_dead (ss (detach tc b)) = s_dead (ss b).
Proof. by destruct (detach_ss tc b) as [v ->]. Qed.

Lemma detach_uw tc (b : sst C) :
  s_upstreamWritten (ss (detach tc b)) = s_upstreamWritten (ss b) /\
  s_upstream (ss (detach tc b)) = s_upstream (ss b).
Proof. by destruct (detach_ss tc b) as [v ->]. Qed.

Lemma yinv_connect y A D actorID tc cu cd :
  yinv y A D -> str_len actorID <= maxString ->
  fw_clean cu -> fw_sent cu = [] -> fw_clean cd -> fw_sent cd = [] ->
  yinv (connect_step actorID tc cu cd y) A D.
Proof.
  intros I Ha ? ? ? ?. unfold connect_step.
  apply yinv_broker; try done.
  - apply yinv_client; rewrite ?connect_cs; try done. apply cinv_connect; try done. apply I.
  - simpl. rewrite connect_cs. apply binv_new_conn; [apply I|done|done].
Qed.

Lemma ystep_hist y y' :
  ystep os_error y y' -> y_agent y `prefix_of` y_agent y' /\ y_dest y `prefix_of` y_dest y'.
Proof.
  assert (forall l k : list byte, l `prefix_of` l ++ k) as P by (intros; by apply prefix_app_r).
  destruct 1; unfold agent_write, agent_retry, dest_read, dest_retry, dial, client_frame, broker_frame, broker_recv;
    repeat case_match; simpl; auto.
Qed.

(** Turns of the agent's pump and of the destination's reader, new and resumed. *)
Lemma yinv_agent_write y A D p :
  yinv y A D -> y_upwait y = [] -> len (y_agent (agent_write p y)) < 2 ^ 64 ->
  exists A' D', yinv (agent_write p y) A' D'.
Proof.
  unfold agent_write. intros I Hw HA. destruct (writeUp p (y_c y)) as [c r] eqn:W. simpl in HA.
  pose proof (yi_A _ _ _ I) as P. pose proof (yi_A' _ _ _ I) as P'. rewrite Hw, app_nil_r in P, P'.
  destruct (yinv_write y A D p c r (y_agent y ++ p) I W) as [A' ?]; eauto.
  - etrans; [done|by apply prefix_app_r].
  - intros E. by rewrite (P' E).
Qed.

Lemma yinv_agent_retry y A D :
  yinv y A D -> len (y_agent (agent_retry y)) < 2 ^ 64 -> exists A' D', yinv (agent_retry y) A' D'.
Proof.
  unfold agent_retry. intros I HA. destruct (writeUp (y_upwait y) (y_c y)) as [c r] eqn:W. simpl in HA.
  destruct (yinv_write y A D (y_upwait y) c r (y_agent y) I W) as [A' ?]; eauto; [|apply I].
  etrans; [by apply prefix_app_r|apply I].
Qed.

Lemma yinv_dest_read y A D p err :
  yinv y A D -> y_reader y = RNext -> (forall e, err = Some (Some e) -> str_len e <= maxString) ->
  len (y_dest (dest_read p err y)) < 2 ^ 64 -> exists A' D', yinv (dest_read p err y) A' D'.
Proof.
  unfold dest_read. intros I Hr He HD. destruct (readUpstream p err (y_b y)) as [b r] eqn:W. simpl in HD.
  pose proof (yi_D _ _ _ I) as P. pose proof (yi_D' _ _ _ I) as P'. rewrite Hr in P, P'.
  simpl in P, P'. rewrite app_nil_r in P, P'.
  destruct (yinv_dest y A D p err b r (y_dest y ++ p) I W) as [D' ?]; eauto.
  - eapply reader_dialed; [done|by rewrite Hr].
  - etrans; [done|by apply prefix_app_r].
  - intros E. by rewrite (P' E).
Qed.

Lemma yinv_dest_retry y A D rest err :
  yinv y A D -> y_reader y = RWait rest err -> (forall e, err = Some (Some e) -> str_len e <= maxString) ->
  len (y_dest (dest_retry rest err y)) < 2 ^ 64 -> exists A' D', yinv (dest_retry rest err y) A' D'.
Proof.
  unfold dest_retry. intros I Hr He HD. destruct (readUpstream rest err (y_b y)) as [b r] eqn:W. simpl in HD.
  pose proof (yi_D _ _ _ I) as P. pose proof (yi_D' _ _ _ I) as P'. rewrite Hr in P, P'.
  destruct (yinv_dest y A D rest err b r (y_dest y) I W) as [D' ?]; eauto.
  - eapply reader_dialed; [done|by rewrite Hr].
  - etrans; [|exact P]. by apply prefix_app_r.
Qed.

Lemma yinv_step y y' A D :
  (forall tc, owns tc) -> yinv y A D -> ystep os_error y y' -> len (y_agent y') < 2 ^ 64 -> len (y_dest y') < 2 ^ 64 ->
  exists A' D', yinv y' A' D'.
Proof.
  intros Hown I S HA HD. destruct S as [p Hw| |p err Hr He|rest err Hr He|cap Hcr Hn|e Hcr Hn He|
    from tc f Hl Hf|from f Hf|tc| |actorID tc cu cd|tc|n Hn| |reason Hr|tc f Hwf Hne|tc f Hwf Hne|tc Hnc].
  - by eapply yinv_agent_write.
  - by eapply yinv_agent_retry.
  - by eapply yinv_dest_read.
  - by eapply yinv_dest_retry.
  - unfold dial. destruct (dialUpstream _ _ _) as [b go] eqn:W. exists A, D.
    eapply yinv_dial; eauto.
  - unfold dial. destruct (dialUpstream _ _ _) as [b go] eqn:W. exists A, D.
    eapply yinv_dial; eauto.
  - exists A, D. apply yinv_broker_frame; [done|]. by eapply sent_up_good.
  - exists A, D. apply yinv_client_frame; [done|]. by eapply sent_down_good.
  - exists A, D. apply yinv_broker; rewrite ?detach_dead; try done.
    + apply binv_detach; [done|apply I].
    + by rewrite (proj1 (detach_uw _ _)).
    + by rewrite (proj2 (detach_uw _ _)).
  - exists A, D. apply yinv_broker; [done|apply binv_watchdog; [done|apply I]|..];
      unfold watchdog_fire; by case_match.
  - exists A, D. by apply yinv_connect.
  - exists A, D. apply yinv_client; [done|apply cinv_disconnect; apply I|..];
      unfold session_disconnect; by case_match.
  - exists A, D. apply yinv_csend; [done|by constructor].
  - exists A, D. apply yinv_csend; [done|].
    rewrite (ci_sid _ _ _ _ _ (yi_c _ _ _ I)). constructor. apply (yi_c _ _ _ I).
  - exists A, D. apply yinv_client; [done|apply cinv_closeUp; [done|done|apply I]|..].
    + unfold closeUp. case_match; [done|]. by rewrite csend_cs.
    + apply not_dead, dead_closeUp.
  - exists A, D. apply yinv_other_up; [done|done|]. by rewrite <- (ci_sid _ _ _ _ _ (yi_c _ _ _ I)).
  - exists A, D. apply yinv_tc_write; [done|]. constructor; [done|]. by rewrite <- (bi_sid _ _ _ _ _ (yi_b _ _ _ I)).
  - exists A, D. apply yinv_tc_write; [done|]. rewrite (bi_sid _ _ _ _ _ (yi_b _ _ _ I)). by constructor.
Qed.

Lemma yinv_initial target cbuf bbuf actorID cap cw :
  0 <= cbuf -> 0 <= bbuf -> str_len target <= maxString ->
  yinv (initial sid target cbuf bbuf actorID cap cw) [] [].
Proof.
  intros Hc Hb Ht. split; simpl; try done.
  - split; simpl; try done; [|apply sink_ok_new].
    exists 0. split; [by apply rep_new|done].
  - split; simpl; try done. exists 0. split; [by apply rep_new|done].
Qed.

Lemma steps_hist y y' :
  rtc (ystep os_error) y y' -> len (y_agent y) <= len (y_agent y') /\ len (y_dest y) <= len (y_dest y').
Proof.
  induction 1 as [|y y1 y' S _ IH]; [lia|].
  destruct (ystep_hist _ _ S) as [P1%prefix_length P2%prefix_length]. unfold len in *. lia.
Qed.

Lemma yinv_reachable y0 y :
  (forall tc, owns tc) -> (exists A D, yinv y0 A D) -> rtc (ystep os_error) y0 y ->
  len (y_agent y) < 2 ^ 64 -> len (y_dest y) < 2 ^ 64 -> exists A D, yinv y A D.
Proof.
  intros Hown I0 R HA HD. revert I0. induction R as [y0|y0 y1 y S R IH]; [done|].
  intros (A & D & I). apply IH; [done..|]. destruct (steps_hist _ _ R).
  eapply yinv_step; eauto; lia.
Qed.
End safety.

(** ** Recovery *)

(** From here on every connection belongs to the session's own sidecar. *)
#[local] Instance all_owned : Ownership := fun _ => True.

(** [link_up tc fs st]: the sidecar's current connection is [tc], it works, and
    [fs] is what was sent on it. *)
Section recovery.
Context {C : Type} `{FrameWriterLaws C}.
Context (sid : Z) (Hsid : is_u64 sid).
Context (os_error : string) (Hos : str_len os_error <= maxString).
Implicit Types (y : sys C).

Definition works (c : C) (fs : list Frame) : Prop := fw_clean c /\ fw_healthy c /\ fw_sent c = fs.

Definition link_up (tc : nat) (fs : list Frame) (st : cst C) : Prop :=
  cconn st = Some tc /\ exists c, cnet st !! tc = Some c /\ works c fs.

Definition link_down (tc : nat) (fs : list Frame) (st : sst C) : Prop :=
  s_tconn (ss st) = Some tc /\ exists c, net st !! tc = Some c /\ works c fs.

Lemma works_write c fs f :
  works c fs -> wf_frame f -> exists c', fw_write f c = (c', true) /\ works c' (fs ++ [f]).
Proof.
  intros (Hc & Hh & Hs) Hf. destruct (fw_write_healthy f c Hh Hf) as (c' & W & Hh' & E).
  exists c'. split; [done|]. split_and!; [by eapply fw_write_spec; [|apply pb_wf|]|done|by rewrite E, Hs].
Qed.

(** Sending over a working link appends the frame and changes nothing else. *)
Lemma link_up_send tc fs st f :
  link_up tc fs st -> wf_frame f -> link_up tc (fs ++ [f]) (csend f st) /\ cs (csend f st) = cs st.
Proof.
  intros (E & c & Hc & W) Hf. destruct (works_write c fs f W Hf) as (c' & W1 & W').
  unfold csend. rewrite E, Hc, W1. simpl. split; [|done]. split; [done|].
  exists c'. simpl. by rewrite lookup_insert_eq.
Qed.

Lemma link_down_send tc fs st f :
  link_down tc fs st -> wf_frame f ->
  link_down tc (fs ++ [f]) (sendToSidecar f st) /\ ss (sendToSidecar f st) = ss st.
Proof.
  intros (E & c & Hc & W) Hf. destruct (works_write c fs f W Hf) as (c' & W1 & W').
  unfold sendToSidecar, tc_write. rewrite E, Hc, W1. split; [|done]. split; [done|].
  exists c'. simpl. by rewrite lookup_insert_eq.
Qed.

(** A frame that is sent only under a condition. *)
Definition opt (b : bool) (f : Frame) : list Frame := if b then [f] else [].
Definition nonempty (l : list byte) : bool := len l >? 0.

(** What the broker answers to ATTACH at offset [o]. *)
Definition attach_reply (D : list byte) (o : Z) (s : session) : list Frame :=
  AttachOKF sid (s_upstreamWritten s) ::
  opt (nonempty (zdrop o D)) (DataF sid o (zdrop o D)) ++
  opt (s_downClosed s) (CloseF sid DirDown "upstream EOF").

Lemma attach_reply_sent A D dl (st : sst C) tc o :
  binv sid A D dl st -> link_down tc [] st -> dl <= o <= len D -> 0 <= o -> len D - o <= MaxPayload ->
  link_down tc (attach_reply D o (ss st)) (onSidecarAttach o st) /\
  ss (onSidecarAttach o st) = ss st.
Proof.
  intros B L Ho Ho' Hfit. destruct (bi_down _ _ _ _ _ B) as (a & R & Ha).
  pose proof (rep_u64 _ _ R) as HD. simpl in HD.
  destruct (binv_uw _ _ _ _ _ B) as [_ Hw].
  assert (From (s_downBuf (ss st)) o = Ok (zdrop o D)) as EF.
  { rewrite (rep_from R). simpl. by zcases; try lia. }
  unfold onSidecarAttach. rewrite EF, (rep_End R), (bi_sid _ _ _ _ _ B). simpl st_hist.
  rewrite len_zdrop by lia. replace (o + (len D - o)) with (len D) by lia.
  rewrite u64_small by (pose proof (len_nonneg D); lia). rewrite Z.eqb_refl, andb_true_r.
  destruct (link_down_send _ _ _ (AttachOKF sid (s_upstreamWritten (ss st))) L) as [L1 E1];
    [by constructor|]. simpl app in L1.
  set (st1 := sendToSidecar (AttachOKF _ _) st) in *.
  assert (is_u64 o) as Ho64 by (unfold is_u64; lia).
  unfold attach_reply, opt, nonempty. rewrite len_zdrop by lia.
  destruct (_ >? 0).
  - destruct (link_down_send _ _ _ (DataF sid o (zdrop o D)) L1) as [L2 E2];
      [apply wf_data; [done|done|rewrite len_zdrop; lia]|].
    destruct (s_downClosed (ss st)); [|by rewrite E2, E1].
    destruct (link_down_send _ _ _ (CloseF sid DirDown "upstream EOF") L2) as [L3 E3]; [by constructor|].
    by rewrite E3, E2, E1.
  - destruct (s_downClosed (ss st)); [|by rewrite E1].
    destruct (link_down_send _ _ _ (CloseF sid DirDown "upstream EOF") L1) as [L3 E3]; [by constructor|].
    by rewrite E3, E1.
Qed.

(** The sidecar, on ATTACH_OK, sends what the broker has not written. *)
Lemma attachOK_sent A D uw (st : cst C) tc fs :
  cinv sid A D uw st -> link_up tc fs st -> 0 <= uw <= len A -> len A - uw <= MaxPayload ->
  link_up tc (fs ++ opt (nonempty (zdrop uw A)) (DataF sid uw (zdrop uw A))) (onAttachOK uw st) /\
  cs (onAttachOK uw st) = set_cs_upBuf (TrimTo (cs_upBuf (cs st)) uw) (cs st).
Proof.
  intros B L Hu Hfit. pose proof (cinv_A _ _ _ _ _ B) as HA.
  assert (cinv sid A D uw (cupd (fun s => set_cs_upBuf (TrimTo (cs_upBuf s) uw) s) st)) as B1
    by (by apply cinv_trim).
  destruct (ci_up _ _ _ _ _ B1) as (a & R & Ha). simpl in R.
  assert (From (TrimTo (cs_upBuf (cs st)) uw) uw = Ok (zdrop uw A)) as EF.
  { rewrite (rep_from R). simpl. by zcases; try lia. }
  unfold onAttachOK. simpl cs. simpl cs_upBuf. rewrite EF. simpl cs_sessionID. rewrite (ci_sid _ _ _ _ _ B).
  unfold opt, nonempty. destruct (_ >? 0); [|by rewrite app_nil_r].
  match goal with |- link_up _ _ (csend ?f ?s) /\ _ => apply (link_up_send tc fs s f) end; [done|].
  constructor; [done|unfold is_u64; lia|rewrite len_zdrop; lia].
Qed.

(** The sidecar delivers the replay and confirms it. *)
Lemma deliver_sent A D uw (st : cst C) tc fs :
  cinv sid A D uw st -> link_up tc fs st -> cs_dead (cs st) = false -> sock_healthy (cs_agent (cs st)) ->
  let dl := cs_downDelivered (cs st) in
  let st' := deliverDown dl (zdrop dl D) st in
  link_up tc (fs ++ [AckF sid (len D)]) st' /\
  cs st' = set_cs_downDelivered (len D)
             (set_cs_agent (MkSock (sk_out (cs_agent (cs st)) ++ zdrop dl D) None false false) (cs st)).
Proof.
  intros B L Hd Hh dl st'. unfold st', deliverDown, deliver_check.
  pose proof (ci_range _ _ _ _ _ B) as Hr. pose proof (ci_D _ _ _ _ _ B) as HD. fold dl in Hr |- *.
  rewrite Hd. destruct (Z.ltb_spec dl dl); [lia|]. destruct (Z.gtb_spec dl dl); [lia|].
  assert (u64 (dl + (len D - dl)) = len D) as Eu.
  { replace (dl + (len D - dl)) with (len D) by lia. apply u64_small. lia. }
  unfold deliver_write. rewrite (sock_write_healthy _ _ Hh). simpl. fold dl.
  rewrite len_zdrop, Eu by lia. rewrite (ci_sid _ _ _ _ _ B).
  match goal with |- link_up _ _ (csend ?f ?s) /\ _ => destruct (link_up_send tc fs s f) as [L' E] end.
  - done.
  - constructor; [done|unfold is_u64; lia].
  - split; [exact L'|]. rewrite E. simpl. fold dl. by rewrite Eu.
Qed.

(** The broker writes the replayed bytes and confirms them. *)
Lemma data_sent A D dl (st : sst C) tc fs u :
  binv sid A D dl st -> link_down tc fs st -> s_dead (ss st) = false ->
  s_upstream (ss st) = Some u -> sock_healthy u ->
  let uw := s_upstreamWritten (ss st) in
  let st' := onData os_error uw (zdrop uw A) st in
  link_down tc (fs ++ [AckF sid (len A)]) st' /\
  s_upstream (ss st') = Some (MkSock (sk_out u ++ zdrop uw A) None false false) /\
  s_downBuf (ss st') = s_downBuf (ss st) /\ s_dead (ss st') = false.
Proof.
  intros B L Hd Hu Hh uw st'. pose proof (bi_conn _ _ _ _ _ B) as Hc. rewrite Hu in Hc.
  destruct Hc as (Hc & _). destruct (binv_uw _ _ _ _ _ B) as [Hw _]. pose proof (bi_A _ _ _ _ _ B).
  unfold st', onData. rewrite onData_check_dedup, Hc by done. unfold dedup. fold uw in Hw |- *.
  destruct (Z.ltb_spec uw uw); [lia|]. destruct (Z.gtb_spec uw uw); [lia|].
  unfold onData_write, up_write. simpl. rewrite Hu, (sock_write_healthy _ _ Hh).
  unfold commit_upstream. simpl. fold uw. rewrite len_zdrop by lia.
  replace (uw + (len A - uw)) with (len A) by lia.
  rewrite u64_small by (pose proof (len_nonneg A); lia). rewrite (bi_sid _ _ _ _ _ B).
  match goal with |- link_down _ _ (sendToSidecar ?f ?s) /\ _ =>
    destruct (link_down_send tc fs s f) as [L' E] end.
  - done.
  - constructor; [done|unfold is_u64; pose proof (len_nonneg A); lia].
  - split; [exact L'|]. by rewrite E.
Qed.

Lemma foldl_opt {T} (g : T -> Frame -> T) (t : T) b f : foldl g t (opt b f) = if b then g t f else t.
Proof. by destruct b. Qed.

Lemma broker_recv_c tc f y : y_c (broker_recv os_error tc f y) = y_c y.
Proof. unfold broker_recv. by repeat case_match. Qed.

Lemma foldl_client_recv y fs :
  foldl (fun y f => client_recv f y) y fs = with_c (foldl (fun c f => session_dispatch f c) (y_c y) fs) y.
Proof.
  revert y. induction fs as [|f fs IH]; intros y; simpl; [by destruct y|]. by rewrite IH.
Qed.

Lemma nonempty_false l : nonempty l = false -> l = [].
Proof. unfold nonempty. rewrite Z.gtb_ltb, Z.ltb_ge. pose proof (len_nonneg l). intros. apply len_0_nil. lia. Qed.

Lemma zdrop_nil_len {T} (l : list T) o : 0 <= o <= len l -> zdrop o l = [] -> o = len l.
Proof. intros Ho E. apply (f_equal len) in E. rewrite len_zdrop, len_nil in E by done. lia. Qed.

(** A session whose agent connection works survives anything but a CLOSE. *)
Definition c_alive (c : cst C) : Prop := cs_dead (cs c) = false /\ sock_healthy (cs_agent (cs c)).

Lemma dispatch_alive f (c : cst C) : fType f <> TypeClose -> c_alive c -> c_alive (session_dispatch f c).
Proof.
  intros Hf [Hd Hh]. unfold session_dispatch.
  destruct (_ =? TypeAttachOK); [unfold onAttachOK, c_alive; repeat case_match; rewrite ?csend_cs; done|].
  destruct (_ =? TypeData).
  { unfold deliverDown. destruct (deliver_check _ _ _) as [q|]; [|done]. unfold deliver_write.
    rewrite (sock_write_healthy _ _ Hh). unfold c_alive. by rewrite csend_cs. }
  destruct (_ =? TypeAck); [done|]. by destruct (Z.eqb_spec (fType f) TypeClose).
Qed.

Lemma dispatch_all_alive fs (c : cst C) :
  Forall (fun f => fType f <> TypeClose) fs -> c_alive c -> c_alive (foldl (fun c f => session_dispatch f c) c fs).
Proof. intros HF. revert c. induction HF; intros c Hc; [done|]. simpl. by apply IHHF, dispatch_alive. Qed.

(** The sidecar handles the broker's whole answer. *)
Lemma client_resume A D uw (c : cst C) tc fs (s : session) :
  cinv sid A D uw c -> link_up tc fs c -> 0 <= uw <= len A -> len A - uw <= MaxPayload -> s_upstreamWritten s = uw ->
  cs_dead (cs c) = false -> sock_healthy (cs_agent (cs c)) ->
  let dl := cs_downDelivered (cs c) in
  let c' := foldl (fun c f => session_dispatch f c) c (attach_reply D dl s) in
  link_up tc (fs ++ opt (nonempty (zdrop uw A)) (DataF sid uw (zdrop uw A)) ++
                    opt (nonempty (zdrop dl D)) (AckF sid (len D))) c' /\
  sk_out (cs_agent (cs c')) = D /\ cs_upBuf (cs c') = TrimTo (cs_upBuf (cs c)) uw.
Proof.
  intros B L Hu Hfit Hs Hd Hh dl c'. pose proof (ci_range _ _ _ _ _ B) as Hr. fold dl in Hr.
  pose proof (sink_healthy_exact _ _ _ Hh (ci_sink _ _ _ _ _ B)) as Ho. fold dl in Ho.
  unfold c', attach_reply. rewrite Hs. simpl foldl. rewrite foldl_app, !foldl_opt.
  change (session_dispatch (AttachOKF sid uw) c) with (onAttachOK uw c).
  destruct (attachOK_sent _ _ _ _ _ _ B L Hu Hfit) as [L1 E1].
  assert (cinv sid A D uw (onAttachOK uw c)) as B1 by (apply cinv_attachOK; auto; lia).
  set (c1 := onAttachOK uw c) in *.
  set (c2 := if nonempty (zdrop dl D) then _ else c1).
  assert (link_up tc ((fs ++ opt (nonempty (zdrop uw A)) (DataF sid uw (zdrop uw A))) ++
                    opt (nonempty (zdrop dl D)) (AckF sid (len D))) c2 /\
          sk_out (cs_agent (cs c2)) = D /\ cs_upBuf (cs c2) = TrimTo (cs_upBuf (cs c)) uw) as K.
  { unfold c2. destruct (nonempty (zdrop dl D)) eqn:En; simpl opt.
    - change (session_dispatch _ c1) with (deliverDown dl (zdrop dl D) c1).
      destruct (deliver_sent A D uw c1 tc _ B1 L1) as [L2 E2]; [by rewrite E1..|].
      change (cs_downDelivered (cs c1)) with (cs_downDelivered (cs c1)) in *.
      replace (cs_downDelivered (cs c1)) with dl in * by (by rewrite E1).
      rewrite E2, E1. simpl. rewrite Ho, ztake_zdrop. by split_and!.
    - apply nonempty_false, zdrop_nil_len in En; [|done]. rewrite E1, app_nil_r. simpl.
      rewrite Ho, En, ztake_len. by split_and!. }
  rewrite <- app_assoc in K. destruct (s_downClosed s); [|done].
  change (session_dispatch _ c2) with (onClose DirDown "upstream EOF" c2).
  clearbody c2. unfold onClose, closeAll. change (DirDown =? DirDown) with true. simpl.
  by destruct (cs_canCloseWrite (cs c2)), (cs_dead (cs c2)).
Qed.

(** The broker handles the sidecar's replay and confirmation. *)
Lemma broker_resume A D dl (y : sys C) tc fs u :
  yinv sid y A D -> link_down tc fs (y_b y) -> y_created y = true -> s_dead (ss (y_b y)) = false ->
  s_upstream (ss (y_b y)) = Some u -> sock_healthy u ->
  let uw := s_upstreamWritten (ss (y_b y)) in
  let y' := foldl (fun y f => broker_recv os_error tc f y) y
              (opt (nonempty (zdrop uw A)) (DataF sid uw (zdrop uw A)) ++
               opt (nonempty (zdrop dl D)) (AckF sid (len D))) in
  exists b u', y' = with_b b y /\
    link_down tc (fs ++ opt (nonempty (zdrop uw A)) (AckF sid (len A))) b /\
    s_upstream (ss b) = Some u' /\ sk_out u' = A /\
    (s_downBuf (ss b) = if nonempty (zdrop dl D) then TrimTo (s_downBuf (ss (y_b y))) (len D)
                        else s_downBuf (ss (y_b y))) /\
    sock_healthy u' /\ s_dead (ss b) = false.
Proof.
  intros I L Hc Hd Hu Hh uw y'. pose proof (yi_b _ _ _ _ I) as B.
  destruct (binv_uw _ _ _ _ _ B) as [Hw _]. fold uw in Hw.
  pose proof (bi_conn _ _ _ _ _ B) as Hk. rewrite Hu in Hk. destruct Hk as (_ & _ & Hk).
  pose proof (sink_healthy_exact _ _ _ Hh Hk) as Ho. fold uw in Ho.
  unfold y'. rewrite foldl_app, !foldl_opt.
  set (y1 := if nonempty (zdrop uw A) then _ else y).
  assert (exists b u', y1 = with_b b y /\
    link_down tc (fs ++ opt (nonempty (zdrop uw A)) (AckF sid (len A))) b /\
    s_upstream (ss b) = Some u' /\ sk_out u' = A /\ s_downBuf (ss b) = s_downBuf (ss (y_b y)) /\
    sock_healthy u' /\ s_dead (ss b) = false)
    as (b & u' & E1 & L1 & Hu1 & Ho1 & D1 & Hh1 & Hd1).
  { unfold y1. destruct (nonempty (zdrop uw A)) eqn:En; simpl opt.
    - destruct (data_sent A D _ (y_b y) tc fs u B L Hd Hu Hh) as (L1 & U1 & D1 & Hd1).
      fold uw in L1, U1, D1, Hd1. exists (onData os_error uw (zdrop uw A) (y_b y)), 
        (MkSock (sk_out u ++ zdrop uw A) None false false).
      split_and!; try done.
      + unfold broker_recv. rewrite Hc. done.
      + simpl. by rewrite Ho, ztake_zdrop.
    - apply nonempty_false, zdrop_nil_len in En; [|done]. exists (y_b y), u.
      rewrite app_nil_r. split_and!; try done; [by destruct y|]. by rewrite Ho, En, ztake_len. }
  destruct (nonempty (zdrop dl D)); [|by exists b, u'].
  exists (onDownstreamAck (len D) b), u'. rewrite E1.
  split_and!; [|destruct L1 as [L1 L2]; split; [|exact L2]|..]; try done.
  - unfold broker_recv. simpl. by rewrite Hc.
  - unfold onDownstreamAck. simpl. by case_match.
  - unfold onDownstreamAck. simpl. by case_match.
  - unfold onDownstreamAck. simpl. rewrite <- D1. by case_match.
  - unfold onDownstreamAck. simpl. by case_match.
Qed.

Lemma link_up_sent tc fs y : link_up tc fs (y_c y) -> sent_up tc y = fs.
Proof. intros (_ & c & E & _ & _ & Hs). unfold sent_up. by rewrite E. Qed.

Lemma link_down_sent tc fs y : link_down tc fs (y_b y) -> sent_down tc y = fs.
Proof. intros (_ & c & E & _ & _ & Hs). unfold sent_down. by rewrite E. Qed.

(** After the dial: HELLO and ATTACH are on the new connection. *)
Lemma connect_sent y A D actorID tc cu cd :
  yinv sid y A D -> str_len actorID <= maxString -> works cu [] -> works cd [] ->
  let y1 := connect_step actorID tc cu cd y in
  yinv sid y1 A D /\ cs (y_c y1) = cs (y_c y) /\ ss (y_b y1) = ss (y_b y) /\
  link_up tc [HelloF actorID; attachFrame (cs (y_c y))] (y_c y1) /\
  link_down tc [] (bind tc (y_b y1)).
Proof.
  intros I Ha Wu Wd y1. split; [|split; [|split; [done|split]]].
  - destruct Wu as (? & ? & ?), Wd as (? & ? & ?). by apply yinv_connect.
  - unfold y1. simpl. apply connect_cs.
  - unfold y1. simpl. unfold session_connect.
    destruct (works_write cu [] (HelloF actorID) Wu) as (c' & -> & W'); [by constructor|].
    simpl. set (st := MkCst _ _ _ _).
    assert (link_up tc [HelloF actorID] st) as L.
    { split; [done|]. exists c'. simpl. by rewrite lookup_insert_eq. }
    destruct (link_up_send tc _ st (attachFrame (cs (y_c y))) L) as [L1 _]; [|exact L1].
    pose proof (yi_c _ _ _ _ I) as B. unfold attachFrame. rewrite (ci_sid _ _ _ _ _ B).
    constructor; [done|by eapply cinv_dl|apply B].
  - split; [done|]. exists cd. simpl. by rewrite lookup_insert_eq.
Qed.

Lemma yinv_client_frames y A D fs :
  yinv sid y A D -> Forall (fun f => good_down sid D (s_upstreamWritten (ss (y_b y))) f /\ fSessionID f = sid) fs ->
  yinv sid (foldl (fun y f => client_recv f y) y fs) A D.
Proof.
  revert y. induction fs as [|f fs IH]; intros y I HG; [done|].
  apply Forall_cons in HG as [[Hf Hs] HG]. simpl. apply IH; [by apply yinv_client_recv|done].
Qed.

Lemma yinv_broker_frames y A D tc fs :
  yinv sid y A D -> Forall (fun f => good_up sid A (cs_downDelivered (cs (y_c y))) f /\ fSessionID f = sid) fs ->
  yinv sid (foldl (fun y f => broker_recv os_error tc f y) y fs) A D.
Proof.
  revert y. induction fs as [|f fs IH]; intros y I HG; [done|].
  apply Forall_cons in HG as [[Hf Hs] HG]. simpl. apply IH; [by apply yinv_broker_recv; [..|right]|].
  eapply Forall_impl; [exact HG|]. intros g [? ?]. split; [|done]. by rewrite broker_recv_c.
Qed.

(** The session runs over [tc], the first [ku] frames up and [kd] frames down on
    it have been handled, which is all, and the broker's side is up. *)
Definition linked (tc : nat) (y : sys C) (ku kd : nat) : Prop :=
  link_up tc (sent_up tc y) (y_c y) /\ link_down tc (sent_down tc y) (y_b y) /\
  ku = length (sent_up tc y) /\ kd = length (sent_down tc y) /\
  y_created y = true /\ s_dead (ss (y_b y)) = false /\
  exists u, s_upstream (ss (y_b y)) = Some u /\ sock_healthy u.

(** What travels up in the second round trip. *)
Definition replay_up (A D : list byte) (uw dl : Z) : list Frame :=
  opt (nonempty (zdrop uw A)) (DataF sid uw (zdrop uw A)) ++
  opt (nonempty (zdrop dl D)) (AckF sid (len D)).

(** What each side has to send again fits in one frame. *)
Definition replays_fit (y : sys C) : Prop :=
  End_ (cs_upBuf (cs (y_c y))) - s_upstreamWritten (ss (y_b y)) <= MaxPayload /\
  End_ (s_downBuf (ss (y_b y))) - cs_downDelivered (cs (y_c y)) <= MaxPayload.

Lemma fit_hist y A D :
  yinv sid y A D -> replays_fit y <->
  len A - s_upstreamWritten (ss (y_b y)) <= MaxPayload /\ len D - cs_downDelivered (cs (y_c y)) <= MaxPayload.
Proof.
  intros I. destruct (ci_up _ _ _ _ _ (yi_c _ _ _ _ I)) as (a & Ra & _), (bi_down _ _ _ _ _ (yi_b _ _ _ _ I)) as (b & Rb & _).
  unfold replays_fit. by rewrite (rep_End Ra), (rep_End Rb).
Qed.

(** First round trip: ATTACH, and everything it causes at the sidecar. *)
Lemma exchange_attach y A D tc h :
  yinv sid y A D -> replays_fit y -> link_up tc [h; attachFrame (cs (y_c y))] (y_c y) ->
  link_down tc [] (bind tc (y_b y)) -> y_created y = true ->
  cs_dead (cs (y_c y)) = false -> sock_healthy (cs_agent (cs (y_c y))) ->
  let dl := cs_downDelivered (cs (y_c y)) in
  let uw := s_upstreamWritten (ss (y_b y)) in
  let reply := attach_reply D dl (ss (y_b y)) in
  exists y', exchange os_error tc (y, 1%nat, 0%nat) = (y', 2%nat, length reply) /\
    yinv sid y' A D /\ y_created y' = true /\ ss (y_b y') = ss (bind tc (y_b y)) /\
    link_up tc ([h; attachFrame (cs (y_c y))] ++ replay_up A D uw dl) (y_c y') /\
    link_down tc reply (y_b y') /\
    sk_out (cs_agent (cs (y_c y'))) = D /\
    cs_upBuf (cs (y_c y')) = TrimTo (cs_upBuf (cs (y_c y))) uw /\
    (s_downClosed (ss (y_b y)) = false -> c_alive (y_c y')).
Proof.
  intros I Hfit L M Hcr Hcd Hag dl uw reply. destruct (proj1 (fit_hist y A D I) Hfit) as [FA FD]. pose proof (yi_b _ _ _ _ I) as B. pose proof (yi_c _ _ _ _ I) as Cc.
  pose proof (ci_range _ _ _ _ _ Cc) as Hdl. fold dl in Hdl. pose proof (ci_D _ _ _ _ _ Cc) as HD.
  destruct (binv_uw _ _ _ _ _ B) as [Huw _].
  set (y2 := with_b (onSidecarAttach dl (bind tc (y_b y))) y).
  assert (yinv sid y2 A D) as I2 by (apply yinv_attach; [done|done|unfold is_u64; lia]).
  destruct (attach_reply_sent A D dl (bind tc (y_b y)) tc dl) as [M2 Eb2]; [|done|lia|lia|done|];
    [by apply binv_bind|].
  change (attach_reply D dl (ss (bind tc (y_b y)))) with reply in M2.
  destruct (client_resume A D uw (y_c y) tc _ (ss (y_b y)) Cc L Huw FA eq_refl Hcd Hag) as (L3 & O3 & U3).
  fold dl in L3, O3, U3. fold reply in L3, O3, U3.
  exists (foldl (fun y f => client_recv f y) y2 reply). split_and!.
  - unfold exchange. rewrite (link_up_sent _ _ _ L). simpl drop. simpl foldl.
    replace (broker_recv os_error tc (attachFrame (cs (y_c y))) y) with y2
      by (unfold broker_recv, attachFrame; simpl; by rewrite Hcr).
    by rewrite (link_down_sent tc reply y2 M2), drop_0.
  - apply yinv_client_frames; [done|]. apply Forall_forall. intros f Hf.
    split; [eapply sent_down_good; [done|done|]; by rewrite (link_down_sent tc reply y2 M2)|].
    assert (Forall (fun f => fSessionID f = sid) reply) as HF; [|rewrite Forall_forall in HF; by apply HF].
    unfold reply, attach_reply, opt. constructor; [done|]. repeat case_match; repeat constructor.
  - by rewrite foldl_client_recv.
  - by rewrite foldl_client_recv.
  - rewrite foldl_client_recv. exact L3.
  - by rewrite foldl_client_recv.
  - by rewrite foldl_client_recv.
  - by rewrite foldl_client_recv.
  - intros Hdc. rewrite foldl_client_recv. apply (dispatch_all_alive reply); [|exact (conj Hcd Hag)].
    unfold reply, attach_reply, opt. rewrite Hdc. constructor; [done|]. case_match; repeat constructor; done.
Qed.

(** Second round trip: the replay reaches the destination, and both sides
    learn what they may forget. *)
Lemma exchange_replay y A D tc h reply u dl :
  yinv sid y A D -> link_up tc (h ++ replay_up A D (s_upstreamWritten (ss (y_b y))) dl) (y_c y) ->
  link_down tc reply (y_b y) -> y_created y = true -> s_dead (ss (y_b y)) = false ->
  s_upstream (ss (y_b y)) = Some u -> sock_healthy u ->
  let uw := s_upstreamWritten (ss (y_b y)) in
  exists y' ku kd, exchange os_error tc (y, length h, length reply) = (y', ku, kd) /\
    drop ku (sent_up tc y') = [] /\ drop kd (sent_down tc y') = [] /\
    (exists u', s_upstream (ss (y_b y')) = Some u' /\ sk_out u' = A) /\
    cs_agent (cs (y_c y')) = cs_agent (cs (y_c y)) /\
    cs_upBuf (cs (y_c y')) = (if nonempty (zdrop uw A) then TrimTo (cs_upBuf (cs (y_c y))) (len A)
                              else cs_upBuf (cs (y_c y))) /\
    s_downBuf (ss (y_b y')) = (if nonempty (zdrop dl D) then TrimTo (s_downBuf (ss (y_b y))) (len D)
                               else s_downBuf (ss (y_b y))) /\
    yinv sid y' A D /\ linked tc y' ku kd /\ (c_alive (y_c y) -> c_alive (y_c y')).
Proof.
  intros I L M Hcr Hbd Hu Huh uw.
  destruct (broker_resume A D dl y tc reply u) as (b & u' & E & M' & Hu' & Ho & Eb & Hh' & Hd'); try done.
  fold uw in L, E, M'. fold (replay_up A D uw dl) in E.
  set (acks := opt (nonempty (zdrop uw A)) (AckF sid (len A))) in *.
  set (y2 := foldl (fun y f => client_recv f y) (with_b b y) acks).
  assert (sent_up tc y2 = h ++ replay_up A D uw dl) as Eu.
  { unfold y2. rewrite foldl_client_recv, <- (link_up_sent _ _ _ L).
    unfold acks. rewrite foldl_opt. by destruct (nonempty _). }
  assert (sent_down tc y2 = reply ++ acks) as Ed.
  { unfold y2. rewrite foldl_client_recv. by rewrite <- (link_down_sent tc (reply ++ acks) (with_b b y) M'). }
  exists y2, (length h + length (replay_up A D uw dl))%nat, (length reply + length acks)%nat.
  split_and!.
  - unfold exchange. rewrite (link_up_sent _ _ _ L), drop_app_length, E.
    by rewrite (link_down_sent tc (reply ++ acks) (with_b b y) M'), drop_app_length.
  - rewrite Eu, <- length_app. apply drop_all.
  - rewrite Ed, <- length_app. apply drop_all.
  - exists u'. unfold y2. by rewrite foldl_client_recv.
  - unfold y2. rewrite foldl_client_recv. unfold acks. rewrite foldl_opt. by destruct (nonempty _).
  - unfold y2. rewrite foldl_client_recv. unfold acks. rewrite foldl_opt. by destruct (nonempty _).
  - unfold y2. rewrite foldl_client_recv. done.
  - assert (yinv sid (with_b b y) A D) as I1.
    { rewrite <- E. apply yinv_broker_frames; [done|]. apply Forall_forall. intros f Hf.
      split; [eapply sent_up_good; [done|]; rewrite (link_up_sent _ _ _ L); apply elem_of_app; by right|].
      assert (Forall (fun f => fSessionID f = sid) (replay_up A D uw dl)) as HF; [|rewrite Forall_forall in HF; by apply HF].
      unfold replay_up, opt. repeat case_match; repeat constructor. }
    apply yinv_client_frames; [done|]. apply Forall_forall. intros f Hf.
    split; [eapply sent_down_good; [done|done|]; rewrite (link_down_sent tc (reply ++ acks) (with_b b y) M'); apply elem_of_app; by right|].
    assert (Forall (fun f => fSessionID f = sid) acks) as HF; [|rewrite Forall_forall in HF; by apply HF].
    unfold acks, opt. destruct (nonempty (zdrop uw A)); repeat constructor.
  - unfold linked. rewrite Eu, Ed, !length_app. split_and!; [|unfold y2; by rewrite foldl_client_recv|done|done|..].
    + unfold y2. rewrite foldl_client_recv. unfold acks. rewrite foldl_opt. by destruct (nonempty _).
    + unfold y2. rewrite foldl_client_recv. done.
    + unfold y2. rewrite foldl_client_recv. done.
    + exists u'. unfold y2. rewrite foldl_client_recv. done.
  - intros Hca. unfold y2. rewrite foldl_client_recv. apply dispatch_all_alive; [|done].
    unfold acks, opt. destruct (nonempty (zdrop uw A)); repeat constructor; done.
Qed.

Lemma TrimTo_max b o : rb_max (TrimTo b o) = rb_max b.
Proof. unfold TrimTo. by repeat case_match. Qed.

Lemma trim_all b X acked : rb_rep b (MkStream X acked) -> Len (TrimTo b (len X)) = 0.
Proof.
  intros R. destruct (rep_trim R (len X)) as [R' _]. unfold Len. rewrite (rep_len R'). simpl.
  pose proof (rep_range _ _ R). simpl in *. lia.
Qed.

(** The whole handshake. *)
Lemma heal_spec y A D actorID tc cu cd u :
  yinv sid y A D -> replays_fit y -> str_len actorID <= maxString -> works cu [] -> works cd [] ->
  y_created y = true -> cs_dead (cs (y_c y)) = false -> s_dead (ss (y_b y)) = false ->
  sock_healthy (cs_agent (cs (y_c y))) -> s_upstream (ss (y_b y)) = Some u -> sock_healthy u ->
  let dl := cs_downDelivered (cs (y_c y)) in
  exists y' ku kd, heal os_error actorID tc cu cd y = (y', ku, kd) /\
  drop ku (sent_up tc y') = [] /\ drop kd (sent_down tc y') = [] /\
  (exists u', s_upstream (ss (y_b y')) = Some u' /\ sk_out u' = A) /\
  sk_out (cs_agent (cs (y_c y'))) = D /\ Len (cs_upBuf (cs (y_c y'))) = 0 /\
  (s_downBuf (ss (y_b y')) = if nonempty (zdrop dl D) then TrimTo (s_downBuf (ss (y_b y))) (len D)
                             else s_downBuf (ss (y_b y))) /\
  yinv sid y' A D /\ linked tc y' ku kd /\ (s_downClosed (ss (y_b y)) = false -> c_alive (y_c y')) /\
  rb_max (cs_upBuf (cs (y_c y'))) = rb_max (cs_upBuf (cs (y_c y))).
Proof.
  intros I Hfit Ha Wu Wd Hcr Hcd Hbd Hag Hu Huh dl. unfold heal.
  destruct (connect_sent y A D actorID tc cu cd I Ha Wu Wd) as (I1 & Ec1 & Eb1 & L1 & M1).
  set (y1 := connect_step actorID tc cu cd y) in *.
  assert (replays_fit y1) as Hfit1 by (unfold replays_fit; by rewrite Ec1, Eb1). rewrite <- Ec1 in L1, Hcd, Hag.
  destruct (exchange_attach y1 A D tc _ I1 Hfit1 L1 M1 Hcr Hcd Hag)
    as (y2 & -> & I2 & Hcr2 & Eb2 & L2 & M2 & O2 & U2 & V2).
  assert (s_upstreamWritten (ss (y_b y1)) = s_upstreamWritten (ss (y_b y2))) as Ew by (by rewrite Eb2).
  rewrite Ew in L2, U2.
  destruct (exchange_replay y2 A D tc _ _ u _ I2 L2 M2 Hcr2) as (y3 & ku & kd & X & Q1 & Q2 & O3 & A3 & U3 & D3 & I3 & K3 & V3).
  { by rewrite Eb2. }
  { by rewrite Eb2. }
  { done. }
  exists y3, ku, kd. rewrite Ec1 in D3. fold dl in D3. rewrite Eb2 in D3.
  split_and!; try done; [by rewrite A3| |by intros Hdc; apply V3, V2; rewrite Eb1|].
  2: { rewrite U3, U2. destruct (nonempty _); rewrite ?TrimTo_max; by rewrite Ec1. }
  pose proof (yi_c _ _ _ _ I1) as Cc. destruct (ci_up _ _ _ _ _ Cc) as (a & R & _).
  destruct (rep_trim R (s_upstreamWritten (ss (y_b y2)))) as [R' _].
  rewrite U3, U2. destruct (nonempty _) eqn:En; [by eapply trim_all|].
  apply nonempty_false, zdrop_nil_len in En; [rewrite En; by eapply trim_all|].
  by apply (binv_uw _ _ _ _ _ (yi_b _ _ _ _ I2)).
Qed.
End recovery.

(** ** Properties *)

Section properties.
Context {C : Type} `{FrameWriterLaws C}.
(** Any session of the configuration: buffers of any size, strings that fit in
    one frame, any agent socket. *)
Context (sid cbuf bbuf : Z) (target actorID os_error : string) (cap : option nat) (cw : bool).
Context (Hsid : is_u64 sid) (Ht : str_len target <= maxString) (Hos : str_len os_error <= maxString).
Context (Ha : str_len actorID <= maxString).
Context (Hcb : 0 <= cbuf) (Hbb : 0 <= bbuf).
(** Any reachable state of it, short of 2^64 bytes in either direction. *)
Context (y : sys C).
Context (R : rtc (ystep os_error) (initial sid target cbuf bbuf actorID cap cw) y).
Context (HA : len (y_agent y) < 2 ^ 64) (HD : len (y_dest y) < 2 ^ 64).

Lemma reachable_inv : exists A D, yinv sid y A D.
Proof using Type*.
  apply (yinv_reachable sid Hsid os_error Hos (initial sid target cbuf bbuf actorID cap cw)); [done| |done..].
  exists [], []. by apply yinv_initial.
Qed.

(** C1. End-to-end safety.  Start a session, with replay buffers of any size, and
    let anything happen: agent writes
    of any size, destination data, suspends and resumes at any point, frames
    lost with a connection, duplicated, reordered across connections, writes
    that fail half way on either socket.  What the destination has received is
    always a prefix of what the agent sent and what the agent has received is
    always a prefix of what the destination sent: no byte is ever duplicated,
    dropped in the middle, reordered or invented.  And neither replay buffer
    ever forgets a byte its peer has not consumed. *)
Theorem tunnel_streams_exact :
  (forall u, s_upstream (ss (y_b y)) = Some u -> sk_out u `prefix_of` y_agent y) /\
  sk_out (cs_agent (cs (y_c y))) `prefix_of` y_dest y /\
  Base (cs_upBuf (cs (y_c y))) <= s_upstreamWritten (ss (y_b y)) /\
  Base (s_downBuf (ss (y_b y))) <= cs_downDelivered (cs (y_c y)).
Proof using Type*.
  destruct reachable_inv as (A & D & [Hc Hb PA _ PD _ _]).
  split_and!.
  - intros u Hu. pose proof (bi_conn _ _ _ _ _ Hb) as Hk. rewrite Hu in Hk. destruct Hk as (_ & _ & Hk).
    etrans; [by eapply sink_prefix|]. etrans; [|exact PA]. by apply prefix_app_r.
  - etrans; [eapply sink_prefix, Hc|]. etrans; [|exact PD]. by apply prefix_app_r.
  - destruct (ci_up _ _ _ _ _ Hc) as (a & Ra & ?). unfold Base. by rewrite (rep_base _ _ Ra).
  - destruct (bi_down _ _ _ _ _ Hb) as (a & Ra & ?). unfold Base. by rewrite (rep_base _ _ Ra).
Qed.

(** C2. Recovery, with replay buffers of any size.  Take any reachable state
    short of 2^64 bytes in either direction, whatever was lost in suspends
    before, in which the session exists at both ends, neither half was torn down,
    the agent's and the destination's sockets take writes, and what either side
    has to send again ([replays_fit]: the bytes the destination has not been
    written, the bytes the agent has not been delivered) is at most [MaxPayload],
    one frame.  One reconnect over a connection that works takes two round trips
    to deliver everything: the destination has then received every byte the
    agent's pump has handed over (all but what a blocked pump still holds), the
    agent every byte the broker has read (all but what a blocked reader still
    holds), the sidecar's replay buffer is empty and no frame is left in flight.
    Above one frame the upload never recovers
    ([Oversize.oversize_replay_is_never_delivered]). *)
Theorem reconnect_heals (tc : nat) (cu cd : C) (u : sock)
    (Hfit : replays_fit y)
    (Hcr : y_created y = true) (Hcd : cs_dead (cs (y_c y)) = false) (Hbd : s_dead (ss (y_b y)) = false)
    (Hag : sock_healthy (cs_agent (cs (y_c y))))
    (Hu : s_upstream (ss (y_b y)) = Some u) (Huh : sock_healthy u)
    (Wu : works cu []) (Wd : works cd []) :
  exists y' ku kd u', heal os_error actorID tc cu cd y = (y', ku, kd) /\
    drop ku (sent_up tc y') = [] /\ drop kd (sent_down tc y') = [] /\
    s_upstream (ss (y_b y')) = Some u' /\ y_agent y = sk_out u' ++ y_upwait y /\
    y_dest y = sk_out (cs_agent (cs (y_c y'))) ++ reader_wait (y_reader y) /\
    Len (cs_upBuf (cs (y_c y'))) = 0.
Proof using Type*.
  destruct reachable_inv as (A & D & I).
  destruct (heal_spec sid Hsid os_error Hos y A D actorID tc cu cd u I)
    as (y' & ku & kd & E & Q1 & Q2 & (u' & Hu' & Ho) & Oa & Ub & _); try done.
  exists y', ku, kd, u'. rewrite Ho, Oa. split_and!; try done; by apply I.
Qed.

(** C34. A reconnect does not make up for lost ACKs.  ATTACH tells the broker how
    much the agent has received, but [onSidecarAttach] does not trim the
    downstream buffer to it (the sidecar's [onAttachOK] does trim its own).  Take
    a reachable state (short of 2^64 bytes) of a session with both halves alive, both sockets taking
    writes and at most one frame to send again upwards, whose download buffer,
    of any size, is full although the agent has received everything: only the
    ACKs were lost in the suspend.  Then the whole handshake over a connection
    that works leaves the broker's buffer as it was: full, with no frame in
    flight that could ever free it. *)
Theorem lost_acks_leave_broker_buffer_full (tc : nat) (cu cd : C) (u : sock)
    (Hfit : End_ (cs_upBuf (cs (y_c y))) - s_upstreamWritten (ss (y_b y)) <= MaxPayload)
    (Hcr : y_created y = true) (Hcd : cs_dead (cs (y_c y)) = false) (Hbd : s_dead (ss (y_b y)) = false)
    (Hag : sock_healthy (cs_agent (cs (y_c y))))
    (Hu : s_upstream (ss (y_b y)) = Some u) (Huh : sock_healthy u)
    (Wu : works cu []) (Wd : works cd [])
    (Hall : cs_downDelivered (cs (y_c y)) = End_ (s_downBuf (ss (y_b y))))
    (Hfull : Free (s_downBuf (ss (y_b y))) = 0) :
  exists y' ku kd, heal os_error actorID tc cu cd y = (y', ku, kd) /\
    drop ku (sent_up tc y') = [] /\ drop kd (sent_down tc y') = [] /\
    Free (s_downBuf (ss (y_b y'))) = 0 /\ s_downBuf (ss (y_b y')) = s_downBuf (ss (y_b y)).
Proof using Type*.
  destruct reachable_inv as (A & D & I).
  destruct (heal_spec sid Hsid os_error Hos y A D actorID tc cu cd u I)
    as (y' & ku & kd & E & Q1 & Q2 & _ & _ & _ & Ed & _); try done; [split; [done|rewrite Hall, Z.sub_diag; done]|].
  exists y', ku, kd. destruct (bi_down _ _ _ _ _ (yi_b _ _ _ _ I)) as (a & Ra & _).
  rewrite Hall, (rep_End Ra), zdrop_len in Ed. simpl in Ed. by rewrite Ed.
Qed.
End properties.

(** ** Witnesses *)

(** A session whose 4-byte download buffer fills up, whose agent receives all
    four bytes, and whose ACK is lost when the actor is suspended. *)
Module Demo.
Definition os : string := "broken pipe".
Definition y0 : sys Conn := initial 1 "mcp:80" 8 4 "ns/a" None true.
Definition y1 : sys Conn := connect_step "ns/a" 0 (NewConn new_sock) (NewConn new_sock) y0.
Definition y2 : sys Conn := broker_frame os 0 (AttachF 1 0 "mcp:80") y1.
Definition y3 : sys Conn := dial os (Ok new_sock) y2.
Definition y4 : sys Conn := agent_write [x47; x45; x54] y3.
Definition y5 : sys Conn := broker_frame os 0 (DataF 1 0 [x47; x45; x54]) y4.
Definition y6 : sys Conn := dest_read [x61; x62; x63; x64; x65] None y5.
Definition y7 : sys Conn := client_frame (DataF 1 0 [x61; x62; x63; x64]) y6.

Ltac in_list := vm_compute; repeat (by apply list_elem_of_here) || apply list_elem_of_further.

Lemma new_conn_works : works (NewConn new_sock) [].
Proof. destruct (fw_new_ok (C := Conn)) as (? & ? & ?). done. Qed.

Lemma demo_system_reached : rtc (ystep os) y0 y7.
Proof.
  destruct new_conn_works as (W1 & _ & W2).
  apply (rtc_l _ _ y1); [by apply YConnect|].
  apply (rtc_l _ _ y2); [apply YBrokerRecv with (from := 0%nat); [done|in_list]|].
  apply (rtc_l _ _ y3); [by apply YDialOk|].
  apply (rtc_l _ _ y4); [by apply YAgentWrite|].
  apply (rtc_l _ _ y5); [apply YBrokerRecv with (from := 0%nat); [done|in_list]|].
  apply (rtc_l _ _ y6); [by apply YDestRead|].
  apply (rtc_l _ _ y7); [apply YClientRecv with (from := 0%nat); in_list|].
  apply rtc_refl.
Qed.
End Demo.

(** Closed arithmetic facts. *)
Ltac by_compute := vm_compute; repeat split; first [reflexivity | discriminate].

Lemma tunnel_streams_exact_witness :
  (forall u, s_upstream (ss (y_b Demo.y7)) = Some u -> sk_out u `prefix_of` [x47; x45; x54]) /\
  sk_out (cs_agent (cs (y_c Demo.y7))) = [x61; x62; x63; x64].
Proof.
  split; [|reflexivity].
  apply (tunnel_streams_exact 1 8 4 "mcp:80" "ns/a" Demo.os None true);
    first [exact Demo.demo_system_reached | by_compute].
Defined.

Lemma reconnect_heals_witness :
  exists y' ku kd u', heal Demo.os "ns/a" 1 (NewConn new_sock) (NewConn new_sock) Demo.y7 = (y', ku, kd) /\
    drop ku (sent_up 1 y') = [] /\ drop kd (sent_down 1 y') = [] /\
    s_upstream (ss (y_b y')) = Some u' /\ y_agent Demo.y7 = sk_out u' ++ y_upwait Demo.y7 /\
    y_dest Demo.y7 = sk_out (cs_agent (cs (y_c y'))) ++ reader_wait (y_reader Demo.y7) /\
    Len (cs_upBuf (cs (y_c y'))) = 0.
Proof.
  apply (reconnect_heals 1 8 4 "mcp:80" "ns/a" Demo.os None true)
    with (u := MkSock [x47; x45; x54] None false false);
    first [exact Demo.demo_system_reached | exact Demo.new_conn_works | by_compute].
Defined.

Lemma lost_acks_leave_broker_buffer_full_witness :
  exists y' ku kd, heal Demo.os "ns/a" 1 (NewConn new_sock) (NewConn new_sock) Demo.y7 = (y', ku, kd) /\
    drop ku (sent_up 1 y') = [] /\ drop kd (sent_down 1 y') = [] /\
    Free (s_downBuf (ss (y_b y'))) = 0 /\ s_downBuf (ss (y_b y')) = s_downBuf (ss (y_b Demo.y7)).
Proof.
  apply (lost_acks_leave_broker_buffer_full 1 8 4 "mcp:80" "ns/a" Demo.os None true)
    with (u := MkSock [x47; x45; x54] None false false);
    first [exact Demo.demo_system_reached | exact Demo.new_conn_works | by_compute].
Defined.
