(* ===== verification/Progress.v ===== *)
(** * Progress: back-pressure never wedges a working session

    [System.reconnect_heals] leaves out what a blocked pump or reader still
    holds.  Here the session goes on after the handshake: the pump goes round its
    loop when the broker's ACK makes room, the reader when the sidecar's does, and
    in finitely many round trips everything is on the other side, however small
    the buffers are. *)
From S2P Require Import Prelude ReplayBuffer Socket Wire Link BrokerSession Sidecar BrokerStream SidecarStream.
From S2P Require Import System.

#[local] Existing Instance all_owned.

Section progress.
Context {C : Type} `{FrameWriterLaws C}.
Context (sid : Z) (Hsid : is_u64 sid).
Context (os_error : string) (Hos : str_len os_error <= maxString).
Implicit Types (y : sys C) (A D : list byte).

Abbreviation uw y := (s_upstreamWritten (ss (y_b y))).
Abbreviation delivered y := (cs_downDelivered (cs (y_c y))).

(** The blocked pump tries again, and the frames make a round trip. *)
Definition upload_round (tc : nat) (s : sys C * nat * nat) : sys C * nat * nat :=
  let '(y, ku, kd) := s in exchange os_error tc (agent_retry y, ku, kd).

(** The blocked reader tries again; its data go down, the ACK comes back. *)
Definition download_round (tc : nat) (s : sys C * nat * nat) : sys C * nat * nat :=
  let '(y, ku, kd) := s in
  let y := match y_reader y with RWait rest err => dest_retry rest err y | _ => y end in
  exchange os_error tc (exchange os_error tc (y, ku, kd)).

(** Nothing in flight, nothing owed, and room in both buffers. *)
Record flowing (tc : nat) y (ku kd : nat) A D : Prop := {
  fl_inv : yinv sid y A D;
  fl_linked : linked tc y ku kd;
  fl_alive : c_alive (y_c y);
  fl_uw : uw y = len A;
  fl_dl : delivered y = len D;
  fl_up : 0 < Free (cs_upBuf (cs (y_c y)));
  fl_down : 0 < Free (s_downBuf (ss (y_b y)));
}.

(** What the handshake and the rounds do not touch. *)
Definition same_ends y y' : Prop :=
  y_upwait y' = y_upwait y /\ y_reader y' = y_reader y /\ y_agent y' = y_agent y /\ y_dest y' = y_dest y.

#[export] Instance same_ends_preorder : PreOrder same_ends.
Proof. split; [intros y; by split_and!|]. intros y1 y2 y3 (? & ? & ? & ?) (? & ? & ? & ?). split_and!; congruence. Qed.

Lemma broker_recv_ends tc f y : same_ends y (broker_recv os_error tc f y).
Proof. unfold broker_recv. by repeat case_match. Qed.

Lemma exchange_ends tc y ku kd : same_ends y (fst (fst (exchange os_error tc (y, ku, kd)))).
Proof.
  unfold exchange. simpl. rewrite foldl_client_recv.
  assert (forall fs y0, same_ends y0 (foldl (fun y f => broker_recv os_error tc f y) y0 fs)) as HF.
  { induction fs as [|f fs IH]; intros y0; [done|]. simpl. etrans; [apply (broker_recv_ends tc f)|apply IH]. }
  etrans; [apply HF|done].
Qed.

(** Both loops cut off what fits; a rest leaves the buffer full. *)
Lemma chunk_fits b X a (x : byte) p' :
  rb_rep b (MkStream X a) -> 0 < Free b -> len X + len (x :: p') < 2 ^ 64 ->
  let p := x :: p' in
  let m := if len p >? Free b then Free b else len p in
  exists b', Append b (ztake m p) = Ok b' /\ rb_max b' = rb_max b /\ ztake m p <> [] /\ len (ztake m p) <= len p /\
    (zdrop m p = [] \/ (1 <= length p')%nat /\ zdrop m p <> [] /\ Free b' = 0).
Proof.
  intros R Hf HX p m. assert (0 < len p) as Hl by (unfold p; len_solve). fold p in HX.
  assert (0 < m <= len p /\ m <= Free b /\ (m < len p -> m = Free b)) as (Hm & Hmf & Hmr) by (unfold m; zcases; lia).
  assert (len (ztake m p) = m) as Lq by (apply len_ztake; lia).
  destruct (rep_append R (ztake m p)) as (b' & Hb & Rb & Em); [lia|simpl; lia|].
  exists b'. split_and!; [done|done|intros E; rewrite E in Lq; change (0 = m) in Lq; lia|lia|].
  destruct (Z.eq_dec m (len p)) as [E|E]; [left; rewrite E; apply zdrop_len|right]. split_and!.
  - unfold p, len in *. simpl length in *. lia.
  - intros E0. apply (f_equal len) in E0. rewrite len_zdrop, len_nil in E0 by lia. lia.
  - rewrite (rep_Free Rb), Em. simpl. rewrite len_app, Lq, (Hmr ltac:(lia)), (rep_Free R). simpl. lia.
Qed.

(** ** Up *)

(** One go at the buffer: a chunk fits, the rest waits. *)
Lemma write_turn A D n (c : cst C) p :
  cinv sid A D n c -> cs_dead (cs c) = false -> 0 < Free (cs_upBuf (cs c)) -> p <> [] -> len p <= MaxPayload ->
  len A + len p < 2 ^ 64 ->
  exists q rest b, p = q ++ rest /\ q <> [] /\ len q <= MaxPayload /\ rb_max b = rb_max (cs_upBuf (cs c)) /\
    writeUp p c = (csend (DataF sid (len A) q) (cupd (set_cs_upBuf b) c), match rest with [] => WDone | _ => WBlocked rest end).
Proof.
  intros I Hd Hf Hp Hmp HA. destruct (ci_up _ _ _ _ _ I) as (a & R & _). destruct p as [|x p']; [done|].
  destruct (chunk_fits _ _ _ x p' R Hf HA) as (b & Hb & Em & Hq & Lq & Hr). set (p := x :: p') in *.
  set (m := if len p >? _ then _ else _) in *.
  exists (ztake m p), (zdrop m p), b. split_and!; [by rewrite ztake_zdrop|done|lia|done|].
  unfold writeUp, p at 1. cbn [length write_loop]. unfold p at 1. cbn [write_loop]. fold p. rewrite Hd.
  destruct (Z.eqb_spec (Free (cs_upBuf (cs c))) 0); [lia|]. fold m. rewrite Hb, (rep_End R). simpl st_hist.
  rewrite (ci_sid _ _ _ _ _ I : cs_sessionID (cs (cupd (set_cs_upBuf b) c)) = sid).
  destruct Hr as [->|(Hl & Hne & Hz)]; [by destruct p'|].
  destruct (zdrop m p) as [|z r]; [done|]. destruct p' as [|x' p'']; [simpl in Hl; lia|].
  cbn [length write_loop]. rewrite csend_cs. cbn [cupd cs cs_dead set_cs_upBuf cs_upBuf]. by rewrite Hd, Hz.
Qed.

Lemma works_healthy_uw A D dl (st : sst C) u :
  binv sid A D dl st -> s_upstream (ss st) = Some u -> sock_healthy u -> sk_out u = A -> s_upstreamWritten (ss st) = len A.
Proof.
  intros B Hu Hh Ho. pose proof (bi_conn _ _ _ _ _ B) as Hk. rewrite Hu in Hk. destruct Hk as (_ & _ & Hk).
  pose proof (sink_healthy_exact _ _ _ Hh Hk) as E. destruct (binv_uw _ _ _ _ _ B) as [Hw _].
  rewrite Ho in E. apply (f_equal len) in E. rewrite len_ztake in E by done. lia.
Qed.

Lemma free_trim b X a : rb_rep b (MkStream X a) -> 0 < rb_max b -> 0 < Free (TrimTo b (len X)).
Proof.
  intros R Hm. pose proof (trim_all _ _ _ R) as E. destruct (rep_trim R (len X)) as [_ Em].
  unfold Free, Len in *. lia.
Qed.

(** The delivered offset of a working agent connection that has all of [D]. *)
Lemma works_delivered A D n (c : cst C) :
  cinv sid A D n c -> sock_healthy (cs_agent (cs c)) -> sk_out (cs_agent (cs c)) = D -> cs_downDelivered (cs c) = len D.
Proof.
  intros Cc Hh Ho. pose proof (sink_healthy_exact _ _ _ Hh (ci_sink _ _ _ _ _ Cc)) as E. pose proof (ci_range _ _ _ _ _ Cc).
  rewrite Ho in E. apply (f_equal len) in E. rewrite len_ztake in E by done. lia.
Qed.

Lemma works_agent A D n (c : cst C) :
  cinv sid A D n c -> sock_healthy (cs_agent (cs c)) -> cs_downDelivered (cs c) = len D -> sk_out (cs_agent (cs c)) = D.
Proof. intros Cc Hh E. rewrite (sink_healthy_exact _ _ _ Hh (ci_sink _ _ _ _ _ Cc)), E. apply ztake_len. Qed.

Lemma upload_step tc y ku kd A D :
  flowing tc y ku kd A D -> y_upwait y <> [] -> len (y_upwait y) <= MaxPayload -> len (y_agent y) < 2 ^ 64 ->
  exists y' ku' kd' q, upload_round tc (y, ku, kd) = (y', ku', kd') /\ q <> [] /\ y_upwait y = q ++ y_upwait y' /\
    flowing tc y' ku' kd' (A ++ q) D /\ y_reader y' = y_reader y /\ y_agent y' = y_agent y /\ y_dest y' = y_dest y.
Proof.
  intros [I L [Hcd Hag] Huw Hdl Hup Hdn] Hp Hmp HA. pose proof (yi_A' _ _ _ _ I Hcd) as EA. rewrite EA, len_app in HA.
  destruct (write_turn A D _ (y_c y) (y_upwait y) (yi_c _ _ _ _ I) Hcd Hup Hp Hmp HA) as (q & rest & b & Ep & Hq & Hlq & Em & W).
  destruct L as (LU & LD & -> & -> & Hcr & Hbd & u & Hu & Huh).
  set (c1 := csend (DataF sid (len A) q) (cupd (set_cs_upBuf b) (y_c y))) in *.
  assert (agent_retry y = MkSys c1 (y_b y) (y_created y) (y_dialed y) (y_reader y) rest (y_agent y) (y_dest y)) as E1
    by (unfold agent_retry; rewrite W; by destruct rest).
  destruct (yinv_agent_retry sid Hsid y A D I) as (A1 & D1 & I1); [rewrite E1; simpl; rewrite EA, len_app; lia|].
  set (y1 := agent_retry y) in *. pose proof (len_nonneg A).
  assert (cs c1 = set_cs_upBuf b (cs (y_c y))) as Ec by apply csend_cs.
  assert (A1 = A ++ q) as ->.
  { pose proof (yi_A' _ _ _ _ I1) as EA1. rewrite E1 in EA1. simpl in EA1. rewrite Ec in EA1. specialize (EA1 Hcd).
    rewrite EA, Ep, app_assoc in EA1. by apply app_inv_tail in EA1. }
  assert (D1 = D) as ->.
  { pose proof (yi_D' _ _ _ _ I1) as ED1. rewrite E1 in ED1. simpl in ED1. specialize (ED1 Hbd).
    rewrite (yi_D' _ _ _ _ I Hbd) in ED1. by apply app_inv_tail in ED1. }
  assert (replay_up sid (A ++ q) D (uw y1) (len D) = [DataF sid (len A) q]) as Er.
  { rewrite E1. simpl. rewrite Huw. unfold replay_up. rewrite zdrop_app_len, zdrop_len. unfold opt, nonempty.
    destruct (Z.gtb_spec (len q) 0) as [_|Hz]; [done|]. destruct Hq. apply len_0_nil. pose proof (len_nonneg q). lia. }
  destruct (link_up_send tc (sent_up tc y) (cupd (set_cs_upBuf b) (y_c y)) (DataF sid (len A) q) LU) as [LU1 _].
  { constructor; [done|unfold is_u64; rewrite Ep, len_app in HA; pose proof (len_nonneg q); pose proof (len_nonneg rest); lia|done]. }
  destruct (exchange_replay sid Hsid os_error Hos y1 (A ++ q) D tc (sent_up tc y) (sent_down tc y) u (len D))
    as (y' & ku & kd & X & _ & _ & (u' & Hu' & Ho) & Ag & Ub & Db & I' & L' & V');
    [exact I1|by rewrite Er, E1|by rewrite E1..|exact Huh|].
  exists y', ku, kd, q. pose proof (exchange_ends tc y1 (length (sent_up tc y)) (length (sent_down tc y))) as (S1 & S2 & S3 & S4).
  rewrite X in S1, S2, S3, S4. simpl in S1, S2, S3, S4. rewrite E1 in S1, S2, S3, S4. simpl in S1, S2, S3, S4.
  assert (c_alive (y_c y')) as Al' by (apply V'; rewrite E1; split; simpl; by rewrite Ec).
  split_and!; try done; [by rewrite S1|]. pose proof L' as (_ & _ & _ & _ & _ & _ & u2 & Hu2 & Hh2).
  split; try done.
  - eapply works_healthy_uw; [apply I'|exact Hu'|congruence|done].
  - eapply works_delivered; [apply I'|apply Al'|]. rewrite Ag, E1. simpl. rewrite Ec. by eapply works_agent; [apply I|..].
  - rewrite Ub, E1. simpl. rewrite Ec, Huw, zdrop_app_len. simpl.
    destruct (nonempty q) eqn:En; [|by apply nonempty_false in En].
    destruct (ci_up _ _ _ _ _ (yi_c _ _ _ _ I1)) as (a & R & _). rewrite E1 in R. simpl in R. rewrite Ec in R. simpl in R.
    apply (free_trim b _ a R). rewrite Em. unfold Free in Hup. pose proof (len_nonneg (rb_buf (cs_upBuf (cs (y_c y))))). lia.
  - rewrite Db, zdrop_len, E1. done.
Qed.

(** ** Down *)

(** The reader's side of the same: the chunk goes straight down the tunnel. *)
Lemma produce_turn A D dl (st : sst C) tc fs p :
  binv sid A D dl st -> link_down tc fs st -> s_dead (ss st) = false -> 0 < Free (s_downBuf (ss st)) -> p <> [] ->
  len p <= MaxPayload -> len D + len p < 2 ^ 64 ->
  exists q rest b st', p = q ++ rest /\ q <> [] /\ rb_max b = rb_max (s_downBuf (ss st)) /\
    readUpstream p None st = (st', match rest with [] => RNext | _ => RWait rest None end) /\
    link_down tc (fs ++ [DataF sid (len D) q]) st' /\ ss st' = set_downBuf b (ss st).
Proof.
  intros B L Hd Hf Hp Hmp HD. destruct (bi_down _ _ _ _ _ B) as (a & R & _). destruct p as [|x p']; [done|].
  destruct (chunk_fits _ _ _ x p' R Hf HD) as (b & Hb & Em & Hq & Lq & Hr). set (p := x :: p') in *.
  set (m := if len p >? _ then _ else _) in *. pose proof (len_nonneg D). pose proof (len_nonneg p).
  destruct L as (Ht & c & Hc & W). destruct (works_write c fs (DataF sid (len D) (ztake m p)) W) as (c' & W1 & W').
  { constructor; [done|unfold is_u64; lia|lia]. }
  exists (ztake m p), (zdrop m p), b, (MkSst (set_downBuf b (ss st)) (<[tc:=c']> (net st)) (evs st)).
  split_and!; [by rewrite ztake_zdrop|done|done| |split; [done|]; exists c'; simpl; by rewrite lookup_insert_eq|done].
  unfold readUpstream, p at 1, produceDownstream, p at 1. cbn [length produce_loop]. unfold p at 1. cbn [produce_loop]. fold p. rewrite Hd.
  destruct (Z.eqb_spec (Free (s_downBuf (ss st))) 0); [lia|]. fold m. rewrite Hb, (rep_End R). simpl st_hist.
  unfold try_forward, tc_write. simpl s_tconn. rewrite Ht. simpl net. rewrite Hc. simpl s_sessionID.
  rewrite (bi_sid _ _ _ _ _ B), W1. unfold wake_if_detached. simpl s_tconn. rewrite Ht. simpl.
  destruct Hr as [->|(Hl & Hne & Hz)]; [by destruct p'|].
  destruct (zdrop m p) as [|z r]; [done|]. destruct p' as [|x' p'']; [simpl in Hl; lia|].
  cbn [length produce_loop ss s_dead set_downBuf s_downBuf]. by rewrite Hd, Hz.
Qed.

(** Data on their way down are delivered and confirmed. *)
Lemma exchange_deliver y A D tc fsu fsd dl :
  yinv sid y A D -> link_up tc fsu (y_c y) -> link_down tc (fsd ++ [DataF sid dl (zdrop dl D)]) (y_b y) ->
  delivered y = dl -> dl < len D -> c_alive (y_c y) ->
  exists c, exchange os_error tc (y, length fsu, length fsd) = (with_c c y, length fsu, Datatypes.S (length fsd)) /\
    yinv sid (with_c c y) A D /\ link_up tc (fsu ++ [AckF sid (len D)]) c /\ c_alive c /\
    cs_upBuf (cs c) = cs_upBuf (cs (y_c y)) /\ sk_out (cs_agent (cs c)) = D.
Proof.
  intros I LU LD Hdl Hlt [Hcd Hag]. subst dl. set (dl := delivered y) in *. pose proof (ci_range _ _ _ _ _ (yi_c _ _ _ _ I)) as Hr.
  destruct (deliver_sent sid Hsid A D _ (y_c y) tc fsu (yi_c _ _ _ _ I) LU Hcd Hag) as [LU' Ec].
  exists (deliverDown dl (zdrop dl D) (y_c y)). split_and!.
  - unfold exchange. rewrite (link_up_sent _ _ _ LU), drop_all. simpl foldl.
    rewrite (link_down_sent _ _ _ LD), drop_app_length. simpl. do 2 f_equal; lia.
  - apply (yinv_client_recv sid Hsid y A D (DataF sid dl (zdrop dl D)) I); [|done].
    constructor; [apply at_offset_zdrop; lia|]. unfold is_u64. pose proof (ci_D _ _ _ _ _ (yi_c _ _ _ _ I)). lia.
  - exact LU'.
  - split; fold dl in Ec; by rewrite Ec.
  - fold dl in Ec. by rewrite Ec.
  - fold dl in Ec. rewrite Ec. simpl. rewrite (sink_healthy_exact _ _ _ Hag (ci_sink _ _ _ _ _ (yi_c _ _ _ _ I))).
    apply ztake_zdrop.
Qed.

(** The retry itself: a chunk enters the buffer and goes down. *)
Lemma retry_sent tc y ku kd A D p :
  flowing tc y ku kd A D -> y_reader y = RWait p None -> p <> [] -> len p <= MaxPayload -> len (y_dest y) < 2 ^ 64 ->
  exists q rest b st', q <> [] /\ p = q ++ rest /\ rb_max b = rb_max (s_downBuf (ss (y_b y))) /\ ss st' = set_downBuf b (ss (y_b y)) /\
    dest_retry p None y = MkSys (y_c y) st' (y_created y) (y_dialed y) (match rest with [] => RNext | _ => RWait rest None end)
      (y_upwait y) (y_agent y) (y_dest y) /\
    link_down tc (sent_down tc y ++ [DataF sid (len D) q]) st' /\ yinv sid (dest_retry p None y) A (D ++ q).
Proof.
  intros [I L [Hcd Hag] Huw Hdl Hup Hdn] Hrd Hp Hmp HD. destruct L as (LU & LD & -> & -> & Hcr & Hbd & u & Hu & Huh).
  pose proof (yi_D' _ _ _ _ I Hbd) as ED. rewrite Hrd in ED. simpl in ED. rewrite ED, len_app in HD.
  destruct (produce_turn A D _ (y_b y) tc _ p (yi_b _ _ _ _ I) LD Hbd Hdn Hp Hmp HD) as (q & rest & b & st' & Ep & Hq & Em & W & LD1 & Es).
  assert (dest_retry p None y = MkSys (y_c y) st' (y_created y) (y_dialed y) (match rest with [] => RNext | _ => RWait rest None end)
    (y_upwait y) (y_agent y) (y_dest y)) as E1 by (unfold dest_retry; by rewrite W).
  destruct (yinv_dest_retry sid Hsid y A D p None I) as (A1 & D1 & I1); [done|done|rewrite E1; simpl; rewrite ED, len_app; lia|].
  exists q, rest, b, st'. split_and!; try done.
  replace (D ++ q) with D1; [replace A with A1; [exact I1|]|].
  - pose proof (yi_A' _ _ _ _ I1) as EA1. rewrite E1 in EA1. simpl in EA1. specialize (EA1 Hcd).
    rewrite (yi_A' _ _ _ _ I Hcd) in EA1. by apply app_inv_tail in EA1.
  - pose proof (yi_D' _ _ _ _ I1) as ED1. rewrite E1 in ED1. simpl in ED1. rewrite Es in ED1. specialize (ED1 Hbd).
    rewrite ED, Ep, app_assoc in ED1. by destruct rest; apply app_inv_tail in ED1.
Qed.

Lemma download_step tc y ku kd A D p :
  flowing tc y ku kd A D -> y_reader y = RWait p None -> p <> [] -> len p <= MaxPayload -> len (y_dest y) < 2 ^ 64 ->
  exists y' ku' kd' q rest, download_round tc (y, ku, kd) = (y', ku', kd') /\ q <> [] /\ p = q ++ rest /\
    y_reader y' = match rest with [] => RNext | _ => RWait rest None end /\
    flowing tc y' ku' kd' A (D ++ q) /\ y_upwait y' = y_upwait y /\ y_agent y' = y_agent y /\ y_dest y' = y_dest y.
Proof.
  intros F Hrd Hp Hmp HD. destruct (retry_sent tc y ku kd A D p F Hrd Hp Hmp HD) as (q & rest & b & st' & Hq & Ep & Em & Es & E1 & LD1 & I1).
  destruct F as [I L [Hcd Hag] Huw Hdl Hup Hdn]. destruct L as (LU & LD & -> & -> & Hcr & Hbd & u & Hu & Huh).
  set (y1 := dest_retry p None y) in *. pose proof (len_nonneg D).
  assert (0 < len q) as Hlq by (destruct q; [done|len_solve]).
  destruct (exchange_deliver y1 A (D ++ q) tc (sent_up tc y) (sent_down tc y) (len D)) as (c & X1 & I2 & LU2 & Al2 & Eu2 & Eo2);
    [done|by rewrite E1|by rewrite E1, zdrop_app_len|by rewrite E1|rewrite len_app; lia|rewrite E1; by split|].
  assert (replay_up sid A (D ++ q) (uw (with_c c y1)) (len D) = [AckF sid (len (D ++ q))]) as Er.
  { rewrite E1. simpl. rewrite Es. simpl. rewrite Huw. unfold replay_up. rewrite zdrop_app_len, zdrop_len. unfold opt, nonempty.
    by destruct (Z.gtb_spec (len q) 0) as [_|Hz]; [|lia]. }
  destruct (exchange_replay sid Hsid os_error Hos (with_c c y1) A (D ++ q) tc (sent_up tc y)
    (sent_down tc y ++ [DataF sid (len D) q]) u (len D)) as (y' & ku & kd & X & _ & _ & (u' & Hu' & Ho) & Ag & Ub & Db & I' & L' & V');
    [exact I2|by rewrite Er|by rewrite E1|by rewrite E1|rewrite E1; simpl; by rewrite Es|rewrite E1; simpl; by rewrite Es|exact Huh|].
  rewrite length_app, Nat.add_1_r in X.
  exists y', ku, kd, q, rest. pose proof (exchange_ends tc (with_c c y1) (length (sent_up tc y)) (Datatypes.S (length (sent_down tc y)))) as (S1 & S2 & S3 & S4).
  rewrite X in S1, S2, S3, S4. simpl in S1, S2, S3, S4. rewrite E1 in S1, S2, S3, S4. simpl in S1, S2, S3, S4.
  assert (c_alive (y_c y')) as Al' by (by apply V').
  assert (download_round tc (y, length (sent_up tc y), length (sent_down tc y)) = (y', ku, kd)) as ->
    by (unfold download_round; rewrite Hrd; fold y1; by rewrite X1).
  split_and!; try done. pose proof L' as (_ & _ & _ & _ & _ & _ & u2 & Hu2 & Hh2). split; try done.
  - eapply works_healthy_uw; [apply I'|exact Hu'|congruence|done].
  - eapply works_delivered; [apply I'|apply Al'|]. rewrite Ag. exact Eo2.
  - rewrite Ub, E1. simpl. rewrite Es. simpl. rewrite Huw, zdrop_len. simpl. by rewrite Eu2, E1.
  - rewrite Db, zdrop_app_len, E1. simpl. rewrite Es. simpl.
    destruct (nonempty q) eqn:En; [|by apply nonempty_false in En].
    destruct (bi_down _ _ _ _ _ (yi_b _ _ _ _ I1)) as (a & R & _). rewrite E1 in R. simpl in R. rewrite Es in R. simpl in R.
    apply (free_trim b _ a R). rewrite Em. unfold Free in Hdn. pose proof (len_nonneg (rb_buf (s_downBuf (ss (y_b y))))). lia.
Qed.

(** ** Until nothing waits *)

Lemma uploads_finish tc y ku kd A D :
  flowing tc y ku kd A D -> len (y_upwait y) <= MaxPayload -> len (y_agent y) < 2 ^ 64 ->
  exists n y' ku' kd', Nat.iter n (upload_round tc) (y, ku, kd) = (y', ku', kd') /\ (n <= length (y_upwait y))%nat /\
    y_upwait y' = [] /\ flowing tc y' ku' kd' (A ++ y_upwait y) D /\
    y_reader y' = y_reader y /\ y_agent y' = y_agent y /\ y_dest y' = y_dest y.
Proof.
  remember (length (y_upwait y)) as m eqn:Em. revert y ku kd A Em. induction m as [m IH] using lt_wf_ind.
  intros y ku kd A -> F Hmp HA. destruct (decide (y_upwait y = [])) as [E|E].
  { exists 0%nat, y, ku, kd. rewrite E, app_nil_r. split_and!; try done. }
  destruct (upload_step tc y ku kd A D F E Hmp HA) as (y1 & ku1 & kd1 & q & X & Hq & Ep & F1 & S1 & S2 & S3).
  rewrite <- S2 in HA.
  assert (length (y_upwait y1) < length (y_upwait y))%nat as Hlt by (rewrite Ep, length_app; destruct q; [done|simpl; lia]).
  destruct (IH _ Hlt y1 ku1 kd1 (A ++ q) eq_refl F1 ltac:(unfold len in *; lia) HA) as (n & y' & ku' & kd' & X' & Hn & Hw & F' & T1 & T2 & T3).
  exists (Datatypes.S n), y', ku', kd'. rewrite Nat.iter_succ_r, X. split_and!; try congruence.
  - lia.
  - by rewrite Ep, app_assoc.
Qed.

Lemma downloads_finish tc y ku kd A D :
  flowing tc y ku kd A D -> len (reader_wait (y_reader y)) <= MaxPayload -> len (y_dest y) < 2 ^ 64 ->
  y_reader y = RNext \/ (exists p, p <> [] /\ y_reader y = RWait p None) ->
  exists n y' ku' kd', Nat.iter n (download_round tc) (y, ku, kd) = (y', ku', kd') /\
    (n <= length (reader_wait (y_reader y)))%nat /\ y_reader y' = RNext /\
    flowing tc y' ku' kd' A (D ++ reader_wait (y_reader y)) /\
    y_upwait y' = y_upwait y /\ y_agent y' = y_agent y /\ y_dest y' = y_dest y.
Proof.
  remember (length (reader_wait (y_reader y))) as m eqn:Em. revert y ku kd D Em. induction m as [m IH] using lt_wf_ind.
  intros y ku kd D -> F Hmp HD [E|(p & Hp & E)].
  { exists 0%nat, y, ku, kd. rewrite E. simpl. rewrite app_nil_r. split_and!; try done. }
  destruct (download_step tc y ku kd A D p F E Hp ltac:(by rewrite E in Hmp) HD) as (y1 & ku1 & kd1 & q & rest & X & Hq & Ep & S0 & F1 & S1 & S2 & S3).
  rewrite <- S3 in HD.
  assert (reader_wait (y_reader y1) = rest) as Er by (rewrite S0; by destruct rest).
  assert (length rest < length (reader_wait (y_reader y)))%nat as Hlt by (rewrite E; simpl; rewrite Ep, length_app; destruct q; [done|simpl; lia]).
  assert (y_reader y1 = RNext \/ exists p, p <> [] /\ y_reader y1 = RWait p None) as Hr1
    by (rewrite S0; destruct rest; [by left|right; eexists; by split; [|reflexivity]]).
  destruct (IH (length rest) Hlt y1 ku1 kd1 (D ++ q) (eq_sym (f_equal length Er)) F1 ltac:(rewrite Er; unfold len in *; lia) HD Hr1)
    as (n & y' & ku' & kd' & X' & Hn & Hw & F' & T1 & T2 & T3).
  exists (Datatypes.S n), y', ku', kd'. rewrite Nat.iter_succ_r, X. rewrite Er, <- app_assoc, <- Ep in F'.
  split_and!; try congruence; [lia|]. by rewrite E.
Qed.

Lemma works_upstream A D dl (st : sst C) u :
  binv sid A D dl st -> s_upstream (ss st) = Some u -> sock_healthy u -> s_upstreamWritten (ss st) = len A -> sk_out u = A.
Proof.
  intros B Hu Hh E. pose proof (bi_conn _ _ _ _ _ B) as Hk. rewrite Hu in Hk. destruct Hk as (_ & _ & Hk).
  rewrite (sink_healthy_exact _ _ _ Hh Hk), E. apply ztake_len.
Qed.

(** A flowing session with nothing waiting has delivered everything. *)
Lemma flowing_done tc y ku kd A D :
  flowing tc y ku kd A D -> y_upwait y = [] -> y_reader y = RNext ->
  sk_out (cs_agent (cs (y_c y))) = y_dest y /\ exists u, s_upstream (ss (y_b y)) = Some u /\ sk_out u = y_agent y.
Proof.
  intros [I L [Hcd Hag] Huw Hdl _ _] Ew Er. destruct L as (_ & _ & _ & _ & _ & Hbd & u & Hu & Huh).
  pose proof (yi_A' _ _ _ _ I Hcd) as EA. pose proof (yi_D' _ _ _ _ I Hbd) as ED.
  rewrite Ew, app_nil_r in EA. rewrite Er in ED. simpl in ED. rewrite app_nil_r in ED. rewrite EA, ED. split.
  - by eapply works_agent; [apply I|..].
  - exists u. split; [done|]. by eapply works_upstream; [apply I|..].
Qed.

Lemma heal_ends actorID tc cu cd y : same_ends y (fst (fst (heal os_error actorID tc cu cd y))).
Proof.
  unfold heal. set (y1 := connect_step actorID tc cu cd y).
  pose proof (exchange_ends tc y1 1 0) as E. destruct (exchange os_error tc (y1, 1%nat, 0%nat)) as [[y2 ku] kd].
  transitivity y1; [by split_and!|]. transitivity y2; [exact E|apply exchange_ends].
Qed.

(** The handshake sets a session flowing, unless the ACKs of a full download
    buffer were lost. *)
Lemma heal_flows y A D actorID tc cu cd u :
  yinv sid y A D -> replays_fit y -> str_len actorID <= maxString -> works cu [] -> works cd [] ->
  y_created y = true -> c_alive (y_c y) -> s_dead (ss (y_b y)) = false -> s_downClosed (ss (y_b y)) = false ->
  s_upstream (ss (y_b y)) = Some u -> sock_healthy u ->
  0 < rb_max (cs_upBuf (cs (y_c y))) -> 0 < rb_max (s_downBuf (ss (y_b y))) ->
  delivered y < End_ (s_downBuf (ss (y_b y))) \/ 0 < Free (s_downBuf (ss (y_b y))) ->
  exists y' ku kd, heal os_error actorID tc cu cd y = (y', ku, kd) /\ flowing tc y' ku kd A D /\ same_ends y y'.
Proof.
  intros I Hfit Ha Wu Wd Hcr [Hcd Hag] Hbd Hdc Hu Huh Mu Md Hfr.
  destruct (heal_spec sid Hsid os_error Hos y A D actorID tc cu cd u I)
    as (y' & ku & kd & E & _ & _ & (u' & Hu' & Ho) & Oa & Ub & Db & I' & L & Al & Mx); try done.
  specialize (Al Hdc). exists y', ku, kd. split; [done|]. split; [|by pose proof (heal_ends actorID tc cu cd y) as S; rewrite E in S].
  pose proof L as (_ & _ & _ & _ & _ & _ & u2 & Hu2 & Hh2). split; try done.
  - by eapply works_healthy_uw; [apply I'|exact Hu'|congruence|].
  - by eapply works_delivered; [apply I'|apply Al|].
  - unfold Free, Len in *. lia.
  - rewrite Db. destruct (bi_down _ _ _ _ _ (yi_b _ _ _ _ I)) as (a & R & _).
    destruct (nonempty _) eqn:En; [by eapply free_trim|]. destruct Hfr as [Hfr|]; [|done].
    pose proof (ci_range _ _ _ _ _ (yi_c _ _ _ _ I)) as Hr.
    apply nonempty_false, zdrop_nil_len in En; [|lia]. rewrite (rep_End R) in Hfr. simpl in Hfr. lia.
Qed.
End progress.

(** ** Property *)

Section properties.
Context {C : Type} `{FrameWriterLaws C}.
Context (sid cbuf bbuf : Z) (target actorID os_error : string) (cap : option nat) (cw : bool).
Context (Hsid : is_u64 sid) (Ht : str_len target <= maxString) (Hos : str_len os_error <= maxString).
Context (Ha : str_len actorID <= maxString).
Context (Hcb : 0 <= cbuf) (Hbb : 0 <= bbuf).
Context (y : sys C).
Context (R : rtc (ystep os_error) (initial sid target cbuf bbuf actorID cap cw) y).
Context (HA : len (y_agent y) < 2 ^ 64) (HD : len (y_dest y) < 2 ^ 64).

(** C3. Back-pressure clears, with replay buffers of any size from one byte on.
    Take any reachable state short of 2^64 bytes in either direction, with any
    number of frames lost in suspends, in
    which both halves are alive, both sockets take writes and the destination has
    not ended its stream; the pump may be blocked on a full upload buffer and the
    reader on a full download buffer.  Assume that what either side has to send
    again, and the piece each of the two blocked loops holds, fit in one frame
    ([MaxPayload]; the loops read pieces of 32 KiB), and that the download buffer
    is not full of bytes the agent already has.  Then a reconnect over a
    connection that works followed by finitely many round trips (no more than
    there are bytes waiting in that direction) delivers everything: the
    destination has every byte the agent ever wrote, the agent every byte the
    broker ever read from the destination, the pump is free and the reader
    reads again. *)
Theorem transfers_complete (tc : nat) (cu cd : C) (u : sock)
    (Hcr : y_created y = true) (Hcd : cs_dead (cs (y_c y)) = false) (Hbd : s_dead (ss (y_b y)) = false)
    (Hdc : s_downClosed (ss (y_b y)) = false)
    (Hrd : y_reader y = RNext \/ exists p, p <> [] /\ y_reader y = RWait p None)
    (Hfit : replays_fit y)
    (Hpw : len (y_upwait y) <= MaxPayload) (Hrw : len (reader_wait (y_reader y)) <= MaxPayload)
    (Hag : sock_healthy (cs_agent (cs (y_c y))))
    (Hu : s_upstream (ss (y_b y)) = Some u) (Huh : sock_healthy u)
    (Wu : works cu []) (Wd : works cd [])
    (Mu : 0 < rb_max (cs_upBuf (cs (y_c y)))) (Md : 0 < rb_max (s_downBuf (ss (y_b y))))
    (Hfr : cs_downDelivered (cs (y_c y)) < End_ (s_downBuf (ss (y_b y))) \/ 0 < Free (s_downBuf (ss (y_b y)))) :
  exists n m y' ku kd u',
    Nat.iter m (download_round os_error tc)
      (Nat.iter n (upload_round os_error tc) (heal os_error actorID tc cu cd y)) = (y', ku, kd) /\
    (n <= length (y_upwait y))%nat /\ (m <= length (reader_wait (y_reader y)))%nat /\
    y_upwait y' = [] /\ y_reader y' = RNext /\
    s_upstream (ss (y_b y')) = Some u' /\ sk_out u' = y_agent y /\ sk_out (cs_agent (cs (y_c y'))) = y_dest y.
Proof using Type*.
  destruct (reachable_inv sid cbuf bbuf target actorID os_error cap cw Hsid Ht Hos Ha Hcb Hbb y R HA HD)
    as (A & D & I).
  destruct (heal_flows sid Hsid os_error Hos y A D actorID tc cu cd u I Hfit Ha Wu Wd Hcr (conj Hcd Hag) Hbd Hdc Hu Huh Mu Md Hfr)
    as (y1 & ku1 & kd1 & -> & F1 & S1 & S2 & S3 & S4).
  destruct (uploads_finish sid Hsid os_error Hos tc y1 ku1 kd1 A D F1) as (n & y2 & ku2 & kd2 & E2 & Hn & W2 & F2 & T1 & T2 & T3);
    [by rewrite S1|by rewrite S3|].
  destruct (downloads_finish sid Hsid os_error Hos tc y2 ku2 kd2 _ D F2) as (m & y3 & ku3 & kd3 & E3 & Hm & R3 & F3 & U1 & U2 & U3);
    [by rewrite T1, S2|by rewrite T3, S4|by rewrite T1, S2|].
  destruct (flowing_done sid tc y3 ku3 kd3 _ _ F3) as (Oa & u' & Hu' & Ou); [congruence|done|].
  exists n, m, y3, ku3, kd3, u'. rewrite E2, E3. split_and!; congruence.
Qed.
End properties.

(** ** Witness *)

(** A ten-byte upload into an 8-byte buffer and a nine-byte download into a
    4-byte one, suspended before anything of either arrived. *)
Module Stalled.
Definition y4 : sys Conn := agent_write [x30; x31; x32; x33; x34; x35; x36; x37; x38; x39] Demo.y3.
Definition y5 : sys Conn := dest_read [x61; x62; x63; x64; x65; x66; x67; x68; x69] None y4.

Lemma reached : rtc (ystep Demo.os) Demo.y0 y5.
Proof.
  destruct Demo.new_conn_works as (W1 & _ & W2).
  apply (rtc_l _ _ Demo.y1); [by apply YConnect|].
  apply (rtc_l _ _ Demo.y2); [apply YBrokerRecv with (from := 0%nat); [done|Demo.in_list]|].
  apply (rtc_l _ _ Demo.y3); [by apply YDialOk|].
  apply (rtc_l _ _ y4); [by apply YAgentWrite|].
  apply (rtc_l _ _ y5); [by apply YDestRead|].
  apply rtc_refl.
Qed.
End Stalled.

Lemma transfers_complete_witness :
  y_upwait Stalled.y5 = [x38; x39] /\ y_reader Stalled.y5 = RWait [x65; x66; x67; x68; x69] None /\
  exists n m y' ku kd u',
    Nat.iter m (download_round Demo.os 1)
      (Nat.iter n (upload_round Demo.os 1) (heal Demo.os "ns/a" 1 (NewConn new_sock) (NewConn new_sock) Stalled.y5)) = (y', ku, kd) /\
    (n <= 2)%nat /\ (m <= 5)%nat /\ y_upwait y' = [] /\ y_reader y' = RNext /\
    s_upstream (ss (y_b y')) = Some u' /\ sk_out u' = y_agent Stalled.y5 /\
    sk_out (cs_agent (cs (y_c y'))) = y_dest Stalled.y5.
Proof.
  split; [reflexivity|]. split; [reflexivity|].
  apply (transfers_complete 1 8 4 "mcp:80" "ns/a" Demo.os None true)
    with (u := MkSock [] None false false);
    first [exact Stalled.reached | exact Demo.new_conn_works | by_compute | idtac].
  - right. exists [x65; x66; x67; x68; x69]. split; [discriminate|reflexivity].
  - left. reflexivity.
Defined.
