(* ===== verification/Interleavings.v ===== *)
(** * Interleavings: session methods on every branch, and between each other

    [onData] specified on every branch when handlers run one after the other;
    and what the session code does when another goroutine gets in between the
    critical sections of one method, or when two methods run in an order their
    authors may not have had in mind.  The latter are theorems about the code
    as it is. *)
From S2P Require Import Prelude ReplayBuffer Socket Wire Link BrokerSession BrokerStream.

Section interleavings.
Context {C : Type} `{FrameWriter C} (os_error : string).
Implicit Types (st : sst C).

Abbreviation uw st := (s_upstreamWritten (ss st)).

(** A session whose upstream connection is up and working. *)
Record running (u : sock) st : Prop := {
  rn_alive : s_dead (ss st) = false;
  rn_connected : s_connected (ss st) = true;
  rn_up : s_upstream (ss st) = Some u;
  rn_healthy : sock_healthy u;
  rn_uw : is_u64 (uw st);
}.

(** The write and the commit of new bytes. *)
Lemma onData_write_running u st q :
  running u st -> uw st + len q < 2 ^ 64 ->
  let st' := onData_write os_error q st in
  running (MkSock (sk_out u ++ q) None false false) st' /\ uw st' = uw st + len q.
Proof.
  intros [Ha Hc Hu Hh Hw] Hlen st'. pose proof (len_nonneg q). unfold is_u64 in Hw.
  assert (uw st' = uw st + len q) as E.
  { unfold st', onData_write, up_write. rewrite Hu, (sock_write_healthy _ _ Hh), commit_uw.
    simpl. apply u64_small. lia. }
  split; [|done]. split; [..|unfold is_u64; lia];
    unfold st', onData_write, up_write; rewrite ?Hu, ?(sock_write_healthy _ _ Hh);
    unfold commit_upstream; try (match goal with |- context [sendToSidecar ?f ?s] =>
      destruct (send_ss f s) as [v ->] end); done.
Qed.

(** Exactly once, on every branch.  A DATA frame at offset [o] makes the session
    write precisely the bytes it has not written yet: all of the payload when it
    is next in line, its new suffix when it overlaps what was written, nothing
    when it is a complete duplicate or lies beyond a gap; and the written
    offset moves by exactly what was written. *)
Theorem onData_exactly_once (u : sock) st (o : Z) (p : list byte)
    (Hr : running u st) (Ho : 0 <= o) (Hw : uw st + len p < 2 ^ 64) :
  let new := if o <=? uw st then zdrop (uw st - o) p else [] in
  exists u', s_upstream (ss (onData os_error o p st)) = Some u' /\ sk_out u' = sk_out u ++ new /\
    uw (onData os_error o p st) = uw st + len new.
Proof.
  intros new. destruct Hr as [Ha Hc Hu Hh Hu64] eqn:Er. clear Er. unfold is_u64 in Hu64.
  assert (upd (fun _ => ss st) st = st) as Eid by (by destruct st).
  unfold onData. rewrite onData_check_dedup, Hc, Eid by done.
  assert (forall n : list byte, n = [] -> sk_out u = sk_out u ++ n /\ uw st = uw st + len n) as Hnil.
  { intros n ->. by rewrite app_nil_r, len_nil, Z.add_0_r. }
  assert (dedup (uw st) o p = Some new \/ (dedup (uw st) o p = None /\ new = [])) as [-> | [-> Hnew]].
  { unfold dedup, new. destruct (Z.ltb_spec o (uw st)).
    - rewrite u64_small by lia. destruct (Z.leb_spec o (uw st)); [|lia].
      destruct (Z.geb_spec (uw st - o) (len p)); [right|by left].
      split; [done|]. unfold zdrop. apply drop_ge. len_solve.
    - destruct (Z.gtb_spec o (uw st)); destruct (Z.leb_spec o (uw st)); try lia; [by right|left].
      replace (uw st - o) with 0 by lia. by rewrite zdrop_0. }
  - assert (len new <= len p) by (unfold new; case_match; len_solve).
    destruct (onData_write_running u st new) as [Hr' E]; [done|lia|].
    eexists. split; [apply Hr'|done].
  - exists u. split; [done|]. by apply Hnil.
Qed.

(** ** Two handlers at once *)

(** C40. [onData] checks the offset under the lock, writes without it, and commits
    under it again.  When two connections of the same session deliver the same
    bytes at the same time (an old tunnel still draining while the reconnected
    sidecar replays), both pass the check, and the destination receives the
    bytes twice. *)
Theorem concurrent_replay_duplicates (u : sock) st (p : list byte)
    (Hr : running u st) (Hw : uw st + len p + len p < 2 ^ 64) :
  let check := onData_check (uw st) p (ss st) in
  check = (ss st, Some p) /\
  exists u', s_upstream (ss (onData_write os_error p (onData_write os_error p st))) = Some u' /\
    sk_out u' = sk_out u ++ p ++ p.
Proof.
  pose proof (len_nonneg p). split.
  - rewrite onData_check_dedup, (rn_connected _ _ Hr) by apply Hr. unfold dedup.
    destruct (Z.ltb_spec (uw st) (uw st)); [lia|]. destruct (Z.gtb_spec (uw st) (uw st)); [lia|done].
  - destruct (onData_write_running u st p Hr) as [Hr1 E1]; [lia|].
    destruct (onData_write_running _ _ p Hr1) as [Hr2 E2]; [lia|].
    eexists. split; [apply Hr2|]. simpl. by rewrite app_assoc.
Qed.

(** The dial publishes the connection before the queued bytes are written and
    counted.  A DATA frame that arrives in that window and continues exactly
    where the queued bytes end is dropped as out of order, although a moment
    earlier it would have been queued and a moment later written. *)
Theorem dial_window_drops_next_frame (conn : sock) st (q : list byte)
    (Ha : s_dead (ss st) = false) (Hpre : s_preConn (ss st) <> [])
    (Hw : is_u64 (uw st)) (Hlen : uw st + len (s_preConn (ss st)) < 2 ^ 64) :
  let o := uw st + len (s_preConn (ss st)) in
  let '(st1, pre) := dial_connect conn st in
  pre = Some (s_preConn (ss st)) /\ onData os_error o q st1 = st1 /\
  (s_connected (ss st) = false ->
   s_preConn (ss (onData os_error o q st)) = s_preConn (ss st) ++ q).
Proof.
  intros o. assert (0 < len (s_preConn (ss st))) as Hp.
  { pose proof (len_nonneg (s_preConn (ss st))). destruct (Z.eq_dec (len (s_preConn (ss st))) 0) as [E|]; [|lia].
    by apply len_0_nil in E. }
  unfold dial_connect. rewrite Ha. unfold is_u64 in Hw. split_and!; [done| |].
  - unfold onData. rewrite onData_check_dedup by done. simpl. unfold dedup.
    destruct (Z.ltb_spec o (uw st)); [lia|]. destruct (Z.gtb_spec o (uw st)); [done|lia].
  - intros Hc. unfold onData. rewrite onData_check_dedup, Hc by done. unfold dedup.
    rewrite u64_small by lia. fold o.
    destruct (Z.ltb_spec o o); [lia|]. destruct (Z.gtb_spec o o); [lia|done].
Qed.

(** In the same window a replay from the start (the answer to ATTACH_OK at the
    not yet advanced offset) is written ahead of the queued bytes, which are
    then written again. *)
Theorem dial_window_duplicates (conn : sock) st (q : list byte)
    (Ha : s_dead (ss st) = false) (Hc : sock_healthy conn) (Hw : uw st = 0)
    (Hpre : s_preConn (ss st) <> [])
    (Hlen : len (s_preConn (ss st)) + len (s_preConn (ss st)) + len q < 2 ^ 64) :
  let pre := s_preConn (ss st) in
  let st1 := fst (dial_connect conn st) in
  let st2 := onData os_error 0 (pre ++ q) st1 in
  exists u', s_upstream (ss (fst (dial_flush os_error pre st2))) = Some u' /\
    sk_out u' = sk_out conn ++ (pre ++ q) ++ pre.
Proof.
  intros pre st1 st2. unfold st2, st1, dial_connect. rewrite Ha. simpl fst.
  set (st1' := upd _ st). pose proof (len_nonneg q). pose proof (len_nonneg pre) as Hp0.
  assert (running conn st1') as R1 by (split; try done; unfold st1'; simpl; rewrite Hw; unfold is_u64; lia).
  assert (uw st1' = 0) as E0 by done.
  assert (onData os_error 0 (pre ++ q) st1' = onData_write os_error (pre ++ q) st1') as ->.
  { unfold onData. rewrite onData_check_dedup, (rn_connected _ _ R1), E0 by done. done. }
  fold pre in Hlen. destruct (onData_write_running conn st1' (pre ++ q) R1) as [R2 E2]; [rewrite E0, len_app; lia|].
  set (st2' := onData_write os_error (pre ++ q) st1') in *.
  unfold dial_flush. destruct (Z.gtb_spec (len pre) 0) as [|Hle].
  2: { by destruct Hpre; apply len_0_nil; fold pre; lia. }
  unfold up_write. rewrite (rn_up _ _ R2), (sock_write_healthy _ _ (rn_healthy _ _ R2)). simpl.
  unfold commit_upstream. match goal with |- context [sendToSidecar ?f ?s] =>
    destruct (send_ss f s) as [v ->] end.
  eexists. split; [done|]. simpl. by rewrite <- app_assoc.
Qed.

(** ** Orders of events *)

(** An agent that closes its sending side before the dial has completed: the
    session records it, but the connection that the dial then installs is never
    half-closed, so the destination does not see the end of the request. *)
Theorem early_half_close_is_lost st (reason : string) (Ha : s_dead (ss st) = false)
    (Hu : s_upstream (ss st) = None) (Hd : s_downClosed (ss st) = false) :
  let st1 := onSidecarClose DirUp reason st in
  let st2 := fst (dialUpstream os_error (Ok new_sock) st1) in
  s_upClosed (ss st2) = true /\
  exists u, s_upstream (ss st2) = Some u /\ sk_wclosed u = false /\ sk_closed u = false.
Proof.
  intros st1 st2. assert (st1 = upd (fun s => set_upstream None (set_upClosed true s)) st) as E1.
  { unfold st1, onSidecarClose. change (DirUp =? DirUp) with true. cbn [negb].
    unfold maybeDestroy, upd. simpl. rewrite Hd. simpl. by rewrite Hu. }
  unfold st2. rewrite E1. unfold dialUpstream, dial_connect. simpl. rewrite Ha.
  unfold dial_flush. simpl. destruct (_ >? 0); simpl; [|eauto].
  unfold commit_upstream. match goal with |- context [sendToSidecar ?f ?s] =>
    destruct (send_ss f s) as [v ->] end. simpl. eauto.
Qed.

(** A session with both halves closed is torn down "once the downstream buffer
    has drained", but only [closeUpstream] and [onSidecarClose] look: when the
    buffer drains afterwards, by the ACK that the sidecar sends for the last
    bytes, the session stays in the table with its upstream connection open. *)
Theorem drained_session_is_not_destroyed st (o : Z) (D : list byte) (a : Z)
    (Ha : s_dead (ss st) = false) (Hup : s_upClosed (ss st) = true) (Hdn : s_downClosed (ss st) = true)
    (HR : rb_rep (s_downBuf (ss st)) (MkStream D a)) (Ho : len D <= o) :
  let st' := onDownstreamAck o st in
  Len (s_downBuf (ss st')) = 0 /\ s_upClosed (ss st') = true /\ s_downClosed (ss st') = true /\
  s_dead (ss st') = false /\ evs st' = evs st /\ s_upstream (ss st') = s_upstream (ss st).
Proof.
  intros st'. destruct (rep_trim HR o) as [R' _]. pose proof (rep_len R') as L. simpl in L.
  assert (Len (TrimTo (s_downBuf (ss st)) o) = 0) as E.
  { unfold Len. rewrite L. pose proof (rep_range _ _ HR). simpl in *. lia. }
  unfold st', onDownstreamAck. simpl. rewrite E. simpl. done.
Qed.

(** ** Sessions that count as answered *)

Abbreviation ro st := (s_requestOutstanding (ss st)).

Lemma ro_send f st : ro (sendToSidecar f st) = ro st.
Proof. by destruct (send_ss f st) as [v ->]. Qed.

Lemma ro_maybeDestroy st : ro (maybeDestroy st) = ro st.
Proof. unfold maybeDestroy, destroy. by repeat case_match. Qed.

Lemma ro_closeUpstream cause st : ro (closeUpstream cause st) = ro st.
Proof.
  unfold closeUpstream. destruct (s_downClosed (ss st)); [done|]. rewrite ro_maybeDestroy.
  repeat case_match; rewrite ?ro_send; done.
Qed.

Lemma ro_produce fuel p st : ro (fst (produce_loop fuel p st)) = ro st.
Proof.
  revert p st. induction fuel as [|fuel IH]; intros p st; destruct p as [|b p]; try done. cbn [produce_loop].
  destruct (s_dead (ss st)); [done|]. destruct (_ =? 0); [done|]. destruct (Append _ _); [|done].
  rewrite IH. unfold wake_if_detached.
  assert (forall o q st, ro (try_forward o q st) = ro st) as E by (intros o q st0; apply (try_forward_ss o q st0)).
  case_match; simpl; by rewrite E.
Qed.

Lemma ro_read p err st : ro (fst (readUpstream p err st)) = ro st.
Proof.
  unfold readUpstream.
  assert (ro (fst (match p with [] => (st, PDone) | _ => produceDownstream p st end)) = ro st) as E
    by (destruct p; [done|apply ro_produce]).
  destruct (match p with [] => _ | _ => _ end) as [st1 r]. simpl in E. rewrite <- E.
  destruct r; [destruct err|..]; simpl; rewrite ?ro_closeUpstream; try done; unfold destroy; by case_match.
Qed.

(** Only bytes from the agent make a session count as waiting again. *)
Lemma ro_sexec o st : feeds o = false -> ro st = false -> ro (sexec os_error o st) = false.
Proof.
  destruct o as [tc|tc|r|p err|o p|o|tc d|d r| |f]; simpl; try done; intros _ R.
  - by destruct (detach_ss tc st) as [v ->].
  - by rewrite ro_read.
  - unfold onDownstreamAck. simpl. by case_match.
  - unfold onSidecarAttach. repeat case_match; by rewrite !ro_send.
  - unfold onSidecarClose. case_match; [done|]. by rewrite ro_maybeDestroy.
  - unfold watchdog_fire. by case_match.
  - by rewrite ro_send.
Qed.

Lemma quiescent_never_wakes ops st a r :
  ro st = false -> Forall (fun o => feeds o = false) ops ->
  EvWake a r ∈ evs (foldl (fun st o => sexec os_error o st) st ops) -> EvWake a r ∈ evs st.
Proof.
  intros R HF. revert st R. induction HF as [|o ops Ho _ IH]; intros st R; [done|]. cbn [foldl]. intros Hw.
  pose proof (ro_sexec o st Ho R) as R'. apply (IH _ R') in Hw.
  destruct (sexec_events os_error False o st) as (es & E & W & _); [done|]. rewrite E in Hw.
  apply elem_of_app in Hw as [Hw|Hw]; [done|]. destruct (W a r Hw) as [_ [_ ?]]. congruence.
Qed.

(** C38. A request is forgotten.  An ACK that empties the downstream buffer marks the
    session as answered, also when the bytes it acknowledges belong to the
    response before: if the agent's next request was written upstream before that
    ACK came in, the session no longer counts as pending.  From then on nothing
    resumes the actor, whatever happens: detaching, the response (in any number
    of pieces), the destination's close, an error, and the watchdog all stay
    silent until the agent itself, which is suspended, sends more bytes. *)
Theorem late_ack_forgets_request (u : sock) st (p : list byte) (acked : Z) (ops : list sop) (a r : string)
    (Hr : running u st) (Hw : uw st + len p < 2 ^ 64)
    (Hdrained : Len (TrimTo (s_downBuf (ss (onData os_error (uw st) p st))) acked) = 0)
    (Hops : Forall (fun op => feeds op = false) ops) :
  let st1 := onDownstreamAck acked (onData os_error (uw st) p st) in
  let st2 := foldl (fun st op => sexec os_error op st) st1 ops in
  (exists u', s_upstream (ss st1) = Some u' /\ sk_out u' = sk_out u ++ p) /\ ro st1 = false /\
  (EvWake a r ∈ evs st2 -> EvWake a r ∈ evs st1).
Proof.
  intros st1 st2. assert (ro st1 = false) as E.
  { unfold st1, onDownstreamAck. simpl. by rewrite Hdrained. }
  split_and!; [|done|by apply quiescent_never_wakes].
  assert (s_upstream (ss st1) = s_upstream (ss (onData os_error (uw st) p st))) as -> by (unfold st1, onDownstreamAck; simpl; by case_match).
  assert (upd (fun _ => ss st) st = st) as Eid by (by destruct st).
  unfold onData. rewrite onData_check_dedup, (rn_connected _ _ Hr), Eid by apply Hr. unfold dedup.
  destruct (Z.ltb_spec (uw st) (uw st)); [lia|]. destruct (Z.gtb_spec (uw st) (uw st)); [lia|].
  destruct (onData_write_running u st p Hr Hw) as [Hr' _]. eexists. split; [apply Hr'|done].
Qed.
End interleavings.

(** ** Witnesses *)

Definition demo_running : sst Conn :=
  MkSst (set_upstreamWritten 2 (set_connected true (set_upstream (Some (MkSock [x47; x45] None false false))
    (newSession 8 "ns/a" 1 "mcp:80")))) ∅ [].

Lemma demo_running_ok : running (MkSock [x47; x45] None false false) demo_running.
Proof. by split. Qed.

Definition demo_dialing : sst Conn :=
  MkSst (set_preConn [x47; x45] (newSession 8 "ns/a" 1 "mcp:80")) ∅ [].

Lemma onData_exactly_once_witness :
  exists u', s_upstream (ss (onData "reset" 1 [x45; x54] demo_running)) = Some u' /\
    sk_out u' = [x47; x45; x54] /\ s_upstreamWritten (ss (onData "reset" 1 [x45; x54] demo_running)) = 3.
Proof.
  apply (onData_exactly_once "reset" _ demo_running 1 [x45; x54] demo_running_ok); [lia|reflexivity].
Defined.

Lemma concurrent_replay_duplicates_witness :
  exists u', s_upstream (ss (onData_write "reset" [x54] (onData_write "reset" [x54] demo_running))) = Some u' /\
    sk_out u' = [x47; x45; x54; x54].
Proof.
  apply (concurrent_replay_duplicates "reset" _ demo_running [x54] demo_running_ok). reflexivity.
Defined.

Lemma dial_window_drops_next_frame_witness :
  onData "reset" 2 [x54] (fst (dial_connect new_sock demo_dialing)) = fst (dial_connect new_sock demo_dialing).
Proof.
  apply (dial_window_drops_next_frame "reset" new_sock demo_dialing [x54]);
    [reflexivity|discriminate|done|reflexivity].
Defined.

Lemma dial_window_duplicates_witness :
  exists u', s_upstream (ss (fst (dial_flush "reset" [x47; x45]
      (onData "reset" 0 [x47; x45; x54] (fst (dial_connect new_sock demo_dialing)))))) = Some u' /\
    sk_out u' = [x47; x45; x54; x47; x45].
Proof.
  apply (dial_window_duplicates "reset" new_sock demo_dialing [x54]);
    [reflexivity|done|reflexivity|discriminate|reflexivity].
Defined.

Lemma early_half_close_is_lost_witness :
  s_upClosed (ss (fst (dialUpstream "reset" (Ok new_sock) (onSidecarClose DirUp "eof" demo_dialing)))) = true.
Proof. apply (early_half_close_is_lost "reset" demo_dialing "eof"); reflexivity. Defined.

Definition demo_closed : sst Conn :=
  MkSst (set_upClosed true (set_downClosed true (set_downBuf (MkReplayBuffer 0 [x61] 8)
    (newSession 8 "ns/a" 1 "mcp:80")))) ∅ [].

Lemma drained_session_is_not_destroyed_witness :
  Len (s_downBuf (ss (onDownstreamAck 1 demo_closed))) = 0 /\ s_dead (ss (onDownstreamAck 1 demo_closed)) = false.
Proof.
  pose proof (drained_session_is_not_destroyed demo_closed 1 [x61] 0 eq_refl eq_refl eq_refl) as P.
  destruct P as (? & _ & _ & ? & _); [by split|done|done].
Defined.

(** The second request reaches a session whose first response is still to be
    acknowledged; then the ACK, the suspend, the response and the watchdog. *)
Definition demo_answered : sst Conn :=
  MkSst (set_requestOutstanding true (set_downBuf (MkReplayBuffer 0 [x61] 8) (ss demo_running))) ∅ [].

Lemma late_ack_forgets_request_witness :
  let st := foldl (fun st op => sexec "reset" op st) (onDownstreamAck 1 (onData "reset" 2 [x54] demo_answered))
              [ODetach 0; ORead [x62] None; OWatchdog] in
  s_upstreamWritten (ss st) = 3 /\ Len (s_downBuf (ss st)) = 1 /\ s_tconn (ss st) = None /\
  forall a r, EvWake a r ∉ evs st.
Proof.
  split_and!; [reflexivity..|]. intros a r Hw.
  apply (late_ack_forgets_request "reset" (MkSock [x47; x45] None false false) demo_answered [x54] 1
    [ODetach 0; ORead [x62] None; OWatchdog] a r) in Hw; [by apply elem_of_nil in Hw|by split|reflexivity|reflexivity|repeat constructor].
Defined.
