(* ===== verification/Tasks.v ===== *)
(** * Tasks: code that can be interrupted between its critical sections

    A goroutine that takes a mutex several times is a sequence of atomic
    actions: between two of them any other goroutine may run.  [task] is that
    sequence as a resumption monad over the shared state; [run] executes it with
    nobody in between, which is how the sequential definitions of the session
    methods read.  [safe] is what makes a task's steps preserve an invariant when
    other tasks run in between: a world describes what everybody may rely on, the
    others move it along [rely] and this task moves it along [guar]. *)
From S2P Require Import Prelude.

(** [Act f k]: one atomic action takes the state [s] to [f s], and what is left
    to do afterwards depends on what it saw, [k s]. *)
Inductive task (S A : Type) : Type :=
| Ret (a : A)
| Act (f : S -> S) (k : S -> task S A).
Arguments Ret {S A} _.
Arguments Act {S A} _ _.

Section monad.
Context {S : Type}.

#[export] Instance task_ret : MRet (task S) := fun A a => Ret a.

#[export] Instance task_bind : MBind (task S) := fun A B g =>
  fix go t := match t with Ret a => g a | Act f k => Act f (fun s => go (k s)) end.

(** One critical section, or one blocking call. *)
Definition atomic {A} (f : S -> S * A) : task S A := Act (fun s => fst (f s)) (fun s => Ret (snd (f s))).
Definition observe {A} (f : S -> A) : task S A := atomic (fun s => (s, f s)).
Definition modify (f : S -> S) : task S unit := atomic (fun s => (f s, ())).

(** Without interruption. *)
Fixpoint run {A} (t : task S A) (s : S) : S * A :=
  match t with Ret a => (s, a) | Act f k => run (k s) (f s) end.

Lemma run_ret {A} (a : A) s : run (mret a) s = (s, a).
Proof. done. Qed.

Lemma run_bind {A B} (t : task S A) (g : A -> task S B) s :
  run (t ≫= g) s = run (g (snd (run t s))) (fst (run t s)).
Proof. revert s. induction t as [a|f k IH]; intros s; [done|apply IH]. Qed.

Lemma run_atomic {A} (f : S -> S * A) s : run (atomic f) s = f s.
Proof. cbn. by destruct (f s). Qed.

Lemma run_if {A} (b : bool) (t u : task S A) s : run (if b then t else u) s = if b then run t s else run u s.
Proof. by destruct b. Qed.
End monad.
Create Rewrite HintDb run.
#[export] Hint Rewrite @run_ret @run_bind @run_atomic @run_if : run.

(** ** Tasks among other tasks *)

Section safe.
Context {S W : Type}.
(** What holds of the state in a world, how others and how this task move it. *)
Context (inv : W -> S -> Prop) (rely guar : W -> W -> Prop).

Fixpoint safe {A} (Q : W -> A -> Prop) (w : W) (t : task S A) : Prop :=
  match t with
  | Ret a => Q w a
  | Act f k => forall w1 s, rely w w1 -> inv w1 s ->
      exists w2, guar w1 w2 /\ inv w2 (f s) /\ safe Q w2 (k s)
  end.

Lemma safe_weaken {A} (Q Q' : W -> A -> Prop) w t :
  (forall w a, Q w a -> Q' w a) -> safe Q w t -> safe Q' w t.
Proof.
  intros HQ. revert w. induction t as [a|f k IH]; intros w; [apply HQ|].
  intros Hs w1 s Hr Hi. destruct (Hs w1 s Hr Hi) as (w2 & Hg & Hi2 & Hk). eauto.
Qed.

Lemma safe_bind {A B} (Q : W -> A -> Prop) (R : W -> B -> Prop) w (t : task S A) (g : A -> task S B) :
  safe Q w t -> (forall w a, Q w a -> safe R w (g a)) -> safe R w (t ≫= g).
Proof.
  intros Ht Hg. revert w Ht. induction t as [a|f k IH]; intros w Ht; [by apply Hg|].
  intros w1 s Hr Hi. destruct (Ht w1 s Hr Hi) as (w2 & Hgu & Hi2 & Hk). eauto.
Qed.

Lemma safe_ret {A} (Q : W -> A -> Prop) w a : Q w a -> safe Q w (mret a).
Proof. done. Qed.

(** A task that others have overtaken is still safe, if they kept what it waits
    to find. *)
Lemma safe_rely {A} (Q : W -> A -> Prop) w w' t :
  Transitive rely -> (forall a w w', rely w w' -> Q w a -> Q w' a) -> rely w w' -> safe Q w t -> safe Q w' t.
Proof.
  intros Ht HQ Hr. destruct t as [a|f k]; [by apply HQ|]. intros Hs w1 s Hr1. apply Hs. by etrans.
Qed.

Lemma safe_atomic {A} (Q : W -> A -> Prop) w (f : S -> S * A) :
  (forall w1 s s' a, rely w w1 -> inv w1 s -> f s = (s', a) -> exists w2, guar w1 w2 /\ inv w2 s' /\ Q w2 a) ->
  safe Q w (atomic f).
Proof. intros Hf w1 s Hr Hi. cbn. destruct (f s) as [s' a] eqn:E. by eapply Hf. Qed.
End safe.

(** A task can be used where others do less and it may do more; what both keep
    stays true. *)
Lemma safe_keep {S W A} (inv : W -> S -> Prop) (rely guar rely' guar' : W -> W -> Prop) (P : W -> Prop)
    (Q : W -> A -> Prop) w (t : task S A) :
  (forall w w', rely' w w' -> rely w w') -> (forall w w', guar w w' -> guar' w w') ->
  (forall w w', rely' w w' -> P w -> P w') -> (forall w w', guar w w' -> P w -> P w') ->
  safe inv rely guar Q w t -> P w -> safe inv rely' guar' (fun w a => Q w a /\ P w) w t.
Proof.
  intros Hr Hg HPr HPg. revert w. induction t as [a|f k IH]; intros w Ht HP; [done|].
  intros w1 s Hr1 Hi. destruct (Ht w1 s (Hr _ _ Hr1) Hi) as (w2 & Hg2 & Hi2 & Hk).
  exists w2. split_and!; [by apply Hg|done|]. apply IH; [done|]. by eapply HPg, HPr.
Qed.
