(* ===== verification/BrokerTasks.v ===== *)
(** * BrokerTasks: the broker session's methods, critical section by critical section

    The same methods of [internal/broker/session.go] as in [BrokerSession], as
    tasks: every region between [Lock] and [Unlock], every tunnel or upstream
    write and every call into the broker is one atomic action, and other
    goroutines may run between two of them.  [run] of a task is the sequential
    method ([run_onData] and the like).  The reader's [produceDownstream] holds
    the mutex until it returns or waits, so it stays one action. *)
From S2P Require Import Prelude ReplayBuffer Socket Wire BrokerSession Tasks.

Section tasks.
Context {C : Type} `{FrameWriter C} (os_error : string).
Abbreviation proc A := (task (sst C) A).

(** [b.wake] and [b.removeSession], outside the session's mutex. *)
Definition wakeT (reason : string) : proc unit := modify (wake reason).

Definition bindT (tc : nat) : proc unit := modify (bind tc).

Definition detachT (tc : nat) : proc unit :=
  w ← atomic (fun st =>
    if decide (s_tconn (ss st) = Some tc) then
      let st := upd (set_tconn None) st in
      (st, s_requestOutstanding (ss st) && ((Len (s_downBuf (ss st)) >? 0) || s_downClosed (ss st)))
    else (st, false));
  if w : bool then wakeT "undelivered data on detach" else mret ().

Definition sendT (f : Frame) : proc unit :=
  bound ← observe (fun st => s_tconn (ss st));
  match bound with
  | None => mret ()
  | Some tc => ok ← atomic (tc_write tc f); if ok : bool then mret () else detachT tc
  end.

Definition destroyT : proc unit :=
  r ← atomic (fun st =>
    let s := ss st in
    if s_dead s then (st, None)
    else (upd (fun s => set_watchdog (option_map (fun _ => false) (s_watchdog s))
                          (set_upstream (option_map sock_close (s_upstream s)) (set_dead true s))) st,
          Some (s_actorID s, s_sessionID s)));
  match r with None => mret () | Some (a, i) => modify (emit (EvRemove a i)) end.

Definition maybeDestroyT : proc unit :=
  done ← observe (fun st => s_upClosed (ss st) && s_downClosed (ss st) && (Len (s_downBuf (ss st)) =? 0));
  if done : bool then destroyT else mret ().

Definition closeUpstreamT (cause : option string) : proc unit :=
  r ← atomic (fun st =>
    if s_downClosed (ss st) then (st, None)
    else (upd (set_downClosed true) st,
          Some (s_requestOutstanding (ss st), bool_decide (s_tconn (ss st) <> None), s_sessionID (ss st))));
  match r with
  | None => mret ()
  | Some (pending, bound, sid) =>
      _ ← (if bound : bool then sendT (CloseF sid DirDown (default "upstream EOF" cause))
           else if pending : bool then wakeT "upstream close on pending session" else mret ());
      maybeDestroyT
  end.

(** The commit after an upstream write: the offset to acknowledge. *)
Definition commitT (arm : bool) (n : Z) : proc unit :=
  r ← atomic (fun st =>
    let st := if arm then upd armWatchdogLocked st else st in
    let st := upd (fun s => set_requestOutstanding true
                             (set_upstreamWritten (u64 (s_upstreamWritten s + n)) s)) st in
    (st, (s_sessionID (ss st), s_upstreamWritten (ss st))));
  let '(sid, written) := r in sendT (AckF sid written).

(** [dialUpstream] once the dial has returned; the result is whether the reader
    is started. *)
Definition dialT (dialed : res string sock) : proc bool :=
  match dialed with
  | Err e =>
      sid ← observe (fun st => s_sessionID (ss st));
      _ ← sendT (CloseF sid DirDown ("dial failed: " +:+ e));
      _ ← destroyT; mret false
  | Ok conn =>
      pre ← atomic (dial_connect conn);
      match pre with
      | None => mret false
      | Some pre =>
          if len pre >? 0 then
            ok ← atomic (up_write pre);
            if ok : bool then _ ← commitT false (len pre); mret true
            else _ ← closeUpstreamT (Some os_error); mret false
          else mret true
      end
  end.

Definition onDataT (offset : Z) (payload : list byte) : proc unit :=
  w ← atomic (fun st => let '(s, w) := onData_check offset payload (ss st) in (upd (fun _ => s) st, w));
  match w with
  | None => mret ()
  | Some p =>
      ok ← atomic (up_write p);
      if ok : bool then commitT true (len p) else closeUpstreamT (Some os_error)
  end.

Definition onDownstreamAckT (offset : Z) : proc unit := modify (onDownstreamAck offset).

(** [onSidecarAttach] copies what it will send under the mutex. *)
Definition attachT (delivered : Z) : proc unit :=
  r ← observe (fun st =>
    let s := ss st in
    let replay := match From (s_downBuf s) delivered with Ok p => p | Err _ => [] end in
    (s_sessionID s, s_upstreamWritten s, replay,
     s_downClosed s && (End_ (s_downBuf s) =? u64 (delivered + len replay))));
  let '(sid, written, replay, downClosed) := r in
  _ ← sendT (AttachOKF sid written);
  _ ← (if len replay >? 0 then sendT (DataF sid delivered replay) else mret ());
  if downClosed : bool then sendT (CloseF sid DirDown "upstream EOF") else mret ().

(** [onSidecarClose]: the half-close happens outside the mutex, on the
    connection that was there, if any. *)
Definition sidecarCloseT (dir : Z) (reason : string) : proc unit :=
  if negb (dir =? DirUp) then mret ()
  else
    up ← atomic (fun st => (upd (set_upClosed true) st, bool_decide (s_upstream (ss st) <> None)));
    _ ← (if up : bool then modify (upd (fun s => set_upstream (option_map sock_close_write (s_upstream s)) s)) else mret ());
    maybeDestroyT.

(** The watchdog's callback. *)
Definition watchdogT : proc unit :=
  fire ← atomic (fun st =>
    let st := upd (set_watchdog (Some false)) st in
    (st, negb (s_dead (ss st)) && s_requestOutstanding (ss st) && bool_decide (s_tconn (ss st) = None)));
  if fire : bool then wakeT "max-suspend watchdog" else mret ().

(** What the reader does after [produceDownstream] has returned. *)
Definition read_endT (r : produce_result) (err : option (option string)) : proc unit :=
  match r with
  | PDone => match err with Some cause => closeUpstreamT cause | None => mret () end
  | PBlocked _ => mret ()
  | _ => destroyT
  end.

(** ** Run without interruption, the tasks are the methods *)

Lemma run_detach tc st : run (detachT tc) st = (detach tc st, ()).
Proof. unfold detachT, detach. autorewrite with run. destruct (decide _); cbn; [by destruct (_ && _)|done]. Qed.

Lemma run_send f st : run (sendT f) st = (sendToSidecar f st, ()).
Proof.
  unfold sendT, sendToSidecar, observe. autorewrite with run. cbn [fst snd]. destruct (s_tconn (ss st)); [|done].
  autorewrite with run. destruct (tc_write _ _ _) as [st1 ok]. cbn [fst snd]. destruct ok; [done|apply run_detach].
Qed.

Lemma run_destroy st : run destroyT st = (destroy st, ()).
Proof. unfold destroyT, destroy. autorewrite with run. by destruct (s_dead (ss st)). Qed.

Lemma run_maybeDestroy st : run maybeDestroyT st = (maybeDestroy st, ()).
Proof.
  unfold maybeDestroyT, maybeDestroy, observe. autorewrite with run. cbn [fst snd].
  destruct (_ && _ && _); [apply run_destroy|done].
Qed.
Hint Rewrite run_detach run_send run_destroy run_maybeDestroy : run.

Lemma run_closeUpstream cause st : run (closeUpstreamT cause) st = (closeUpstream cause st, ()).
Proof.
  unfold closeUpstreamT, closeUpstream. autorewrite with run. destruct (s_downClosed (ss st)); [done|]. cbn [fst snd].
  autorewrite with run. destruct (bool_decide _); autorewrite with run; cbn [fst snd]; [done|].
  destruct (s_requestOutstanding (ss st)) eqn:E; autorewrite with run; cbn [fst snd]; unfold upd; simpl; by rewrite E.
Qed.

Lemma run_commit (arm : bool) n st :
  run (commitT arm n) st = (commit_upstream n (if arm then upd armWatchdogLocked st else st), ()).
Proof. unfold commitT, commit_upstream. autorewrite with run. cbn [fst snd]. by autorewrite with run. Qed.
Hint Rewrite run_closeUpstream run_commit : run.

Lemma run_dial r st : run (dialT r) st = dialUpstream os_error r st.
Proof.
  unfold dialT, dialUpstream, dial_flush, observe. destruct r as [conn|e]; autorewrite with run; cbn [fst snd].
  - destruct (dial_connect conn st) as [st1 [pre|]]; [|done]. cbn [fst snd]. autorewrite with run.
    destruct (_ >? 0); [|done]. destruct (up_write pre st1) as [st2 ok]. cbn [fst snd]. autorewrite with run.
    by destruct ok; autorewrite with run.
  - by autorewrite with run.
Qed.

Lemma run_onData o p st : run (onDataT o p) st = (onData os_error o p st, ()).
Proof.
  unfold onDataT, onData, onData_write. autorewrite with run. destruct (onData_check o p (ss st)) as [s [q|]]; [|done].
  cbn [fst snd]. autorewrite with run. destruct (up_write q _) as [st1 ok]. cbn [fst snd]. destruct ok; by autorewrite with run.
Qed.

Lemma run_attach o st : run (attachT o) st = (onSidecarAttach o st, ()).
Proof.
  unfold attachT, onSidecarAttach, observe. autorewrite with run. cbn [fst snd].
  repeat (autorewrite with run; cbn [fst snd]; destruct (_ >? 0)); autorewrite with run; cbn [fst snd]; by destruct (_ && _); autorewrite with run.
Qed.

Lemma run_sidecarClose d r st : run (sidecarCloseT d r) st = (onSidecarClose d r st, ()).
Proof.
  unfold sidecarCloseT, onSidecarClose. destruct (negb _); [done|]. autorewrite with run. cbn [fst snd].
  destruct st as [[] n e]. unfold upd. simpl. destruct s_upstream as [u|]; cbn; by autorewrite with run.
Qed.

Lemma run_watchdog st : run watchdogT st = (watchdog_fire st, ()).
Proof. unfold watchdogT, watchdog_fire. autorewrite with run. cbn [fst snd]. by destruct (_ && _ && _). Qed.

(** The reader's turn is [produceDownstream] followed by [read_endT]. *)
Lemma run_read p err st :
  let '(st1, r) := match p with [] => (st, PDone) | _ => produceDownstream p st end in
  fst (readUpstream p err st) = fst (run (read_endT r err) st1).
Proof.
  unfold readUpstream. destruct (match p with [] => _ | _ => _ end) as [st1 r].
  destruct r; cbn [read_endT]; autorewrite with run; try done. destruct err; by autorewrite with run.
Qed.
End tasks.
