(* ===== verification/SidecarTasks.v ===== *)
(** * SidecarTasks: the sidecar session's methods, critical section by critical section

    The methods of [internal/sidecar/session.go] and what [connectOnce] does for
    a session, as tasks in the sense of [Tasks]: every region under the session's
    or the client's mutex, every write to a tunnel or to the agent is one atomic
    action.  Run without interruption they are the methods of [Sidecar]. *)
From S2P Require Import Prelude ReplayBuffer Socket Wire Sidecar Tasks.

Section tasks.
Context {C : Type} `{FrameWriter C}.
Abbreviation proc A := (task (cst C) A).

(** [tc.WriteFrame], with the error ignored. *)
Definition put (tc : nat) (f : Frame) (c : cst C) : cst C :=
  match cnet c !! tc with
  | None => c
  | Some x => MkCst (cs c) (cconn c) (<[tc := fst (fw_write f x)]> (cnet c)) (cremoved c)
  end.

(** [Client.send]. *)
Definition csendT (f : Frame) : proc unit :=
  bound ← observe cconn;
  match bound with None => mret () | Some tc => modify (put tc f) end.

(** What one turn of [writeUp]'s loop found and did under the mutex. *)
Inductive write_turn : Type :=
| TDead
| TFull
| TErr (e : rb_error)
| TSend (f : Frame) (rest : list byte).

Definition write_section (p : list byte) (st : cst C) : cst C * write_turn :=
  if cs_dead (cs st) then (st, TDead)
  else
    let free := Free (cs_upBuf (cs st)) in
    if free =? 0 then (st, TFull)
    else
      let take := if len p >? free then free else len p in
      let chunk := ztake take p in
      match Append (cs_upBuf (cs st)) chunk with
      | Err e => (st, TErr e)
      | Ok b => (cupd (set_cs_upBuf b) st,
                 TSend (DataF (cs_sessionID (cs st)) (End_ (cs_upBuf (cs st))) chunk) (zdrop take p))
      end.

(** [writeUp]: the frame is sent between two critical sections. *)
Fixpoint writeT (fuel : nat) (p : list byte) : proc write_result :=
  match p, fuel with
  | [], _ => mret WDone
  | _, O => mret WFuel
  | _, S fuel =>
      r ← atomic (write_section p);
      match r with
      | TDead => mret WClosed
      | TFull => mret (WBlocked p)
      | TErr e => mret (WErr e)
      | TSend f rest => _ ← csendT f; writeT fuel rest
      end
  end.

Definition onUpstreamAckT (offset : Z) : proc unit := modify (onUpstreamAck offset).

Definition closeAllT : proc unit :=
  r ← atomic (fun st => if cs_dead (cs st) then (st, None)
                        else (cupd (set_cs_dead true) st, Some (cs_sessionID (cs st))));
  match r with
  | None => mret ()
  | Some id =>
      _ ← modify (cupd (fun s => set_cs_agent (sock_close (cs_agent s)) s));
      modify (fun st => MkCst (cs st) (cconn st) (cnet st) (cremoved st ++ [id]))
  end.

Definition deliverT (offset : Z) (payload : list byte) : proc unit :=
  w ← observe (fun st => deliver_check offset payload (cs st));
  match w with
  | None => mret ()
  | Some p =>
      ok ← atomic (fun st => let '(a, ok) := sock_write p (cs_agent (cs st)) in (cupd (set_cs_agent a) st, ok));
      if ok : bool then
        r ← atomic (fun st =>
          let st := cupd (fun s => set_cs_downDelivered (u64 (cs_downDelivered s + len p)) s) st in
          (st, (cs_sessionID (cs st), cs_downDelivered (cs st))));
        let '(sid, delivered) := r in csendT (AckF sid delivered)
      else closeAllT
  end.

Definition onAttachOKT (offset : Z) : proc unit :=
  r ← atomic (fun st =>
    let st := cupd (fun s => set_cs_upBuf (TrimTo (cs_upBuf s) offset) s) st in
    (st, (cs_sessionID (cs st), From (cs_upBuf (cs st)) offset)));
  match r with
  | (_, Err _) => mret ()
  | (sid, Ok replay) => if len replay >? 0 then csendT (DataF sid offset replay) else mret ()
  end.

Definition onCloseT (dir : Z) : proc unit :=
  if dir =? DirDown then
    can ← atomic (fun st => (cupd (set_cs_downClosed true) st, cs_canCloseWrite (cs st)));
    if can : bool then modify (cupd (fun s => set_cs_agent (sock_close_write (cs_agent s)) s)) else closeAllT
  else mret ().

Definition closeUpT (reason : string) : proc unit :=
  r ← atomic (fun st => if cs_upClosed (cs st) then (st, None)
                        else (cupd (set_cs_upClosed true) st, Some (cs_sessionID (cs st))));
  match r with None => mret () | Some sid => csendT (CloseF sid DirUp reason) end.

Definition dispatchT (f : Frame) : proc unit :=
  if fType f =? TypeAttachOK then onAttachOKT (fOffset f)
  else if fType f =? TypeData then deliverT (fOffset f) (fPayload f)
  else if fType f =? TypeAck then onUpstreamAckT (fOffset f)
  else if fType f =? TypeClose then onCloseT (fDir f)
  else mret ().

(** [connectOnce] for this session: HELLO on the fresh connection, publish the
    connection, then ATTACH with the offset delivered by then. *)
Definition connectT (actorID : string) (tc : nat) (c : C) : proc bool :=
  ok ← atomic (fun st => let '(c', ok) := fw_write (HelloF actorID) c in
                         (MkCst (cs st) (cconn st) (<[tc := c']> (cnet st)) (cremoved st), ok));
  if ok : bool then
    _ ← modify (fun st => MkCst (cs st) (Some tc) (cnet st) (cremoved st));
    f ← observe (fun st => attachFrame (cs st));
    _ ← modify (put tc f); mret true
  else mret false.

(** ** Run without interruption, the tasks are the methods *)

Lemma run_csend f st : run (csendT f) st = (csend f st, ()).
Proof.
  unfold csendT, csend, put, observe. autorewrite with run. cbn [fst snd].
  destruct (cconn st) as [tc|] eqn:E; [|done]. cbn. by rewrite E.
Qed.
Hint Rewrite run_csend : run.

Lemma run_write fuel p st : run (writeT fuel p) st = write_loop fuel p st.
Proof.
  revert p st. induction fuel as [|fuel IH]; intros p st; destruct p as [|b p]; try done.
  cbn [writeT write_loop]. autorewrite with run. unfold write_section.
  destruct (cs_dead (cs st)); [done|]. destruct (_ =? 0); [done|].
  destruct (Append _ _); cbn [fst snd]; [|done]. autorewrite with run. cbn [fst snd]. apply IH.
Qed.

Lemma run_closeAll st : run closeAllT st = (closeAll st, ()).
Proof. unfold closeAllT, closeAll. autorewrite with run. by destruct (cs_dead (cs st)). Qed.
Hint Rewrite run_closeAll : run.

Lemma run_deliver o p st : run (deliverT o p) st = (deliverDown o p st, ()).
Proof.
  unfold deliverT, deliverDown, deliver_write, observe. autorewrite with run. cbn [fst snd].
  destruct (deliver_check o p (cs st)) as [q|]; [|done]. autorewrite with run.
  destruct (sock_write q _) as [a ok]. cbn [fst snd]. destruct ok; autorewrite with run; [|done].
  cbn [fst snd]. by autorewrite with run.
Qed.

Lemma run_attachOK o st : run (onAttachOKT o) st = (onAttachOK o st, ()).
Proof.
  unfold onAttachOKT, onAttachOK. autorewrite with run. cbn [fst snd]. destruct (From _ o); [|done].
  autorewrite with run. by destruct (_ >? 0).
Qed.

Lemma run_onClose d r st : run (onCloseT d) st = (onClose d r st, ()).
Proof.
  unfold onCloseT, onClose. destruct (_ =? _); [|done]. autorewrite with run. cbn [fst snd]. simpl.
  destruct (cs_canCloseWrite (cs st)); [done|by autorewrite with run].
Qed.

Lemma run_closeUp r st : run (closeUpT r) st = (closeUp r st, ()).
Proof. unfold closeUpT, closeUp. autorewrite with run. destruct (cs_upClosed (cs st)); [done|]. cbn [fst snd]. by autorewrite with run. Qed.
Hint Rewrite run_deliver run_attachOK run_closeUp : run.

Lemma run_dispatch f st : run (dispatchT f) st = (session_dispatch f st, ()).
Proof. unfold dispatchT, session_dispatch. autorewrite with run. repeat case_match; try done. apply run_onClose. Qed.

Lemma run_connect a tc c st : run (connectT a tc c) st = session_connect a tc c st.
Proof.
  unfold connectT, session_connect, observe, modify. autorewrite with run. destruct (fw_write _ c) as [c' ok]. cbn [fst snd].
  destruct ok; [|done]. by autorewrite with run.
Qed.
End tasks.
