(* ===== verification/ConcInv.v ===== *)
(** * ConcInv: the stream invariants while other goroutines are in between

    [BrokerStream.binv] and [SidecarStream.cinv] hold between method calls.  In
    the middle of one the upstream (or agent) connection may already have bytes
    that are not counted yet, and frames may be about to be sent.  A [world] says
    how far everything has got; [bW] and [cW] are the invariants relative to it.
    Every task of [BrokerTasks] and [SidecarTasks] is [safe] for them.  Tasks
    that write upstream (DATA handlers and the dial) rely on nobody else doing
    so meanwhile; the sidecar's read loop is the only one to write to the agent,
    and one pump per session feeds the replay buffer. *)
From S2P Require Import Prelude ReplayBuffer Socket Wire Link BrokerSession Sidecar BrokerStream SidecarStream.
From S2P Require Import System Tasks BrokerTasks SidecarTasks.

#[local] Existing Instance all_owned.

(** [hP]: what the pump has taken from the agent and not yet appended; [h_w] and
    [h_e]: how many bytes have been handed to the destination and the agent,
    counted or not; [h_up]: whether the dial has installed a connection. *)
Record world : Type := MkWorld {
  hA : list byte; hD : list byte; hP : list byte;
  h_uw : Z; h_dl : Z; h_w : Z; h_e : Z; h_up : bool;
}.

(** Everybody only moves the world forward. *)
Record wle (w w' : world) : Prop := {
  le_A : hA w `prefix_of` hA w';
  le_D : hD w `prefix_of` hD w';
  le_uw : h_uw w <= h_uw w';
  le_dl : h_dl w <= h_dl w';
}.

#[export] Instance wle_preorder : PreOrder wle.
Proof. split; [done|]. intros w1 w2 w3 [] []. split; try (by etrans); lia. Qed.

(** What the tasks that write upstream, deliver to the agent, and pump own. *)
Definition rely_up (w w' : world) : Prop := wle w w' /\ h_uw w' = h_uw w /\ h_w w' = h_w w /\ h_up w' = h_up w.
Definition rely_down (w w' : world) : Prop := wle w w' /\ h_dl w' = h_dl w /\ h_e w' = h_e w.
Definition rely_pump (w w' : world) : Prop := wle w w' /\ hA w' = hA w /\ hP w' = hP w.

Definition set_up (uw hw : Z) (up : bool) (w : world) : world :=
  MkWorld (hA w) (hD w) (hP w) uw (h_dl w) hw (h_e w) up.
Definition set_down (dl he : Z) (w : world) : world :=
  MkWorld (hA w) (hD w) (hP w) (h_uw w) dl (h_w w) he (h_up w).
Definition set_pump (A P : list byte) (w : world) : world :=
  MkWorld A (hD w) P (h_uw w) (h_dl w) (h_w w) (h_e w) (h_up w).
Definition set_dest (D : list byte) (w : world) : world :=
  MkWorld (hA w) D (hP w) (h_uw w) (h_dl w) (h_w w) (h_e w) (h_up w).

(** Only once the dial has returned ([d]) may a connection be installed. *)
Definition guar_up (d : bool) (w w' : world) : Prop :=
  exists uw hw up, h_uw w <= uw /\ (d = false -> up = h_up w) /\ w' = set_up uw hw up w.
Definition guar_down (w w' : world) : Prop := exists dl he, h_dl w <= dl /\ w' = set_down dl he w.
Definition guar_pump (w w' : world) : Prop :=
  exists A P, hA w `prefix_of` A /\ A ++ P = hA w ++ hP w /\ w' = set_pump A P w.

#[export] Instance rely_up_preorder : PreOrder rely_up.
Proof. split; [by repeat split|]. intros w1 w2 w3 (? & ? & ? & ?) (? & ? & ? & ?). split_and!; [by etrans|congruence..]. Qed.
#[export] Instance rely_down_preorder : PreOrder rely_down.
Proof. split; [by repeat split|]. intros w1 w2 w3 (? & ? & ?) (? & ? & ?). split_and!; [by etrans|congruence..]. Qed.
#[export] Instance rely_pump_preorder : PreOrder rely_pump.
Proof. split; [by repeat split|]. intros w1 w2 w3 (? & ? & ?) (? & ? & ?). split_and!; [by etrans|congruence..]. Qed.

(** No bytes handed over but not counted. *)
Definition idle_up (w : world) : Prop := h_w w = h_uw w.
Definition idle_down (w : world) : Prop := h_e w = h_dl w.

(** ** The broker's side *)

Section broker.
Context {C : Type} `{FrameWriterLaws C}.
Context (sid : Z) (Hsid : is_u64 sid).
Context (os_error : string) (Hos : str_len os_error <= maxString).
Implicit Types (st : sst C) (w : world).

Abbreviation uw st := (s_upstreamWritten (ss st)).

(** The session as it would be with exactly the counted bytes handed over. *)
Definition counted (A : list byte) (s : session) : option sock :=
  option_map (fun _ => MkSock (ztake (s_upstreamWritten s) A) None false false) (s_upstream s).
Definition shadow (A : list byte) st : sst C := upd (fun s => set_upstream (counted A s) s) st.

Record bW w st : Prop := {
  bw_inv : binv sid (hA w) (hD w) (h_dl w) (shadow (hA w) st);
  bw_sink : forall u, s_upstream (ss st) = Some u -> sink_ok (hA w) (h_w w) u;
  bw_uw : uw st = h_uw w;
  bw_w : h_w w <= len (hA w);
  bw_up : h_up w = bool_decide (s_upstream (ss st) <> None);
  bw_none : h_up w = false -> h_w w = h_uw w;
}.

Abbreviation ordinary w t := (safe bW wle eq (fun _ _ => True) w t).

Lemma shadow_stream A st st' :
  same_stream (ss st) (ss st') -> same_stream (ss (shadow A st)) (ss (shadow A st')).
Proof.
  intros (E1 & E2 & E3 & E4 & E5 & E6). unfold shadow, counted. split_and!; try done. simpl. rewrite E4.
  destruct (s_upstream (ss st)), (s_upstream (ss st')); simpl in *; by simplify_eq.
Qed.

Lemma bW_same w st st' :
  same_stream (ss st) (ss st') -> onet_ok (good_down sid (hD w) (h_uw w)) (net st') -> bW w st -> bW w st'.
Proof.
  intros S Hn [I K U L P N]. pose proof S as (E1 & E2 & E3 & E4 & E5 & E6). split.
  - eapply binv_same; [done|by apply shadow_stream|simpl; by rewrite E4, U|exact I].
  - intros u' Hu'. rewrite Hu' in E6. destruct (s_upstream (ss st)) as [u|] eqn:Eu; [|done].
    simpl in E6. simplify_eq. eapply sink_ok_same; [..|by apply K]; congruence.
  - congruence.
  - done.
  - rewrite P. apply bool_decide_ext. by destruct (s_upstream (ss st)), (s_upstream (ss st')).
  - done.
Qed.

Lemma bW_net w st : bW w st -> onet_ok (good_down sid (hD w) (h_uw w)) (net st).
Proof. intros [I _ U _ _ _]. rewrite <- U. apply (bi_net _ _ _ _ _ I). Qed.

Lemma bW_upd w st f : same_stream (ss st) (f (ss st)) -> bW w st -> bW w (upd f st).
Proof. intros S B. eapply bW_same; [exact S|exact (bW_net _ _ B)|done]. Qed.

Lemma bW_emit w st e : bW w st -> bW w (emit e st).
Proof. intros B. eapply (bW_same w st); [done|exact (bW_net _ _ B)|done]. Qed.

Lemma bW_sid w st : bW w st -> s_sessionID (ss st) = sid.
Proof. intros [I _ _ _ _ _]. apply (bi_sid _ _ _ _ _ I). Qed.

Lemma bW_tc_write w st tc f st' ok :
  tc_write tc f st = (st', ok) -> good_down sid (hD w) (h_uw w) f -> bW w st -> bW w st'.
Proof.
  intros W Hf B. assert (onet_ok (good_down sid (hD w) (h_uw w)) (net st')) as Hn.
  { revert W. unfold tc_write. pose proof (bW_net _ _ B) as N. destruct (net st !! tc) as [c|] eqn:E.
    - destruct (fw_write f c) as [c' ok'] eqn:W. intros [= <- <-].
      eapply onet_ok_write; [exact N|exact E| |exact W]. intros _. split; [by eapply good_down_postable|done].
    - by intros [= <- <-]. }
  apply tc_write_ss in W as [E _]. eapply (bW_same w st); [rewrite E; apply same_refl|done|done].
Qed.

(** Somebody else has moved the world, without touching this state. *)
Lemma bW_env w w' st :
  bW w st -> wle w w' -> hD w' = hD w -> h_uw w' = h_uw w -> h_w w' = h_w w -> h_up w' = h_up w -> len (hA w') < 2 ^ 64 -> bW w' st.
Proof.
  intros [I K U L P N] [LA LD _ Ldl] ED Eu Ew Ep HA. destruct (binv_uw _ _ _ _ _ I) as [Hu _]. simpl in Hu.
  assert (shadow (hA w') st = shadow (hA w) st) as Es.
  { unfold shadow, counted, upd. do 2 f_equal. destruct (s_upstream (ss st)); [|done]. simpl. do 2 f_equal.
    destruct LA as [k ->]. rewrite ztake_app_le; [done|lia]. }
  split; [|..|congruence| |congruence|].
  - rewrite Es, ED. by eapply binv_mono.
  - intros u Hu'. rewrite Ew. eapply sink_ok_mono; [exact LA|done|by apply K].
  - rewrite Ew. apply prefix_length in LA. unfold len in *. lia.
  - rewrite Ew, Eu, Ep. done.
Qed.

(** *** Tasks that leave the world alone *)

Lemma ord_atomic {A} (Q : world -> A -> Prop) w (f : sst C -> sst C * A) :
  (forall w1 s s' a, wle w w1 -> bW w1 s -> f s = (s', a) -> bW w1 s' /\ Q w1 a) -> safe bW wle eq Q w (atomic f).
Proof.
  intros Hf. apply safe_atomic. intros w1 s s' a Hw Hi E. exists w1. destruct (Hf w1 s s' a Hw Hi E). done.
Qed.

Lemma ord_modify w (f : sst C -> sst C) : (forall w1 s, wle w w1 -> bW w1 s -> bW w1 (f s)) -> ordinary w (modify f).
Proof. intros Hf. apply ord_atomic. intros w1 s s' a Hw Hi [= <- <-]. split; [by apply Hf|done]. Qed.

Lemma ord_if {A} w (b : bool) (t u : task (sst C) A) : ordinary w t -> ordinary w u -> ordinary w (if b then t else u).
Proof. by destruct b. Qed.

Lemma good_later w w1 f :
  wle w w1 -> good_down sid (hD w) (h_uw w) f -> good_down sid (hD w1) (h_uw w1) f.
Proof. intros [_ LD Lu _]. by apply good_down_mono. Qed.

Lemma ord_wake w r : ordinary w (wakeT r).
Proof. apply ord_modify. intros. by apply bW_emit. Qed.

Lemma ord_detach w tc : ordinary w (detachT tc).
Proof.
  unfold detachT. eapply safe_bind; [|intros w' [] _; [apply ord_wake|done]].
  apply (ord_atomic (fun _ _ => True)). intros w1 s s' a Hw B. destruct (decide _); intros [= <- <-]; [|done].
  split; [|done]. by apply bW_upd.
Qed.

Lemma ord_send w f : good_down sid (hD w) (h_uw w) f -> ordinary w (sendT f).
Proof.
  intros Hf. unfold sendT.
  eapply safe_bind with (Q := fun w' _ => good_down sid (hD w') (h_uw w') f).
  - apply ord_atomic. intros w1 s s' a Hw B [= <- <-]. split; [done|by eapply good_later].
  - intros w' [tc|] Hf'; [|done]. eapply safe_bind; [|intros w2 [] _; [done|apply ord_detach]].
    apply (ord_atomic (fun _ _ => True)). intros w1 s s' a Hw B E. split; [|done].
    eapply bW_tc_write; [exact E|by eapply good_later|done].
Qed.

Lemma ord_destroy w : ordinary w destroyT.
Proof.
  unfold destroyT. eapply safe_bind; [|intros w' [[a i]|] _; [apply ord_modify; intros; by apply bW_emit|done]].
  apply (ord_atomic (fun _ _ => True)). intros w1 s s' a Hw B. destruct (s_dead (ss s)); intros [= <- <-]; [done|].
  split; [|done]. apply bW_upd; [|done]. unfold same_stream. simpl. split_and!; try done. by destruct (s_upstream (ss s)).
Qed.

Lemma ord_maybeDestroy w : ordinary w maybeDestroyT.
Proof.
  unfold maybeDestroyT. eapply safe_bind; [|intros w' [] _; [apply ord_destroy|done]].
  apply (ord_atomic (fun _ _ => True)). by intros w1 s s' a Hw B [= <- <-].
Qed.

Lemma ord_closeUpstream w cause :
  str_len (default "upstream EOF" cause) <= maxString -> ordinary w (closeUpstreamT cause).
Proof.
  intros Hc. unfold closeUpstreamT.
  eapply safe_bind with (Q := fun _ r => forall p b i, r = Some (p, b, i) -> i = sid).
  - apply ord_atomic. intros w1 s s' a Hw B. destruct (s_downClosed (ss s)); intros [= <- <-]; [done|].
    split; [by apply bW_upd|]. intros p b i [= _ _ <-]. by eapply bW_sid.
  - intros w' [[[p b] i]|] Hi; [|done]. rewrite (Hi p b i eq_refl).
    eapply safe_bind with (Q := fun _ _ => True); [|intros; apply ord_maybeDestroy].
    apply ord_if; [apply ord_send; by constructor|]. apply ord_if; [apply ord_wake|done].
Qed.

Lemma ord_bind w tc : ordinary w (bindT tc).
Proof. apply ord_modify. intros. by apply bW_upd. Qed.

Lemma ord_watchdog w : ordinary w watchdogT.
Proof.
  unfold watchdogT. eapply safe_bind; [|intros w' [] _; [apply ord_wake|done]].
  apply (ord_atomic (fun _ _ => True)). intros w1 s s' a Hw B [= <- <-]. split; [by apply bW_upd|done].
Qed.

Lemma ord_ack w o : o <= h_dl w -> ordinary w (onDownstreamAckT o).
Proof.
  intros Ho. apply ord_modify. intros w1 s [LA LD Lu Ld] [I K U L P N].
  assert (shadow (hA w1) (onDownstreamAck o s) = onDownstreamAck o (shadow (hA w1) s)) as Es.
  { unfold onDownstreamAck, shadow, counted, upd. simpl. f_equal. by destruct (_ =? 0). }
  split.
  - rewrite Es. apply binv_ack; [lia|done].
  - unfold onDownstreamAck. simpl. destruct (_ =? 0); apply K.
  - unfold onDownstreamAck. simpl. by destruct (_ =? 0).
  - done.
  - rewrite P. unfold onDownstreamAck. simpl. by destruct (_ =? 0).
  - done.
Qed.

(** What ATTACH is answered with is true when it is copied, and stays true. *)
Lemma ord_attach w o : is_u64 o -> ordinary w (attachT o).
Proof.
  intros Ho. unfold attachT.
  eapply safe_bind with (Q := fun w' r =>
    let '(i, written, replay, _) := r in i = sid /\
      good_down sid (hD w') (h_uw w') (AttachOKF sid written) /\
      (len replay > 0 -> good_down sid (hD w') (h_uw w') (DataF sid o replay))).
  - apply ord_atomic. intros w1 s s' a Hw B [= <- <-]. split; [done|].
    destruct B as [I K U L _ _]. destruct (binv_uw _ _ _ _ _ I) as [Hu Hu']. simpl in Hu, Hu'. rewrite U in *.
    split_and!; [apply (bi_sid _ _ _ _ _ I)|constructor; [lia|done]|].
    intros Hr. destruct (bi_down _ _ _ _ _ I) as (a & R & _). simpl in R.
    destruct (From _ o) as [q|] eqn:Ef; [|change (0 > 0) in Hr; lia].
    apply (rep_from_at_offset _ _ _ _ _ R) in Ef as [? ?]. by apply gd_data.
  - intros w' [[[i written] replay] dc] (-> & G1 & G2).
    eapply safe_bind with (Q := fun w' _ => len replay > 0 -> good_down sid (hD w') (h_uw w') (DataF sid o replay)).
    { eapply safe_weaken; [|apply (safe_keep bW wle eq wle eq
        (fun w' => len replay > 0 -> good_down sid (hD w') (h_uw w') (DataF sid o replay)) (fun _ _ => True));
        [done|done| | |by apply ord_send|exact G2]].
      - intros w1 a [_ HP]. exact HP.
      - intros w1 w2 Hw HP Hr. eapply good_later; [done|by apply HP].
      - by intros w1 w2 ->. }
    intros w2 _ G3. eapply safe_bind with (Q := fun _ _ => True).
    + destruct (Z.gtb_spec (len replay) 0); [apply ord_send, G3; lia|done].
    + intros w3 _ _. apply ord_if; [apply ord_send; by constructor|done].
Qed.

Lemma ord_sidecarClose w d r : ordinary w (sidecarCloseT d r).
Proof.
  unfold sidecarCloseT. destruct (negb _); [done|]. eapply safe_bind with (Q := fun _ _ => True).
  - apply ord_atomic. intros w1 s s' a Hw B [= <- <-]. split; [by apply bW_upd|done].
  - intros w1 b _. eapply safe_bind with (Q := fun _ _ => True); [|intros; apply ord_maybeDestroy].
    apply ord_if; [|done]. apply ord_modify. intros w2 s Hw B. apply bW_upd; [|done].
    unfold same_stream. simpl. split_and!; try done. by destruct (s_upstream (ss s)).
Qed.

Lemma ord_read_end w r err :
  (forall e, err = Some (Some e) -> str_len e <= maxString) -> ordinary w (read_endT r err).
Proof.
  intros He. unfold read_endT. destruct r; try apply ord_destroy; try done. destruct err as [cause|]; [|done].
  apply ord_closeUpstream. destruct cause; [by apply He|done].
Qed.

(** *** Tasks that write upstream *)

Abbreviation writer d v t := (safe bW rely_up (guar_up d) (fun x _ => idle_up x) v t).

Lemma guar_up_refl d w : guar_up d w w.
Proof. exists (h_uw w), (h_w w), (h_up w). split_and!; [lia|done|by destruct w]. Qed.

Lemma writer_ordinary {A} d w (t : task (sst C) A) : ordinary w t -> idle_up w -> writer d w t.
Proof.
  intros Ht Hw. eapply safe_weaken; [|apply (safe_keep bW wle eq rely_up (guar_up d) idle_up (fun _ _ => True));
    [| | | |exact Ht|exact Hw]].
  - by intros w' a [_ ?].
  - by intros w1 w2 [? _].
  - intros w1 w2 <-. apply guar_up_refl.
  - intros w1 w2 (_ & E1 & E2 & _). unfold idle_up. congruence.
  - by intros w1 w2 <-.
Qed.

Lemma counted_ne A s u u' : s_upstream s = Some u -> counted A (set_upstream (Some u') s) = counted A s.
Proof. intros E. unfold counted. simpl. by rewrite E. Qed.

(** The next bytes of the history are handed to the destination. *)
Lemma writer_write {X} d w q (g : bool -> task (sst C) X) :
  idle_up w -> at_offset (hA w) (h_uw w) q ->
  (forall w', at_offset (hA w') (h_uw w') q -> h_w w' = h_uw w' + len q -> writer d w' (g true)) ->
  (forall w', idle_up w' -> writer d w' (g false)) -> writer d w (atomic (up_write q) ≫= g).
Proof.
  intros Hi Hq Ht Hf.
  eapply safe_bind with (Q := fun w' (ok : bool) =>
    if ok then at_offset (hA w') (h_uw w') q /\ h_w w' = h_uw w' + len q else idle_up w').
  2: { intros w' [] HQ; [apply Ht; apply HQ|by apply Hf]. }
  apply safe_atomic. intros w1 s s' ok ([LA _ _ _] & E1 & E2 & E3) B. unfold up_write.
  assert (at_offset (hA w1) (h_uw w1) q) as Hq1 by (rewrite E1; by eapply at_offset_mono).
  pose proof (guar_up_refl d w1) as Hg.
  assert (idle_up w1) as Hi1 by (unfold idle_up in *; congruence).
  destruct (s_upstream (ss s)) as [u|] eqn:Eu; [|intros [= <- <-]; by exists w1].
  destruct (sock_write q u) as [u' ok'] eqn:W. intros [= <- <-]. destruct B as [I K U L P N].
  pose proof (sink_write _ _ _ _ _ _ (K u Eu) ltac:(by rewrite Hi1) W) as Hk.
  assert (shadow (hA w1) (upd (set_upstream (Some u')) s) = shadow (hA w1) s) as Es.
  { unfold shadow, upd. simpl. f_equal. by rewrite (counted_ne _ _ u u' Eu). }
  pose proof (at_offset_bound _ _ _ Hq1) as Hb. rewrite Eu in P. destruct ok'.
  - exists (set_up (h_uw w1) (h_w w1 + len q) (h_up w1) w1). split_and!; [by exists (h_uw w1), (h_w w1 + len q), (h_up w1)| |done|].
    + split; simpl; try done; [by rewrite Es|by intros ? [= <-]|rewrite Hi1; lia|by rewrite P].
    + simpl. by rewrite Hi1.
  - exists w1. split_and!; [done| |done]. split; try done; [by rewrite Es|by intros ? [= <-]].
Qed.

(** ... and then counted, which makes the acknowledgement true. *)
Lemma writer_commit d w arm q :
  at_offset (hA w) (h_uw w) q -> h_w w = h_uw w + len q -> writer d w (commitT arm (len q)).
Proof.
  intros Hq Hw. unfold commitT.
  eapply safe_bind with (Q := fun w' r => idle_up w' /\ let '(i, o) := r in good_down sid (hD w') (h_uw w') (AckF i o)).
  2: { intros w' [i o] [Hi Hg]. apply writer_ordinary; [by apply ord_send|done]. }
  apply safe_atomic. intros w1 s s' r ([LA _ _ _] & E1 & E2 & E3) B.
  assert (at_offset (hA w1) (h_uw w1) q) as Hq1 by (rewrite E1; by eapply at_offset_mono).
  assert (h_w w1 = h_uw w1 + len q) as Hw1 by congruence.
  pose proof (at_offset_bound _ _ _ Hq1) as Hb. pose proof (len_nonneg q) as Hl.
  assert (0 <= h_uw w1) as Hz by (by destruct Hq1 as [[? ?] _]).
  destruct B as [I K U L P N]. pose proof (bi_A _ _ _ _ _ I) as HA.
  set (s0 := if arm then upd armWatchdogLocked s else s).
  assert (same_stream (ss s) (ss s0) /\ net s0 = net s /\ s_upstream (ss s0) = s_upstream (ss s)) as (S0 & Sn & Su)
    by (by destruct arm).
  assert (uw s0 = h_uw w1) as U0 by (rewrite <- U; by destruct arm).
  clearbody s0. unfold upd. simpl. rewrite U0, u64_small by lia. intros [= <- <-].
  exists (set_up (h_uw w1 + len q) (h_w w1) (h_up w1) w1). split_and!.
  - exists (h_uw w1 + len q), (h_w w1), (h_up w1). split_and!; [lia|done|done].
  - split; simpl; rewrite ?Su; try done.
    assert (same_stream (ss (shadow (hA w1) s)) (ss (shadow (hA w1) s0))) as Sh by (by apply shadow_stream).
    destruct I as [Is Id Ip Ia Ico In]. destruct Sh as (T1 & T2 & T3 & T4 & T5 & T6). simpl in *.
    split; simpl; try done.
    + by rewrite T1.
    + by rewrite T2.
    + unfold counted in Ico. destruct (s_upstream (ss s)) as [u|]; simpl in Ico.
      * destruct Ico as (_ & Epre & _). rewrite T3, Epre. split; [lia|]. rewrite app_nil_r. apply ztake_prefix.
      * rewrite (N P) in Hw1. replace (h_uw w1 + len q) with (h_uw w1) by lia. rewrite T3, <- U. exact Ip.
    + unfold counted in *. simpl. rewrite Su. destruct (s_upstream (ss s)) as [u|]; simpl in *.
      * destruct Ico as (Ec & Epre & _). rewrite T5, T3. split_and!; [done|done|].
        exists []. split_and!; [by rewrite app_nil_r|apply ztake_prefix|by left].
      * rewrite T5. rewrite (N P) in Hw1. split; [apply Ico|]. destruct Ico. rewrite U in *. lia.
    + rewrite Sn. eapply onet_ok_impl; [|exact In]. intros g. apply good_down_mono; [done|lia].
  - unfold idle_up. simpl. lia.
  - simpl. destruct S0 as (-> & _). rewrite (bi_sid _ _ _ _ _ I : s_sessionID (ss s) = sid).
    constructor; [lia|unfold is_u64; lia].
Qed.

(** A truthful DATA frame. *)
Lemma writer_onData d w o p :
  idle_up w -> at_offset (hA w) o p -> writer d w (onDataT os_error o p).
Proof.
  intros Hi Hp. unfold onDataT.
  eapply safe_bind with (Q := fun w' r => idle_up w' /\ forall q, r = Some q -> at_offset (hA w') (h_uw w') q).
  2: { intros w' [q|] [Hi' Hq]; [|done]. apply writer_write; [done|by apply Hq| |].
       - intros w1 ? ?. by apply writer_commit.
       - intros w1 ?. by apply writer_ordinary; [apply ord_closeUpstream|]. }
  apply safe_atomic. intros w1 s s' r (Hle & E1 & E2 & E3) B.
  assert (at_offset (hA w1) o p) as Hp1 by (eapply at_offset_mono; [apply Hle|done]).
  assert (idle_up w1) as Hi1 by (unfold idle_up in *; congruence).
  pose proof (guar_up_refl d w1) as Hg.
  assert (upd (fun _ => ss s) s = s) as Eid by (by destruct s).
  destruct (s_dead (ss s)) eqn:Ed.
  { unfold onData_check. rewrite Ed, Eid. intros [= <- <-]. exists w1. by split_and!. }
  rewrite onData_check_dedup by done. destruct B as [I K U L P N].
  destruct (binv_uw _ _ _ _ _ I) as [Hu Hu']. simpl in Hu, Hu'. destruct (s_connected (ss s)) eqn:Ec.
  - rewrite Eid. intros [= <- <-]. exists w1. split_and!; [done|by split|done|].
    intros q Eq. pose proof (dedup_spec (hA w1) (uw s) o p Hp1 Hu') as Hd. rewrite Eq in Hd. rewrite <- U. apply Hd.
  - pose proof (bi_A _ _ _ _ _ I) as HA. pose proof (at_offset_bound _ _ _ (bi_pre _ _ _ _ _ I)) as Hpb.
    simpl in Hpb. pose proof (len_nonneg (s_preConn (ss s))).
    rewrite u64_small by lia. pose proof (dedup_spec (hA w1) (uw s + len (s_preConn (ss s))) o p Hp1 ltac:(lia)) as Hd.
    destruct (dedup _ o p) as [q|]; intros [= <- <-]; exists w1; [|rewrite Eid; by split_and!].
    split_and!; [done| |done|done]. split; try done.
    apply (binv_queue sid (hA w1) (hD w1) (h_dl w1) (shadow (hA w1) s) q I Ec). simpl. apply Hd.
Qed.

(** The dial's completion, while no connection is installed. *)
Lemma writer_dial w r :
  idle_up w -> h_up w = false ->
  (forall e, r = Err e -> str_len ("dial failed: " +:+ e) <= maxString) ->
  (forall c, r = Ok c -> exists cap, c = MkSock [] cap false false) -> writer true w (dialT os_error r).
Proof.
  intros Hi Hup He Hok. unfold dialT. destruct r as [c|e].
  - destruct (Hok c eq_refl) as [cap ->].
    eapply safe_bind with (Q := fun w' r => idle_up w' /\ forall q, r = Some q -> at_offset (hA w') (h_uw w') q).
    2: { intros w' [q|] [Hi' Hq]; [|done]. destruct (_ >? 0); [|done]. apply writer_write; [done|by apply Hq| |].
         - intros w1 ? ?. eapply safe_bind; [by apply writer_commit|]. by intros.
         - intros w1 ?. eapply safe_bind; [apply writer_ordinary; [by apply ord_closeUpstream|done]|]. by intros. }
    apply safe_atomic. intros w1 s s' r (Hle & E1 & E2 & E3) B.
    assert (idle_up w1) as Hi1 by (unfold idle_up in *; congruence).
    pose proof (guar_up_refl true w1) as Hg.
    unfold dial_connect. destruct (s_dead (ss s)); intros [= <- <-]; [exists w1; by split_and!|].
    destruct B as [I K U L P N]. rewrite E3, Hup in P. symmetry in P. apply bool_decide_eq_false in P.
    assert (s_upstream (ss s) = None) as Eu by (destruct (s_upstream (ss s)); [by destruct P|done]).
    destruct I as [Is Id Ip Ia Ico In]. unfold counted in Ico. simpl in Ico. unfold counted in Ico. rewrite Eu in Ico.
    simpl in Ico. destruct Ico as [Ecn E0]. rewrite U in E0.
    exists (set_up (h_uw w1) (h_w w1) true w1). split_and!.
    + exists (h_uw w1), (h_w w1), true. split_and!; [lia|done|done].
    + split; simpl; try done; [|intros u [= <-]; rewrite Hi1, E0; apply sink_ok_new].
      split; simpl; try done.
      * split; [apply Ip|]. rewrite app_nil_r. apply ztake_prefix.
      * split_and!; [done|done|]. exists []. split_and!; [by rewrite app_nil_r|apply ztake_prefix|by left].
    + done.
    + intros q [= <-]. simpl in *. by rewrite <- U.
  - eapply safe_bind with (Q := fun w' i => idle_up w' /\ i = sid).
    { apply safe_atomic. intros w1 s s' r (Hle & E1 & E2 & E3) B [= <- <-]. exists w1.
      split_and!; [apply guar_up_refl|done|unfold idle_up in *; congruence|by eapply bW_sid]. }
    intros w1 i [Hi1 ->]. eapply safe_bind; [apply writer_ordinary; [apply ord_send; constructor; [done|by apply He]|done]|].
    intros w2 [] Hi2. eapply safe_bind; [apply writer_ordinary; [apply ord_destroy|done]|]. by intros.
Qed.

(** *** The reader *)

(** [produceDownstream] does not look at the upstream connection. *)
Lemma produce_upstream fuel p v st :
  produce_loop fuel p (upd (set_upstream v) st) =
  (upd (set_upstream v) (fst (produce_loop fuel p st)), snd (produce_loop fuel p st)) /\
  s_upstream (ss (fst (produce_loop fuel p st))) = s_upstream (ss st).
Proof.
  revert p st. induction fuel as [|fuel IH]; intros p st; destruct p as [|b p]; try done.
  cbn [produce_loop upd ss]. cbn [set_upstream s_dead s_downBuf].
  destruct (s_dead (ss st)); [done|]. destruct (_ =? 0); [done|]. destruct (Append _ _) as [d|]; [|done].
  set (q := ztake _ _). set (o := End_ _).
  assert (forall st0, try_forward o q (upd (set_upstream v) st0) = upd (set_upstream v) (try_forward o q st0) /\
    s_upstream (ss (try_forward o q st0)) = s_upstream (ss st0)) as Hf.
  { intros st0. unfold try_forward, tc_write. simpl. destruct (s_tconn (ss st0)) as [tc|]; [|done].
    destruct (net st0 !! tc) as [c|]; [|done]. by destruct (fw_write _ c) as [c' []]. }
  assert (forall st0, wake_if_detached (upd (set_upstream v) st0) = upd (set_upstream v) (wake_if_detached st0) /\
    s_upstream (ss (wake_if_detached st0)) = s_upstream (ss st0)) as Hw.
  { intros st0. unfold wake_if_detached. simpl. by destruct (_ && _). }
  set (st1 := upd (set_downBuf d) st). change (upd (set_downBuf d) _) with (upd (set_upstream v) st1).
  destruct (Hf st1) as [-> F2]. destruct (Hw (try_forward o q st1)) as [-> W2].
  destruct (IH (zdrop (if len (b :: p) >? Free (s_downBuf (ss st)) then Free (s_downBuf (ss st)) else len (b :: p)) (b :: p))
    (wake_if_detached (try_forward o q st1))) as [I1 I2]. split; [exact I1|]. by rewrite I2, W2, F2.
Qed.

Lemma bW_produce w st st' p r :
  bW w st -> len (hD w) + len p < 2 ^ 64 -> produceDownstream p st = (st', r) ->
  exists q rest, p = q ++ rest /\ bW (set_dest (hD w ++ q) w) st' /\ produce_rest r rest st'.
Proof.
  intros [I K U L P N] HD E. unfold produceDownstream in E.
  destruct (produce_upstream (length p) p (counted (hA w) (ss st)) st) as [Es Eu].
  pose proof (produce_uw (length p) p st) as Ew. rewrite E in Es, Eu, Ew. cbn [fst snd] in *.
  destruct (binv_produce _ Hsid (length p) p (hA w) (hD w) (h_dl w) _ _ _ (le_n _) I HD Es) as (q & rest & Hp & B & Hr).
  exists q, rest. split_and!; [done| |].
  - assert (counted (hA w) (ss st') = counted (hA w) (ss st)) as Ec by (unfold counted; by rewrite Eu, Ew).
    split; simpl; rewrite ?Eu; try done; [|congruence].
    unfold shadow. simpl. rewrite <- Ec in B. exact B.
  - destruct r; done.
Qed.
End broker.
