(* ===== verification/ConcClient.v ===== *)
(** * ConcClient: the sidecar's tasks among other goroutines

    The counterpart of [ConcInv]'s broker part for the tasks of [SidecarTasks]:
    relative to the same worlds, every task keeps [cW].  Only the read loop's
    deliveries move what the agent has been handed, and only the pump moves what
    has entered the replay buffer. *)
From S2P Require Import Prelude ReplayBuffer Socket Wire Link Sidecar SidecarStream BrokerStream.
From S2P Require Import Tasks SidecarTasks ConcInv.


Section client.
Context {C : Type} `{FrameWriterLaws C}.
Context (sid : Z) (Hsid : is_u64 sid).
Implicit Types (st : cst C) (w : world).

Abbreviation delivered st := (cs_downDelivered (cs st)).

(** The session as it would be with exactly the counted bytes handed over. *)
Definition cshadow (D : list byte) st : cst C :=
  cupd (fun s => set_cs_agent (MkSock (ztake (cs_downDelivered s) D) None false false) s) st.

Record cW w st : Prop := {
  cw_inv : cinv sid (hA w) (hD w) (h_uw w) (cshadow (hD w) st);
  cw_sink : sink_ok (hD w) (h_e w) (cs_agent (cs st));
  cw_dl : delivered st = h_dl w;
  cw_e : h_e w <= len (hD w);
  cw_P : len (hA w) + len (hP w) < 2 ^ 64;
}.

Abbreviation cordinary w t := (safe cW wle eq (fun _ _ => True) w t).

(** What a task did to the session did not concern the streams. *)
Lemma cW_same w st st' :
  same_cstream (cs st) (cs st') -> cnet st' = cnet st -> cW w st -> cW w st'.
Proof.
  intros (E1 & E2 & E3 & E4 & E5 & E6) En [I K U L P]. split; try done.
  - apply (cinv_same sid (hA w) (hD w) (h_uw w) (cshadow (hD w) st)); [|exact En|exact I]. unfold same_cstream. simpl. rewrite E4. by split_and!.
  - by eapply sink_ok_same.
  - congruence.
Qed.

Lemma cW_put w st tc f : good_up sid (hA w) (h_dl w) f -> cW w st -> cW w (put tc f st).
Proof.
  intros Hf [[] K U L P]. unfold put. destruct (cnet st !! tc) as [c|] eqn:E; [|by split].
  destruct (fw_write f c) as [c' ok] eqn:W. split; try done. split; try done. simpl in *.
  eapply net_ok_write; [done|done| |rewrite U; done|done]. by eapply good_up_postable.
Qed.

Lemma cW_env w w' st :
  cW w st -> wle w w' -> hA w' = hA w -> hP w' = hP w -> h_dl w' = h_dl w -> h_e w' = h_e w -> len (hD w') < 2 ^ 64 -> cW w' st.
Proof.
  intros [I K U L P] [_ LD Lu _] EA EP Ed Ee HD.
  assert (cshadow (hD w') st = cshadow (hD w) st) as Es.
  { unfold cshadow, cupd. do 2 f_equal. destruct LD as [k ->]. rewrite ztake_app_le; [done|].
    pose proof (ci_range _ _ _ _ _ I) as Hr. simpl in Hr. lia. }
  split; [|..|congruence| |by rewrite EA, EP].
  - rewrite Es, EA. by eapply cinv_mono.
  - rewrite Ee. by eapply sink_ok_mono.
  - rewrite Ee. apply prefix_length in LD. unfold len in *. lia.
Qed.

Lemma cW_up w st uw hw up : h_uw w <= uw -> cW w st -> cW (set_up uw hw up w) st.
Proof. intros Hu K. apply (cW_env w); try done. apply (ci_D _ _ _ _ _ (cw_inv _ _ K)). Qed.

(** ** Tasks that leave the world alone *)

Lemma cord_atomic {A} (Q : world -> A -> Prop) w (f : cst C -> cst C * A) :
  (forall w1 s s' a, wle w w1 -> cW w1 s -> f s = (s', a) -> cW w1 s' /\ Q w1 a) -> safe cW wle eq Q w (atomic f).
Proof.
  intros Hf. apply safe_atomic. intros w1 s s' a Hw Hi E. exists w1. destruct (Hf w1 s s' a Hw Hi E). done.
Qed.

Lemma cord_modify w (f : cst C -> cst C) : (forall w1 s, wle w w1 -> cW w1 s -> cW w1 (f s)) -> cordinary w (modify f).
Proof. intros Hf. apply cord_atomic. intros w1 s s' a Hw Hi [= <- <-]. split; [by apply Hf|done]. Qed.

Lemma cgood_later w w1 f : wle w w1 -> good_up sid (hA w) (h_dl w) f -> good_up sid (hA w1) (h_dl w1) f.
Proof. intros [LA _ _ Ld]. by apply good_up_mono. Qed.

Lemma cord_put w tc f : good_up sid (hA w) (h_dl w) f -> cordinary w (modify (put tc f)).
Proof. intros Hf. apply cord_modify. intros. apply cW_put; [by eapply cgood_later|done]. Qed.

Lemma cord_send w f : good_up sid (hA w) (h_dl w) f -> cordinary w (csendT f).
Proof.
  intros Hf. unfold csendT. eapply safe_bind with (Q := fun w' _ => good_up sid (hA w') (h_dl w') f).
  - apply cord_atomic. intros w1 s s' a Hw K [= <- <-]. split; [done|by eapply cgood_later].
  - intros w' [tc|] Hf'; [by apply cord_put|done].
Qed.

Lemma cord_closeAll w : cordinary w closeAllT.
Proof.
  unfold closeAllT. eapply safe_bind with (Q := fun _ _ => True).
  - apply cord_atomic. intros w1 s s' a Hw K. destruct (cs_dead (cs s)); intros [= <- <-]; [done|].
    split; [|done]. by eapply (cW_same w1 s).
  - intros w' [id|] _; [|done]. eapply safe_bind with (Q := fun _ _ => True).
    + apply cord_modify. intros w1 s Hw K. by eapply (cW_same w1 s).
    + intros w1 _ _. apply cord_modify. intros w2 s Hw K. by eapply (cW_same w2 s).
Qed.

Lemma cW_sid w st : cW w st -> cs_sessionID (cs st) = sid.
Proof. intros K. apply (ci_sid _ _ _ _ _ (cw_inv _ _ K)). Qed.

Lemma cord_closeUp w reason : str_len reason <= maxString -> cordinary w (closeUpT reason).
Proof.
  intros Hr. unfold closeUpT. eapply safe_bind with (Q := fun _ r => r = None \/ r = Some sid).
  - apply cord_atomic. intros w1 s s' a Hw K. destruct (cs_upClosed (cs s)); intros [= <- <-]; [by split; [|left]|].
    split; [by eapply (cW_same w1 s)|right; f_equal; by eapply cW_sid].
  - intros w' r [->| ->]; [done|]. apply cord_send. by constructor.
Qed.

Lemma cord_onClose w d : cordinary w (onCloseT d).
Proof.
  unfold onCloseT. destruct (_ =? _); [|done]. eapply safe_bind with (Q := fun _ _ => True).
  - apply cord_atomic. intros w1 s s' a Hw K [= <- <-]. split; [by eapply (cW_same w1 s)|done].
  - intros w1 [] _; [|apply cord_closeAll]. apply cord_modify. intros w2 s Hw K. by eapply (cW_same w2 s).
Qed.

Lemma cW_trim w st o :
  o <= h_uw w -> cW w st -> cW w (cupd (fun s => set_cs_upBuf (TrimTo (cs_upBuf s) o) s) st).
Proof. intros Ho [I K U L P]. split; try done. by apply (cinv_trim sid (hA w) (hD w) (h_uw w) (cshadow (hD w) st) o). Qed.

Lemma cord_ack w o : o <= h_uw w -> cordinary w (onUpstreamAckT o).
Proof. intros Ho. apply cord_modify. intros w1 s [_ _ Lu _] K. apply cW_trim; [lia|done]. Qed.

Lemma cord_attachOK w o : o <= h_uw w -> is_u64 o -> cordinary w (onAttachOKT o).
Proof.
  intros Ho Hu. unfold onAttachOKT.
  eapply safe_bind with (Q := fun w' r => fst r = sid /\ forall q, snd r = Ok q -> at_offset (hA w') o q).
  - apply cord_atomic. intros w1 s s' a [_ _ Lu _] K [= <- <-].
    assert (cW w1 (cupd (fun s => set_cs_upBuf (TrimTo (cs_upBuf s) o) s) s)) as K1 by (apply cW_trim; [lia|done]).
    split_and!; [done|by eapply cW_sid|]. intros q Eq. destruct (ci_up _ _ _ _ _ (cw_inv _ _ K1)) as (a & R & _).
    by apply (rep_from_at_offset _ _ _ _ _ R) in Eq as [? ?].
  - intros w' [i [q|e]] [Hi Hq]; [|done]. simpl in *. subst i. destruct (_ >? 0); [|done].
    apply cord_send. constructor; [by apply Hq|done].
Qed.

(** A fresh connection: HELLO, publish, ATTACH with what is delivered by then. *)
Lemma cord_connect w actorID tc c :
  str_len actorID <= maxString -> fw_clean c -> fw_sent c = [] -> cordinary w (connectT actorID tc c).
Proof.
  intros Ha Hc Hs. unfold connectT. eapply safe_bind with (Q := fun _ _ => True).
  - apply cord_atomic. intros w1 s s' a Hw [I K U L P]. destruct (fw_write _ c) as [c' ok] eqn:W. intros [= <- <-].
    apply fw_write_spec in W as [Hc' Hs']; [|done|by apply pb_wf, wf_hello]. split; [|done].
    split; try done. apply (cinv_new_conn sid (hA w1) (hD w1) (h_uw w1) (cshadow (hD w1) s)); [done|done|].
    rewrite Hs in Hs'. destruct Hs' as [->|(_ & _ & ->)]; repeat constructor. done.
  - intros w1 [] _; [|done]. eapply safe_bind with (Q := fun _ _ => True).
    { apply cord_modify. intros w2 s Hw K. by eapply (cW_same w2 s). }
    intros w2 _ _. eapply safe_bind with (Q := fun w' f => good_up sid (hA w') (h_dl w') f).
    + apply cord_atomic. intros w3 s s' a Hw K [= <- <-]. split; [done|]. unfold attachFrame.
      rewrite (cW_sid _ _ K). destruct K as [I K U L P]. pose proof (ci_range _ _ _ _ _ I) as Hr.
      pose proof (ci_D _ _ _ _ _ I) as HD. simpl in Hr. rewrite U in *.
      constructor; [lia|unfold is_u64; lia|apply (ci_target _ _ _ _ _ I)].
    + intros w3 f Hf. eapply safe_bind; [by apply cord_put|done].
Qed.

(** ** The read loop *)

Abbreviation loop v t := (safe cW rely_down guar_down (fun x _ => idle_down x) v t).

Lemma guar_down_refl w : guar_down w w.
Proof. exists (h_dl w), (h_e w). split; [lia|by destruct w]. Qed.

Lemma loop_ordinary {A} w (t : task (cst C) A) : cordinary w t -> idle_down w -> loop w t.
Proof.
  intros Ht Hw. eapply safe_weaken; [|apply (safe_keep cW wle eq rely_down guar_down idle_down (fun _ _ => True));
    [| | | |exact Ht|exact Hw]].
  - by intros w' a [_ ?].
  - by intros w1 w2 [? _].
  - intros w1 w2 <-. apply guar_down_refl.
  - intros w1 w2 (_ & E1 & E2). unfold idle_down. congruence.
  - by intros w1 w2 <-.
Qed.

Lemma cshadow_agent D st a : cshadow D (cupd (set_cs_agent a) st) = cshadow D st.
Proof. done. Qed.

(** A truthful DATA frame: the check, the write to the agent, and then the count
    that makes the acknowledgement true. *)
Lemma loop_deliver w o p : idle_down w -> at_offset (hD w) o p -> loop w (deliverT o p).
Proof.
  intros Hi Hp. unfold deliverT.
  eapply safe_bind with (Q := fun w' r => idle_down w' /\ forall q, r = Some q -> at_offset (hD w') (h_dl w') q).
  { apply safe_atomic. intros w1 s s' r (Hle & E1 & E2) K [= <- <-].
    exists w1. split_and!; [apply guar_down_refl|done|unfold idle_down in *; congruence|].
    intros q Eq. unfold deliver_check in Eq. destruct (cs_dead (cs s)) eqn:Ed; [done|].
    pose proof (cinv_dl _ _ _ _ _ (cw_inv _ _ K)) as Hd. rewrite <- (cw_dl _ _ K).
    pose proof (dedup_spec (hD w1) (delivered s) o p ltac:(eapply at_offset_mono; [apply Hle|done]) Hd) as Hq.
    unfold dedup in Hq. rewrite Eq in Hq. apply Hq. }
  intros w' [q|] [Hi' Hq]; [|done]. specialize (Hq q eq_refl).
  eapply safe_bind with (Q := fun w1 (ok : bool) =>
    if ok then at_offset (hD w1) (h_dl w1) q /\ h_e w1 = h_dl w1 + len q else idle_down w1).
  { apply safe_atomic. intros w1 s s' ok (Hle & E1 & E2) [I K U L P].
    assert (at_offset (hD w1) (h_dl w1) q) as Hq1 by (rewrite E1; eapply at_offset_mono; [apply Hle|done]).
    assert (idle_down w1) as Hi1 by (unfold idle_down in *; congruence).
    destruct (sock_write q _) as [a ok'] eqn:W. intros [= <- <-].
    pose proof (sink_write _ _ _ _ _ _ K ltac:(by rewrite Hi1) W) as Hk. pose proof (at_offset_bound _ _ _ Hq1).
    destruct ok'.
    - exists (set_down (h_dl w1) (h_e w1 + len q) w1). split_and!; [by exists (h_dl w1), (h_e w1 + len q)| |done|simpl; by rewrite Hi1].
      split; simpl; try done. rewrite Hi1. lia.
    - exists w1. split_and!; [apply guar_down_refl| |done]. by split. }
  intros w1 [] Hok; [|apply loop_ordinary; [apply cord_closeAll|done]]. destruct Hok as [Hq1 He1].
  eapply safe_bind with (Q := fun w' r => idle_down w' /\ let '(i, n) := r in good_up sid (hA w') (h_dl w') (AckF i n)).
  2: { intros w2 [i n] [Hi2 Hg]. apply loop_ordinary; [by apply cord_send|done]. }
  apply safe_atomic. intros w2 s s' r (Hle & E1 & E2) [I K U L P].
  assert (at_offset (hD w2) (h_dl w2) q) as Hq2 by (rewrite E1; eapply at_offset_mono; [apply Hle|done]).
  pose proof (at_offset_bound _ _ _ Hq2). pose proof (len_nonneg q).
  pose proof (ci_range _ _ _ _ _ I) as Hr. pose proof (ci_D _ _ _ _ _ I) as HD. simpl in Hr.
  unfold cupd. simpl. rewrite U in *. rewrite u64_small by lia. intros [= <- <-].
  exists (set_down (h_dl w2 + len q) (h_e w2) w2). split_and!.
  - exists (h_dl w2 + len q), (h_e w2). split; [lia|done].
  - split; simpl; try done. destruct I as [Is It Iu ID Ir Ik In]. split; simpl in *; try done; [lia| |].
    + exists []. split_and!; [by rewrite app_nil_r|apply ztake_prefix|by left].
    + eapply net_ok_impl; [|exact In]. intros g. apply good_up_mono; [done|lia].
  - unfold idle_down. simpl. lia.
  - rewrite (ci_sid _ _ _ _ _ I : cs_sessionID (cs s) = sid). constructor; simpl; [lia|unfold is_u64; lia].
Qed.

(** Any frame that is true of the histories. *)
Lemma loop_dispatch w f :
  idle_down w -> 0 <= h_uw w < 2 ^ 64 -> good_down sid (hD w) (h_uw w) f -> fSessionID f = sid -> loop w (dispatchT f).
Proof.
  intros Hi Hu Hf Hs.
  assert ((fType f = TypeAttachOK -> 0 <= fOffset f <= h_uw w) /\
          (fType f = TypeAck -> 0 <= fOffset f <= h_uw w) /\
          (fType f = TypeData -> at_offset (hD w) (fOffset f) (fPayload f))) as (H1 & H2 & H3)
    by (by destruct Hf).
  unfold dispatchT. destruct (Z.eqb_spec (fType f) TypeAttachOK) as [E|_].
  { apply loop_ordinary; [|done]. apply cord_attachOK; [by apply H1|]. specialize (H1 E). unfold is_u64. lia. }
  destruct (Z.eqb_spec (fType f) TypeData); [apply loop_deliver; auto|].
  destruct (Z.eqb_spec (fType f) TypeAck); [apply loop_ordinary; [|done]; apply cord_ack; by apply H2|].
  destruct (_ =? _); [apply loop_ordinary; [apply cord_onClose|done]|done].
Qed.

(** ** The pump *)

(** What a pump that has returned has left of what it was given. *)
Definition pumped (w : world) (r : write_result) : Prop :=
  match r with WDone => hP w = [] | WBlocked k => hP w = k | WClosed | WErr _ | WFuel => True end.

Abbreviation pump v t := (safe cW rely_pump guar_pump pumped v t).

Lemma guar_pump_refl w : guar_pump w w.
Proof. exists (hA w), (hP w). split_and!; [done|done|by destruct w]. Qed.

(** One turn under the mutex: as much as fits enters the buffer. *)
Lemma cW_section w st p st' r :
  p <> [] -> hP w = p -> cW w st -> write_section p st = (st', r) ->
  match r with
  | TSend f rest => exists q, p = q ++ rest /\ q <> [] /\ cW (set_pump (hA w ++ q) rest w) st' /\
                              good_up sid (hA w ++ q) (h_dl w) f
  | TFull | TDead => st' = st
  | TErr _ => False
  end.
Proof.
  intros Hne HP [I K U L P]. unfold write_section. destruct (cs_dead (cs st)); [by intros [= <- <-]|].
  destruct (Z.eqb_spec (Free (cs_upBuf (cs st))) 0) as [E|E]; [by intros [= <- <-]|].
  destruct (ci_up _ _ _ _ _ I) as (a & R & _). simpl in R.
  assert (0 < Free (cs_upBuf (cs st))) as Hfree.
  { pose proof (rep_cap _ _ R). pose proof (len_nonneg (rb_buf (cs_upBuf (cs st)))). unfold Free in *. lia. }
  set (n := if _ >? _ then _ else _).
  assert (0 < n <= len p /\ n <= Free (cs_upBuf (cs st))) as [Hn Hnf].
  { unfold n. assert (0 < len p) by (destruct p; [done|len_solve]). zcases; lia. }
  assert (len (ztake n p) = n) as Lq by (apply len_ztake; lia). rewrite HP in P.
  destruct (cinv_append sid (hA w) (hD w) (h_uw w) (cshadow (hD w) st) (ztake n p)) as (b & Eb & I'); [done|simpl; lia|lia|].
  simpl in Eb. rewrite Eb, (rep_End R). intros [= <- <-]. exists (ztake n p). simpl. split_and!.
  - by rewrite ztake_zdrop.
  - intros E0. rewrite E0 in Lq. change (0 = n) in Lq. lia.
  - split; simpl; try done. rewrite len_app, len_zdrop; lia.
  - rewrite (ci_sid _ _ _ _ _ I : cs_sessionID (cs st) = sid). pose proof (len_nonneg (hA w)). pose proof (len_nonneg p).
    constructor; [apply at_offset_end|unfold is_u64; lia].
Qed.

Lemma pump_write fuel w p : (length p <= fuel)%nat -> hP w = p -> pump w (writeT fuel p).
Proof.
  revert w p. induction fuel as [|fuel IH]; intros w p Hf HP; destruct p as [|b p']; try done.
  set (p := b :: p') in *. cbn [writeT]. fold p.
  change (pump w (r ← atomic (write_section p);
    match r with TDead => mret WClosed | TFull => mret (WBlocked p) | TErr e => mret (WErr e)
    | TSend f rest => _ ← csendT f; writeT fuel rest end)).
  eapply safe_bind with (Q := fun w' r => match r with
    | TFull => hP w' = p | TSend f rest => hP w' = rest /\ (length rest < length p)%nat /\ good_up sid (hA w') (h_dl w') f
    | _ => True end).
  - apply safe_atomic. intros w1 s s' r (Hle & E1 & E2) K E. rewrite HP in E2.
    pose proof (cW_section w1 s p s' r ltac:(done) E2 K E) as HS. destruct r as [| |e|f rest].
    + subst s'. exists w1. split_and!; [apply guar_pump_refl|done|done].
    + subst s'. exists w1. split_and!; [apply guar_pump_refl|done|done].
    + done.
    + destruct HS as (q & Eq & Hq & K' & Hg). exists (set_pump (hA w1 ++ q) rest w1). split_and!; try done.
      * exists (hA w1 ++ q), rest. split_and!; [by apply prefix_app_r|by rewrite E2, Eq, app_assoc|done].
      * rewrite Eq, length_app. destruct q; [done|simpl; lia].
  - intros w1 [| |e|f rest] HQ; try done. destruct HQ as (HP1 & Hl & Hg).
    eapply safe_bind with (Q := fun w' _ => hP w' = rest); [|intros w2 [] HP2; apply IH; [simpl in *; lia|done]].
    eapply safe_weaken; [|apply (safe_keep cW wle eq rely_pump guar_pump (fun w' => hP w' = rest) (fun _ _ => True));
      [| | | |by apply cord_send|exact HP1]].
    + by intros w' a [_ ?].
    + by intros w' w2 [? _].
    + intros w' w2 <-. apply guar_pump_refl.
    + intros w' w2 (_ & _ & E2). congruence.
    + by intros w' w2 <-.
Qed.
End client.
