(* ===== verification/Concurrent.v ===== *)
(** * Concurrent: one session end to end, with every goroutine interruptible

    [System] runs each handler to completion.  Here a handler is a task
    ([BrokerTasks], [SidecarTasks]) and a step is one of its critical sections,
    one blocking write, or the start of another task, so any number of frame
    handlers, the reader's follow-ups, the watchdog, detaches, the sidecar's
    pump, read loop, reconnect and close run interleaved.  What stays sequential
    is what one goroutine does: the pump's chunks, the read loop's frames and
    the reader's reads; and two upstream writers (a DATA handler or the end of
    the dial) do not overlap.  That last restriction is necessary:
    [Interleavings] has the schedules in which they do. *)
From S2P Require Import Prelude ReplayBuffer Socket Wire Link BrokerSession Sidecar BrokerStream SidecarStream.
From S2P Require Import System Tasks BrokerTasks SidecarTasks ConcInv ConcClient.

#[local] Existing Instance all_owned.

Section conc.
Context {C : Type} `{FrameWriter C}.
Context (os_error : string).
Abbreviation bproc A := (task (sst C) A).
Abbreviation cproc A := (task (cst C) A).

(** The agent's pump: between chunks (or waiting for room), in [writeUp], or
    gone after an error. *)
Inductive pump_state : Type := PIdle | PRun (t : cproc write_result) | PStopped.

Record conc : Type := MkConc {
  k_y : sys C;                            (* both halves and what they share *)
  k_pump : pump_state;
  k_loop : option (cproc unit);           (* the frame the read loop is handling *)
  k_cpool : list (cproc unit);            (* other goroutines of the sidecar *)
  k_bpool : list (bproc unit);            (* goroutines of the broker *)
  k_writer : option (bool * bproc bool);  (* the one that may write upstream; is it the dial? *)
}.

Definition set_y (y : sys C) (k : conc) : conc := MkConc y (k_pump k) (k_loop k) (k_cpool k) (k_bpool k) (k_writer k).
Definition set_pumping (p : pump_state) (k : conc) : conc :=
  MkConc (k_y k) p (k_loop k) (k_cpool k) (k_bpool k) (k_writer k).
Definition set_loop (t : option (cproc unit)) (k : conc) : conc :=
  MkConc (k_y k) (k_pump k) t (k_cpool k) (k_bpool k) (k_writer k).
Definition set_cpool (l : list (cproc unit)) (k : conc) : conc :=
  MkConc (k_y k) (k_pump k) (k_loop k) l (k_bpool k) (k_writer k).
Definition set_bpool (l : list (bproc unit)) (k : conc) : conc :=
  MkConc (k_y k) (k_pump k) (k_loop k) (k_cpool k) l (k_writer k).
Definition set_writer (t : option (bool * bproc bool)) (k : conc) : conc :=
  MkConc (k_y k) (k_pump k) (k_loop k) (k_cpool k) (k_bpool k) t.

Abbreviation on_c c k := (set_y (with_c c (k_y k)) k).
Abbreviation on_b b k := (set_y (with_b b (k_y k)) k).
Abbreviation kc k := (y_c (k_y k)).
Abbreviation kb k := (y_b (k_y k)).

(** [go]. *)
Definition spawn (t : bproc unit) (k : conc) : conc := set_bpool (k_bpool k ++ [t]) k.
Definition cspawn (t : cproc unit) (k : conc) : conc := set_cpool (k_cpool k ++ [t]) k.

Definition with_agent (p wait : list byte) (y : sys C) : sys C :=
  MkSys (y_c y) (y_b y) (y_created y) (y_dialed y) (y_reader y) wait (y_agent y ++ p) (y_dest y).
Definition with_reader (r : read_next) (p : list byte) (y : sys C) : sys C :=
  MkSys (y_c y) (y_b y) (y_created y) (y_dialed y) r (y_upwait y) (y_agent y) (y_dest y ++ p).
Definition with_table (created dialed : bool) (y : sys C) : sys C :=
  MkSys (y_c y) (y_b y) created dialed (y_reader y) (y_upwait y) (y_agent y) (y_dest y).

(** ** Steps *)

(** The pump's [WriteUp] returned. *)
Definition pump_done (r : write_result) (k : conc) : conc :=
  match r with
  | WDone => set_pumping PIdle (set_y (with_agent [] [] (k_y k)) k)
  | WBlocked rest => set_pumping PIdle (set_y (with_agent [] rest (k_y k)) k)
  | _ => set_pumping PStopped k
  end.

(** One lock period of [produceDownstream] on what was read (or on what a blocked
    turn had left), then what the reader does next. *)
Definition reader_turn (fresh p : list byte) (err : option (option string)) (k : conc) : conc :=
  let '(b, r) := match p with [] => (kb k, PDone) | _ => produceDownstream p (kb k) end in
  let next := match r with
              | PBlocked rest => RWait rest err
              | PDone => match err with None => RNext | Some _ => RStopped end
              | _ => RStopped
              end in
  spawn (read_endT r err) (set_y (with_reader next fresh (with_b b (k_y k))) k).

(** [handleFrame], up to the session's own methods: whether the session is in the
    table afterwards, and the goroutine's remaining work.  DATA is below. *)
Definition handleT (tc : nat) (f : Frame) (created : bool) : bool * bproc unit :=
  let write g := modify (fun st => fst (tc_write tc g st)) in
  let attach o := _ ← bindT tc; attachT o in
  if fType f =? TypePing then (created, write (PongF (fNonce f)))
  else if fType f =? TypeOpen then (true, if created then attach 0 else bindT tc)
  else if fType f =? TypeAttach then
    if created || ((fOffset f =? 0) && bool_decide (fTarget f <> "")) then (true, attach (fOffset f))
    else (false, write (CloseF (fSessionID f) DirDown "session lost"))
  else if negb created then (false, mret ())
  else if fType f =? TypeAck then (true, onDownstreamAckT (fOffset f))
  else if fType f =? TypeClose then (true, sidecarCloseT (fDir f) (fReason f))
  else (true, mret ()).

Definition handle (tc : nat) (f : Frame) (k : conc) : conc :=
  let '(created, t) := handleT tc f (y_created (k_y k)) in
  spawn t (set_y (with_table created (y_dialed (k_y k)) (k_y k)) k).

(** What the dial may come back with. *)
Definition dial_result (r : res string sock) : Prop :=
  match r with
  | Ok c => exists cap, c = MkSock [] cap false false
  | Err e => str_len ("dial failed: " +:+ e) <= maxString
  end.

Inductive kstep (k : conc) : conc -> Prop :=
(* the pump *)
| KAgentWrite p : k_pump k = PIdle -> y_upwait (k_y k) = [] ->
    kstep k (set_pumping (PRun (writeT (length p) p)) (set_y (with_agent p p (k_y k)) k))
| KAgentRetry : k_pump k = PIdle ->
    kstep k (set_pumping (PRun (writeT (length (y_upwait (k_y k))) (y_upwait (k_y k)))) k)
| KPump f t : k_pump k = PRun (Act f t) -> kstep k (set_pumping (PRun (t (kc k))) (on_c (f (kc k)) k))
| KPumpDone r : k_pump k = PRun (Ret r) -> kstep k (pump_done r k)
(* the sidecar's read loop *)
| KClientRecv from f : f ∈ sent_down from (k_y k) -> fSessionID f = cs_sessionID (cs (kc k)) ->
    k_loop k = None -> kstep k (set_loop (Some (dispatchT f)) k)
| KLoop f t : k_loop k = Some (Act f t) -> kstep k (set_loop (Some (t (kc k))) (on_c (f (kc k)) k))
| KLoopDone : k_loop k = Some (Ret ()) -> kstep k (set_loop None k)
(* other goroutines of the sidecar *)
| KConnect actorID tc cu cd :
    str_len actorID <= maxString -> fw_clean cu -> fw_sent cu = [] -> fw_clean cd -> fw_sent cd = [] ->
    kstep k (cspawn (_ ← connectT actorID tc cu; mret ())
              (on_b (MkSst (ss (kb k)) (<[tc := cd]> (net (kb k))) (evs (kb k))) k))
| KDisconnect tc : kstep k (on_c (session_disconnect tc (kc k)) k)
| KPing n : is_u64 n -> kstep k (cspawn (csendT (PingF n)) k)
| KOpen : kstep k (cspawn (csendT (OpenF (cs_sessionID (cs (kc k))) (cs_target (cs (kc k))))) k)
| KCloseUp reason : str_len reason <= maxString -> kstep k (cspawn (closeUpT reason) k)
| KClient l1 f t l2 : k_cpool k = l1 ++ Act f t :: l2 ->
    kstep k (set_cpool (l1 ++ t (kc k) :: l2) (on_c (f (kc k)) k))
| KOtherUp tc f : postable f -> fSessionID f <> cs_sessionID (cs (kc k)) -> kstep k (on_c (put tc f (kc k)) k)
(* goroutines of the broker *)
| KHandle from tc f : f ∈ sent_up from (k_y k) ->
    fType f = TypePing \/ fSessionID f = s_sessionID (ss (kb k)) -> fType f <> TypeData -> kstep k (handle tc f k)
| KDetach tc : kstep k (spawn (detachT tc) k)
| KWatchdog : kstep k (spawn watchdogT k)
| KRead p err : y_reader (k_y k) = RNext -> (forall e, err = Some (Some e) -> str_len e <= maxString) ->
    kstep k (reader_turn p p err k)
| KRetry rest err : y_reader (k_y k) = RWait rest err -> (forall e, err = Some (Some e) -> str_len e <= maxString) ->
    kstep k (reader_turn [] rest err k)
| KBroker l1 f t l2 : k_bpool k = l1 ++ Act f t :: l2 ->
    kstep k (set_bpool (l1 ++ t (kb k) :: l2) (on_b (f (kb k)) k))
| KOtherDown tc f : postable f -> fSessionID f <> s_sessionID (ss (kb k)) -> kstep k (on_b (fst (tc_write tc f (kb k))) k)
| KRefused tc : y_created (k_y k) = false ->
    kstep k (spawn (modify (fun st => fst (tc_write tc (CloseF (s_sessionID (ss (kb k))) DirDown "target not allowed") st))) k)
(* the upstream writer *)
| KData from f : f ∈ sent_up from (k_y k) -> fSessionID f = s_sessionID (ss (kb k)) -> fType f = TypeData ->
    y_created (k_y k) = true -> k_writer k = None ->
    kstep k (set_writer (Some (false, _ ← onDataT os_error (fOffset f) (fPayload f); mret false)) k)
| KDial r : y_created (k_y k) = true -> y_dialed (k_y k) = false -> k_writer k = None -> dial_result r ->
    kstep k (set_writer (Some (true, dialT os_error r)) (set_y (with_table true true (k_y k)) k))
| KWriter d f t : k_writer k = Some (d, Act f t) -> kstep k (set_writer (Some (d, t (kb k))) (on_b (f (kb k)) k))
| KWriterDone d go : k_writer k = Some (d, Ret go) ->
    kstep k (set_writer None (set_y (with_reader (if d && go then RNext else y_reader (k_y k)) [] (k_y k)) k)).

(** Nothing running yet. *)
Definition quiet (y : sys C) : conc := MkConc y PIdle None [] [] None.
End conc.
Arguments conc C : clear implicits.
Abbreviation on_c c k := (set_y (with_c c (k_y k)) k).
Abbreviation on_b b k := (set_y (with_b b (k_y k)) k).
Abbreviation kc k := (y_c (k_y k)).
Abbreviation kb k := (y_b (k_y k)).

(** ** The invariant *)

Section inv.
Context {C : Type} `{FrameWriterLaws C}.
Context (sid : Z) (Hsid : is_u64 sid).
Context (os_error : string) (Hos : str_len os_error <= maxString).
Implicit Types (k : conc C) (w : world).

Abbreviation ordinary w t := (safe (bW sid) wle eq (fun _ (_ : unit) => True) w t).
Abbreviation cordinary w t := (safe (cW sid) wle eq (fun _ (_ : unit) => True) w t).

Definition writer_ok (d : bool) w (t : option (bool * task (sst C) bool)) : Prop :=
  match t with Some (_, t) => safe (bW sid) rely_up (guar_up d) (fun x _ => idle_up x) w t | None => idle_up w end.
Definition loop_ok w (t : option (task (cst C) unit)) : Prop :=
  match t with Some t => safe (cW sid) rely_down guar_down (fun x _ => idle_down x) w t | None => idle_down w end.
Definition pump_ok w (wait : list byte) (p : pump_state) : Prop :=
  match p with PIdle => hP w = wait | PRun t => safe (cW sid) rely_pump guar_pump pumped w t | PStopped => True end.

(** A reader that goes on has appended all it has read. *)
Definition reader_ok w (r : read_next) (dest : list byte) : Prop :=
  match r with RStopped => hD w `prefix_of` dest | _ => hD w ++ reader_wait r = dest end.
(** The reader is started by the dial. *)
Definition unread (y : sys C) (t : option (bool * task (sst C) bool)) : Prop :=
  y_dialed y = false \/ exists u, t = Some (true, u).

Record kinv k w : Prop := {
  ki_b : bW sid w (kb k);
  ki_c : cW sid w (kc k);
  ki_bpool : Forall (fun t => ordinary w t) (k_bpool k);
  ki_cpool : Forall (fun t => cordinary w t) (k_cpool k);
  ki_writer : writer_ok (y_dialed (k_y k)) w (k_writer k);
  ki_loop : loop_ok w (k_loop k);
  ki_pump : pump_ok w (y_upwait (k_y k)) (k_pump k);
  ki_A : hA w ++ hP w = y_agent (k_y k);
  ki_D : reader_ok w (y_reader (k_y k)) (y_dest (k_y k));
  ki_dial : y_dialed (k_y k) = false -> h_up w = false;
  ki_fresh : unread (k_y k) (k_writer k) -> y_reader (k_y k) = RStopped /\ y_dest (k_y k) = [];
  ki_once : forall u, k_writer k = Some (true, u) -> y_dialed (k_y k) = true;
}.

(** *** When the world moves, everybody else is still where they were *)

Lemma ordinary_later w w' (t : task (sst C) unit) : wle w w' -> ordinary w t -> ordinary w' t.
Proof. intros Hw. by apply safe_rely; [apply _| |]. Qed.

Lemma cordinary_later w w' (t : task (cst C) unit) : wle w w' -> cordinary w t -> cordinary w' t.
Proof. intros Hw. by apply safe_rely; [apply _| |]. Qed.

Lemma writer_later d w w' t : rely_up w w' -> writer_ok d w t -> writer_ok d w' t.
Proof.
  assert (forall w w', rely_up w w' -> idle_up w -> idle_up w') as HI.
  { intros w1 w2 (_ & E1 & E2 & _). unfold idle_up. congruence. }
  intros Hw. destruct t as [[d0 t]|]; [|by apply HI]. apply safe_rely; [apply _| |done]. intros _. apply HI.
Qed.

Lemma loop_later w w' t : rely_down w w' -> loop_ok w t -> loop_ok w' t.
Proof.
  assert (forall w w', rely_down w w' -> idle_down w -> idle_down w') as HI.
  { intros w1 w2 (_ & E1 & E2). unfold idle_down. congruence. }
  intros Hw. destruct t as [t|]; [|by apply HI]. apply safe_rely; [apply _| |done]. intros _. apply HI.
Qed.

Lemma pump_later w w' l p : rely_pump w w' -> pump_ok w l p -> pump_ok w' l p.
Proof.
  intros Hw. destruct p as [|t|]; simpl; [by destruct Hw as (_ & _ & ->)| |done].
  apply safe_rely; [apply _| |done]. intros r w1 w2 (_ & _ & E). destruct r; simpl; congruence.
Qed.

Lemma up_moves d w w' : guar_up d w w' -> wle w w' /\ rely_down w w' /\ rely_pump w w' /\ hD w' = hD w.
Proof. intros (uw & hw & up & Hu & _ & ->). by repeat split. Qed.

Lemma down_moves w w' : guar_down w w' -> wle w w' /\ rely_up w w' /\ rely_pump w w' /\ hD w' = hD w.
Proof. intros (dl & he & Hd & ->). by repeat split. Qed.

Lemma pump_moves w w' : guar_pump w w' -> wle w w' /\ rely_up w w' /\ rely_down w w' /\ hD w' = hD w.
Proof. intros (A & P & HA & _ & ->). by repeat split. Qed.

Lemma pools_later w w' k :
  wle w w' -> kinv k w -> Forall (fun t => ordinary w' t) (k_bpool k) /\ Forall (fun t => cordinary w' t) (k_cpool k).
Proof.
  intros Hw I. split; (eapply Forall_impl; [apply I|]); intros t; [by apply ordinary_later|by apply cordinary_later].
Qed.

Lemma frame_up k w from f : kinv k w -> f ∈ sent_up from (k_y k) -> good_up sid (hA w) (h_dl w) f.
Proof.
  intros I. unfold sent_up. destruct (cnet (kc k) !! from) as [c|] eqn:E; [|by intros ?%elem_of_nil].
  pose proof (ki_c _ _ I) as K. destruct (ci_net _ _ _ _ _ (cw_inv _ _ _ K) from c E) as [_ HF].
  rewrite Forall_forall in HF. rewrite <- (cw_dl _ _ _ K). apply HF.
Qed.

Lemma frame_down k w from f : kinv k w -> f ∈ sent_down from (k_y k) -> good_down sid (hD w) (h_uw w) f.
Proof.
  intros I. unfold sent_down. destruct (net (kb k) !! from) as [c|] eqn:E; [|by intros ?%elem_of_nil].
  destruct (bW_net _ _ _ (ki_b _ _ I) from c Logic.I E) as [_ HF]. rewrite Forall_forall in HF. apply HF.
Qed.

Lemma kinv_uw k w : kinv k w -> 0 <= h_uw w < 2 ^ 64.
Proof.
  intros I. pose proof (ki_b _ _ I) as B. destruct (binv_uw _ _ _ _ _ (bw_inv _ _ _ B)) as [_ Hu].
  rewrite <- (bw_uw _ _ _ B). exact Hu.
Qed.

(** *** A goroutine starts *)

Lemma kinv_spawn k w t : kinv k w -> ordinary w t -> kinv (spawn t k) w.
Proof. intros [] Ht. split; try done. simpl. apply Forall_app. by split; [|constructor]. Qed.

Lemma kinv_cspawn k w t : kinv k w -> cordinary w t -> kinv (cspawn t k) w.
Proof. intros [] Ht. split; try done. simpl. apply Forall_app. by split; [|constructor]. Qed.

Lemma kinv_b k w b : kinv k w -> bW sid w b -> kinv (on_b b k) w.
Proof. by intros [] Hb. Qed.

Lemma kinv_c k w c : kinv k w -> cW sid w c -> kinv (on_c c k) w.
Proof. by intros [] Hc. Qed.

Lemma ord_write w tc f :
  good_down sid (hD w) (h_uw w) f -> ordinary w (modify (fun st : sst C => fst (tc_write tc f st))).
Proof.
  intros Hf. apply ord_modify. intros w1 s Hw B. destruct (tc_write tc f s) as [s' ok] eqn:E.
  eapply bW_tc_write; [done|exact E|by eapply good_later|done].
Qed.

Lemma ord_rebind w tc o : is_u64 o -> ordinary w (_ ← bindT (C := C) tc; attachT o).
Proof. intros Ho. apply safe_bind with (Q := fun _ _ => True); [by apply ord_bind|]. intros w' [] _. by apply ord_attach. Qed.

Lemma handle_ordinary w tc f created :
  good_up sid (hA w) (h_dl w) f -> fType f = TypePing \/ fSessionID f = sid -> fType f <> TypeData ->
  ordinary w (snd (handleT tc f created)).
Proof.
  intros Hf Hs Hd. destruct Hf as [a|t|o t Ho Hu|o p Hp|o Ho|d r|n|f Hwf Hne]; try done.
  - unfold handleT. simpl. by destruct created.
  - unfold handleT. simpl. destruct created; [by apply ord_rebind|by apply ord_bind].
  - unfold handleT. cbn [fType fOffset fTarget fSessionID AttachF].
    change (TypeAttach =? TypePing) with false. change (TypeAttach =? TypeOpen) with false.
    change (TypeAttach =? TypeAttach) with true. cbn iota.
    destruct (_ || _); [by apply ord_rebind|]. apply ord_write. by constructor.
  - unfold handleT. simpl. destruct created; [|done]. apply ord_ack; lia.
  - unfold handleT. simpl. destruct created; [|done]. by apply ord_sidecarClose.
  - apply ord_write. by constructor.
  - destruct Hs as [E|E]; [|done]. unfold handleT. rewrite E. apply ord_write. constructor. by destruct Hwf as [f []|].
Qed.

(** *** A goroutine takes a step *)

Lemma kinv_broker_run k w l1 f t l2 :
  kinv k w -> k_bpool k = l1 ++ Act f t :: l2 -> kinv (set_bpool (l1 ++ t (kb k) :: l2) (on_b (f (kb k)) k)) w.
Proof.
  intros I E. pose proof (ki_bpool _ _ I) as HF. rewrite E in HF. apply Forall_app in HF as [H1 [Ht H2]%Forall_cons].
  destruct (Ht w (kb k) (reflexivity _) (ki_b _ _ I)) as (w2 & <- & B & Hs).
  destruct I. split; try done. apply Forall_app. by split; [|constructor].
Qed.

Lemma kinv_client_run k w l1 f t l2 :
  kinv k w -> k_cpool k = l1 ++ Act f t :: l2 -> kinv (set_cpool (l1 ++ t (kc k) :: l2) (on_c (f (kc k)) k)) w.
Proof.
  intros I E. pose proof (ki_cpool _ _ I) as HF. rewrite E in HF. apply Forall_app in HF as [H1 [Ht H2]%Forall_cons].
  destruct (Ht w (kc k) (reflexivity _) (ki_c _ _ I)) as (w2 & <- & B & Hs).
  destruct I. split; try done. apply Forall_app. by split; [|constructor].
Qed.

Lemma kinv_writer_run k w d f t :
  kinv k w -> k_writer k = Some (d, Act f t) -> exists w', kinv (set_writer (Some (d, t (kb k))) (on_b (f (kb k)) k)) w'.
Proof.
  intros I E. pose proof (ki_writer _ _ I) as Ht. rewrite E in Ht.
  destruct (Ht w (kb k) (reflexivity _) (ki_b _ _ I)) as (w2 & Hg & B & Hs). exists w2.
  destruct (up_moves _ _ _ Hg) as (L & Ld & Lp & ED). destruct (pools_later _ _ _ L I). destruct I.
  split; simpl; try done.
  - destruct Hg as (uw & hw & up & Hu & _ & ->). by apply cW_up.
  - by eapply loop_later.
  - by eapply pump_later.
  - destruct Lp as (_ & -> & ->). done.
  - unfold reader_ok. by rewrite ED.
  - intros E0. rewrite E0 in Hg. destruct Hg as (uw & hw & up & _ & Hup & ->). simpl. rewrite Hup by done. auto.
  - intros Hu. apply ki_fresh0. destruct Hu as [Hu|[u [= -> Hu]]]; [by left|right; by eexists].
  - intros u [= -> _]. by eapply ki_once0.
Qed.

Lemma kinv_loop_run k w f t :
  kinv k w -> k_loop k = Some (Act f t) -> exists w', kinv (set_loop (Some (t (kc k))) (on_c (f (kc k)) k)) w'.
Proof.
  intros I E. pose proof (ki_loop _ _ I) as Ht. rewrite E in Ht.
  destruct (Ht w (kc k) (reflexivity _) (ki_c _ _ I)) as (w2 & Hg & B & Hs). exists w2.
  destruct (down_moves _ _ Hg) as (L & Lu & Lp & ED). destruct (pools_later _ _ _ L I). destruct I as [Hb].
  pose proof (bi_A _ _ _ _ _ (bw_inv _ _ _ Hb)) as HA.
  split; simpl; try done.
  - destruct Hg as (dl & he & Hd & ->). by eapply bW_env.
  - by eapply writer_later.
  - by eapply pump_later.
  - destruct Lp as (_ & -> & ->). done.
  - unfold reader_ok. by rewrite ED.
  - destruct Lu as (_ & _ & _ & ->). done.
Qed.

Lemma kinv_pump_run k w f t :
  kinv k w -> k_pump k = PRun (Act f t) -> exists w', kinv (set_pumping (PRun (t (kc k))) (on_c (f (kc k)) k)) w'.
Proof.
  intros I E. pose proof (ki_pump _ _ I) as Ht. rewrite E in Ht.
  destruct (Ht w (kc k) (reflexivity _) (ki_c _ _ I)) as (w2 & Hg & B & Hs). exists w2.
  destruct (pump_moves _ _ Hg) as (L & Lu & Ld & ED). destruct (pools_later _ _ _ L I). destruct I as [Hb].
  pose proof (cw_P _ _ _ B) as HP. pose proof (len_nonneg (hP w2)).
  split; simpl; try done.
  - destruct Hg as (A & P & HA & _ & ->). eapply bW_env; try done. simpl in *. lia.
  - by eapply writer_later.
  - by eapply loop_later.
  - destruct Hg as (A & P & HA & EA & ->). simpl. by rewrite EA.
  - unfold reader_ok. by rewrite ED.
  - destruct Lu as (_ & _ & _ & ->). done.
Qed.

(** The reader's turn, on bytes that are the next ones of the destination. *)
Lemma kinv_reader k w fresh p err :
  kinv k w -> hD w ++ p = y_dest (k_y k) ++ fresh -> len (y_dest (k_y k) ++ fresh) < 2 ^ 64 -> y_reader (k_y k) <> RStopped ->
  (forall e, err = Some (Some e) -> str_len e <= maxString) ->
  exists w', kinv (reader_turn fresh p err k) w'.
Proof.
  intros I HD HL Hrd He. pose proof HL as HL'. rewrite <- HD, len_app in HL'.
  destruct (match p with [] => (kb k, PDone) | _ => produceDownstream p (kb k) end) as [b r] eqn:E.
  assert (exists q rest, p = q ++ rest /\ bW sid (set_dest (hD w ++ q) w) b /\ produce_rest r rest b) as (q & rest & -> & B & Hr).
  { destruct p as [|x p]; [|eapply bW_produce; [done|apply I|done|exact E]]. injection E as <- <-. exists [], []. split_and!; [done| |done].
    rewrite app_nil_r. pose proof (ki_b _ _ I). by destruct w. }
  set (w' := set_dest (hD w ++ q) w) in *. exists w'. rewrite len_app in HL'.
  assert (wle w w') as L by (split; simpl; [done|by apply prefix_app_r|lia|lia]).
  assert (rely_up w w' /\ rely_down w w' /\ rely_pump w w') as (Lu & Ld & Lp) by (unfold rely_up, rely_down, rely_pump; by split_and!).
  assert (cW sid w' (kc k)) as K.
  { eapply cW_env; [apply I|done..|]. simpl. rewrite len_app. pose proof (len_nonneg rest). lia. }
  destruct (pools_later _ _ _ L I). unfold reader_turn. rewrite E. apply kinv_spawn; [|by apply ord_read_end].
  destruct I. split; simpl; try done.
  - by eapply writer_later.
  - by eapply loop_later.
  - by eapply pump_later.
  - rewrite app_assoc in HD. destruct r; simpl in *; try (rewrite <- HD; by apply prefix_app_r).
    + rewrite Hr, app_nil_r in HD. destruct err; simpl; by rewrite ?app_nil_r, HD.
    + by destruct Hr as [-> _].
  - intros Hu. by destruct (ki_fresh0 Hu).
Qed.

Lemma reader_turn_sent fresh p err k :
  y_dest (k_y (reader_turn fresh p err k)) = y_dest (k_y k) ++ fresh /\
  y_agent (k_y (reader_turn fresh p err k)) = y_agent (k_y k).
Proof. unfold reader_turn. by destruct (match p with [] => _ | _ => _ end). Qed.

(** *** Every step *)

Lemma kinv_table k w created :
  kinv k w -> kinv (set_y (with_table created (y_dialed (k_y k)) (k_y k)) k) w.
Proof. by intros []. Qed.

Lemma kinv_pump_done k w r : kinv k w -> k_pump k = PRun (Ret r) -> kinv (pump_done r k) w.
Proof.
  intros I E. pose proof (ki_pump _ _ I) as Hp. rewrite E in Hp. destruct I. destruct r; simpl in *; split; simpl; rewrite ?app_nil_r; done.
Qed.

Lemma kinv_agent_write k w p :
  kinv k w -> k_pump k = PIdle -> y_upwait (k_y k) = [] -> len (y_agent (k_y k) ++ p) < 2 ^ 64 ->
  kinv (set_pumping (PRun (writeT (length p) p)) (set_y (with_agent p p (k_y k)) k)) (set_pump (hA w) p w).
Proof.
  intros I E1 E2 HA. pose proof (ki_pump _ _ I) as Hp. rewrite E1 in Hp. simpl in Hp. rewrite E2 in Hp.
  assert (rely_up w (set_pump (hA w) p w) /\ rely_down w (set_pump (hA w) p w)) as [Lu Ld] by (by repeat split).
  destruct (pools_later _ _ _ (proj1 Lu) I). destruct I as [Hb Hc _ _ Hwr Hlo _ PA PD Hdi].
  rewrite Hp, app_nil_r in PA. split; simpl; try done.
  - eapply bW_env; try done. apply (bi_A _ _ _ _ _ (bw_inv _ _ _ Hb)).
  - destruct Hc as [X1 X2 X3 X4 X5]. split; try done. simpl. by rewrite <- PA, len_app in HA.
  - by eapply writer_later.
  - by eapply loop_later.
  - by apply pump_write.
  - by rewrite PA.
Qed.

Lemma kinv_recv k w from f :
  kinv k w -> f ∈ sent_down from (k_y k) -> fSessionID f = cs_sessionID (cs (kc k)) -> k_loop k = None ->
  kinv (set_loop (Some (dispatchT f)) k) w.
Proof.
  intros I Hf Hs E. pose proof (ki_loop _ _ I) as Hl. rewrite E in Hl. rewrite (cW_sid _ _ _ (ki_c _ _ I)) in Hs.
  pose proof (loop_dispatch sid Hsid w f Hl (kinv_uw _ _ I) (frame_down _ _ _ _ I Hf) Hs). by destruct I.
Qed.

Lemma kinv_new_conn k w a tc cu cd :
  kinv k w -> str_len a <= maxString -> fw_clean cu -> fw_sent cu = [] -> fw_clean cd -> fw_sent cd = [] ->
  kinv (cspawn (_ ← connectT a tc cu; mret ()) (on_b (MkSst (ss (kb k)) (<[tc := cd]> (net (kb k))) (evs (kb k))) k)) w.
Proof.
  intros I Ha U1 U2 D1 D2. apply kinv_cspawn; [|eapply safe_bind; [by apply cord_connect|done]].
  apply kinv_b; [done|]. apply (bW_same sid Hsid w (kb k)); [apply same_refl| |apply I]. simpl.
  apply onet_ok_insert; [exact (bW_net _ _ _ (ki_b _ _ I))|done|by rewrite D2].
Qed.

Lemma kinv_handle k w from tc f :
  kinv k w -> f ∈ sent_up from (k_y k) -> fType f = TypePing \/ fSessionID f = s_sessionID (ss (kb k)) ->
  fType f <> TypeData -> kinv (handle tc f k) w.
Proof.
  intros I Hf Hs Hd. unfold handle. destruct (handleT tc f _) as [cr t] eqn:E. apply kinv_spawn; [by apply kinv_table|].
  replace t with (snd (handleT (C := C) tc f (y_created (k_y k)))) by (by rewrite E).
  rewrite (bW_sid _ _ _ (ki_b _ _ I)) in Hs. apply handle_ordinary; [|done|done]. by eapply frame_up.
Qed.

Lemma kinv_data k w from f :
  kinv k w -> f ∈ sent_up from (k_y k) -> fSessionID f = s_sessionID (ss (kb k)) -> fType f = TypeData -> k_writer k = None ->
  kinv (set_writer (Some (false, _ ← onDataT os_error (fOffset f) (fPayload f); mret false)) k) w.
Proof.
  intros I Hf Hs Hd E. pose proof (ki_writer _ _ I) as Hw. rewrite E in Hw. rewrite (bW_sid _ _ _ (ki_b _ _ I)) in Hs.
  pose proof (frame_up _ _ _ _ I Hf) as Hg.
  assert (at_offset (hA w) (fOffset f) (fPayload f)) as Hat by (by destruct Hg).
  destruct I. split; try done; [eapply safe_bind; [by apply writer_onData|done]|].
  intros [Hu|[u [=]]]. apply ki_fresh0. by left.
Qed.

Lemma kinv_dial k w r :
  kinv k w -> y_dialed (k_y k) = false -> k_writer k = None -> dial_result r ->
  kinv (set_writer (Some (true, dialT os_error r)) (set_y (with_table true true (k_y k)) k)) w.
Proof.
  intros I Hd E Hr. pose proof (ki_writer _ _ I) as Hw. rewrite E in Hw. pose proof (ki_dial _ _ I Hd) as Hu.
  destruct I. split; try done; [|by intros _; apply ki_fresh0; left].
  apply writer_dial; try done; [intros e ->; exact Hr|intros c ->; exact Hr].
Qed.

Lemma kinv_writer_done k w d go :
  kinv k w -> k_writer k = Some (d, Ret go) ->
  kinv (set_writer None (set_y (with_reader (if d && go then RNext else y_reader (k_y k)) [] (k_y k)) k)) w.
Proof.
  intros I E. pose proof (ki_writer _ _ I) as Hw. rewrite E in Hw. destruct I as [? ? ? ? ? ? ? ? PD ? HF HO].
  split; try done; simpl; rewrite app_nil_r.
  - destruct (d && go) eqn:Edg; [|done]. apply andb_true_iff in Edg as [-> ->]. simpl.
    destruct HF as [X1 X2]; [right; by eexists|]. rewrite X1, X2 in PD. simpl in PD. apply prefix_nil_inv in PD. by rewrite PD, X2.
  - intros [Hu|[u [=]]]. simpl in Hu. destruct HF as [X1 X2]; [by left|]. split; [|done].
    destruct d; [|done]. by rewrite (HO _ E) in Hu.
Qed.

Lemma kinv_step k k' w :
  kinv k w -> kstep os_error k k' -> len (y_agent (k_y k')) < 2 ^ 64 -> len (y_dest (k_y k')) < 2 ^ 64 -> exists w', kinv k' w'.
Proof.
  intros I S HA HD. pose proof (ki_c _ _ I) as K. pose proof (ki_b _ _ I) as B. destruct S.
  - eexists. by apply kinv_agent_write.
  - exists w. pose proof (ki_pump _ _ I) as Hp. rewrite H1 in Hp. destruct I. split; try done. by apply pump_write.
  - by eapply kinv_pump_run.
  - exists w. by apply kinv_pump_done.
  - exists w. by eapply kinv_recv.
  - by eapply kinv_loop_run.
  - exists w. pose proof (ki_loop _ _ I) as Hl. rewrite H1 in Hl. by destruct I.
  - exists w. by apply kinv_new_conn.
  - exists w. apply kinv_c; [done|]. unfold session_disconnect. destruct (decide _); [|done]. by eapply (cW_same _ _ (kc k)).
  - exists w. apply kinv_cspawn; [done|]. apply cord_send; [done|]. by constructor.
  - exists w. apply kinv_cspawn; [done|]. apply cord_send; [done|]. rewrite (cW_sid _ _ _ K).
    constructor. apply (ci_target _ _ _ _ _ (cw_inv _ _ _ K)).
  - exists w. apply kinv_cspawn; [done|]. by apply cord_closeUp.
  - exists w. by apply kinv_client_run.
  - exists w. apply kinv_c; [done|]. apply cW_put; [done| |done]. rewrite (cW_sid _ _ _ K) in *. by apply gu_other.
  - exists w. by eapply kinv_handle.
  - exists w. apply kinv_spawn; [done|]. by apply ord_detach.
  - exists w. apply kinv_spawn; [done|]. by apply ord_watchdog.
  - rewrite (proj1 (reader_turn_sent _ _ _ _)) in HD. eapply kinv_reader; [done| |done|congruence|done].
    pose proof (ki_D _ _ I) as PD. rewrite H1 in PD. simpl in PD. rewrite app_nil_r in PD. by rewrite PD.
  - rewrite (proj1 (reader_turn_sent _ _ _ _)) in HD. eapply kinv_reader; [done| |done|congruence|done].
    pose proof (ki_D _ _ I) as PD. rewrite H1 in PD. by rewrite app_nil_r.
  - exists w. by apply kinv_broker_run.
  - exists w. apply kinv_b; [done|]. destruct (tc_write tc f (kb k)) as [b ok] eqn:W. rewrite (bW_sid _ _ _ B) in *.
    eapply bW_tc_write; [done|exact W|by apply gd_other|done].
  - exists w. apply kinv_spawn; [done|]. apply ord_write. rewrite (bW_sid _ _ _ B). by constructor.
  - exists w. by eapply kinv_data.
  - exists w. by apply kinv_dial.
  - by eapply kinv_writer_run.
  - exists w. by apply kinv_writer_done.
Qed.

(** *** Every run *)

Lemma kstep_sent k k' :
  kstep os_error k k' -> len (y_agent (k_y k)) <= len (y_agent (k_y k')) /\ len (y_dest (k_y k)) <= len (y_dest (k_y k')).
Proof.
  intros S. pose proof (len_nonneg : forall l : list byte, 0 <= len l) as Hl.
  destruct S; simpl; rewrite ?len_app; try (split; first [lia|specialize (Hl p); lia]).
  - unfold pump_done. destruct r; simpl; rewrite ?app_nil_r; lia.
  - unfold handle. destruct (handleT _ _ _). simpl. lia.
  - destruct (reader_turn_sent p p err k) as [-> ->]. rewrite len_app. specialize (Hl p). lia.
  - destruct (reader_turn_sent [] rest err k) as [-> ->]. rewrite app_nil_r. lia.
  - change (len []) with 0. lia.
Qed.

Lemma ksteps_sent k k' :
  rtc (kstep os_error) k k' -> len (y_agent (k_y k)) <= len (y_agent (k_y k')) /\ len (y_dest (k_y k)) <= len (y_dest (k_y k')).
Proof. induction 1 as [|k k1 k' S _ IH]; [lia|]. pose proof (kstep_sent _ _ S). lia. Qed.

Lemma kinv_reachable k0 k :
  (exists w, kinv k0 w) -> rtc (kstep os_error) k0 k -> len (y_agent (k_y k)) < 2 ^ 64 -> len (y_dest (k_y k)) < 2 ^ 64 ->
  exists w, kinv k w.
Proof.
  intros I0 R HA HD. revert I0. induction R as [k0|k0 k1 k S R IH]; [done|].
  intros (w & I). apply IH; [done..|]. destruct (ksteps_sent _ _ R). eapply kinv_step; [done|done|lia|lia].
Qed.

Lemma kinv_initial target cbuf bbuf actorID cap cw :
  0 <= cbuf -> 0 <= bbuf -> str_len target <= maxString ->
  kinv (quiet (initial sid target cbuf bbuf actorID cap cw)) (MkWorld [] [] [] 0 0 0 0 false).
Proof.
  intros Hc Hb Ht. split; simpl; try done.
  - split; simpl; try done. split; simpl; try done. exists 0. split; [by apply rep_new|done].
  - split; simpl; try done; [|apply sink_ok_new]. split; simpl; try done; [|apply sink_ok_new].
    exists 0. split; [by apply rep_new|done].
Qed.

(** ** At rest *)

(** The goroutines that move bytes are between two pieces of work. *)
Definition at_rest k : bool :=
  match k_pump k, k_loop k, k_writer k with PIdle, None, None => true | _, _, _ => false end.

(** Whatever interleaving led here, the state is one that handlers running one
    after the other could have left. *)
Lemma at_rest_yinv k w :
  kinv k w -> at_rest k = true -> y_reader (k_y k) <> RStopped -> yinv sid (k_y k) (hA w) (hD w).
Proof.
  unfold at_rest. intros [B K _ _ Hw Hl Hp PA PD _ HF _] Hr Hrd.
  destruct (k_pump k); try done. destruct (k_loop k); [done|]. destruct (k_writer k); [done|]. simpl in Hw, Hl, Hp.
  destruct B as [IB KB UB LB PB NB], K as [IC KC UC LC PC]. unfold idle_up, idle_down in *.
  assert (hD w ++ reader_wait (y_reader (k_y k)) = y_dest (k_y k)) as ED by (by destruct (y_reader (k_y k))).
  split.
  - rewrite UB. destruct IC as [X1 X2 X3 X4 X5 X6 X7]. split; try done. rewrite UC, <- Hl. exact KC.
  - rewrite UC. destruct IB as [X1 X2 X3 X4 X5 X6]. split; try done. simpl in X5. unfold counted in X5.
    destruct (s_upstream (ss (kb k))) as [u|]; [|exact X5]. destruct X5 as (X8 & X9 & _). split_and!; [done|done|].
    rewrite UB, <- Hw. by apply KB.
  - by rewrite <- Hp, PA.
  - intros _. by rewrite <- Hp, PA.
  - by rewrite ED.
  - by intros _.
  - intros Hd. destruct (HF (or_introl Hd)). done.
Qed.
End inv.

(** ** Properties *)

(** C6. End-to-end safety, interrupted anywhere.  Let the goroutines of both
    processes stop between any two of their critical sections and blocking
    writes while any others run: frame handlers of several tunnel connections,
    the reader's follow-ups, detaches, the watchdog, the pump, the read loop,
    reconnects, closes, for buffers of any size and any loss, duplication and
    reordering of frames.  As long as no two of the tasks that write upstream
    overlap, what the destination has received is a prefix of what the agent
    sent, what the agent has received is a prefix of what the destination sent,
    and neither replay buffer has forgotten a byte its peer has not counted. *)
Theorem concurrent_streams_exact {C : Type} `{FrameWriterLaws C}
    (sid cbuf bbuf : Z) (target actorID os_error : string) (cap : option nat) (cw : bool) (k : conc C)
    (Hsid : is_u64 sid) (Ht : str_len target <= maxString) (Hos : str_len os_error <= maxString)
    (Hcb : 0 <= cbuf) (Hbb : 0 <= bbuf)
    (R : rtc (kstep os_error) (quiet (initial sid target cbuf bbuf actorID cap cw)) k)
    (HA : len (y_agent (k_y k)) < 2 ^ 64) (HD : len (y_dest (k_y k)) < 2 ^ 64) :
  (forall u, s_upstream (ss (kb k)) = Some u -> sk_out u `prefix_of` y_agent (k_y k)) /\
  sk_out (cs_agent (cs (kc k))) `prefix_of` y_dest (k_y k) /\
  Base (cs_upBuf (cs (kc k))) <= s_upstreamWritten (ss (kb k)) /\
  Base (s_downBuf (ss (kb k))) <= cs_downDelivered (cs (kc k)).
Proof.
  assert (exists w, kinv sid k w) as (w & I).
  { eapply (kinv_reachable sid Hsid os_error Hos); [|exact R|done|done]. eexists. by apply kinv_initial. }
  destruct I as [B K _ _ _ _ _ PA PD _ _ _]. split_and!.
  - intros u Hu. etrans; [eapply sink_prefix, (bw_sink _ _ _ B _ Hu)|]. rewrite <- PA. by apply prefix_app_r.
  - etrans; [eapply sink_prefix, (cw_sink _ _ _ K)|]. destruct (y_reader (k_y k)); simpl in PD; [|done|]; rewrite <- PD; by apply prefix_app_r.
  - destruct (ci_up _ _ _ _ _ (cw_inv _ _ _ K)) as (a & Ra & ?). simpl in Ra. unfold Base.
    by rewrite (rep_base _ _ Ra), (bw_uw _ _ _ B).
  - destruct (bi_down _ _ _ _ _ (bw_inv _ _ _ B)) as (a & Ra & ?). simpl in Ra. unfold Base.
    by rewrite (rep_base _ _ Ra), (cw_dl _ _ _ K).
Qed.

(** C7. Recovery after any interleaving in which no two upstream writers of the
    session overlapped, with replay buffers of any size.  However the goroutines of
    both ends were interleaved, suspended and cut off before, once the pump, the
    read loop and the upstream writer have come to rest, as long as nothing was
    torn down, fewer than 2^64 bytes were sent either way, both sockets take writes, the destination has not ended its stream
    and what either side has to send again fits in one frame ([MaxPayload]), one
    reconnect over a connection that works delivers everything in two round trips:
    the destination has then received every byte the pump has handed over, the
    agent every byte the broker has read (all but what a blocked pump or reader
    still holds), and the sidecar's replay buffer is empty. *)
Theorem concurrent_reconnect_heals {C : Type} `{FrameWriterLaws C}
    (sid cbuf bbuf : Z) (target actorID os_error : string) (cap : option nat) (cw : bool) (k : conc C)
    (tc : nat) (cu cd : C) (u : sock)
    (Hsid : is_u64 sid) (Ht : str_len target <= maxString) (Hos : str_len os_error <= maxString)
    (Ha : str_len actorID <= maxString) (Hcb : 0 <= cbuf) (Hbb : 0 <= bbuf)
    (R : rtc (kstep os_error) (quiet (initial sid target cbuf bbuf actorID cap cw)) k)
    (HA : len (y_agent (k_y k)) < 2 ^ 64) (HD : len (y_dest (k_y k)) < 2 ^ 64)
    (Hfit : replays_fit (k_y k)) (Hrest : at_rest k = true) (Hrd : y_reader (k_y k) <> RStopped)
    (Hcr : y_created (k_y k) = true) (Hcd : cs_dead (cs (kc k)) = false) (Hbd : s_dead (ss (kb k)) = false)
    (Hag : sock_healthy (cs_agent (cs (kc k))))
    (Hu : s_upstream (ss (kb k)) = Some u) (Huh : sock_healthy u)
    (Wu : works cu []) (Wd : works cd []) :
  exists y' ku kd u', heal os_error actorID tc cu cd (k_y k) = (y', ku, kd) /\
    drop ku (sent_up tc y') = [] /\ drop kd (sent_down tc y') = [] /\
    s_upstream (ss (y_b y')) = Some u' /\ y_agent (k_y k) = sk_out u' ++ y_upwait (k_y k) /\
    y_dest (k_y k) = sk_out (cs_agent (cs (y_c y'))) ++ reader_wait (y_reader (k_y k)) /\
    Len (cs_upBuf (cs (y_c y'))) = 0.
Proof.
  assert (exists w, kinv sid k w) as (w & I).
  { eapply (kinv_reachable sid Hsid os_error Hos); [|exact R|done|done]. eexists.
    by apply kinv_initial. }
  pose proof (at_rest_yinv sid k w I Hrest Hrd) as Y.
  destruct (heal_spec sid Hsid os_error Hos (k_y k) (hA w) (hD w) actorID tc cu cd u Y)
    as (y' & ku & kd & E & Q1 & Q2 & (u' & Hu' & Ho) & Oa & Ub & _); try done.
  exists y', ku, kd, u'. rewrite Ho, Oa. split_and!; try done; by apply Y.
Qed.
