(* ===== verification/Schedules.v ===== *)
(** * Schedules: runs of the concurrent session, step by step

    An executable scheduler for [Concurrent]: a [move] names the goroutine that
    goes next, [exec] lets it take one step, and [play] is sound for [kstep]
    ([play_reaches]).  With it, two interleavings in which the response to a
    pending request does not resume its suspended actor. *)
From S2P Require Import Prelude ReplayBuffer Socket Wire Link BrokerSession Sidecar BrokerStream SidecarStream.
From S2P Require Import System Interleavings Tasks BrokerTasks SidecarTasks ConcInv ConcClient Concurrent.

#[local] Existing Instance all_owned.

Inductive move : Type :=
| MWrite (p : list byte)                                (* the agent sends *)
| MPump
| MConnect (actorID : string) (tc : nat) (cap : option nat) (* cap: what the broker's side still takes *)
| MClient (i : nat)
| MRecvDown (from i : nat)                              (* the i-th frame ever sent on a connection *)
| MLoop
| MRecvUp (from i : nat)
| MBroker (i : nat)
| MDial
| MWriter
| MRead (p : list byte)
| MDetach (tc : nat)
| MWatchdog.

(** Let the [i]-th goroutine of a pool take a step. *)
Definition pick {S} (i : nat) (l : list (task S unit)) (s : S) : option (S * list (task S unit)) :=
  match l !! i with
  | Some (Act f t) => Some (f s, take i l ++ t s :: drop (Datatypes.S i) l)
  | _ => None
  end.

Section exec.
Context (os_error : string).

Definition exec (m : move) (k : conc Conn) : option (conc Conn) :=
  match m with
  | MWrite p =>
      match k_pump k, y_upwait (k_y k) with
      | PIdle, [] => Some (set_pumping (PRun (writeT (length p) p)) (set_y (with_agent p p (k_y k)) k))
      | _, _ => None
      end
  | MPump =>
      match k_pump k with
      | PRun (Act f t) => Some (set_pumping (PRun (t (kc k))) (on_c (f (kc k)) k))
      | PRun (Ret r) => Some (pump_done r k)
      | _ => None
      end
  | MConnect a tc cap =>
      if str_len a <=? maxString then
        Some (cspawn (_ ← connectT a tc (NewConn new_sock); mret ())
          (on_b (MkSst (ss (kb k)) (<[tc := NewConn (MkSock [] cap false false)]> (net (kb k))) (evs (kb k))) k))
      else None
  | MClient i => match pick i (k_cpool k) (kc k) with Some (c, l) => Some (set_cpool l (on_c c k)) | None => None end
  | MRecvDown from i =>
      match sent_down from (k_y k) !! i, k_loop k with
      | Some f, None => if fSessionID f =? cs_sessionID (cs (kc k)) then Some (set_loop (Some (dispatchT f)) k) else None
      | _, _ => None
      end
  | MLoop =>
      match k_loop k with
      | Some (Act f t) => Some (set_loop (Some (t (kc k))) (on_c (f (kc k)) k))
      | Some (Ret ()) => Some (set_loop None k)
      | None => None
      end
  | MRecvUp from i =>
      match sent_up from (k_y k) !! i with
      | None => None
      | Some f =>
          if negb (fSessionID f =? s_sessionID (ss (kb k))) then None
          else if fType f =? TypeData then
            match k_writer k, y_created (k_y k) with
            | None, true => Some (set_writer (Some (false, _ ← onDataT os_error (fOffset f) (fPayload f); mret false)) k)
            | _, _ => None
            end
          else Some (handle from f k)
      end
  | MBroker i => match pick i (k_bpool k) (kb k) with Some (b, l) => Some (set_bpool l (on_b b k)) | None => None end
  | MDial =>
      match y_created (k_y k), y_dialed (k_y k), k_writer k with
      | true, false, None =>
          Some (set_writer (Some (true, dialT os_error (Ok new_sock))) (set_y (with_table true true (k_y k)) k))
      | _, _, _ => None
      end
  | MWriter =>
      match k_writer k with
      | Some (d, Act f t) => Some (set_writer (Some (d, t (kb k))) (on_b (f (kb k)) k))
      | Some (d, Ret go) =>
          Some (set_writer None (set_y (with_reader (if d && go then RNext else y_reader (k_y k)) [] (k_y k)) k))
      | None => None
      end
  | MRead p => match y_reader (k_y k) with RNext => Some (reader_turn p p None k) | _ => None end
  | MDetach tc => Some (spawn (detachT tc) k)
  | MWatchdog => Some (spawn watchdogT k)
  end.

Fixpoint play (ms : list move) (k : conc Conn) : option (conc Conn) :=
  match ms with
  | [] => Some k
  | m :: ms => match exec m k with Some k' => play ms k' | None => None end
  end.

Lemma pick_split {S} i (l : list (task S unit)) s s' l' :
  pick i l s = Some (s', l') -> exists l1 f t l2, l = l1 ++ Act f t :: l2 /\ s' = f s /\ l' = l1 ++ t s :: l2.
Proof.
  unfold pick. destruct (l !! i) as [[|f t]|] eqn:E; try done. intros [= <- <-].
  exists (take i l), f, t, (drop (Datatypes.S i) l). split_and!; [|done|done]. by rewrite (take_drop_middle _ _ _ E).
Qed.

Lemma new_conn_clean cap : fw_clean (NewConn (MkSock [] cap false false)) /\ fw_sent (NewConn (MkSock [] cap false false)) = [].
Proof. split; [|done]. exists [], []. split_and!; [done|done|by apply wt_boundary]. Qed.

Lemma exec_step m k k' : exec m k = Some k' -> kstep os_error k k'.
Proof.
  destruct m as [p| |a tc cap|i|from i| |from i|i| | |p|tc|]; cbn [exec].
  - destruct (k_pump k) eqn:E1; try done. destruct (y_upwait (k_y k)) eqn:E2; intros [= <-]. by constructor.
  - destruct (k_pump k) as [|[r|f t]|] eqn:E; intros [= <-]; by constructor.
  - destruct (Z.leb_spec (str_len a) maxString) as [Ha|]; [|done]. intros E%(inj Some). rewrite <- E.
    destruct (new_conn_clean None) as [U1 U2], (new_conn_clean cap) as [D1 D2].
    exact (KConnect os_error k a tc (NewConn new_sock) _ Ha U1 U2 D1 D2).
  - destruct (pick i _ _) as [[c l]|] eqn:E; intros [= <-]. apply pick_split in E as (l1 & f & t & l2 & E & -> & ->). by apply KClient.
  - destruct (sent_down from (k_y k) !! i) as [f|] eqn:E; [|done]. destruct (k_loop k) eqn:E2; [done|].
    destruct (Z.eqb_spec (fSessionID f) (cs_sessionID (cs (kc k)))); intros [= <-].
    apply (KClientRecv _ _ from); [by eapply list_elem_of_lookup_2|done|done].
  - destruct (k_loop k) as [[[]|f t]|] eqn:E; intros [= <-]; by constructor.
  - destruct (sent_up from (k_y k) !! i) as [f|] eqn:E; [|done]. apply list_elem_of_lookup_2 in E.
    destruct (Z.eqb_spec (fSessionID f) (s_sessionID (ss (kb k)))) as [Es|]; [|done]. cbn [negb].
    destruct (Z.eqb_spec (fType f) TypeData).
    + destruct (k_writer k) eqn:E1; [done|]. destruct (y_created (k_y k)) eqn:E2; intros [= <-]. by eapply KData.
    + intros [= <-]. eapply KHandle; [done|by right|done].
  - destruct (pick i _ _) as [[b l]|] eqn:E; intros [= <-]. apply pick_split in E as (l1 & f & t & l2 & E & -> & ->). by apply KBroker.
  - destruct (y_created (k_y k)) eqn:E1; [|done]. destruct (y_dialed (k_y k)) eqn:E2; [done|]. destruct (k_writer k) eqn:E3; [done|].
    intros E%(inj Some). rewrite <- E. by apply KDial; [..|exists None].
  - destruct (k_writer k) as [[d [go|f t]]|] eqn:E; intros [= <-]; by constructor.
  - destruct (y_reader (k_y k)) eqn:E; intros [= <-]. by apply KRead.
  - intros [= <-]. constructor.
  - intros [= <-]. constructor.
Qed.

Lemma play_reaches ms k k' : play ms k = Some k' -> rtc (kstep os_error) k k'.
Proof.
  revert k. induction ms as [|m ms IH]; intros k; simpl; [intros [= <-]; apply rtc_refl|].
  destruct (exec m k) as [k1|] eqn:E; [|done]. intros P. eapply rtc_l; [by eapply exec_step|by apply IH].
Qed.

(** The state a schedule ends in, when every move of it is possible. *)
Definition after (ms : list move) (k : conc Conn) : conc Conn := default k (play ms k).
Definition possible (ms : list move) (k : conc Conn) : bool := match play ms k with Some _ => true | None => false end.

Lemma after_reaches ms k : possible ms k = true -> rtc (kstep os_error) k (after ms k).
Proof. unfold possible, after. destruct (play ms k) as [k'|] eqn:E; [|done]. intros _. by apply (play_reaches ms). Qed.

Lemma after_eq ms k : possible ms k = true -> play ms k = Some (after ms k).
Proof. unfold possible, after. by destruct (play ms k). Qed.

Lemma after_one_eq m k : possible [m] k = true -> exec m k = Some (after [m] k).
Proof. unfold possible, after. simpl. by destruct (exec m k). Qed.

Lemma after_one m k : possible [m] k = true -> kstep os_error k (after [m] k).
Proof. unfold possible, after. simpl. destruct (exec m k) as [k'|] eqn:E; [|done]. intros _. by apply (exec_step m). Qed.
End exec.

(** ** Schedules of one working connection *)

(** The broker's loop for a connection is done with the frame before. *)
Definition broker_free (k : conc Conn) : bool :=
  match k_writer k with None => true | Some _ => false end &&
  forallb (fun t => match t with Ret _ => true | Act _ _ => false end) (k_bpool k).

(** A schedule in which connection 0 is the only one, is never cut off, and hands
    every frame over once, in the order of sending, each after the one before has
    been handled.  [up] and [down] count what has been taken off it; HELLO, frame
    0 of the upward direction, is taken by the accepting loop. *)
Fixpoint fifo_play (os_error : string) (ms : list move) (up down : nat) (k : conc Conn) : option (conc Conn * nat * nat) :=
  match ms with
  | [] => Some (k, up, down)
  | m :: ms =>
      let ok := match m with
                | MRecvUp from i => (from =? 0)%nat && (i =? up)%nat && broker_free k
                | MRecvDown from i => (from =? 0)%nat && (i =? down)%nat
                | MConnect _ tc cap => (tc =? 0)%nat && bool_decide (cap = None) && bool_decide (sent_up 0 (k_y k) = [])
                | MDetach _ => false
                | _ => true
                end in
      let up := match m with MRecvUp _ _ => Datatypes.S up | _ => up end in
      let down := match m with MRecvDown _ _ => Datatypes.S down | _ => down end in
      if ok then match exec os_error m k with Some k' => fifo_play os_error ms up down k' | None => None end
      else None
  end.

Lemma fifo_play_reaches os_error ms up down k k' nu nd :
  fifo_play os_error ms up down k = Some (k', nu, nd) -> rtc (kstep os_error) k k'.
Proof.
  revert up down k. induction ms as [|m ms IH]; intros up down k; cbn [fifo_play]; [intros [= <- _ _]; apply rtc_refl|].
  destruct (match m with MRecvUp _ _ => _ | _ => _ end); [|done].
  destruct (exec os_error m k) as [k1|] eqn:E; [|done]. intros P. eapply rtc_l; [by eapply exec_step|by eapply IH].
Qed.

(** The final state and the counts of such a schedule. *)
Definition fifo_after (os_error : string) (ms : list move) (s : conc Conn * nat * nat) : conc Conn * nat * nat :=
  let '(k, up, down) := s in default s (fifo_play os_error ms up down k).

Definition fifo_possible (os_error : string) (ms : list move) (s : conc Conn * nat * nat) : bool :=
  let '(k, up, down) := s in match fifo_play os_error ms up down k with Some _ => true | None => false end.

Lemma fifo_after_eq os_error ms s :
  fifo_possible os_error ms s = true -> let s' := fifo_after os_error ms s in
  fifo_play os_error ms (snd (fst s)) (snd s) (fst (fst s)) = Some (fst (fst s'), snd (fst s'), snd s').
Proof.
  destruct s as [[k up] down]. unfold fifo_possible, fifo_after. simpl. destruct (fifo_play _ _ _ _ _) as [[[? ?] ?]|]; done.
Qed.

Lemma holds_some {A} (x : option A) : (match x with Some _ => true | None => false end) = true -> is_Some x.
Proof. destruct x; [eauto|done]. Qed.

(** ** Two schedules *)

Definition start : conc Conn := quiet (initial 1 "mcp:80" 64 64 "ns/a" None true).
Definition os : string := "broken pipe".

(** Connect, attach, dial: the session is up on connection 0. *)
Definition setup (cap : option nat) : list move :=
  [MConnect "ns/a" 0 cap] ++ repeat (MClient 0) 4 ++ [MRecvUp 0 1] ++ repeat (MBroker 0) 4 ++ [MDial; MWriter; MWriter].

(** The agent's request is on its way upstream, and written but not counted yet. *)
Definition in_commit : list move :=
  setup (Some 17%nat) ++ [MWrite [x47; x45; x54]] ++ repeat MPump 4 ++ [MRecvUp 0 2; MWriter; MWriter].
(** The rest of that handler, and the end of the connection. *)
Definition after_commit : list move := [MWriter; MWriter; MWriter; MDetach 0; MBroker 2].

(** A request has been written upstream but not counted yet when its response
    comes back and finds the tunnel broken. *)
Definition commit_window : list move := in_commit ++ MRead [x61; x62] :: after_commit.

(** The agent has its first response, which the read loop has not acknowledged. *)
Definition responded : list move :=
  setup None ++ [MRecvDown 0 0; MLoop; MLoop; MWrite [x47; x31]] ++ repeat MPump 4 ++ [MRecvUp 0 2] ++ repeat MWriter 6 ++
  [MRecvDown 0 1; MLoop; MLoop; MRead [x61; x62]; MRecvDown 0 2; MLoop; MLoop].
(** The agent's second request, and everything that follows by itself. *)
Definition overtaken_ack : list move :=
  [MWrite [x47; x32]] ++ repeat MPump 4 ++ repeat MLoop 4 ++
  [MRecvUp 0 3] ++ repeat MWriter 6 ++ [MRecvUp 0 4; MBroker 2] ++ [MRecvDown 0 3] ++ repeat MLoop 2.

(** Nobody has anything left to do. *)
Definition settled (k : conc Conn) : bool :=
  match k_pump k, k_loop k with PIdle, None => true | _, _ => false end && broker_free k &&
  forallb (fun t => match t with Ret _ => true | Act _ _ => false end) (k_cpool k).

(** C39. A response that arrives while [onData] is between its upstream write and
    the section that counts it loses its wake.  There is a run into such a state:
    the handler is running, the destination has been written more than the
    session has counted, no request is outstanding as far as it knows, and the
    tunnel is bound.  If the response is read now and its tunnel write fails, the
    tunnel is unbound and no wake is asked for; the handler then finishes and the
    connection's own detach comes too late.  When everything has settled the
    session is alive, has its request outstanding, is detached and owes the agent
    the response, and nobody has asked for a resume; only the watchdog is armed.
    From the same state, had the handler finished before the same response was
    read, the resume would have been asked for. *)
Theorem commit_window_loses_wake :
  exists k1 k2 k u k', rtc (kstep os) start k1 /\
    (* inside the handler *)
    is_Some (k_writer k1) /\ s_upstream (ss (kb k1)) = Some u /\ s_upstreamWritten (ss (kb k1)) < len (sk_out u) /\
    s_requestOutstanding (ss (kb k1)) = false /\ s_tconn (ss (kb k1)) = Some 0%nat /\
    (* the response, then the rest of the handler and the detach *)
    exec os (MRead [x61; x62]) k1 = Some k2 /\ s_tconn (ss (kb k2)) = None /\
    play os after_commit k2 = Some k /\ settled k = true /\ s_dead (ss (kb k)) = false /\ owed (ss (kb k)) /\
    evs (kb k) = [] /\ s_watchdog (ss (kb k)) = Some true /\
    (* the other order *)
    play os (repeat MWriter 5 ++ [MRead [x61; x62]]) k1 = Some k' /\
    EvWake "ns/a" "downstream data on pending session" ∈ evs (kb k').
Proof.
  set (k1 := after os in_commit start). set (k2 := after os [MRead [x61; x62]] k1).
  exists k1, k2, (after os after_commit k2), (MkSock [x47; x45; x54] None false false), (after os (repeat MWriter 5 ++ [MRead [x61; x62]]) k1).
  split; [apply after_reaches; vm_compute; reflexivity|].
  split; [apply holds_some; vm_compute; reflexivity|].
  do 4 (split; [vm_compute; reflexivity|]). split; [apply after_one_eq; vm_compute; reflexivity|].
  split; [vm_compute; reflexivity|]. split; [apply after_eq; vm_compute; reflexivity|].
  do 2 (split; [vm_compute; reflexivity|]). split; [split; [split; vm_compute; reflexivity|left; vm_compute; reflexivity]|].
  do 2 (split; [vm_compute; reflexivity|]). split; [apply after_eq; vm_compute; reflexivity|]. Demo.in_list.
Qed.

(** C37. A suspended actor that nothing resumes, over one connection that loses,
    repeats and reorders nothing.  The read loop hands the agent its response
    before it counts and acknowledges it: there is a run into a state in which the
    agent has the whole response and no ACK for it has been sent.  If the agent
    sends its next request now, it goes onto the wire before that ACK.  The broker
    handles both in the order they were sent, and so does the sidecar with what
    comes back, until every frame has been handled: the destination has then
    received both requests and has answered only the first, yet nothing that can
    still happen to the session short of more bytes from the agent (the detach,
    the answer, a close, the watchdog) asks for a resume. *)
Theorem overtaken_ack_strands_actor :
  exists k1 n1 m1 k n m u,
    fifo_play os responded 1 0 start = Some (k1, n1, m1) /\
    y_agent (k_y k1) = [x47; x31] /\ y_dest (k_y k1) = [x61; x62] /\ sk_out (cs_agent (cs (kc k1))) = y_dest (k_y k1) /\
    sent_up 0 (k_y k1) = [HelloF "ns/a"; AttachF 1 0 "mcp:80"; DataF 1 0 [x47; x31]] /\
    (* the agent writes [x47; x32] and everything settles *)
    fifo_play os overtaken_ack n1 m1 k1 = Some (k, n, m) /\ rtc (kstep os) start k /\ settled k = true /\
    sent_up 0 (k_y k) =
      [HelloF "ns/a"; AttachF 1 0 "mcp:80"; DataF 1 0 [x47; x31]; DataF 1 2 [x47; x32]; AckF 1 2] /\
    n = length (sent_up 0 (k_y k)) /\ m = length (sent_down 0 (k_y k)) /\
    s_dead (ss (kb k)) = false /\ s_upstream (ss (kb k)) = Some u /\ sk_out u = [x47; x31; x47; x32] /\
    y_dest (k_y k) = [x61; x62] /\
    forall ops a r, Forall (fun o => feeds o = false) ops ->
      EvWake a r ∉ evs (foldl (fun st o => sexec os o st) (kb k) ops).
Proof.
  set (s1 := fifo_after os responded (start, 1%nat, 0%nat)). set (s2 := fifo_after os overtaken_ack s1).
  exists (fst (fst s1)), (snd (fst s1)), (snd s1), (fst (fst s2)), (snd (fst s2)), (snd s2),
    (MkSock [x47; x31; x47; x32] None false false).
  pose proof (fifo_after_eq os responded (start, 1%nat, 0%nat) ltac:(vm_compute; reflexivity)) as E1.
  pose proof (fifo_after_eq os overtaken_ack s1 ltac:(vm_compute; reflexivity)) as E2.
  split; [exact E1|]. do 4 (split; [vm_compute; reflexivity|]). split; [exact E2|].
  split; [etrans; eapply fifo_play_reaches; [exact E1|exact E2]|].
  do 8 (split; [vm_compute; reflexivity|]). intros ops a r HF Hw. apply quiescent_never_wakes in Hw; [|vm_compute; reflexivity|done].
  assert (evs (kb (fst (fst s2))) = []) as E by (vm_compute; reflexivity). rewrite E in Hw. by apply elem_of_nil in Hw.
Qed.

(** ** Witness *)

(** In the middle of [onData]: written upstream, not counted, and the response
    already produced. *)
Definition halfway : conc Conn := after os (in_commit ++ [MRead [x61; x62]]) start.

Lemma concurrent_streams_exact_witness :
  (exists u, s_upstream (ss (kb halfway)) = Some u /\ sk_out u = [x47; x45; x54]) /\
  s_upstreamWritten (ss (kb halfway)) = 0 /\
  forall u, s_upstream (ss (kb halfway)) = Some u -> sk_out u `prefix_of` y_agent (k_y halfway).
Proof.
  split; [exists (MkSock [x47; x45; x54] None false false); split; vm_compute; reflexivity|].
  split; [vm_compute; reflexivity|].
  apply (concurrent_streams_exact 1 64 64 "mcp:80" "ns/a" os None true halfway).
  6: apply after_reaches; vm_compute; reflexivity.
  all: vm_compute; repeat split; first [reflexivity | discriminate].
Defined.

(** The session that lost its wake: if its sidecar ever reconnects, all is well. *)
Lemma concurrent_reconnect_heals_witness :
  let k := after os commit_window start in
  exists y' ku kd u', heal os "ns/a" 1 (NewConn new_sock) (NewConn new_sock) (k_y k) = (y', ku, kd) /\
    drop ku (sent_up 1 y') = [] /\ drop kd (sent_down 1 y') = [] /\
    s_upstream (ss (y_b y')) = Some u' /\ y_agent (k_y k) = sk_out u' ++ y_upwait (k_y k) /\
    y_dest (k_y k) = sk_out (cs_agent (cs (y_c y'))) ++ reader_wait (y_reader (k_y k)) /\
    Len (cs_upBuf (cs (y_c y'))) = 0.
Proof.
  apply (concurrent_reconnect_heals 1 64 64 "mcp:80" "ns/a" os None true (after os commit_window start) 1
    (NewConn new_sock) (NewConn new_sock) (MkSock [x47; x45; x54] None false false)).
  7: apply after_reaches; vm_compute; reflexivity.
  all: first [exact Demo.new_conn_works | vm_compute; repeat split; first [reflexivity | discriminate]].
Defined.
