(* ===== verification/WakeWindow.v ===== *)
(** * WakeWindow: where a wake can be lost, in any interleaving

    [Schedules.commit_window_loses_wake] shows one window in which a session
    comes to owe its detached agent a response with nobody asking for a resume.
    Here: it is the only one.  [each] says something of every step a task will
    ever take, in whatever state it finds; [announced] is that a step after which
    the session owes something either is followed by the same goroutine's wake,
    or is the one that counts a request as outstanding, with the watchdog armed. *)
From S2P Require Import Prelude ReplayBuffer Socket Wire BrokerSession Sidecar BrokerStream.
From S2P Require Import System Tasks BrokerTasks SidecarTasks Concurrent Schedules.

Section window.
Context {C : Type} `{FrameWriter C} (os_error : string).
Implicit Types (st : sst C).

Abbreviation proc A := (task (sst C) A).
Abbreviation ro st := (s_requestOutstanding (ss st)).

(** The next thing a goroutine does is call [b.wake]. *)
Definition wake_next {A} (t : proc A) : Prop := exists reason f k, t = Act f k /\ forall st, f st = wake reason st.

(** [d]: the dial, whose request bytes were queued before the connection. *)
Definition announced (d : bool) {A} st st' (t : proc A) : Prop :=
  ~ owed (ss st) -> owed (ss st') ->
  wake_next t \/ (ro st = false /\ ro st' = true /\ (d = true \/ s_watchdog (ss st') = Some true)).

Fixpoint each (d : bool) {A} (t : proc A) : Prop :=
  match t with Ret _ => True | Act f k => forall st, announced d st (f st) (k st) /\ each d (k st) end.

Lemma wake_next_bind {A B} (t : proc A) (g : A -> proc B) : wake_next t -> wake_next (t ≫= g).
Proof. intros (r & f & k & -> & E). by exists r, f, (fun s => k s ≫= g). Qed.

Lemma each_bind d {A B} (t : proc A) (g : A -> proc B) : each d t -> (forall a, each d (g a)) -> each d (t ≫= g).
Proof.
  intros Ht Hg. induction t as [a|f k IH]; [apply Hg|]. intros st. destruct (Ht st) as [Ha Hk]. split; [|by apply IH].
  intros N O. destruct (Ha N O); [left; by apply wake_next_bind|by right].
Qed.

(** Steps that only ever cancel a debt. *)
Definition calm (f : sst C -> sst C) : Prop := forall st, owed (ss (f st)) -> owed (ss st).

Lemma each_act d {A} f (k : sst C -> proc A) : calm f -> (forall st, each d (k st)) -> each d (Act f k).
Proof. intros Hf Hk st. split; [|apply Hk]. intros N O. by apply Hf in O. Qed.

Lemma each_modify d f : calm f -> each d (modify f).
Proof. intros Hf. by apply each_act. Qed.

Lemma each_atomic d {A B} (f : sst C -> sst C * A) (g : A -> proc B) :
  calm (fun st => fst (f st)) -> (forall a, each d (g a)) -> each d (atomic f ≫= g).
Proof. intros Hf Hg. apply each_act; [done|]. intros st. apply Hg. Qed.

Lemma each_observe d {A B} (f : sst C -> A) (g : A -> proc B) : (forall a, each d (g a)) -> each d (observe f ≫= g).
Proof. intros Hg. apply each_act; [by intros st|]. intros st. apply Hg. Qed.

Lemma calm_upd f :
  (forall s, s_tconn (f s) = s_tconn s /\ s_requestOutstanding (f s) = s_requestOutstanding s /\
             s_downBuf (f s) = s_downBuf s /\ s_downClosed (f s) = s_downClosed s) -> calm (upd f).
Proof. intros Hf st. destruct (Hf (ss st)) as (E1 & E2 & E3 & E4). unfold owed, pend_det. simpl. by rewrite E1, E2, E3, E4. Qed.

Lemma calm_tc_write tc f : calm (fun st => fst (tc_write tc f st)).
Proof. intros st. destruct (tc_write tc f st) as [st' ok] eqn:E. apply tc_write_ss in E as [E _]. simpl. by rewrite E. Qed.

Lemma calm_up_write q : calm (fun st => fst (up_write q st)).
Proof.
  intros st. destruct (up_write q st) as [st' ok] eqn:E. apply up_write_ss in E as [[->|[u ->]] _]; [done|].
  by apply (calm_upd (set_upstream (Some u))).
Qed.

(** ** Every task *)

Lemma each_wake d r : each d (wakeT r).
Proof. apply each_modify. by intros st. Qed.

(** Unbinding a pending session that holds something is followed by the wake. *)
Lemma each_detach d tc : each d (detachT tc).
Proof.
  intros st. cbn. split; [|destruct (decide _); [destruct (_ && _)|]; [apply each_wake|done..]].
  destruct (decide _) as [E|E]; [|by intros N O]. simpl. intros _ [[_ R] O]. simpl in *. left. rewrite R.
  replace ((Len (s_downBuf (ss st)) >? 0) || s_downClosed (ss st)) with true; [by eexists _, _, _|].
  symmetry. destruct O as [O| ->]; [|apply orb_true_r]. apply orb_true_iff. left. apply Z.gtb_lt. lia.
Qed.

Lemma each_send d f : each d (sendT f).
Proof. apply each_observe. intros [tc|]; [|done]. apply each_atomic; [apply calm_tc_write|]. intros []; [done|apply each_detach]. Qed.

Lemma each_destroy d : each d destroyT.
Proof.
  apply each_act.
  - intros st. simpl. destruct (s_dead (ss st)); [done|]. by apply (calm_upd (fun s => set_watchdog _ (set_upstream _ (set_dead true s)))).
  - intros st. simpl. destruct (s_dead (ss st)); [done|]. apply each_modify. by intros st'.
Qed.

Lemma each_maybeDestroy d : each d maybeDestroyT.
Proof. apply each_observe. intros []; [apply each_destroy|done]. Qed.

(** Marking the response as over is followed by the wake, if nobody is bound. *)
Lemma each_closeUpstream d cause : each d (closeUpstreamT cause).
Proof.
  intros st. cbn. destruct (s_downClosed (ss st)) eqn:Ed; [by split; [intros N O|]|]. simpl. split.
  - intros _ [[T R] _]. simpl in *. left. rewrite bool_decide_eq_false_2 by (rewrite T; naive_solver). rewrite R.
    by eexists _, _, _.
  - destruct (bool_decide _); [apply (each_bind d (sendT _)); [apply each_send|intros; apply each_maybeDestroy]|].
    destruct (s_requestOutstanding _); [apply (each_bind d (wakeT _)); [apply each_wake|intros; apply each_maybeDestroy]|apply each_maybeDestroy].
Qed.

(** Counting a request is the exception. *)
Lemma each_commit (d arm : bool) n : d = true \/ arm = true -> each d (commitT arm n).
Proof.
  intros Ha st. cbn [commitT]. split; [|apply each_send]. intros N O. right.
  assert (ro st = false) as E.
  { destruct (ro st) eqn:E; [|done]. exfalso. apply N. destruct O as [[T _] O]. destruct arm; by repeat split. }
  split_and!; [done|by destruct arm|]. destruct Ha as [->| ->]; [by left|by right].
Qed.

Lemma each_onData d o p : each d (onDataT os_error o p).
Proof.
  apply each_act.
  - intros st. destruct (onData_check o p (ss st)) as [s w] eqn:E. simpl.
    apply step_ok_onData_check in E as (_ & E2 & E3 & E4 & E5). unfold owed, pend_det. by rewrite E2, E3, E4, E5.
  - intros st. destruct (onData_check o p (ss st)) as [s [q|]]; [|done].
    apply (each_atomic d (up_write q)); [apply calm_up_write|]. intros []; [apply each_commit; by right|apply each_closeUpstream].
Qed.

Lemma each_dial r : each true (dialT os_error r).
Proof.
  destruct r as [c|e].
  - apply each_atomic; [intros st; unfold dial_connect; by destruct (s_dead (ss st))|]. intros [pre|]; [|done].
    destruct (_ >? 0); [|done]. apply each_atomic; [apply calm_up_write|]. intros []; [apply (each_bind true (commitT false _)); [by apply each_commit; left|done]|].
    apply (each_bind true (closeUpstreamT _)); [apply each_closeUpstream|done].
  - apply each_observe. intros i. apply each_bind; [apply each_send|]. intros _. apply each_bind; [apply each_destroy|done].
Qed.

Lemma each_bindT d tc : each d (bindT tc).
Proof. apply each_modify. intros st [[? _] _]. done. Qed.

Lemma each_ack d o : each d (onDownstreamAckT o).
Proof.
  apply each_modify. intros st. unfold onDownstreamAck, owed, pend_det. simpl.
  destruct (_ =? 0); simpl; [by intros [[_ ?] _]|]. intros [[T R] [L|D]]; [|auto]. split; [done|]. left.
  eapply Z.lt_le_trans; [exact L|apply TrimTo_shrinks].
Qed.

Lemma each_attach d o : each d (attachT o).
Proof.
  apply each_observe. intros [[[i written] replay] dc]. apply each_bind; [apply each_send|]. intros _.
  apply each_bind; [destruct (_ >? 0); [apply each_send|done]|]. intros _. destruct dc; [apply each_send|done].
Qed.

Lemma each_sidecarClose d dir r : each d (sidecarCloseT dir r).
Proof.
  unfold sidecarCloseT. destruct (negb _); [done|]. apply each_atomic; [by apply (calm_upd (set_upClosed true))|].
  intros b. apply each_bind; [|intros; apply each_maybeDestroy]. destruct b; [|done].
  apply each_modify. by apply (calm_upd (fun s => set_upstream _ s)).
Qed.

Lemma each_watchdog d : each d watchdogT.
Proof.
  apply each_atomic; [by apply (calm_upd (set_watchdog (Some false)))|]. intros []; [apply each_wake|done].
Qed.

Lemma each_read_end d r err : each d (read_endT r err).
Proof. destruct r; simpl; try apply each_destroy; try done. destruct err; [apply each_closeUpstream|done]. Qed.

Lemma each_write d tc f : each d (modify (fun st => fst (tc_write tc f st))).
Proof. apply each_modify, calm_tc_write. Qed.

Lemma each_handle d tc f created : each d (snd (handleT tc f created)).
Proof.
  assert (forall o, each d (_ ← bindT tc; attachT o)) as Ha by (intros o; apply each_bind; [apply each_bindT|intros; apply each_attach]).
  unfold handleT. repeat case_match; cbn [snd]; try done; auto using each_write, each_bindT, each_ack, each_sidecarClose.
Qed.

(** ** Every reachable state *)

Definition all_each (k : conc C) : Prop :=
  Forall (each false) (k_bpool k) /\ match k_writer k with Some (d, t) => each d t | None => True end.

Lemma all_each_spawn t k : each false t -> all_each k -> all_each (spawn t k).
Proof. intros Ht [Hp Hw]. split; [|done]. simpl. apply Forall_app. by split; [|constructor]. Qed.

Lemma all_each_step k k' : all_each k -> kstep os_error k k' -> all_each k'.
Proof.
  intros [Hp Hw] S. destruct S; try (by split); try (apply all_each_spawn; [|by split]; auto using each_detach, each_watchdog, each_write).
  - unfold pump_done. by destruct r.
  - unfold handle. destruct (handleT tc f _) as [cr t] eqn:E. apply all_each_spawn; [|by split].
    replace t with (snd (handleT (C := C) tc f (y_created (k_y k)))) by (by rewrite E). apply each_handle.
  - unfold reader_turn. destruct (match p with [] => _ | _ => _ end) as [b r]. apply all_each_spawn; [apply each_read_end|by split].
  - unfold reader_turn. destruct (match rest with [] => _ | _ => _ end) as [b r]. apply all_each_spawn; [apply each_read_end|by split].
  - split; [|done]. simpl. rewrite H0 in Hp. apply Forall_app in Hp as [H1 [Ht H2]%Forall_cons]. apply Forall_app.
    split; [done|]. constructor; [apply Ht|done].
  - split; [done|]. apply (each_bind false (onDataT os_error (fOffset f) (fPayload f))); [apply each_onData|done].
  - split; [done|]. apply each_dial.
  - split; [done|]. simpl. rewrite H0 in Hw. apply Hw.
Qed.

Lemma all_each_reachable y k : rtc (kstep os_error) (quiet y) k -> all_each k.
Proof.
  intros R. assert (all_each (quiet y)) as H0 by (by split; [constructor|]). revert H0.
  induction R as [|k0 k1 k S R IH]; [done|]. intros A. by eapply IH, all_each_step.
Qed.
End window.

(** ** Properties *)

Section properties.
Context {C : Type} `{FrameWriter C} (os_error : string).

(** Some goroutine of the broker is about to ask for the resume. *)
Definition wake_pending (k : conc C) : Prop :=
  (exists t, t ∈ k_bpool k /\ wake_next t) \/ (exists d t, k_writer k = Some (d, t) /\ wake_next t).

(** Only these steps touch the broker's session, as far as debts go. *)
Lemma kstep_debt k k' :
  kstep os_error k k' ->
  (owed (ss (kb k')) -> owed (ss (kb k))) \/
  (exists fresh p err, k' = reader_turn fresh p err k) \/
  (exists l1 f t l2, k_bpool k = l1 ++ Act f t :: l2 /\ k' = set_bpool (l1 ++ t (kb k) :: l2) (on_b (f (kb k)) k)) \/
  (exists d f t, k_writer k = Some (d, Act f t) /\ k' = set_writer (Some (d, t (kb k))) (on_b (f (kb k)) k)).
Proof.
  intros S. destruct S; try (by left); try (by right; left; eauto); try (by right; right; left; eauto 10); try (by right; right; right; eauto 10).
  - left. unfold pump_done. by destruct r.
  - left. unfold handle. by destruct (handleT tc f _).
  - left. apply calm_tc_write.
Qed.

(** C12. In any interleaving in which the tasks that write upstream take turns, the
    commit section is the only place where a wake can be lost.  Whenever a step of any goroutine leaves a session owing undelivered
    data or a close to a detached agent with a request outstanding, and it did
    not owe it before, then the step itself asked for the resume, or a goroutine
    is about to, or the step is the one in which a request that was already
    written upstream is counted as outstanding; and then the watchdog has just
    been armed, unless those bytes were the ones queued for the dial. *)
Theorem wakes_lost_only_in_commit (y : sys C) (k k' : conc C)
    (R : rtc (kstep os_error) (quiet y) k) (S : kstep os_error k k')
    (Hbefore : ~ owed (ss (kb k))) (Hafter : owed (ss (kb k'))) :
  (exists r es, evs (kb k') = evs (kb k) ++ es /\ EvWake (s_actorID (ss (kb k))) r ∈ es) \/
  wake_pending k' \/
  (s_requestOutstanding (ss (kb k)) = false /\ s_requestOutstanding (ss (kb k')) = true /\
   (s_watchdog (ss (kb k')) = Some true \/ exists t, k_writer k = Some (true, t))).
Proof.
  destruct (all_each_reachable os_error y k R) as [Hp Hw].
  destruct (kstep_debt k k' S) as [Hc|[(fresh & p & err & ->)|[(l1 & f & t & l2 & E & ->)|(d & f & t & E & ->)]]].
  - by destruct Hbefore; apply Hc.
  - left. unfold reader_turn in *. destruct (match p with [] => _ | _ => _ end) as [b r] eqn:Ep. simpl in *.
    destruct p as [|x p]; [simplify_eq; done|]. unfold produceDownstream in Ep.
    destruct (step_ok_produce True (length (x :: p)) (x :: p) (kb k)) as [(es & Ee & _ & O) _ _]. rewrite Ep in Ee, O. simpl in Ee, O.
    destruct (O I Hbefore Hafter) as [reason Hr]. eauto.
  - right. rewrite E in Hp. apply Forall_app in Hp as [_ [Ht _]%Forall_cons]. destruct (Ht (kb k)) as [Ha _].
    destruct (Ha Hbefore Hafter) as [Hn|(R1 & R2 & [?|Hd])]; [|done|right; auto].
    left. left. exists (t (kb k)). split; [|done]. simpl. apply elem_of_app. right. apply list_elem_of_here.
  - right. rewrite E in Hw. destruct (Hw (kb k)) as [Ha _].
    destruct (Ha Hbefore Hafter) as [Hn|(R1 & R2 & [->|Hd])]; [left; right; eauto|right; eauto 10|right; auto].
Qed.
End properties.

(** The response was produced in the middle of [onData]; now it commits. *)
Lemma wakes_lost_only_in_commit_witness :
  let k' := after os [MWriter] halfway in
  (exists r es, evs (kb k') = evs (kb halfway) ++ es /\ EvWake "ns/a" r ∈ es) \/ wake_pending k' \/
  (s_requestOutstanding (ss (kb halfway)) = false /\ s_requestOutstanding (ss (kb k')) = true /\
   (s_watchdog (ss (kb k')) = Some true \/ exists t, k_writer halfway = Some (true, t))).
Proof.
  apply (wakes_lost_only_in_commit os (initial 1 "mcp:80" 64 64 "ns/a" None true) halfway (after os [MWriter] halfway)).
  - apply (after_reaches os (take 22 commit_window) start). vm_compute. reflexivity.
  - apply after_one. vm_compute. reflexivity.
  - intros [[_ E] _]. vm_compute in E. discriminate E.
  - split; [split; vm_compute; reflexivity|]. left. vm_compute. reflexivity.
Defined.
