(* ===== verification/Resumer.v ===== *)
(** * Resumer: waking a suspended actor

    Models [internal/broker/resumer.go] and the parts of
    [internal/ateapi/ateapi.go] it uses: actor references, the in-flight set
    that collapses concurrent wakes of one actor into one call, and the retry
    loop around [ResumeActor] with its backoff and its deadline.  The control
    plane itself is a parameter: the outcome and the duration of the n-th call.
    Times are nanoseconds. *)
From Stdlib Require Import Ascii.
From S2P Require Import Prelude.

#[local] Arguments String.append !_ _ /.

(** ** Actor references *)

Record Ref : Type := MkRef { ref_Atespace : string; ref_Name : string }.

#[export] Instance Ref_eq_dec : EqDecision Ref.
Proof. solve_decision. Defined.

(** [Ref.String]. *)
Definition ref_String (r : Ref) : string := ref_Atespace r +:+ "/" +:+ ref_Name r.

(** [parseRef] of [resumer.go]: around the first slash. *)
Definition parseRef (actorID : string) : Ref :=
  match cut_at "/" actorID with
  | Some (a, n) => MkRef a n
  | None => MkRef "" actorID
  end.

(** ** The in-flight set *)

Record resumer : Type := MkResumer {
  r_inflight : gset string;
  r_started : list string;         (* the goroutines started so far *)
}.

Definition newResumer : resumer := MkResumer ∅ [].

(** [resume] up to the start of the goroutine, and the goroutine's deferred
    cleanup. *)
Definition resume (actorID : string) (r : resumer) : resumer :=
  if decide (actorID ∈ r_inflight r) then r
  else MkResumer ({[actorID]} ∪ r_inflight r) (r_started r ++ [actorID]).

Definition resume_done (actorID : string) (r : resumer) : resumer :=
  MkResumer (r_inflight r ∖ {[actorID]}) (r_started r).

(** ** The retry loop *)

Inductive outcome : Type := CallOk | CallAborted | CallFailed.

Inductive resume_result : Type := Resumed | Failed | GaveUp | OutOfFuel.

Definition deadline : Z := 30 * 1000 * 1000 * 1000.
Definition backoff0 : Z := 200 * 1000 * 1000.
Definition backoff_cap : Z := 2 * 1000 * 1000 * 1000.

Definition next_backoff (backoff : Z) : Z :=
  if backoff <? backoff_cap then backoff * 3 / 2 else backoff.

Section loop.
(** The control plane: what the [n]-th call returns and how long it takes. *)
Context (call : nat -> outcome * Z).

(** [now] is the time since the context was created.  The context is done at
    [deadline]; a backoff that ends at or after it loses the [select].  The
    result comes with the number of calls made and the time. *)
Fixpoint resume_loop (fuel attempt : nat) (backoff now : Z) : resume_result * nat * Z :=
  match fuel with
  | O => (OutOfFuel, attempt, now)
  | S fuel =>
      let '(out, d) := call attempt in
      let now := now + d in
      match out with
      | CallOk => (Resumed, S attempt, now)
      | CallFailed => (Failed, S attempt, now)
      | CallAborted =>
          if now + backoff >=? deadline then (GaveUp, S attempt, Z.max now deadline)
          else resume_loop fuel (S attempt) (next_backoff backoff) (now + backoff)
      end
  end.

(** One turn per backoff of at least 200 ms within 30 s. *)
Definition resume_fuel : nat := 151.
Definition run_resume : resume_result * nat * Z := resume_loop resume_fuel 0 backoff0 0.
End loop.

(** ** Lemmas *)

Lemma parse_printed r : has "/" (ref_Atespace r) = false -> parseRef (ref_String r) = r.
Proof. destruct r as [a n]. simpl. intros E. unfold parseRef, ref_String. simpl. by rewrite cut_at_app. Qed.

Lemma next_backoff_bounds b : backoff0 <= b < 3 * 1000 * 1000 * 1000 ->
  b <= next_backoff b < 3 * 1000 * 1000 * 1000.
Proof.
  unfold backoff0, next_backoff, backoff_cap. intros Hb.
  pose proof (Z.div_mod (b * 3) 2 ltac:(lia)). pose proof (Z.mod_pos_bound (b * 3) 2 ltac:(lia)).
  zcases; lia.
Qed.

Section loop_lemmas.
Context (call : nat -> outcome * Z).
Context (Hcall : forall n, 0 <= snd (call n)).

Lemma resume_loop_terminates fuel attempt b now :
  backoff0 <= b < 3 * 1000 * 1000 * 1000 -> 0 <= now < deadline ->
  deadline - now < Z.of_nat fuel * backoff0 ->
  let '(r, n, t) := resume_loop call fuel attempt b now in
  r <> OutOfFuel /\ (attempt < n <= attempt + fuel)%nat.
Proof using Hcall.
  revert attempt b now. induction fuel as [|fuel IH]; intros attempt b now Hb Hnow Hf; simpl; [lia|].
  pose proof (Hcall attempt) as Hd. destruct (call attempt) as [out d]. simpl in Hd.
  destruct out; [split; [done|lia]| |split; [done|lia]].
  destruct (Z.geb_spec (now + d + b) deadline); [split; [done|lia]|].
  specialize (IH (S attempt) (next_backoff b) (now + d + b)).
  destruct (resume_loop _ _ _ _ _) as [[r n] t]. pose proof (next_backoff_bounds b Hb).
  destruct IH as [? ?]; [unfold backoff0 in *; lia..|]. split; [done|lia].
Qed.

(** The loop returns the first answer that is not "aborted", if it gets to ask
    often enough before the deadline. *)
Lemma resume_loop_result fuel attempt b now :
  backoff0 <= b < 3 * 1000 * 1000 * 1000 -> 0 <= now < deadline ->
  let '(r, n, t) := resume_loop call fuel attempt b now in
  (forall k, (attempt <= k)%nat -> (S k < n)%nat -> fst (call k) = CallAborted) /\
  match r with
  | Resumed => fst (call (pred n)) = CallOk
  | Failed => fst (call (pred n)) = CallFailed
  | GaveUp => fst (call (pred n)) = CallAborted /\ deadline <= t
  | OutOfFuel => True
  end.
Proof using Hcall.
  revert attempt b now. induction fuel as [|fuel IH]; intros attempt b now Hb Hnow; simpl; [split; [lia|done]|].
  pose proof (Hcall attempt) as Hd. destruct (call attempt) as [out d] eqn:Ec. simpl in Hd.
  destruct out; [simpl pred; rewrite Ec; split; [lia|done]| |simpl pred; rewrite Ec; split; [lia|done]].
  destruct (Z.geb_spec (now + d + b) deadline); [simpl pred; rewrite Ec; split; [lia|split; [done|lia]]|].
  specialize (IH (S attempt) (next_backoff b) (now + d + b)).
  destruct (resume_loop _ _ _ _ _) as [[r n] t]. pose proof (next_backoff_bounds b Hb).
  destruct IH as [H1 H2]; [unfold backoff0 in *; lia..|]. split; [|done].
  intros k Hk Hn. destruct (decide (k = attempt)) as [->|]; [by rewrite Ec|]. apply H1; lia.
Qed.
End loop_lemmas.

(** Goroutines running for an actor after a run of wakes and completions. *)
Inductive resumer_cmd : Type := RWake (actorID : string) | RDone (actorID : string).

#[export] Instance resumer_cmd_eq_dec : EqDecision resumer_cmd.
Proof. solve_decision. Defined.

Definition resumer_exec (r : resumer) (c : resumer_cmd) : resumer :=
  match c with RWake a => resume a r | RDone a => resume_done a r end.

Definition run_cmds (cs : list resumer_cmd) : resumer := foldl resumer_exec newResumer cs.

Definition starts (a : string) (cs : list resumer_cmd) : Z :=
  len (filter (fun x => x = a) (r_started (run_cmds cs))).
Definition dones (a : string) (cs : list resumer_cmd) : Z :=
  len (filter (fun c => c = RDone a) cs).

(** A goroutine runs its cleanup once: a completion needs a goroutine that was
    started and has not completed. *)
Definition causal (cs : list resumer_cmd) : Prop :=
  forall cs1 a cs2, cs = cs1 ++ RDone a :: cs2 -> dones a cs1 < starts a cs1.

Lemma causal_prefix cs c : causal (cs ++ [c]) -> causal cs.
Proof. intros H cs1 a cs2 ->. apply (H cs1 a (cs2 ++ [c])). by rewrite <- app_assoc. Qed.

Lemma run_cmds_snoc cs c : run_cmds (cs ++ [c]) = resumer_exec (run_cmds cs) c.
Proof. unfold run_cmds. by rewrite foldl_app. Qed.

Lemma in_flight_count a cs :
  causal cs -> starts a cs - dones a cs = if decide (a ∈ r_inflight (run_cmds cs)) then 1 else 0.
Proof.
  induction cs as [|c cs IH] using rev_ind; [done|]. intros Hc.
  specialize (IH (causal_prefix _ _ Hc)). revert IH. unfold starts, dones.
  rewrite run_cmds_snoc, filter_app, len_app. destruct c as [b|b]; simpl.
  - assert (len (filter (fun c => c = RDone a) [RWake b]) = 0) as -> by done.
    unfold resume. destruct (decide (b ∈ _)) as [Hb|Hb]; [by rewrite Z.add_0_r|]. simpl.
    rewrite filter_app, len_app. destruct (decide (b = a)) as [->|Hne].
    + change (len (filter (fun x => x = a) [a])) with (len (if decide (a = a) then [a] else [])).
      rewrite (decide_True (P := a = a)) by done. change (len [a]) with 1.
      destruct (decide (a ∈ r_inflight (run_cmds cs))); [done|].
      destruct (decide (a ∈ {[a]} ∪ _)); [lia|set_solver].
    + assert (len (filter (fun x => x = a) [b]) = 0) as -> by (by rewrite filter_cons_False).
      rewrite (decide_ext (a ∈ {[b]} ∪ r_inflight (run_cmds cs)) (a ∈ r_inflight (run_cmds cs))) by set_solver.
      lia.
  - destruct (decide (b = a)) as [->|Hne].
    + assert (len (filter (fun c => c = RDone a) [RDone a]) = 1) as -> by (by rewrite filter_cons_True).
      specialize (Hc cs a [] eq_refl). unfold starts, dones in Hc.
      destruct (decide (a ∈ _ ∖ {[a]})); [set_solver|]. destruct (decide _); lia.
    + assert (len (filter (fun c => c = RDone a) [RDone b]) = 0) as ->
        by (rewrite filter_cons_False; [done|congruence]).
      rewrite (decide_ext (a ∈ r_inflight (run_cmds cs) ∖ {[b]}) (a ∈ r_inflight (run_cmds cs))) by set_solver.
      lia.
Qed.

(** ** Properties *)

(** Actor names round-trip: rendering a reference whose atespace has no slash
    and parsing it back gives the reference, whatever the name contains; and
    rendering what was parsed gives the string back whenever it has a slash. *)
Theorem ref_roundtrip (r : Ref) (s : string) :
  (has "/" (ref_Atespace r) = false -> parseRef (ref_String r) = r) /\
  (has "/" s = true -> ref_String (parseRef s) = s).
Proof.
  split; [apply parse_printed|]. intros E. unfold parseRef, ref_String.
  destruct (cut_at "/" s) as [[a n]|] eqn:Es; [by apply cut_at_inv in Es as [-> _]|].
  apply cut_at_None in Es. congruence.
Qed.

(** C24. The resume goroutine always finishes, whatever the control plane answers:
    it makes at most 151 calls; it stops at the first answer other than
    "aborted" and reports that answer; it gives up only when every call was
    aborted and the 30 s deadline has been reached. *)
Theorem resume_terminates (call : nat -> outcome * Z) (Hcall : forall n, 0 <= snd (call n)) :
  let '(r, n, t) := run_resume call in
  (0 < n <= 151)%nat /\
  (forall k, (S k < n)%nat -> fst (call k) = CallAborted) /\
  match r with
  | Resumed => fst (call (pred n)) = CallOk
  | Failed => fst (call (pred n)) = CallFailed
  | GaveUp => fst (call (pred n)) = CallAborted /\ deadline <= t
  | OutOfFuel => False
  end.
Proof.
  unfold run_resume.
  pose proof (resume_loop_terminates call Hcall resume_fuel 0 backoff0 0) as H1.
  pose proof (resume_loop_result call Hcall resume_fuel 0 backoff0 0) as H2.
  destruct (resume_loop call resume_fuel 0 backoff0 0) as [[r n] t].
  destruct H1 as [H1 Hn]; [unfold backoff0, deadline, resume_fuel; lia..|].
  destruct H2 as [H2 H3]; [unfold backoff0, deadline; lia..|].
  unfold resume_fuel in Hn. split_and!; [lia|lia|intros k Hk; apply H2; lia|by destruct r].
Qed.

Lemma resume_terminates_witness :
  fst (run_resume (fun n => (if (n <? 9)%nat then CallAborted else CallOk, 1000))) = (Resumed, 10%nat) /\
  let '(r, n, t) := run_resume (fun n => (if (n <? 9)%nat then CallAborted else CallOk, 1000)) in
  (0 < n <= 151)%nat.
Proof.
  split; [reflexivity|].
  pose proof (resume_terminates (fun n => (if (n <? 9)%nat then CallAborted else CallOk, 1000))
    ltac:(intros n; simpl; lia)) as T.
  destruct (run_resume _) as [[r n] t]. apply T.
Defined.

(** C25. Wakes are collapsed: after any run of wakes and completions, the number of
    goroutines started for an actor minus the number that have completed is one
    exactly when the actor is marked in flight and zero otherwise; so there are
    never two concurrent [ResumeActor] loops for one actor. *)
Theorem one_resume_in_flight (a : string) (cs : list resumer_cmd) (Hc : causal cs) :
  starts a cs - dones a cs = if decide (a ∈ r_inflight (run_cmds cs)) then 1 else 0.
Proof. by apply in_flight_count. Qed.

Lemma one_resume_in_flight_witness :
  starts "a" [RWake "a"; RWake "b"; RWake "a"; RDone "a"; RWake "a"] -
  dones "a" [RWake "a"; RWake "b"; RWake "a"; RDone "a"; RWake "a"] = 1.
Proof.
  apply (one_resume_in_flight "a").
  intros cs1 a cs2 E.
  destruct cs1 as [|c1 [|c2 [|c3 [|c4 [|c5 [|c6 cs1]]]]]]; simplify_eq/=; reflexivity.
Defined.
