(* ===== verification/Broker.v ===== *)
(** * Broker: the session table and the tunnel connections

    Models [internal/broker/broker.go] and [internal/broker/tunnelconn.go]: the
    [Broker] with its table of sessions, one [tunnelConn] per accepted
    connection with the sessions registered on it, frame dispatch, session
    creation and re-attachment, detaching, and wakes handed to the resumer.

    Sessions are shared objects: the table and the tunnel connections hold
    pointers to them, and a session that has been removed from the table is
    still there for the goroutines that hold it.  [bk_heap] is that store.
    [AllowTarget] is the egress policy of the configuration. *)
From S2P Require Import Prelude GoStd ReplayBuffer Socket Wire BrokerSession BrokerStream Resumer.

(** ** Configuration *)

(** Times are nanoseconds. *)
Record Config : Type := MkConfig {
  bc_SessionBufferBytes : Z;
  bc_MaxSuspendWatchdog : Z;
  bc_DialTimeout : Z;
  bc_TunnelReadTimeout : Z;
  bc_AllowTarget : option (string -> bool);
}.

Definition withDefaults (c : Config) : Config :=
  let dflt v d := if v =? 0 then d else v in
  let second := 1000 * 1000 * 1000 in
  MkConfig (dflt (bc_SessionBufferBytes c) (4 * 1024 * 1024))
    (dflt (bc_MaxSuspendWatchdog c) (5 * 60 * second))
    (dflt (bc_DialTimeout c) (10 * second))
    (dflt (bc_TunnelReadTimeout c) (4 * second)) (bc_AllowTarget c).

(** ** State *)

Abbreviation sessionKey := (string * Z)%type.

Record tunnelConn : Type := MkTunnelConn {
  t_actor : string;              (* the actor named in HELLO *)
  t_sessions : gmap Z nat;       (* sessionID to session *)
}.

Record Broker (C : Type) : Type := MkBroker {
  bk_cfg : Config;
  bk_sessions : gmap sessionKey nat;
  bk_heap : gmap nat session;
  bk_next : nat;
  bk_tunnels : gmap nat tunnelConn;   (* connections past HELLO *)
  bk_net : gmap nat C;
  bk_resumer : resumer;
}.
Arguments MkBroker {C} _ _ _ _ _ _ _.
Arguments bk_cfg {C} _.
Arguments bk_sessions {C} _.
Arguments bk_heap {C} _.
Arguments bk_next {C} _.
Arguments bk_tunnels {C} _.
Arguments bk_net {C} _.
Arguments bk_resumer {C} _.

Definition New {C} (cfg : Config) : Broker C :=
  MkBroker (withDefaults cfg) ∅ ∅ 0 ∅ ∅ newResumer.

Section ops.
Context {C : Type} `{FrameWriter C} (os_error : string).
Implicit Types (b : Broker C).

Definition set_sessions (v : gmap sessionKey nat) b : Broker C :=
  MkBroker (bk_cfg b) v (bk_heap b) (bk_next b) (bk_tunnels b) (bk_net b) (bk_resumer b).
Definition set_tunnels (v : gmap nat tunnelConn) b : Broker C :=
  MkBroker (bk_cfg b) (bk_sessions b) (bk_heap b) (bk_next b) v (bk_net b) (bk_resumer b).
Definition set_resumer (v : resumer) b : Broker C :=
  MkBroker (bk_cfg b) (bk_sessions b) (bk_heap b) (bk_next b) (bk_tunnels b) (bk_net b) v.
Definition set_bnet (v : gmap nat C) b : Broker C :=
  MkBroker (bk_cfg b) (bk_sessions b) (bk_heap b) (bk_next b) (bk_tunnels b) v (bk_resumer b).

Definition lookup_session (actorID : string) (sessionID : Z) b : option nat :=
  bk_sessions b !! (actorID, sessionID).

Definition removeSession (actorID : string) (sessionID : Z) b : Broker C :=
  set_sessions (delete (actorID, sessionID) (bk_sessions b)) b.

(** [Broker.wake]. *)
Definition wake_actor (actorID : string) b : Broker C :=
  set_resumer (resume actorID (bk_resumer b)) b.

(** The calls a session method makes back into the broker. *)
Definition callback (b : Broker C) (e : event) : Broker C :=
  match e with
  | EvWake actorID _ => wake_actor actorID b
  | EvRemove actorID sessionID => removeSession actorID sessionID b
  end.

(** Run a method of the session at [l]. *)
Definition run (l : nat) (op : sst C -> sst C) b : Broker C :=
  match bk_heap b !! l with
  | None => b
  | Some s =>
      let st := op (MkSst s (bk_net b) []) in
      foldl callback
        (MkBroker (bk_cfg b) (bk_sessions b) (<[l := ss st]> (bk_heap b)) (bk_next b) (bk_tunnels b)
           (net st) (bk_resumer b)) (evs st)
  end.

(** [tconn.tc.WriteFrame] with the error ignored. *)
Definition write_ignore (tc : nat) (f : Frame) b : Broker C :=
  match bk_net b !! tc with
  | Some c => set_bnet (<[tc := fst (fw_write f c)]> (bk_net b)) b
  | None => b
  end.

Definition register (tc l : nat) (sessionID : Z) b : Broker C :=
  match bk_tunnels b !! tc with
  | Some t => set_tunnels (<[tc := MkTunnelConn (t_actor t) (<[sessionID := l]> (t_sessions t))]> (bk_tunnels b)) b
  | None => b
  end.

(** [session.bind]: the session part and the registration. *)
Definition bind_session (tc l : nat) b : Broker C :=
  match bk_heap b !! l with
  | Some s => register tc l (s_sessionID s) (run l (bind tc) b)
  | None => b
  end.

(** Allocate a session and enter it in the table. *)
Definition create (actorID : string) (sessionID : Z) (target : string) b : Broker C * nat :=
  let l := bk_next b in
  (MkBroker (bk_cfg b) (<[(actorID, sessionID) := l]> (bk_sessions b))
     (<[l := newSession (bc_SessionBufferBytes (bk_cfg b)) actorID sessionID target]> (bk_heap b))
     (S l) (bk_tunnels b) (bk_net b) (bk_resumer b), l).

(** Re-attach a session that is in the table. *)
Definition attach_found (tc l : nat) (offset : Z) b : Broker C :=
  run l (onSidecarAttach offset) (bind_session tc l b).

(** [openSession]; the dial runs in its own goroutine and is [dial_session]. *)
Definition openSession (actorID : string) (tc : nat) (f : Frame) b : Broker C :=
  if match bc_AllowTarget (bk_cfg b) with Some ok => negb (ok (fTarget f)) | None => false end then
    write_ignore tc (CloseF (fSessionID f) DirDown "target not allowed") b
  else match lookup_session actorID (fSessionID f) b with
  | Some l => attach_found tc l 0 b
  | None =>
      let '(b, l) := create actorID (fSessionID f) (fTarget f) b in
      bind_session tc l b
  end.

Definition attachSession (actorID : string) (tc : nat) (f : Frame) b : Broker C :=
  match lookup_session actorID (fSessionID f) b with
  | None =>
      if (fOffset f =? 0) && bool_decide (fTarget f <> "") then
        let b := openSession actorID tc (OpenF (fSessionID f) (fTarget f)) b in
        match lookup_session actorID (fSessionID f) b with
        | Some l => run l (onSidecarAttach (fOffset f)) b
        | None => b
        end
      else write_ignore tc (CloseF (fSessionID f) DirDown "session lost") b
  | Some l => attach_found tc l (fOffset f) b
  end.

Definition on_session (actorID : string) (sessionID : Z) (op : sst C -> sst C) b : Broker C :=
  match lookup_session actorID sessionID b with Some l => run l op b | None => b end.

Definition handleFrame (actorID : string) (tc : nat) (f : Frame) b : Broker C :=
  if fType f =? TypePing then write_ignore tc (PongF (fNonce f)) b
  else if fType f =? TypeOpen then openSession actorID tc f b
  else if fType f =? TypeAttach then attachSession actorID tc f b
  else if fType f =? TypeData then on_session actorID (fSessionID f) (onData os_error (fOffset f) (fPayload f)) b
  else if fType f =? TypeAck then on_session actorID (fSessionID f) (onDownstreamAck (fOffset f)) b
  else if fType f =? TypeClose then on_session actorID (fSessionID f) (onSidecarClose (fDir f) (fReason f)) b
  else b.

(** [detachAll], when the connection's frame loop exits. *)
Definition detachAll (tc : nat) b : Broker C :=
  match bk_tunnels b !! tc with
  | None => b
  | Some t =>
      foldl (fun b '(_, l) => run l (detach tc) b) (set_tunnels (delete tc (bk_tunnels b)) b)
        (map_to_list (t_sessions t))
  end.

(** The start of [serveTunnel]: the first frame must be HELLO and name an
    actor, otherwise the connection is closed. *)
Definition hello (tc : nat) (f : Frame) b : Broker C * bool :=
  if negb (fType f =? TypeHello) || bool_decide (fActorID f = "") then (b, false)
  else (set_tunnels (<[tc := MkTunnelConn (fActorID f) ∅]> (bk_tunnels b)) b, true).

(** [serveTunnel] on the frames that arrive before the connection fails. *)
Definition serveTunnel (tc : nat) (fs : list Frame) b : Broker C :=
  match fs with
  | [] => b
  | f :: fs =>
      let '(b, ok) := hello tc f b in
      if ok then detachAll tc (foldl (fun b g => handleFrame (fActorID f) tc g b) b fs) else b
  end.

Definition Sessions b : list SessionInfo :=
  omap (fun '(k, l) => info k <$> bk_heap b !! l) (map_to_list (bk_sessions b)).

(** [Serve]: an accepted connection becomes a tunnel connection, on which
    [serveTunnel] then runs. *)
Definition Serve (evs : list (accept_event (nat * C))) b : Broker C * option (res string unit) :=
  accept_loop (fun '(tc, c) b => set_bnet (<[tc := c]> (bk_net b)) b) evs b.

(** Everything that can happen to a broker. *)
Inductive bstep b : Broker C -> Prop :=
| BAccept tc c : bk_net b !! tc = None -> bstep b (set_bnet (<[tc := c]> (bk_net b)) b)
| BHello tc f : bk_tunnels b !! tc = None -> bstep b (fst (hello tc f b))
| BFrame tc t f : bk_tunnels b !! tc = Some t -> bstep b (handleFrame (t_actor t) tc f b)
| BClosed tc : bstep b (detachAll tc b)
| BDial l r : bstep b (run l (fun st => fst (dialUpstream os_error r st)) b)
| BRead l p err : bstep b (run l (fun st => fst (readUpstream p err st)) b)
| BWatchdog l : bstep b (run l watchdog_fire b)
| BResumed a : bstep b (set_resumer (resume_done a (bk_resumer b)) b).
End ops.

(** ** What a session method may do to its identity and lifetime *)

Section life.
Context {C : Type} `{FrameWriter C} (os_error : string).
Implicit Types (st : sst C).

Definition skey (s : session) : sessionKey := (s_actorID s, s_sessionID s).

Record life st st' : Prop := {
  lf_key : skey (ss st') = skey (ss st);
  lf_target : s_target (ss st') = s_target (ss st);
  lf_tconn : s_tconn (ss st') = s_tconn (ss st) \/ s_tconn (ss st') = None;
  lf_dead : s_dead (ss st) = true -> s_dead (ss st') = true;
  lf_evs : exists es, evs st' = evs st ++ es /\
    (forall a i, EvRemove a i ∈ es ->
       (a, i) = skey (ss st) /\ s_dead (ss st) = false /\ s_dead (ss st') = true) /\
    (s_dead (ss st) = false -> s_dead (ss st') = true -> EvRemove (s_actorID (ss st)) (s_sessionID (ss st)) ∈ es);
}.

Lemma life_trans st1 st2 st3 : life st1 st2 -> life st2 st3 -> life st1 st3.
Proof.
  intros [K1 T1 C1 D1 (es1 & E1 & R1 & X1)] [K2 T2 C2 D2 (es2 & E2 & R2 & X2)].
  split; [congruence|congruence|intuition congruence|auto|].
  exists (es1 ++ es2). rewrite E2, E1, app_assoc. split_and!; [done| |].
  - intros a i [Hi|Hi]%elem_of_app; [destruct (R1 a i Hi) as (? & ? & ?); auto|].
    destruct (R2 a i Hi) as (E & Hd & ?). rewrite E. split_and!; [done| |done].
    destruct (s_dead (ss st1)); [by rewrite D1 in Hd|done].
  - intros H1 H3. apply elem_of_app. destruct (s_dead (ss st2)) eqn:E.
    + left. auto.
    + right. injection K1 as <- <-. auto.
Qed.

(** Assignments to fields other than identity, binding and [dead], with any
    wakes. *)
Lemma life_quiet st st' es :
  evs st' = evs st ++ es -> (forall a i, EvRemove a i ∉ es) ->
  skey (ss st') = skey (ss st) -> s_target (ss st') = s_target (ss st) ->
  s_tconn (ss st') = s_tconn (ss st) \/ s_tconn (ss st') = None ->
  s_dead (ss st') = s_dead (ss st) -> life st st'.
Proof.
  intros E Hes K T Cn D. split; [done|done|done|congruence|].
  exists es. split_and!; [done|intros a i Hi; by destruct (Hes a i)|congruence].
Qed.

Lemma life_silent st st' :
  evs st' = evs st -> skey (ss st') = skey (ss st) -> s_target (ss st') = s_target (ss st) ->
  s_tconn (ss st') = s_tconn (ss st) \/ s_tconn (ss st') = None ->
  s_dead (ss st') = s_dead (ss st) -> life st st'.
Proof. intros E. apply life_quiet with (es := []); [by rewrite app_nil_r|by intros a i ?%elem_of_nil]. Qed.

Lemma life_refl st : life st st.
Proof. apply life_silent; auto. Qed.

Lemma life_wake r st : life st (wake r st).
Proof.
  apply life_quiet with (es := [EvWake (s_actorID (ss st)) r]); auto. intros a i ?%list_elem_of_singleton. done.
Qed.

Lemma life_tc_write tc f st st' ok : tc_write tc f st = (st', ok) -> life st st'.
Proof. intros [E1 E2]%tc_write_ss. apply life_silent; rewrite ?E1; auto. Qed.

Lemma life_detach tc st : life st (detach tc st).
Proof.
  unfold detach. destruct (decide _); [|apply life_refl].
  assert (life st (upd (set_tconn None) st)) as L by (apply life_silent; auto).
  destruct (_ && _); [|done]. eapply life_trans; [done|apply life_wake].
Qed.

Lemma life_send f st : life st (sendToSidecar f st).
Proof.
  unfold sendToSidecar. destruct (s_tconn (ss st)) as [tc|]; [|apply life_refl].
  destruct (tc_write tc f st) as [st1 ok] eqn:W. apply life_tc_write in W.
  destruct ok; [done|]. eapply life_trans; [done|apply life_detach].
Qed.

Lemma life_destroy st : life st (destroy st).
Proof.
  unfold destroy. destruct (s_dead (ss st)) eqn:E; [apply life_refl|].
  split; simpl; auto. eexists. split_and!; [reflexivity| |].
  - intros a i ?%list_elem_of_singleton. simplify_eq. done.
  - intros _ _. by apply list_elem_of_singleton.
Qed.

Lemma life_maybeDestroy st : life st (maybeDestroy st).
Proof. unfold maybeDestroy. destruct (_ && _); [apply life_destroy|apply life_refl]. Qed.

Lemma life_closeUpstream c st : life st (closeUpstream c st).
Proof.
  unfold closeUpstream. destruct (s_downClosed (ss st)); [apply life_refl|].
  eapply life_trans; [|apply life_maybeDestroy].
  eapply (life_trans _ (upd (set_downClosed true) st)); [apply life_silent; auto|].
  destruct (bool_decide _); [apply life_send|]. destruct (s_requestOutstanding _); [apply life_wake|apply life_refl].
Qed.

Lemma life_up_write p st st' ok : up_write p st = (st', ok) -> life st st'.
Proof. intros [[->|[u ->]] _]%up_write_ss; [apply life_refl|apply life_silent; auto]. Qed.

Lemma life_commit n st : life st (commit_upstream n st).
Proof.
  unfold commit_upstream. eapply life_trans; [|apply life_send]. apply life_silent; auto.
Qed.

Lemma life_dial r st : life st (fst (dialUpstream os_error r st)).
Proof.
  unfold dialUpstream. destruct r as [conn|e]; simpl.
  2: { eapply life_trans; [apply life_send|apply life_destroy]. }
  unfold dial_connect. destruct (s_dead (ss st)); [apply life_refl|].
  set (st1 := upd _ st). assert (life st st1) as L1 by (apply life_silent; auto).
  unfold dial_flush. destruct (_ >? 0); [|done].
  destruct (up_write _ st1) as [st2 ok] eqn:W. apply life_up_write in W.
  eapply life_trans; [done|]. eapply life_trans; [done|].
  destruct ok; [apply life_commit|apply life_closeUpstream].
Qed.

Lemma life_onData o p st : life st (onData os_error o p st).
Proof.
  unfold onData. destruct (onData_check o p (ss st)) as [s w] eqn:E.
  assert (life st (upd (fun _ => s) st)) as L1.
  { revert E. unfold onData_check. intros E. apply life_silent; simpl;
      repeat (case_match; simplify_eq/=); auto. }
  destruct w as [q|]; [|done]. eapply life_trans; [done|].
  unfold onData_write. destruct (up_write q _) as [st2 ok] eqn:W. apply life_up_write in W.
  eapply life_trans; [done|]. destruct ok; [|apply life_closeUpstream].
  eapply life_trans; [|apply life_commit]. apply life_silent; auto.
Qed.

Lemma life_produce fuel p st : life st (fst (produce_loop fuel p st)).
Proof.
  revert p st. induction fuel as [|fuel IH]; intros p st; destruct p as [|b p]; simpl; try apply life_refl.
  destruct (s_dead (ss st)) eqn:Ed; [apply life_refl|]. destruct (_ =? 0); [apply life_refl|].
  set (n := if _ >? _ then _ else _). destruct (Append _ _) as [d|e]; [|apply life_refl].
  eapply life_trans; [|apply IH]. set (o := End_ _). set (q := ztake _ _).
  set (st1 := upd (set_downBuf d) st).
  destruct (try_forward_ss o q st1) as (E2 & A2 & _ & [v Ev] & _ & T2).
  assert (life st (try_forward o q st1)) as L by (apply life_silent; rewrite ?E2, ?Ev; auto; by rewrite Ev in T2).
  unfold wake_if_detached. destruct (bool_decide _ && _); [|done].
  eapply life_trans; [done|apply life_wake].
Qed.

Lemma life_read p err st : life st (fst (readUpstream p err st)).
Proof.
  unfold readUpstream.
  assert (life st (fst (match p with [] => (st, PDone) | _ => produceDownstream p st end))) as L
    by (destruct p; [apply life_refl|apply life_produce]).
  destruct (match p with [] => _ | _ => _ end) as [st1 r]. simpl in L.
  eapply life_trans; [done|].
  destruct r; [destruct err|..]; simpl; try apply life_destroy; try apply life_refl.
  apply life_closeUpstream.
Qed.

Lemma life_attach o st : life st (onSidecarAttach o st).
Proof.
  unfold onSidecarAttach. eapply life_trans; [apply life_send|].
  destruct (_ >? 0); [eapply life_trans; [apply life_send|]|];
    (destruct (_ && _); [apply life_send|apply life_refl]).
Qed.

Lemma life_ack o st : life st (onDownstreamAck o st).
Proof.
  unfold onDownstreamAck. apply life_silent; simpl; destruct (Len (TrimTo (s_downBuf (ss st)) o) =? 0); auto.
Qed.

Lemma life_close d r st : life st (onSidecarClose d r st).
Proof.
  unfold onSidecarClose. destruct (negb _); [apply life_refl|].
  eapply life_trans; [|apply life_maybeDestroy]. apply life_silent; auto.
Qed.

Lemma life_watchdog st : life st (watchdog_fire st).
Proof.
  unfold watchdog_fire. destruct (_ && _).
  - eapply life_trans; [|apply life_wake]. apply life_silent; auto.
  - apply life_silent; auto.
Qed.
End life.
#[export] Hint Resolve life_detach life_dial life_onData life_read life_attach life_ack life_close
  life_watchdog : tunnel.

(** ** The table invariant *)

Section table.
Context {C : Type} `{FrameWriter C} (os_error : string).
Implicit Types (b : Broker C).

Definition allowed (cfg : Config) (target : string) : bool :=
  match bc_AllowTarget cfg with Some ok => ok target | None => true end.

(** [pend l tc] marks the sessions that a [detachAll] under way has still to
    unbind; it is empty between steps. *)
Record table_ok_except (pend : nat -> nat -> Prop) b : Prop := {
  (** a table entry is a live session with that key *)
  to_live : forall k l, bk_sessions b !! k = Some l ->
    exists s, bk_heap b !! l = Some s /\ skey s = k /\ s_dead s = false;
  (** every live session is in the table *)
  to_all : forall l s, bk_heap b !! l = Some s -> s_dead s = false -> bk_sessions b !! skey s = Some l;
  to_next : forall l, (bk_next b <= l)%nat -> bk_heap b !! l = None;
  (** a live session bound to a connection is registered there, and the
      connection belongs to its actor *)
  to_bound : forall l s tc, bk_heap b !! l = Some s -> s_dead s = false -> s_tconn s = Some tc -> ~ pend l tc ->
    exists t, bk_tunnels b !! tc = Some t /\ t_actor t = s_actorID s /\ t_sessions t !! s_sessionID s = Some l;
  (** every upstream target passed the policy *)
  to_allowed : forall l s, bk_heap b !! l = Some s -> allowed (bk_cfg b) (s_target s) = true;
}.
Definition table_ok : Broker C -> Prop := table_ok_except (fun _ _ => False).

(** Callbacks touch the table and the resumer only. *)
Lemma callbacks_frame es b :
  let b' := foldl callback b es in
  bk_cfg b' = bk_cfg b /\ bk_heap b' = bk_heap b /\ bk_next b' = bk_next b /\
  bk_tunnels b' = bk_tunnels b /\ bk_net b' = bk_net b.
Proof.
  revert b. induction es as [|e es IH]; intros b; [done|]. simpl.
  destruct (IH (callback b e)) as (E1 & E2 & E3 & E4 & E5). rewrite E1, E2, E3, E4, E5. by destruct e.
Qed.

(** The table after callbacks: the removed keys are gone, the rest stays. *)
Lemma callbacks_sessions es b k :
  bk_sessions (foldl callback b es) !! k =
    if decide (EvRemove (fst k) (snd k) ∈ es) then None else bk_sessions b !! k.
Proof.
  revert b. induction es as [|e es IH]; intros b; [done|]. cbn [foldl].
  rewrite IH. destruct k as [a i]. simpl. destruct e as [a' r|a' i']; simpl.
  - rewrite (decide_ext (EvRemove a i ∈ EvWake a' r :: es) (EvRemove a i ∈ es)); [done|].
    rewrite elem_of_cons. intuition congruence.
  - destruct (decide (EvRemove a i ∈ es)) as [Hi|Hi], (decide (EvRemove a i ∈ EvRemove a' i' :: es)) as [Hc|Hc];
      rewrite elem_of_cons in Hc; try tauto; try done.
    + destruct Hc as [E|?]; [|done]. injection E as -> ->. apply lookup_delete_eq.
    + rewrite lookup_delete_ne; [done|]. intros [= -> ->]. tauto.
Qed.

Lemma run_frame l op b :
  bk_cfg (run l op b) = bk_cfg b /\ bk_next (run l op b) = bk_next b /\
  bk_tunnels (run l op b) = bk_tunnels b /\
  forall l', l' <> l -> bk_heap (run l op b) !! l' = bk_heap b !! l'.
Proof.
  unfold run. destruct (bk_heap b !! l) as [s|]; [|done].
  set (st := op _). destruct (callbacks_frame (evs st)
    (MkBroker (bk_cfg b) (bk_sessions b) (<[l := ss st]> (bk_heap b)) (bk_next b) (bk_tunnels b)
           (net st) (bk_resumer b))) as (-> & E2 & -> & -> & _).
  split_and!; [done..|]. intros l' Hl. rewrite E2. simpl. by rewrite lookup_insert_ne.
Qed.

(** Running any method keeps the table right. *)
Lemma table_run pend l op b :
  (forall st, life st (op st)) -> table_ok_except pend b -> table_ok_except pend (run l op b).
Proof.
  intros Hop [L A N B P]. unfold run. destruct (bk_heap b !! l) as [s|] eqn:El; [|done].
  set (st := op _). pose proof (Hop (MkSst s (bk_net b) [])) as [K T Cn Dd (es & Ee & R & X)].
  fold st in K, T, Cn, Dd, Ee, R, X. simpl in K, T, Cn, Dd, Ee, R, X. rewrite Ee.
  destruct (callbacks_frame es
    (MkBroker (bk_cfg b) (bk_sessions b) (<[l := ss st]> (bk_heap b)) (bk_next b) (bk_tunnels b)
           (net st) (bk_resumer b))) as (E1 & E2 & E3 & E4 & _).
  split; rewrite ?E1, ?E2, ?E3, ?E4; simpl.
  - intros k l'. rewrite callbacks_sessions. simpl. destruct (decide _) as [|Hn]; [done|].
    intros Hk. destruct (L k l' Hk) as (s' & Hs & Hk' & Hd).
    destruct (decide (l' = l)) as [->|]; [|by rewrite lookup_insert_ne; eauto].
    assert (s' = s) as -> by congruence. subst k.
    rewrite lookup_insert_eq. exists (ss st). split_and!; [done|done|].
    destruct (s_dead (ss st)) eqn:E; [|done]. destruct Hn. by apply X.
  - intros l' s' Hs Hd. rewrite callbacks_sessions. simpl.
    destruct (decide (l' = l)) as [->|Hne].
    + rewrite lookup_insert_eq in Hs. injection Hs as <-. rewrite decide_False.
      * rewrite K. apply A; [done|]. destruct (s_dead s); [by rewrite Dd in Hd|done].
      * intros Hin. destruct (R _ _ Hin) as (_ & _ & ?). congruence.
    + rewrite lookup_insert_ne in Hs by done. rewrite decide_False; [by apply A|].
      intros Hin. destruct (R _ _ Hin) as (Ek & Hds & _). pose proof (A l' s' Hs Hd) as A1.
      pose proof (A l s El Hds) as A2. replace (skey s') with (skey s) in A1 by (by rewrite <- Ek).
      congruence.
  - intros l' Hl. rewrite lookup_insert_ne; [by apply N|]. intros <-. by rewrite N in El.
  - intros l' s' tc Hs Hd Ht Hp. destruct (decide (l' = l)) as [->|Hne].
    + rewrite lookup_insert_eq in Hs. injection Hs as <-. injection K as K1 K2. rewrite K1, K2.
      apply (B l s tc El); [destruct (s_dead s); [by rewrite Dd in Hd|done]| |done].
      destruct Cn; congruence.
    + rewrite lookup_insert_ne in Hs by done. by apply (B l' s' tc).
  - intros l' s' Hs. destruct (decide (l' = l)) as [->|Hne].
    + rewrite lookup_insert_eq in Hs. injection Hs as <-. rewrite T. by apply (P l s).
    + rewrite lookup_insert_ne in Hs by done. by apply (P l' s').
Qed.

(** The session at [l] after a method. *)
Lemma run_at l op b s :
  bk_heap b !! l = Some s -> bk_heap (run l op b) !! l = Some (ss (op (MkSst s (bk_net b) []))).
Proof.
  intros E. unfold run. rewrite E. set (st := op _).
  destruct (callbacks_frame (evs st)
    (MkBroker (bk_cfg b) (bk_sessions b) (<[l := ss st]> (bk_heap b)) (bk_next b) (bk_tunnels b)
           (net st) (bk_resumer b))) as (_ & -> & _). apply lookup_insert_eq.
Qed.

Lemma detach_unbinds tc (st : sst C) : s_tconn (ss (detach tc st)) <> Some tc.
Proof. unfold detach. destruct (decide _) as [E|]; [|done]. by destruct (_ && _). Qed.

Lemma table_detach pend l tc b :
  table_ok_except pend b ->
  table_ok_except (fun l' tc' => pend l' tc' /\ (l', tc') <> (l, tc)) (run l (detach tc) b).
Proof.
  intros T. destruct (table_run pend l (detach tc) b (life_detach tc) T) as [L A N B P].
  split; auto. intros l' s' tc' Hs Hd Ht Hp. apply (B l' s' tc'); auto.
  intros Hp'. apply Hp. split; [done|]. intros [= -> ->].
  destruct (bk_heap b !! l) as [s|] eqn:E.
  - rewrite (run_at l _ b s E) in Hs. injection Hs as <-. by apply detach_unbinds in Ht.
  - unfold run in Hs. rewrite E in Hs. congruence.
Qed.

Lemma table_detachAll tc b : table_ok b -> table_ok (detachAll tc b).
Proof.
  intros T. unfold detachAll. destruct (bk_tunnels b !! tc) as [t|] eqn:Et; [|done].
  assert (table_ok_except (fun l tc' => tc' = tc /\ l ∈ (map_to_list (t_sessions t)).*2)
            (set_tunnels (delete tc (bk_tunnels b)) b)) as T1.
  { destruct T as [L A N B P]. split; try done. intros l s tc' Hs Hd Ht Hp. simpl.
    destruct (B l s tc' Hs Hd Ht) as (t' & Ht' & Ha & Hr); [tauto|].
    destruct (decide (tc' = tc)) as [->|]; [|by rewrite lookup_delete_ne; eauto].
    destruct Hp. split; [done|]. simplify_eq. apply list_elem_of_fmap.
    exists (s_sessionID s, l). split; [done|]. by apply elem_of_map_to_list. }
  revert T1. generalize (set_tunnels (delete tc (bk_tunnels b)) b). clear.
  induction (map_to_list (t_sessions t)) as [|[i l] ls IH]; intros b T; simpl.
  - destruct T as [L A N B P]. split; auto. intros l s tc' Hs Hd Ht _. apply (B l s tc'); auto.
    intros [_ ?%elem_of_nil]. done.
  - apply IH. destruct (table_detach _ l tc b T) as [L A N B P]. split; auto.
    intros l' s tc' Hs Hd Ht Hp. apply (B l' s tc'); auto.
    intros [[-> Hin] Hne]. apply Hp. split; [done|]. apply elem_of_cons in Hin as [->|]; [|done].
    by destruct Hne.
Qed.

(** Binding a live session to a connection of its actor. *)
Lemma bind_session_eq tc l b s t :
  bk_heap b !! l = Some s -> bk_tunnels b !! tc = Some t ->
  bind_session tc l b =
    MkBroker (bk_cfg b) (bk_sessions b) (<[l := set_tconn (Some tc) s]> (bk_heap b)) (bk_next b)
      (<[tc := MkTunnelConn (t_actor t) (<[s_sessionID s := l]> (t_sessions t))]> (bk_tunnels b))
      (bk_net b) (bk_resumer b).
Proof. intros E Et. unfold bind_session, run. rewrite E. simpl. unfold register. simpl. by rewrite Et. Qed.

Lemma table_bind tc l b s t :
  table_ok b -> bk_heap b !! l = Some s -> s_dead s = false ->
  bk_tunnels b !! tc = Some t -> t_actor t = s_actorID s -> table_ok (bind_session tc l b).
Proof.
  intros [L A N B P] Hs Hd Ht Ha. rewrite (bind_session_eq tc l b s t Hs Ht). split; simpl.
  - intros k l' Hk. destruct (L k l' Hk) as (s' & Hs' & Hk' & Hd').
    destruct (decide (l' = l)) as [->|]; [|by rewrite lookup_insert_ne; eauto].
    rewrite lookup_insert_eq. simplify_eq. eauto.
  - intros l' s' Hs' Hd'. destruct (decide (l' = l)) as [->|].
    + rewrite lookup_insert_eq in Hs'. injection Hs' as <-. exact (A l s Hs Hd).
    + rewrite lookup_insert_ne in Hs' by done. by apply A.
  - intros l' Hl. rewrite lookup_insert_ne; [by apply N|]. intros <-. by rewrite N in Hs.
  - intros l' s' tc' Hs' Hd' Ht' _. destruct (decide (l' = l)) as [->|Hne].
    + rewrite lookup_insert_eq in Hs'. injection Hs' as <-. simpl in Ht'. injection Ht' as <-.
      rewrite lookup_insert_eq. eexists. split_and!; [done|done|]. simpl. by rewrite lookup_insert_eq.
    + rewrite lookup_insert_ne in Hs' by done.
      destruct (B l' s' tc' Hs' Hd' Ht') as (t' & Et' & Ha' & Hr'); [tauto|].
      destruct (decide (tc' = tc)) as [->|]; [|by rewrite lookup_insert_ne; eauto].
      rewrite lookup_insert_eq. simplify_eq. eexists. split_and!; [done|done|]. simpl.
      rewrite lookup_insert_ne; [done|]. intros Ei.
      assert (skey s = skey s') as Ek by (unfold skey; f_equal; congruence).
      pose proof (A l s Hs Hd). pose proof (A l' s' Hs' Hd'). congruence.
  - intros l' s' Hs'. destruct (decide (l' = l)) as [->|].
    + rewrite lookup_insert_eq in Hs'. injection Hs' as <-. by apply (P l s).
    + rewrite lookup_insert_ne in Hs' by done. by apply (P l' s').
Qed.

Lemma table_create actorID sid target b :
  table_ok b -> bk_sessions b !! (actorID, sid) = None -> allowed (bk_cfg b) target = true ->
  table_ok (fst (create actorID sid target b)).
Proof.
  intros [L A N B P] Hk Ha. assert (bk_heap b !! bk_next b = None) as Hn by (by apply N).
  split; simpl.
  - intros k l. destruct (decide (k = (actorID, sid))) as [->|].
    + rewrite lookup_insert_eq. intros [= <-]. rewrite lookup_insert_eq. eauto.
    + rewrite lookup_insert_ne by done. intros Hl. destruct (L k l Hl) as (s & Hs & ?).
      rewrite lookup_insert_ne; [eauto|]. intros <-. congruence.
  - intros l s. destruct (decide (l = bk_next b)) as [->|].
    + rewrite lookup_insert_eq. intros [= <-] _. unfold skey. simpl. by rewrite lookup_insert_eq.
    + rewrite lookup_insert_ne by done. intros Hs Hd. pose proof (A l s Hs Hd) as A1.
      rewrite lookup_insert_ne; [done|]. intros E. unfold skey in *. rewrite <- E in A1. congruence.
  - intros l Hl. rewrite lookup_insert_ne by lia. apply N. lia.
  - intros l s tc. destruct (decide (l = bk_next b)) as [->|].
    + rewrite lookup_insert_eq. intros [= <-]. done.
    + rewrite lookup_insert_ne by done. apply B.
  - intros l s. destruct (decide (l = bk_next b)) as [->|].
    + rewrite lookup_insert_eq. by intros [= <-].
    + rewrite lookup_insert_ne by done. apply P.
Qed.

Lemma table_write tc f b : table_ok b -> table_ok (write_ignore tc f b).
Proof. intros [L A N B P]. unfold write_ignore. destruct (bk_net b !! tc); by split. Qed.

Lemma table_attach_found tc l o b s t :
  table_ok b -> bk_heap b !! l = Some s -> s_dead s = false ->
  bk_tunnels b !! tc = Some t -> t_actor t = s_actorID s -> table_ok (attach_found tc l o b).
Proof. intros T Hs Hd Ht Ha. apply table_run; [apply life_attach|]. by eapply table_bind. Qed.

Lemma lookup_live actorID sid b l :
  table_ok b -> lookup_session actorID sid b = Some l ->
  exists s, bk_heap b !! l = Some s /\ s_actorID s = actorID /\ s_sessionID s = sid /\ s_dead s = false.
Proof. intros T E. destruct (to_live _ _ T _ _ E) as (s & ? & [= ? ?] & ?). eauto. Qed.

Lemma allowed_open (b : Broker C) target :
  match bc_AllowTarget (bk_cfg b) with Some ok => negb (ok target) | None => false end = false ->
  allowed (bk_cfg b) target = true.
Proof. unfold allowed. by destruct (bc_AllowTarget _) as [ok|]; [destruct (ok target)|]. Qed.

Lemma table_open actorID tc f b t :
  table_ok b -> bk_tunnels b !! tc = Some t -> t_actor t = actorID ->
  table_ok (openSession actorID tc f b).
Proof.
  intros T Ht Ha. unfold openSession. destruct (match bc_AllowTarget _ with Some _ => _ | None => _ end) eqn:Ep.
  { by apply table_write. }
  apply allowed_open in Ep. destruct (lookup_session _ _ b) as [l|] eqn:El.
  - destruct (lookup_live _ _ _ _ T El) as (s & Hs & Hsa & _ & Hd). eapply table_attach_found; eauto; congruence.
  - pose proof (table_create actorID (fSessionID f) (fTarget f) b T El Ep) as T1.
    eapply (table_bind tc (bk_next b) (fst (create actorID (fSessionID f) (fTarget f) b)));
      [done|apply lookup_insert_eq|done|done|done].
Qed.

Lemma table_on_session actorID sid op b :
  (forall st, life st (op st)) -> table_ok b -> table_ok (on_session actorID sid op b).
Proof. intros Hop T. unfold on_session. destruct (lookup_session _ _ b); [by apply table_run|done]. Qed.

Lemma table_attach actorID tc f b t :
  table_ok b -> bk_tunnels b !! tc = Some t -> t_actor t = actorID ->
  table_ok (attachSession actorID tc f b).
Proof.
  intros T Ht Ha. unfold attachSession. destruct (lookup_session _ _ b) as [l|] eqn:El.
  - destruct (lookup_live _ _ _ _ T El) as (s & Hs & Hsa & _ & Hd). eapply table_attach_found; eauto; congruence.
  - destruct (_ && _); [|by apply table_write].
    pose proof (table_open actorID tc (OpenF (fSessionID f) (fTarget f)) b t T Ht Ha) as T1.
    destruct (lookup_session _ _ (openSession _ _ _ b)) as [l|]; [|done].
    apply table_run; [apply life_attach|done].
Qed.

Lemma table_handleFrame tc f b t :
  table_ok b -> bk_tunnels b !! tc = Some t -> table_ok (handleFrame os_error (t_actor t) tc f b).
Proof.
  intros T Ht. unfold handleFrame.
  repeat (case_match; [first [by apply table_write | by eapply table_open | by eapply table_attach |
    apply table_on_session; [|done]; auto with tunnel]|]). done.
Qed.

Lemma table_step b b' : table_ok b -> bstep os_error b b' -> table_ok b'.
Proof.
  intros T S. destruct S as [tc c Hn|tc f Hn|tc t f Ht|tc|l r|l p err|l|a].
  - destruct T as [L A N B P]. by split.
  - unfold hello. destruct (_ || _); [done|]. destruct T as [L A N B P]. split; try done.
    intros l s tc' Hs Hd Hb Hp. destruct (B l s tc' Hs Hd Hb Hp) as (t & Et & ?).
    exists t. simpl. rewrite lookup_insert_ne; [done|]. congruence.
  - by apply table_handleFrame.
  - by apply table_detachAll.
  - apply table_run; [apply life_dial|done].
  - apply table_run; [apply life_read|done].
  - apply table_run; [apply life_watchdog|done].
  - destruct T as [L A N B P]. by split.
Qed.

Lemma table_new cfg : table_ok (New cfg).
Proof. split; simpl; intros; try (by rewrite lookup_empty in *); done. Qed.

Lemma table_reachable cfg b : rtc (bstep os_error) (New cfg) b -> table_ok b.
Proof.
  intros R. pose proof (table_new cfg) as T. induction R as [|b b1 b2 S R IH]; [done|].
  apply IH. by eapply table_step.
Qed.
End table.

(** ** Isolation *)

Section isolation.
Context {C : Type} `{FrameWriter C} (os_error : string).
Implicit Types (b : Broker C).

(** Nothing but the session at [l] changes, and of the table only [k]. *)
Definition only (k : sessionKey) (keep : nat -> Prop) b b' : Prop :=
  bk_cfg b' = bk_cfg b /\
  (forall l s, keep l -> bk_heap b !! l = Some s -> bk_heap b' !! l = Some s) /\
  (forall k', k' <> k -> bk_sessions b' !! k' = bk_sessions b !! k').

Lemma only_refl k keep b : only k keep b b.
Proof. done. Qed.

Lemma only_trans k keep b1 b2 b3 : only k keep b1 b2 -> only k keep b2 b3 -> only k keep b1 b3.
Proof.
  intros (C1 & H1 & S1) (C2 & H2 & S2). split_and!; [congruence|eauto|].
  intros k' Hk. by rewrite S2, S1.
Qed.

Lemma only_run k (keep : nat -> Prop) l op b s :
  (forall st, life st (op st)) -> bk_heap b !! l = Some s -> skey s = k -> ~ keep l ->
  only k keep b (run l op b).
Proof.
  intros Hop Hs Hk Hl. destruct (run_frame l op b) as (Ec & _ & _ & Eh). split_and!; [done| |].
  - intros l' s' Hl' Hs'. rewrite Eh; [done|]. by intros ->.
  - intros k' Hk'. unfold run. rewrite Hs. set (st := op _).
    pose proof (Hop (MkSst s (bk_net b) [])) as [_ _ _ _ (es & Ee & R & _)]. fold st in Ee, R.
    simpl in Ee, R. rewrite Ee, callbacks_sessions. simpl. rewrite decide_False; [done|].
    intros Hin. destruct (R _ _ Hin) as [Ek _]. destruct k'. simpl in *. congruence.
Qed.

Lemma only_write k keep tc f b : only k keep b (write_ignore tc f b).
Proof. unfold write_ignore. by destruct (bk_net b !! tc). Qed.

Lemma only_bind k (keep : nat -> Prop) tc l b s :
  bk_heap b !! l = Some s -> ~ keep l -> only k keep b (bind_session tc l b).
Proof.
  intros Hs Hl. unfold bind_session, run. rewrite Hs. simpl. unfold register. simpl.
  destruct (bk_tunnels b !! tc); (split_and!; [done| |done]); simpl;
    intros l' s' Hl' Hs'; rewrite lookup_insert_ne; congruence || (intros ->; done).
Qed.

Lemma bind_session_heap tc l b s :
  bk_heap b !! l = Some s -> bk_heap (bind_session tc l b) !! l = Some (set_tconn (Some tc) s).
Proof.
  intros Hs. unfold bind_session, run. rewrite Hs. simpl. unfold register. simpl.
  destruct (bk_tunnels b !! tc); simpl; apply lookup_insert_eq.
Qed.

Lemma only_attach_found k (keep : nat -> Prop) tc l o b s :
  bk_heap b !! l = Some s -> skey s = k -> ~ keep l -> only k keep b (attach_found tc l o b).
Proof.
  intros Hs Hk Hl. eapply only_trans; [by eapply only_bind|].
  eapply only_run; [apply life_attach|by apply bind_session_heap|done|done].
Qed.

(** The sessions of other keys. *)
Definition other (k : sessionKey) b (l : nat) : Prop :=
  exists s, bk_heap b !! l = Some s /\ skey s <> k.

Lemma other_not k b l s : bk_heap b !! l = Some s -> skey s = k -> ~ other k b l.
Proof. intros Hs Hk (s' & Hs' & Hk'). congruence. Qed.

Lemma only_open actorID tc f b :
  table_ok b -> only (actorID, fSessionID f) (other (actorID, fSessionID f) b) b (openSession actorID tc f b).
Proof.
  intros T. unfold openSession. destruct (match bc_AllowTarget _ with Some _ => _ | None => _ end).
  { apply only_write. }
  destruct (lookup_session _ _ b) as [l|] eqn:El.
  - destruct (lookup_live _ _ _ _ T El) as (s & Hs & Ha & Hi & _).
    assert (skey s = (actorID, fSessionID f)) as Hk by (unfold skey; congruence).
    eapply only_attach_found; [done|done|by eapply other_not].
  - eapply only_trans; [|eapply only_bind; [apply lookup_insert_eq|]].
    + split_and!; [done| |]; simpl.
      * intros l s _ Hs. rewrite lookup_insert_ne; [done|]. intros <-.
        by rewrite (to_next _ _ T) in Hs.
      * intros k' Hk. by rewrite lookup_insert_ne.
    + intros (s & Hs & _). by rewrite (to_next _ _ T) in Hs.
Qed.

Lemma only_on_session actorID sid op b :
  (forall st, life st (op st)) -> table_ok b ->
  only (actorID, sid) (other (actorID, sid) b) b (on_session actorID sid op b).
Proof.
  intros Hop T. unfold on_session. destruct (lookup_session _ _ b) as [l|] eqn:El; [|apply only_refl].
  destruct (lookup_live _ _ _ _ T El) as (s & Hs & Ha & Hi & _).
  assert (skey s = (actorID, sid)) as Hk by (unfold skey; congruence).
  eapply only_run; [done|done|done|by eapply other_not].
Qed.

Lemma only_attach actorID tc f b t :
  table_ok b -> bk_tunnels b !! tc = Some t -> t_actor t = actorID ->
  only (actorID, fSessionID f) (other (actorID, fSessionID f) b) b (attachSession actorID tc f b).
Proof.
  intros T Ht Ha. unfold attachSession. destruct (lookup_session _ _ b) as [l|] eqn:El.
  - destruct (lookup_live _ _ _ _ T El) as (s & Hs & Hsa & Hi & _).
    assert (skey s = (actorID, fSessionID f)) as Hk by (unfold skey; congruence).
    eapply only_attach_found; [done|done|by eapply other_not].
  - destruct (_ && _); [|apply only_write].
    set (g := OpenF (fSessionID f) (fTarget f)).
    pose proof (only_open actorID tc g b T) as O. pose proof (table_open actorID tc g b t T Ht Ha) as T1.
    change (fSessionID g) with (fSessionID f) in O.
    destruct (lookup_session _ _ (openSession _ _ _ b)) as [l|] eqn:El1; [|done].
    eapply only_trans; [done|]. destruct (lookup_live _ _ _ _ T1 El1) as (s & Hs & Hsa & Hi & _).
    assert (skey s = (actorID, fSessionID f)) as Hk by (unfold skey; congruence).
    eapply only_run; [apply life_attach|done|done|]. intros (s' & Hs' & Hk').
    destruct O as (_ & Oh & _). pose proof (Oh l s' (ex_intro _ s' (conj Hs' Hk')) Hs'). congruence.
Qed.

Lemma only_handleFrame tc f b t :
  table_ok b -> bk_tunnels b !! tc = Some t ->
  only (t_actor t, fSessionID f) (other (t_actor t, fSessionID f) b) b (handleFrame os_error (t_actor t) tc f b).
Proof.
  intros T Ht. unfold handleFrame.
  repeat (case_match; [first [apply only_write | by apply only_open | by eapply only_attach |
    apply only_on_session; [|done]; auto with tunnel]|]). done.
Qed.

(** Detaching keeps every session. *)
Lemma run_detach_heap tc l l' b s :
  bk_heap b !! l' = Some s -> exists v, bk_heap (run l (detach tc) b) !! l' = Some (set_tconn v s).
Proof.
  intros Hs. destruct (decide (l' = l)) as [->|].
  - rewrite (run_at l _ b s Hs). destruct (detach_ss tc (MkSst s (bk_net b) [])) as [v ->]. by exists v.
  - destruct (run_frame l (detach tc) b) as (_ & _ & _ & Eh). rewrite Eh by done.
    exists (s_tconn s). rewrite Hs. by destruct s.
Qed.

Lemma detachAll_heap tc b l s :
  bk_heap b !! l = Some s -> exists v, bk_heap (detachAll tc b) !! l = Some (set_tconn v s).
Proof.
  intros Hs. unfold detachAll. destruct (bk_tunnels b !! tc) as [t|].
  2: { exists (s_tconn s). rewrite Hs. by destruct s. }
  assert (bk_heap (set_tunnels (delete tc (bk_tunnels b)) b) !! l = Some (set_tconn (s_tconn s) s)) as H0
    by (simpl; rewrite Hs; by destruct s).
  revert H0. generalize (set_tunnels (delete tc (bk_tunnels b)) b) (s_tconn s). clear Hs.
  induction (map_to_list (t_sessions t)) as [|[i l'] ls IH]; intros b0 v H0; simpl; [eauto|].
  destruct (run_detach_heap tc l' l b0 _ H0) as [w Hw]. apply (IH _ w). exact Hw.
Qed.

Lemma detachAll_tunnels tc b : bk_tunnels (detachAll tc b) !! tc = None.
Proof.
  unfold detachAll. destruct (bk_tunnels b !! tc) as [t|] eqn:Et; [|done].
  assert (bk_tunnels (set_tunnels (delete tc (bk_tunnels b)) b) !! tc = None) as H0
    by apply lookup_delete_eq.
  revert H0. generalize (set_tunnels (delete tc (bk_tunnels b)) b).
  induction (map_to_list (t_sessions t)) as [|[i l] ls IH]; intros b0 H0; simpl; [done|].
  apply IH. destruct (run_frame l (detach tc) b0) as (_ & _ & E & _). by rewrite E.
Qed.

Lemma cfg_handleFrame tc f b t :
  table_ok b -> bk_tunnels b !! tc = Some t -> bk_cfg (handleFrame os_error (t_actor t) tc f b) = bk_cfg b.
Proof. intros T Ht. by destruct (only_handleFrame tc f b t T Ht) as (? & _). Qed.

Lemma cfg_detachAll tc b : bk_cfg (detachAll tc b) = bk_cfg b.
Proof.
  unfold detachAll. destruct (bk_tunnels b !! tc) as [t|]; [|done].
  transitivity (bk_cfg (set_tunnels (delete tc (bk_tunnels b)) b)); [|done].
  generalize (set_tunnels (delete tc (bk_tunnels b)) b).
  induction (map_to_list (t_sessions t)) as [|[i l] ls IH]; intros b0; simpl; [done|].
  rewrite IH. apply run_frame.
Qed.

Lemma cfg_step b b' : table_ok b -> bstep os_error b b' -> bk_cfg b' = bk_cfg b.
Proof.
  intros T S. destruct S; try done; try apply run_frame; try apply cfg_detachAll.
  - unfold hello. by destruct (_ || _).
  - by apply cfg_handleFrame.
Qed.

Lemma cfg_reachable cfg b : rtc (bstep os_error) (New cfg) b -> bk_cfg b = withDefaults cfg.
Proof.
  intros R. transitivity (bk_cfg (New cfg : Broker C)); [|done].
  pose proof (table_new cfg : table_ok (New cfg : Broker C)) as T.
  induction R as [|b b1 b2 S R IH]; [done|].
  rewrite IH by (by eapply table_step). by eapply cfg_step.
Qed.
End isolation.

(** ** Properties *)

Section properties.
Context {C : Type} `{FrameWriter C} (os_error : string).
Context (cfg : Config) (b : Broker C) (R : rtc (bstep os_error) (New cfg) b).

(** C13. The table is exactly the set of live sessions: after any history of
    connections, frames, dials, reads, timers and disconnects, a key leads to a
    session exactly when that session is alive and has that actor and id; so a
    key never has two live sessions, and a destroyed one is never reachable. *)
Theorem table_is_live_sessions (actorID : string) (sid : Z) (l : nat) :
  lookup_session actorID sid b = Some l <->
  exists s, bk_heap b !! l = Some s /\ s_actorID s = actorID /\ s_sessionID s = sid /\ s_dead s = false.
Proof using R.
  pose proof (table_reachable os_error cfg b R) as T. split; [by apply lookup_live|].
  intros (s & Hs & <- & <- & Hd). by apply (to_all _ _ T l s).
Qed.

(** C19. The egress policy holds for every session that ever exists, whether it was
    created by OPEN or re-created by ATTACH: no session has a target the
    configuration does not allow. *)
Theorem egress_policy_enforced (ok : string -> bool) (l : nat) (s : session)
    (Hok : bc_AllowTarget cfg = Some ok) (Hs : bk_heap b !! l = Some s) :
  ok (s_target s) = true.
Proof using R.
  pose proof (table_reachable os_error cfg b R) as T.
  pose proof (to_allowed _ _ T l s Hs) as P. rewrite (cfg_reachable os_error cfg b R) in P.
  unfold allowed in P. simpl in P. by rewrite Hok in P.
Qed.

(** Isolation: a frame that arrives on a tunnel can change no session but the
    one with the tunnel's own actor and the frame's session id; every other
    session, of this or any other actor, keeps its whole state and its table
    entry. *)
Theorem frames_touch_one_session (tc : nat) (t : tunnelConn) (f : Frame) (l : nat) (s : session)
    (Ht : bk_tunnels b !! tc = Some t) (Hs : bk_heap b !! l = Some s)
    (Hk : (s_actorID s, s_sessionID s) <> (t_actor t, fSessionID f)) :
  let b' := handleFrame os_error (t_actor t) tc f b in
  bk_heap b' !! l = Some s /\
  lookup_session (s_actorID s) (s_sessionID s) b' = lookup_session (s_actorID s) (s_sessionID s) b.
Proof using R.
  intros b'. pose proof (table_reachable os_error cfg b R) as T.
  destruct (only_handleFrame os_error tc f b t T Ht) as (_ & Oh & Os). fold b' in Oh, Os. split.
  - apply Oh; [|done]. by exists s.
  - by apply Os.
Qed.

(** A tunnel that drops takes no session with it: every session keeps its
    upstream connection, buffers, offsets and flags, only the binding is
    cleared; and afterwards no live session is bound to the dead connection,
    so a later wake or attach cannot be lost to it. *)
Theorem dropped_tunnel_keeps_sessions (tc l : nat) (s : session) (Hs : bk_heap b !! l = Some s) :
  exists v, bk_heap (detachAll tc b) !! l = Some (set_tconn v s) /\
    (s_dead s = false -> v <> Some tc).
Proof using R.
  pose proof (table_reachable os_error cfg b R) as T.
  destruct (detachAll_heap tc b l s Hs) as [v Hv]. exists v. split; [done|]. intros Hd ->.
  destruct (to_bound _ _ (table_detachAll tc b T) l _ tc Hv Hd eq_refl) as (t & Et & _); [tauto|].
  by rewrite detachAll_tunnels in Et.
Qed.

(** ATTACH for a session the broker does not have.  When the agent has already
    received bytes the stream cannot be continued: the sidecar is told to close
    it and nothing else changes.  When it has received nothing, a fresh session
    is created, bound, and answered with ATTACH_OK at offset 0, provided the
    policy allows the target. *)
Theorem attach_unknown_session (tc : nat) (t : tunnelConn) (sid o : Z) (target : string)
    (Ht : bk_tunnels b !! tc = Some t) (Hn : lookup_session (t_actor t) sid b = None)
    (Htarget : target <> "") :
  let b' := handleFrame os_error (t_actor t) tc (AttachF sid o target) b in
  if o =? 0 then
    if allowed (bk_cfg b) target then
      bk_next b' = S (bk_next b) /\
      exists s, bk_heap b' !! bk_next b = Some s /\ s_actorID s = t_actor t /\ s_sessionID s = sid /\
        s_target s = target /\ s_upstreamWritten s = 0 /\ s_dead s = false
    else b' = write_ignore tc (CloseF sid DirDown "target not allowed") b
  else b' = write_ignore tc (CloseF sid DirDown "session lost") b.
Proof using R.
  intros b'. pose proof (table_reachable os_error cfg b R) as T.
  assert (b' = attachSession (t_actor t) tc (AttachF sid o target) b) as -> by done.
  unfold attachSession. cbn [fSessionID fOffset fTarget AttachF]. rewrite Hn.
  rewrite (bool_decide_eq_true_2 (target <> "")) by done. rewrite andb_true_r.
  destruct (Z.eqb_spec o 0) as [->|]; [|done].
  unfold openSession. cbn [fSessionID fOffset fTarget OpenF].
  destruct (allowed (bk_cfg b) target) eqn:Ea; unfold allowed in Ea.
  - assert (match bc_AllowTarget (bk_cfg b) with Some ok => negb (ok target) | None => false end = false) as ->
      by (destruct (bc_AllowTarget (bk_cfg b)); [by rewrite Ea|done]).
    rewrite Hn. set (b1 := fst (create (t_actor t) sid target b)).
    change (create (t_actor t) sid target b) with (b1, bk_next b). cbn iota.
    set (s0 := newSession (bc_SessionBufferBytes (bk_cfg b)) (t_actor t) sid target).
    assert (bk_heap b1 !! bk_next b = Some s0) as Hs0 by apply lookup_insert_eq.
    rewrite (bind_session_eq tc (bk_next b) b1 s0 t Hs0 Ht).
    set (b2 := MkBroker _ _ _ _ _ _ _).
    assert (lookup_session (t_actor t) sid b2 = Some (bk_next b)) as ->
      by (unfold lookup_session; simpl; apply lookup_insert_eq).
    destruct (run_frame (bk_next b) (onSidecarAttach 0) b2) as (_ & En & _). split; [done|].
    rewrite (run_at _ _ b2 (set_tconn (Some tc) s0)) by apply lookup_insert_eq.
    destruct (attach_ss 0 (MkSst (set_tconn (Some tc) s0) (bk_net b2) [])) as [v ->].
    eexists. split; [done|]. done.
  - assert (match bc_AllowTarget (bk_cfg b) with Some ok => negb (ok target) | None => false end = true) as ->
      by (destruct (bc_AllowTarget (bk_cfg b)); [by rewrite Ea|done]).
    assert (lookup_session (t_actor t) sid (write_ignore tc (CloseF sid DirDown "target not allowed") b) = None) as ->;
      [|done].
    unfold write_ignore. by destruct (bk_net b !! tc).
Qed.
End properties.

(** ** Witnesses *)

(** A broker that allows one target, with one tunnel and one open session. *)
Module Demo.
Definition policy (t : string) : bool := bool_decide (t = "mcp:80").
Definition cfg : Config := MkConfig 0 0 0 0 (Some policy).
Definition b1 : Broker Conn := set_bnet (<[0%nat := NewConn new_sock]> ∅) (New cfg).
Definition b2 : Broker Conn := fst (hello 0 (HelloF "ns/a") b1).
Definition t2 : tunnelConn := MkTunnelConn "ns/a" ∅.
Definition b3 : Broker Conn := handleFrame "broken pipe" "ns/a" 0 (OpenF 1 "mcp:80") b2.

Lemma demo_broker_reached : rtc (bstep "broken pipe") (New cfg) b3.
Proof.
  apply (rtc_l _ _ b1); [by apply BAccept|].
  apply (rtc_l _ _ b2); [by apply BHello|].
  apply (rtc_l _ _ b3); [by apply (BFrame _ b2 0%nat t2)|].
  apply rtc_refl.
Qed.

Definition s3 : session := set_tconn (Some 0%nat) (newSession (4 * 1024 * 1024) "ns/a" 1 "mcp:80").
Definition t3 : tunnelConn := MkTunnelConn "ns/a" {[1 := 0%nat]}.
End Demo.

Lemma table_is_live_sessions_witness :
  lookup_session "ns/a" 1 Demo.b3 = Some 0%nat <->
  exists s, bk_heap Demo.b3 !! 0%nat = Some s /\ s_actorID s = "ns/a" /\ s_sessionID s = 1 /\ s_dead s = false.
Proof. apply (table_is_live_sessions "broken pipe" Demo.cfg). exact Demo.demo_broker_reached. Defined.

Lemma egress_policy_enforced_witness : Demo.policy (s_target Demo.s3) = true.
Proof.
  apply (egress_policy_enforced "broken pipe" Demo.cfg Demo.b3 Demo.demo_broker_reached
           Demo.policy 0%nat Demo.s3); reflexivity.
Defined.

Lemma frames_touch_one_session_witness :
  bk_heap (handleFrame "broken pipe" "ns/a" 0 (OpenF 2 "mcp:80") Demo.b3) !! 0%nat = Some Demo.s3.
Proof.
  apply (frames_touch_one_session "broken pipe" Demo.cfg Demo.b3 Demo.demo_broker_reached 0 Demo.t3 (OpenF 2 "mcp:80") 0 Demo.s3);
    [reflexivity|reflexivity|discriminate].
Defined.

Lemma dropped_tunnel_keeps_sessions_witness :
  exists v, bk_heap (detachAll 0 Demo.b3) !! 0%nat = Some (set_tconn v Demo.s3) /\
    (s_dead Demo.s3 = false -> v <> Some 0%nat).
Proof.
  apply (dropped_tunnel_keeps_sessions "broken pipe" Demo.cfg Demo.b3 Demo.demo_broker_reached). reflexivity.
Defined.

Lemma attach_unknown_session_witness :
  bk_next (handleFrame "broken pipe" "ns/a" 0 (AttachF 2 0 "mcp:80") Demo.b3) = 2%nat /\
  handleFrame "broken pipe" "ns/a" 0 (AttachF 2 7 "mcp:80") Demo.b3 =
    write_ignore 0 (CloseF 2 DirDown "session lost") Demo.b3.
Proof.
  split.
  - pose proof (attach_unknown_session "broken pipe" Demo.cfg Demo.b3 Demo.demo_broker_reached 0 Demo.t3 2 0 "mcp:80"
      eq_refl eq_refl ltac:(discriminate)) as P. apply P.
  - apply (attach_unknown_session "broken pipe" Demo.cfg Demo.b3 Demo.demo_broker_reached 0 Demo.t3 2 7 "mcp:80");
      [reflexivity|reflexivity|discriminate].
Defined.
