(* ===== verification/SidecarClient.v ===== *)
(** * SidecarClient: the tunnel client as a whole

    Properties of [Sidecar.Client], over any number of sessions: what a
    reconnect announces, that frames reach one session only, that session ids
    are never reused, and how the ping loop finds a dead tunnel. *)
From S2P Require Import Prelude ReplayBuffer Socket Wire Link Sidecar SidecarStream.

Section client.
Context {C : Type} `{FrameWriterLaws C}.
Implicit Types (cl : Client C).

(** A session that can be announced: its fields fit the wire format. *)
Definition announceable (s : clientSession) : Prop :=
  is_u64 (cs_sessionID s) /\ is_u64 (cs_downDelivered s) /\ str_len (cs_target s) <= maxString.

Lemma announceable_wf s : announceable s -> wf_frame (attachFrame s).
Proof. intros (H1 & H2 & H3). by constructor. Qed.

(** Writing frames one after the other on a working connection. *)
Lemma conn_writes cl tc c (ss : list clientSession) :
  cl_net cl !! tc = Some c -> fw_healthy c -> Forall announceable ss ->
  let cl' := foldl (fun cl s => fst (conn_write tc (attachFrame s) cl)) cl ss in
  cl_conn cl' = cl_conn cl /\ cl_sessions cl' = cl_sessions cl /\
  exists c', cl_net cl' !! tc = Some c' /\ fw_sent c' = fw_sent c ++ map attachFrame ss.
Proof.
  revert cl c. induction ss as [|s ss IH]; intros cl c Hc Hh HF; simpl.
  { split_and!; [done|done|]. exists c. by rewrite app_nil_r. }
  apply Forall_cons in HF as [Hs HF]. apply announceable_wf in Hs.
  destruct (fw_write_healthy (attachFrame s) c Hh Hs) as (c1 & W & Hh1 & Hs1).
  assert (fst (conn_write tc (attachFrame s) cl) =
    MkClient (cl_cfg cl) (cl_nextID cl) (cl_conn cl) (cl_sessions cl) (<[tc:=c1]> (cl_net cl)) (cl_lastPong cl)) as ->.
  { unfold conn_write. by rewrite Hc, W. }
  destruct (IH (MkClient (cl_cfg cl) (cl_nextID cl) (cl_conn cl) (cl_sessions cl) (<[tc:=c1]> (cl_net cl)) (cl_lastPong cl)) c1)
    as (E1 & E2 & c' & E3 & E4); [apply lookup_insert_eq|done..|].
  split_and!; [done|done|]. exists c'. split; [done|]. by rewrite E4, Hs1, <- app_assoc.
Qed.

Lemma connect_writes cl (actorID : string) (tc : nat) (c : C) (now : Z)
    (Ha : str_len actorID <= maxString) (Hh : fw_healthy c) (Hs : fw_sent c = [])
    (HF : map_Forall (fun _ s => announceable s) (cl_sessions cl)) :
  let '(cl', ok) := connect actorID tc c now cl in
  ok = true /\ cl_conn cl' = Some tc /\ cl_sessions cl' = cl_sessions cl /\
  exists c', cl_net cl' !! tc = Some c' /\
    fw_sent c' = HelloF actorID :: map (fun '(_, s) => attachFrame s) (map_to_list (cl_sessions cl)).
Proof.
  unfold connect. destruct (fw_write_healthy (HelloF actorID) c Hh) as (c1 & W & Hh1 & Hs1); [by constructor|].
  rewrite W. simpl.
  set (cl1 := MkClient _ _ _ _ _ _).
  destruct (conn_writes cl1 tc c1 (map snd (map_to_list (cl_sessions cl))))
    as (E1 & E2 & c' & E3 & E4); [apply lookup_insert_eq|done| |].
  { apply Forall_fmap. apply map_Forall_to_list in HF. eapply Forall_impl; [exact HF|]. by intros [i s]. }
  split_and!; [done|done|done|]. exists c'. split; [done|].
  rewrite E4, Hs1, Hs. simpl. f_equal. rewrite map_map. apply map_ext. by intros [i s].
Qed.

(** Reconnecting re-announces everything: on a fresh working connection the
    client sends HELLO with its identity and then exactly one ATTACH per live
    session, carrying that session's id, target and delivered offset; the
    connection becomes the current one, the pong clock restarts, and no session
    is changed. *)
Theorem connect_reattaches_every_session cl (actorID : string) (tc : nat) (c : C) (now : Z)
    (Ha : str_len actorID <= maxString) (Hh : fw_healthy c) (Hs : fw_sent c = [])
    (HF : map_Forall (fun _ s => announceable s) (cl_sessions cl)) :
  let '(cl', ok) := connect actorID tc c now cl in
  ok = true /\ cl_conn cl' = Some tc /\ cl_sessions cl' = cl_sessions cl /\
  exists c', cl_net cl' !! tc = Some c' /\
    fw_sent c' = HelloF actorID :: map (fun '(_, s) => attachFrame s) (map_to_list (cl_sessions cl)).
Proof. by apply connect_writes. Qed.

(** Frames from the broker reach one session only: handling a frame changes no
    session but the one it names. *)
Theorem client_frames_touch_one_session cl (tc : nat) (now : Z) (f : Frame) (id : Z)
    (Hid : id <> fSessionID f)
    (Hkeys : map_Forall (fun i s => cs_sessionID s = i) (cl_sessions cl)) :
  lookup_session id (handle_frame tc now f cl) = lookup_session id cl.
Proof.
  unfold handle_frame, lookup_session. destruct (_ =? _); [done|]. destruct (_ =? _).
  { unfold conn_write. destruct (cl_net cl !! tc) as [c|]; [|done]. by destruct (fw_write _ c). }
  unfold run_session. destruct (cl_sessions cl !! fSessionID f) as [s|] eqn:Es; [|done]. simpl.
  set (st := session_dispatch f _).
  assert (Forall (fun i => i = fSessionID f) (cremoved st)) as HR.
  { assert (forall g (s0 : cst C), cremoved (csend g s0) = cremoved s0) as K
      by (intros g s0; unfold csend; by repeat case_match).
    assert (cs_sessionID s = fSessionID f) as Eid by (by apply (Hkeys _ s)).
    unfold st, session_dispatch, onAttachOK, deliverDown, deliver_write, onUpstreamAck, onClose, closeAll.
    repeat case_match; rewrite ?K; simpl; repeat constructor; done. }
  clearbody st. induction HR as [|i l -> _ IH]; simpl; [by rewrite lookup_insert_ne|].
  rewrite lookup_delete_ne by done. exact IH.
Qed.

(** The session that [OpenSession] returns is in the table, with its target. *)
Lemma opened_session cl (agent : sock) (cw : bool) (target : string) :
  let '(cl', id) := OpenSession agent cw target cl in
  exists s, lookup_session id cl' = Some s /\ cs_target s = target.
Proof.
  unfold OpenSession, lookup_session. set (cl1 := MkClient _ _ _ _ _ _).
  assert (cl_sessions (send (OpenF (u64 (cl_nextID cl + 1)) target) cl1) = cl_sessions cl1) as ->.
  { unfold send, conn_write. repeat case_match; simplify_eq; done. }
  eexists. split; [apply lookup_insert_eq|done].
Qed.

(** Session ids are fresh: each new session gets the next number, so as long as
    fewer than 2^64 sessions were opened the id differs from that of every
    session the client has ever had, and opening one never replaces another. *)
Theorem session_ids_are_fresh cl (agent : sock) (cw : bool) (target : string)
    (Hn : 0 <= cl_nextID cl < 2 ^ 64 - 1)
    (Hids : map_Forall (fun i _ => 0 < i <= cl_nextID cl) (cl_sessions cl)) :
  let '(cl', id) := OpenSession agent cw target cl in
  lookup_session id cl = None /\ id = cl_nextID cl + 1 /\ cl_nextID cl' = id /\
  map_Forall (fun i _ => 0 < i <= cl_nextID cl') (cl_sessions cl') /\
  (forall i s, lookup_session i cl = Some s -> lookup_session i cl' = Some s).
Proof.
  unfold OpenSession. rewrite u64_small by lia. set (cl1 := MkClient _ _ _ _ _ _).
  assert (cl_nextID (send (OpenF (cl_nextID cl + 1) target) cl1) = cl_nextID cl + 1 /\
          cl_sessions (send (OpenF (cl_nextID cl + 1) target) cl1) = cl_sessions cl1) as [-> E].
  { unfold send, conn_write. repeat case_match; simplify_eq; done. }
  unfold lookup_session in *. rewrite E.
  assert (cl_sessions cl !! (cl_nextID cl + 1) = None) as Hfresh.
  { destruct (cl_sessions cl !! (cl_nextID cl + 1)) as [s|] eqn:Es; [|done]. apply Hids in Es. lia. }
  split_and!; try done.
  - apply map_Forall_insert_2; [lia|]. intros i s Hi. apply Hids in Hi. lia.
  - intros i s Hi. simpl. rewrite lookup_insert_ne; [done|]. intros <-. congruence.
Qed.

(** A zombie tunnel is found: once the last PONG is older than the timeout the
    next tick closes the connection without writing, however healthy writes to
    it look; and while PONGs are recent a tick on a working connection sends
    the next PING and goes on. *)
Theorem ping_detects_zombie cl (tc : nat) (now nonce : Z) (c : C)
    (Hc : cl_net cl !! tc = Some c) (Hh : fw_healthy c) :
  (cl_lastPong cl + cc_PongTimeout (cl_cfg cl) < now -> ping_tick tc now nonce cl = (cl, PingClose)) /\
  (now <= cl_lastPong cl + cc_PongTimeout (cl_cfg cl) ->
     snd (ping_tick tc now nonce cl) = PingGoOn (u64 (nonce + 1))).
Proof.
  unfold ping_tick. split; intros Ht.
  - destruct (Z.gtb_spec (now - cl_lastPong cl) (cc_PongTimeout (cl_cfg cl))); [done|lia].
  - destruct (Z.gtb_spec (now - cl_lastPong cl) (cc_PongTimeout (cl_cfg cl))); [lia|].
    unfold conn_write. rewrite Hc.
    destruct (fw_write_healthy (PingF (u64 (nonce + 1))) c Hh) as (c' & -> & _); [|done].
    constructor. unfold is_u64. apply u64_range.
Qed.
End client.

(** C28. Redialing is paced and stops: until the context is cancelled at [stop], the
    client of the command line (500 ms backoff) makes at most one attempt per
    backoff, whatever the attempts take; each attempt starts a backoff after
    the one before ended, and none starts after the cancellation. *)
Theorem redials_are_paced {C} (cfg : ClientConfig) (stop now : Z) (durs : list Z)
    (Hcfg : 0 <= cc_DialBackoff cfg) (Hd : Forall (fun d => 0 <= d) durs) (Hn : now < stop)
    (ts := client_Run (NewClient cfg : Client C) stop now durs)
    (backoff := cc_DialBackoff (client_defaults cfg)) :
  (len ts - 1) * backoff < stop - now /\ Forall (fun t => now <= t < stop) ts /\
  (forall k t t', ts !! k = Some t -> ts !! S k = Some t' ->
     exists d, durs !! k = Some d /\ t' = t + d + backoff).
Proof.
  assert (0 < backoff) as Hb.
  { unfold backoff, client_defaults. simpl. destruct (Z.eqb_spec (cc_DialBackoff cfg) 0); unfold millisecond; lia. }
  unfold ts, client_Run. change (cc_DialBackoff (cl_cfg _)) with backoff. clearbody backoff. clear ts Hcfg.
  revert now Hn. induction Hd as [|d durs Hd0 Hd IH]; intros now Hn; cbn [redials].
  { split_and!; [change (len []) with 0; lia|apply Forall_nil_2|done]. }
  destruct (Z.leb_spec stop now); [lia|]. destruct (Z.leb_spec stop (now + d + backoff)) as [|Hlt].
  { split_and!; [change (len [now]) with 1; lia|apply Forall_singleton; lia|by intros []]. }
  destruct (IH (now + d + backoff) Hlt) as (I1 & I2 & I3). split_and!.
  - change (now :: ?l) with ([now] ++ l). rewrite len_app. change (len [now]) with 1. lia.
  - apply Forall_cons. split; [lia|]. eapply Forall_impl; [exact I2|]. simpl. lia.
  - intros [|k] t t' Ht Ht'; [|by apply (I3 k t t')]. simpl in Ht. injection Ht as <-. exists d. split; [done|].
    simpl in Ht'. destruct durs as [|d' durs]; [done|]. cbn [redials] in Ht'.
    destruct (Z.leb_spec stop (now + d + backoff)); [lia|]. by injection Ht' as <-.
Qed.

(** ** Witnesses *)

Lemma redials_are_paced_witness :
  (len (client_Run (NewClient (MkClientConfig 0 0 0 0) : Client Conn) (3 * second) 0 [0; 2 * second; 0; 0]) - 1) *
    (500 * millisecond) < 3 * second - 0.
Proof.
  refine (proj1 (redials_are_paced (C := Conn) (MkClientConfig 0 0 0 0) (3 * second) 0 [0; 2 * second; 0; 0] _ _ _)).
  - by vm_compute.
  - repeat (apply Forall_cons; split; [by vm_compute|]). apply Forall_nil_2.
  - by vm_compute.
Defined.

Definition demo_session : clientSession :=
  set_cs_downDelivered 5 (newClientSession 8 1 "mcp:80" new_sock true).
Definition demo_client : Client Conn :=
  MkClient (client_defaults (MkClientConfig 0 0 0 0)) 1 None {[1 := demo_session]} ∅ 0.

Lemma connect_reattaches_every_session_witness :
  exists c', cl_net (fst (connect "ns/a" 0 (NewConn new_sock) 7 demo_client)) !! 0%nat = Some c' /\
    fw_sent c' = [HelloF "ns/a"; AttachF 1 5 "mcp:80"].
Proof.
  pose proof (connect_reattaches_every_session demo_client "ns/a" 0 (NewConn new_sock) 7) as P.
  destruct (connect "ns/a" 0 (NewConn new_sock) 7 demo_client) as [cl' ok].
  destruct P as (_ & _ & _ & c' & E1 & E2).
  - done.
  - exact (proj1 (proj2 (fw_new_ok (C := Conn)))).
  - reflexivity.
  - apply map_Forall_singleton. by repeat split.
  - exists c'. split; [exact E1|]. exact E2.
Defined.

Lemma client_frames_touch_one_session_witness :
  lookup_session 1 (handle_frame 0 9 (DataF 2 0 [x61]) demo_client) = Some demo_session.
Proof.
  apply (client_frames_touch_one_session demo_client 0 9 (DataF 2 0 [x61]) 1); [discriminate|].
  by apply map_Forall_singleton.
Defined.

Lemma session_ids_are_fresh_witness :
  lookup_session (snd (OpenSession new_sock true "llm:443" demo_client)) demo_client = None.
Proof.
  pose proof (session_ids_are_fresh demo_client new_sock true "llm:443") as P.
  destruct (OpenSession new_sock true "llm:443" demo_client) as [cl' id]. simpl.
  apply P; [simpl; lia|]. apply map_Forall_singleton. simpl. lia.
Defined.

Definition demo_connected : Client Conn :=
  MkClient (client_defaults (MkClientConfig 0 0 0 0)) 1 (Some 0%nat) ∅ {[0%nat := NewConn new_sock]} 0.

Lemma ping_detects_zombie_witness :
  ping_tick 0 (4 * second) 7 demo_connected = (demo_connected, PingClose).
Proof.
  apply (ping_detects_zombie demo_connected 0 (4 * second) 7 (NewConn new_sock));
    [reflexivity|exact (proj1 (proj2 (fw_new_ok (C := Conn))))|by vm_compute].
Defined.
