(* ===== verification/Refinement.v ===== *)
(** * Refinement: the broker implements the session model of [System]

    [System] follows one session.  Here the whole broker of [Broker], with its
    table, its heap of sessions and its callbacks, is shown to do to a session
    exactly what the corresponding step of [System] does: a simulation, frame by
    frame and event by event, through the relation [view].  States of a session
    are compared up to the log of callbacks ([eqv]), which [System] only
    accumulates and the broker acts on; session methods respect that
    equivalence ([Proper] instances). *)
From S2P Require Import Prelude ReplayBuffer Socket Wire Link BrokerSession Sidecar.
From S2P Require Import BrokerStream SidecarStream System Resumer Broker.

(** ** Session states up to the callback log *)

Section eqv.
Context {C : Type} `{FrameWriter C} (os_error : string).
Implicit Types (st : sst C).

Definition eqv (st st' : sst C) : Prop := ss st = ss st' /\ net st = net st'.

#[export] Instance eqv_equivalence : Equivalence eqv.
Proof. split; [done|intros ? ? []; by split|intros ? ? ? [] []; split; congruence]. Qed.

(** Pairs of a state and a result. *)
Definition eqv2 {A} (x x' : sst C * A) : Prop := eqv (fst x) (fst x') /\ snd x = snd x'.

#[export] Instance upd_eqv f : Proper (eqv ==> eqv) (upd f).
Proof. intros st st' [E1 E2]. split; simpl; congruence. Qed.

Lemma emit_eqv e st : eqv (emit e st) st.
Proof. done. Qed.

#[export] Instance wake_eqv r : Proper (eqv ==> eqv) (wake r).
Proof. intros st st' E. unfold wake. by rewrite !emit_eqv. Qed.

Lemma tc_write_eqv tc f st st' : eqv st st' -> eqv2 (tc_write tc f st) (tc_write tc f st').
Proof.
  intros [E1 E2]. unfold tc_write. rewrite E2. destruct (net st' !! tc) as [c|]; [|by repeat split].
  destruct (fw_write f c) as [c' ok]. repeat split; simpl; congruence.
Qed.

#[export] Instance bind_eqv tc : Proper (eqv ==> eqv) (bind tc).
Proof. unfold bind. by apply upd_eqv. Qed.

#[export] Instance detach_eqv tc : Proper (eqv ==> eqv) (detach tc).
Proof.
  intros st st' E. unfold detach. rewrite (proj1 E). case_decide; [|done].
  pose proof (upd_eqv (set_tconn None) st st' E) as E'. simpl. rewrite (proj1 E).
  destruct (_ && _); [by rewrite E'|done].
Qed.

#[export] Instance send_eqv f : Proper (eqv ==> eqv) (sendToSidecar f).
Proof.
  intros st st' E. unfold sendToSidecar. rewrite (proj1 E). destruct (s_tconn (ss st')) as [tc|]; [|done].
  destruct (tc_write_eqv tc f st st' E) as [E1 E2].
  destruct (tc_write tc f st) as [x ok], (tc_write tc f st') as [x' ok']. simpl in E1, E2. subst ok'.
  destruct ok; [done|by rewrite E1].
Qed.

#[export] Instance destroy_eqv : Proper (eqv ==> eqv) (@destroy C).
Proof.
  intros st st' E. unfold destroy. rewrite (proj1 E). destruct (s_dead (ss st')); [done|].
  rewrite !emit_eqv. by apply upd_eqv.
Qed.

#[export] Instance maybeDestroy_eqv : Proper (eqv ==> eqv) (@maybeDestroy C).
Proof. intros st st' E. unfold maybeDestroy. rewrite (proj1 E). destruct (_ && _); [by rewrite E|done]. Qed.

#[export] Instance closeUpstream_eqv cause : Proper (eqv ==> eqv) (closeUpstream cause).
Proof.
  intros st st' E. unfold closeUpstream. rewrite (proj1 E). destruct (s_downClosed (ss st')); [done|].
  pose proof (upd_eqv (set_downClosed true) st st' E) as E'. simpl. rewrite !(proj1 E).
  destruct (bool_decide _); [by rewrite E'|]. destruct (s_requestOutstanding _); by rewrite E'.
Qed.

#[export] Instance watchdog_eqv : Proper (eqv ==> eqv) (@watchdog_fire C).
Proof.
  intros st st' E. unfold watchdog_fire. pose proof (upd_eqv (set_watchdog (Some false)) st st' E) as E'.
  simpl. rewrite !(proj1 E). destruct (_ && _); [by rewrite E'|done].
Qed.

#[export] Instance commit_eqv n : Proper (eqv ==> eqv) (commit_upstream n).
Proof.
  intros st st' E. unfold commit_upstream. simpl. rewrite !(proj1 E). by apply send_eqv, upd_eqv.
Qed.

Lemma up_write_eqv p st st' : eqv st st' -> eqv2 (up_write p st) (up_write p st').
Proof.
  intros E. unfold up_write. rewrite (proj1 E). destruct (s_upstream (ss st')) as [u|]; [|by split].
  destruct (sock_write p u) as [u' ok]. split; [|done]. by apply upd_eqv.
Qed.

#[export] Instance onData_eqv o p : Proper (eqv ==> eqv) (onData os_error o p).
Proof.
  intros st st' E. unfold onData. rewrite (proj1 E). destruct (onData_check o p (ss st')) as [s w].
  assert (eqv (upd (fun _ => s) st) (upd (fun _ => s) st')) as E1 by (by apply upd_eqv).
  destruct w as [q|]; [|done]. unfold onData_write. destruct (up_write_eqv q _ _ E1) as [E2 E3].
  destruct (up_write q (upd (fun _ => s) st)) as [x ok], (up_write q (upd (fun _ => s) st')) as [x' ok'].
  simpl in E2, E3. subst ok'. destruct ok; by rewrite E2.
Qed.

#[export] Instance ack_eqv o : Proper (eqv ==> eqv) (@onDownstreamAck C o).
Proof. unfold onDownstreamAck. by apply upd_eqv. Qed.

#[export] Instance attach_eqv o : Proper (eqv ==> eqv) (onSidecarAttach o).
Proof.
  intros st st' E. unfold onSidecarAttach. rewrite (proj1 E).
  destruct (_ >? 0), (s_downClosed (ss st') && _); by rewrite E.
Qed.

#[export] Instance close_eqv d r : Proper (eqv ==> eqv) (@onSidecarClose C d r).
Proof. intros st st' E. unfold onSidecarClose. destruct (negb _); [done|]. by rewrite E. Qed.

Lemma dial_eqv r st st' : eqv st st' -> eqv2 (dialUpstream os_error r st) (dialUpstream os_error r st').
Proof.
  intros E. unfold dialUpstream. destruct r as [conn|e]; [|rewrite (proj1 E); split; [|done]; by rewrite E].
  unfold dial_connect. rewrite (proj1 E). destruct (s_dead (ss st')); [by split|].
  match goal with |- context [upd ?f st] => pose proof (upd_eqv f st st' E) as E1; set (g := f) in * end.
  unfold dial_flush. destruct (_ >? 0); [|by split].
  destruct (up_write_eqv (s_preConn (ss st')) _ _ E1) as [E2 E3].
  destruct (up_write _ (upd g st)) as [x ok], (up_write _ (upd g st')) as [x' ok']. simpl in E2, E3. subst ok'.
  destruct ok; (split; [|done]); by rewrite E2.
Qed.

Lemma produce_eqv fuel p st st' : eqv st st' -> eqv2 (produce_loop fuel p st) (produce_loop fuel p st').
Proof.
  revert p st st'. induction fuel as [|fuel IH]; intros p st st' E; destruct p as [|b p]; try by split.
  simpl. rewrite !(proj1 E). destruct (s_dead (ss st')); [by split|]. destruct (_ =? 0); [by split|].
  destruct (Append _ _) as [d|e]; [|by split]. apply IH.
  assert (eqv (upd (set_downBuf d) st) (upd (set_downBuf d) st')) as E1 by (by apply upd_eqv).
  match goal with |- context [try_forward ?o ?c _] => set (off := o); set (ch := c) end.
  assert (eqv (try_forward off ch (upd (set_downBuf d) st)) (try_forward off ch (upd (set_downBuf d) st'))) as E2.
  { unfold try_forward. rewrite (proj1 E1). destruct (s_tconn _) as [tc|]; [|done].
    match goal with |- context [tc_write tc ?f (upd _ st')] => destruct (tc_write_eqv tc f _ _ E1) as [E3 E4] end.
    destruct (tc_write _ _ (upd (set_downBuf d) st)) as [x ok], (tc_write _ _ (upd (set_downBuf d) st')) as [x' ok'].
    simpl in E3, E4. subst ok'. destruct ok; [done|by rewrite E3]. }
  unfold wake_if_detached. rewrite (proj1 E2). destruct (_ && _); [by rewrite E2|done].
Qed.

Lemma read_eqv p err st st' : eqv st st' -> eqv2 (readUpstream p err st) (readUpstream p err st').
Proof.
  intros E. unfold readUpstream.
  assert (eqv2 (match p with [] => (st, PDone) | _ => produceDownstream p st end)
               (match p with [] => (st', PDone) | _ => produceDownstream p st' end)) as [E1 E2]
    by (destruct p; [by split|by apply produce_eqv]).
  destruct (match p with [] => (st, PDone) | _ => _ end) as [x r],
    (match p with [] => (st', PDone) | _ => _ end) as [x' r']. simpl in E1, E2. subst r'.
  destruct r; try (split; [|done]; by rewrite E1). destruct err; (split; [|done]); by rewrite E1.
Qed.
End eqv.

(** ** The simulation relation *)

Section simulation.
Context {C : Type} `{FrameWriter C} (os_error : string).
Context (actorID : string) (sid : Z) (target : string).
Implicit Types (b : Broker C) (y : sys C).

(** The broker [b] and the session model [y] agree on the session
    [(actorID, sid)]: same connections; a session in the table is the model's,
    one that is not in the table has not been created yet. *)
Definition view b y : Prop :=
  bk_net b = net (y_b y) /\
  match bk_sessions b !! (actorID, sid) with
  | Some l => y_created y = true /\ bk_heap b !! l = Some (ss (y_b y))
  | None => y_created y = false /\
            ss (y_b y) = newSession (bc_SessionBufferBytes (bk_cfg b)) actorID sid target
  end.

(** Once the session is destroyed it leaves the table, and its model is dead. *)
Definition view_or_gone b y : Prop :=
  view b y \/ bk_net b = net (y_b y) /\ y_created y = true /\ s_dead (ss (y_b y)) = true /\
              bk_sessions b !! (actorID, sid) = None.

(** What a step of the broker must establish: same connections, and the table
    has an entry exactly when the model's session was created and is not dead;
    the entry is then the model's session. *)
Definition simulates b y : Prop :=
  bk_net b = net (y_b y) /\
  match bk_sessions b !! (actorID, sid) with
  | Some l => y_created y = true /\ s_dead (ss (y_b y)) = false /\ bk_heap b !! l = Some (ss (y_b y))
  | None => if y_created y then s_dead (ss (y_b y)) = true
            else ss (y_b y) = newSession (bc_SessionBufferBytes (bk_cfg b)) actorID sid target
  end.

Lemma view_simulates b y : table_ok b -> view_or_gone b y -> simulates b y.
Proof.
  intros T [[En Hv]|(En & Hc & Hd & El)]; (split; [done|]); [|by rewrite El, Hc].
  destruct (bk_sessions b !! (actorID, sid)) as [l|] eqn:El; destruct Hv as [-> Hs]; [|done].
  destruct (to_live _ _ T _ _ El) as (s & Hsl & _ & Hd). assert (s = ss (y_b y)) as -> by congruence. done.
Qed.

Lemma run_net l op b s :
  bk_heap b !! l = Some s -> bk_net (run l op b) = net (op (MkSst s (bk_net b) [])).
Proof.
  intros E. unfold run. rewrite E. set (st := op _).
  destruct (callbacks_frame (evs st)
    (MkBroker (bk_cfg b) (bk_sessions b) (<[l := ss st]> (bk_heap b)) (bk_next b) (bk_tunnels b)
           (net st) (bk_resumer b))) as (_ & _ & _ & _ & ->). done.
Qed.

(** A method run on the session's heap cell is the method run on the model. *)
Lemma view_run l op b y :
  (forall st, life st (op st)) -> Proper (eqv ==> eqv) op -> table_ok b ->
  bk_sessions b !! (actorID, sid) = Some l -> view b y ->
  view_or_gone (run l op b) (with_b (op (y_b y)) y).
Proof.
  intros Hlife Hop T El [En Hv]. rewrite El in Hv. destruct Hv as [Hc Hs].
  assert (eqv (op (MkSst (ss (y_b y)) (bk_net b) [])) (op (y_b y))) as [E1 E2] by (by apply Hop).
  pose proof (run_net l op b _ Hs) as En'. pose proof (run_at l op b _ Hs) as Hs'. rewrite E1 in Hs'. rewrite E2 in En'.
  pose proof (table_run (fun _ _ => False) l op b Hlife T) as T'.
  destruct (to_live _ _ T _ _ El) as (s & Hsl & Hk & _). assert (s = ss (y_b y)) as -> by congruence.
  pose proof (lf_key _ _ (Hlife (y_b y))) as Hk'. rewrite Hk in Hk'.
  destruct (s_dead (ss (op (y_b y)))) eqn:Ed.
  - right. split; [done|]. split; [done|]. split; [done|]. destruct (bk_sessions (run l op b) !! (actorID, sid)) as [l'|] eqn:El'; [|done].
    destruct (to_live _ _ T' _ _ El') as (s' & Hs2 & Hk2 & Hd2). exfalso.
    destruct (decide (l' = l)) as [->|Hne]; [congruence|].
    destruct (run_frame l op b) as (_ & _ & _ & Hf). rewrite (Hf l' Hne) in Hs2.
    pose proof (to_all _ _ T l' s' Hs2 Hd2) as A2. rewrite Hk2, El in A2. congruence.
  - left. split; [done|]. pose proof (to_all _ _ T' l _ Hs' Ed) as A. rewrite Hk' in A. rewrite A. done.
Qed.

(** [bind_session] on the session is [bind] on the model. *)
Lemma view_bind tc l b y t :
  bk_sessions b !! (actorID, sid) = Some l -> bk_tunnels b !! tc = Some t -> view b y ->
  view (bind_session tc l b) (with_b (bind tc (y_b y)) y).
Proof.
  intros El Ht [En Hv]. rewrite El in Hv. destruct Hv as [Hc Hs].
  rewrite (bind_session_eq tc l b _ t Hs Ht). split; [done|]. simpl. rewrite El. split; [done|]. apply lookup_insert_eq.
Qed.

(** A reply written on the connection itself. *)
Lemma view_write tc f b y : view b y -> view (write_ignore tc f b) (with_b (fst (tc_write tc f (y_b y))) y).
Proof.
  intros [En Hv]. unfold write_ignore, tc_write. rewrite En. destruct (net (y_b y) !! tc) as [c|]; [|by split].
  destruct (fw_write f c) as [c' ok]. by split.
Qed.

Lemma view_attach_found tc l o b y t :
  table_ok b -> bk_sessions b !! (actorID, sid) = Some l -> bk_tunnels b !! tc = Some t -> t_actor t = actorID ->
  view b y -> view_or_gone (attach_found tc l o b) (with_b (onSidecarAttach o (bind tc (y_b y))) y).
Proof.
  intros T El Ht Ha V. pose proof (view_bind tc l b y t El Ht V) as V1.
  destruct (to_live _ _ T _ _ El) as (s & Hs & Hk & Hd). injection Hk as Hk1 Hk2.
  assert (table_ok (bind_session tc l b)) as T1 by (eapply table_bind; eauto; congruence).
  assert (bk_sessions (bind_session tc l b) !! (actorID, sid) = Some l) as El1
    by (by rewrite (bind_session_eq tc l b s t Hs Ht)).
  apply (view_run l (onSidecarAttach o) _ _ (life_attach o) _ T1 El1 V1).
Qed.

(** Creating the session and binding it. *)
Lemma view_create tc b y t :
  bk_sessions b !! (actorID, sid) = None -> bk_tunnels b !! tc = Some t -> view b y ->
  let b' := bind_session tc (bk_next b) (fst (create actorID sid target b)) in
  view b' (with_created (with_b (bind tc (y_b y)) y)) /\ bk_sessions b' !! (actorID, sid) = Some (bk_next b).
Proof.
  intros El Ht [En Hv]. rewrite El in Hv. destruct Hv as [Hc Hs]. cbv zeta.
  set (b1 := fst (create actorID sid target b)).
  assert (bk_heap b1 !! bk_next b = Some (ss (y_b y))) as Hs1 by (unfold b1; simpl; rewrite lookup_insert_eq; by rewrite Hs).
  assert (bk_sessions b1 !! (actorID, sid) = Some (bk_next b)) as El1 by (unfold b1; simpl; apply lookup_insert_eq).
  rewrite (bind_session_eq tc (bk_next b) b1 _ t Hs1 Ht). split; [|done]. split; [done|]. cbn [bk_sessions]. rewrite El1.
  split; [done|]. simpl. apply lookup_insert_eq.
Qed.

(** ** The broker's frame handler *)

Lemma view_on_session op b y :
  (forall st, life st (op st)) -> Proper (eqv ==> eqv) op -> table_ok b -> view b y ->
  view_or_gone (on_session actorID sid op b) (if negb (y_created y) then y else with_b (op (y_b y)) y).
Proof.
  intros Hl Hp T V. unfold on_session, lookup_session. destruct (bk_sessions b !! (actorID, sid)) as [l|] eqn:El.
  - pose proof V as [_ Hv]. rewrite El in Hv. destruct Hv as [-> _]. simpl. by apply view_run.
  - pose proof V as [_ Hv]. rewrite El in Hv. destruct Hv as [-> _]. by left.
Qed.

Lemma view_open tc b y t f :
  table_ok b -> bk_tunnels b !! tc = Some t -> t_actor t = actorID -> allowed (bk_cfg b) target = true ->
  fSessionID f = sid -> fTarget f = target -> view b y ->
  view_or_gone (openSession actorID tc f b)
    (if y_created y then with_b (onSidecarAttach 0 (bind tc (y_b y))) y
     else with_created (with_b (bind tc (y_b y)) y)).
Proof.
  intros T Ht Ha Hal Hf Hft V. unfold openSession, lookup_session. rewrite Hf, Hft.
  assert (match bc_AllowTarget (bk_cfg b) with Some ok => negb (ok target) | None => false end = false) as ->
    by (unfold allowed in Hal; destruct (bc_AllowTarget (bk_cfg b)); [by rewrite Hal|done]).
  pose proof V as [_ Hv]. destruct (bk_sessions b !! (actorID, sid)) as [l|] eqn:El; destruct Hv as [-> _].
  - by eapply view_attach_found.
  - left. simpl. by eapply view_create.
Qed.

Lemma table_create_bind tc b t :
  table_ok b -> bk_tunnels b !! tc = Some t -> t_actor t = actorID -> allowed (bk_cfg b) target = true ->
  bk_sessions b !! (actorID, sid) = None ->
  table_ok (bind_session tc (bk_next b) (fst (create actorID sid target b))).
Proof.
  intros T Ht Ha Hal El. eapply table_bind; [by apply table_create|simpl; apply lookup_insert_eq|done|exact Ht|done].
Qed.

Lemma view_attach tc b y t f :
  table_ok b -> bk_tunnels b !! tc = Some t -> t_actor t = actorID -> allowed (bk_cfg b) target = true ->
  fSessionID f = sid -> fTarget f = target -> view b y ->
  view_or_gone (attachSession actorID tc f b)
    (if y_created y then with_b (onSidecarAttach (fOffset f) (bind tc (y_b y))) y
     else if (fOffset f =? 0) && bool_decide (fTarget f <> "") then
       with_created (with_b (onSidecarAttach (fOffset f) (bind tc (y_b y))) y)
     else with_b (fst (tc_write tc (CloseF (fSessionID f) DirDown "session lost") (y_b y))) y).
Proof.
  intros T Ht Ha Hal Hf Hft V. unfold attachSession, lookup_session. rewrite Hf, Hft.
  pose proof V as [_ Hv]. destruct (bk_sessions b !! (actorID, sid)) as [l|] eqn:El; destruct Hv as [-> _].
  { by eapply view_attach_found. }
  destruct ((fOffset f =? 0) && bool_decide (target <> "")); [|left; by apply view_write].
  unfold openSession, lookup_session. cbn [fSessionID fTarget OpenF]. rewrite El.
  assert (match bc_AllowTarget (bk_cfg b) with Some ok => negb (ok target) | None => false end = false) as ->
    by (unfold allowed in Hal; destruct (bc_AllowTarget (bk_cfg b)); [by rewrite Hal|done]).
  destruct (view_create tc b y t El Ht V) as [V1 El1]. pose proof (table_create_bind tc b t T Ht Ha Hal El) as T1.
  cbn [create fst] in V1, El1, T1 |- *. rewrite El1.
  apply (view_run _ (onSidecarAttach (fOffset f)) _ _ (life_attach _) _ T1 El1 V1).
Qed.

(** ** A dropped tunnel *)

Lemma detach_silent tc (st : sst C) :
  net (detach tc st) = net st /\ (forall a i, EvRemove a i ∈ evs (detach tc st) -> EvRemove a i ∈ evs st) /\
  ss (detach tc st) = if decide (s_tconn (ss st) = Some tc) then set_tconn None (ss st) else ss st.
Proof.
  unfold detach. case_decide; [|done]. destruct (_ && _); [|done]. split; [done|]. split; [|done].
  simpl. intros a i [?|?%list_elem_of_singleton]%elem_of_app; done.
Qed.

Lemma run_detach_frame tc l b :
  bk_net (run l (detach tc) b) = bk_net b /\ bk_sessions (run l (detach tc) b) = bk_sessions b /\
  forall l' s, bk_heap b !! l' = Some s ->
    bk_heap (run l (detach tc) b) !! l' = Some s \/
    s_tconn s = Some tc /\ bk_heap (run l (detach tc) b) !! l' = Some (set_tconn None s).
Proof.
  destruct (bk_heap b !! l) as [s0|] eqn:E; [|unfold run; rewrite E; auto].
  destruct (detach_silent tc (MkSst s0 (bk_net b) [])) as (D1 & D2 & D3). split; [|split].
  - by rewrite (run_net l _ b s0 E).
  - apply map_eq. intros k. unfold run. rewrite E, callbacks_sessions, decide_False; [done|].
    intros Hin. apply D2 in Hin. by apply elem_of_nil in Hin.
  - intros l' s Hs. destruct (decide (l' = l)) as [->|Hne].
    + assert (s0 = s) as -> by congruence. rewrite (run_at l _ b s E), D3. cbn [ss].
      destruct (decide (s_tconn s = Some tc)); [by right|by left].
    + destruct (run_frame l (detach tc) b) as (_ & _ & _ & Eh). rewrite Eh by done. auto.
Qed.

Lemma detach_list_frame tc (ls : list (Z * nat)) b :
  let b' := foldl (fun b '(_, l) => run l (detach tc) b) b ls in
  bk_net b' = bk_net b /\ bk_sessions b' = bk_sessions b /\
  forall l s, bk_heap b !! l = Some s ->
    bk_heap b' !! l = Some s \/ s_tconn s = Some tc /\ bk_heap b' !! l = Some (set_tconn None s).
Proof.
  revert b. induction ls as [|[i l0] ls IH]; intros b; simpl; [auto|].
  destruct (IH (run l0 (detach tc) b)) as (I1 & I2 & I3). destruct (run_detach_frame tc l0 b) as (R1 & R2 & R3).
  split; [by rewrite I1|]. split; [by rewrite I2|]. intros l s Hs.
  destruct (R3 l s Hs) as [Hs1|[Ht Hs1]]; destruct (I3 l _ Hs1) as [Hs2|[Ht2 Hs2]]; auto; done.
Qed.

Lemma detachAll_frame tc b :
  bk_net (detachAll tc b) = bk_net b /\ bk_sessions (detachAll tc b) = bk_sessions b /\
  forall l s, bk_heap b !! l = Some s ->
    bk_heap (detachAll tc b) !! l = Some s \/
    s_tconn s = Some tc /\ bk_heap (detachAll tc b) !! l = Some (set_tconn None s).
Proof.
  unfold detachAll. destruct (bk_tunnels b !! tc) as [t|]; [|auto].
  apply (detach_list_frame tc (map_to_list (t_sessions t)) (set_tunnels (delete tc (bk_tunnels b)) b)).
Qed.

Lemma view_detachAll tc b y :
  table_ok b -> view b y -> view (detachAll tc b) (with_b (detach tc (y_b y)) y).
Proof.
  intros T [En Hv]. destruct (detachAll_frame tc b) as (F1 & F2 & F3).
  destruct (detach_silent tc (y_b y)) as (D1 & _ & D3). split; [simpl; by rewrite F1, D1|].
  rewrite F2. destruct (bk_sessions b !! (actorID, sid)) as [l|] eqn:El; destruct Hv as [Hc Hs]; (split; [done|]).
  - simpl. rewrite D3. destruct (F3 l _ Hs) as [Hs'|[Ht Hs']]; [|by rewrite decide_True].
    rewrite decide_False; [done|]. intros Ht.
    destruct (to_live _ _ T _ _ El) as (s & Hsl & _ & Hd). assert (s = ss (y_b y)) as -> by congruence.
    destruct (to_bound _ _ (table_detachAll tc b T) l _ tc Hs' Hd Ht) as (t & Et & _); [tauto|].
    by rewrite detachAll_tunnels in Et.
  - simpl. rewrite D3, Hs, decide_False by done. by rewrite cfg_detachAll.
Qed.
End simulation.

(** ** The client *)

Section client.
Context {C : Type} `{FrameWriter C}.
Implicit Types (st : cst C) (y : sys C) (cl : Client C).

(** The same state with another log of removals. *)
Definition with_removed (r : list Z) st : cst C := MkCst (cs st) (cconn st) (cnet st) r.

(** A session method ignores the log, keeps the client's connection and the
    session's id, and asks for the removal of its session exactly when it
    closes it. *)
Record cop_ok {A} (op : cst C -> cst C * A) : Prop := {
  co_log : forall st r, exists r', op (with_removed r st) = (with_removed r' (fst (op st)), snd (op st));
  co_conn : forall st, cconn (fst (op st)) = cconn st;
  co_id : forall st, cs_sessionID (cs (fst (op st))) = cs_sessionID (cs st);
  co_removed : forall st, cremoved st = [] ->
    cremoved (fst (op st)) = [] /\ cs_dead (cs (fst (op st))) = cs_dead (cs st) \/
    cremoved (fst (op st)) = [cs_sessionID (cs st)] /\ cs_dead (cs (fst (op st))) = true;
}.

Lemma csend_with f st r : csend f (with_removed r st) = with_removed r (csend f st).
Proof.
  unfold csend, with_removed. simpl. destruct (cconn st) as [tc|] eqn:E; simpl; rewrite ?E; [|done].
  destruct (cnet st !! tc); simpl; by rewrite ?E.
Qed.

Lemma csend_frame f st : cs (csend f st) = cs st /\ cconn (csend f st) = cconn st /\ cremoved (csend f st) = cremoved st.
Proof. unfold csend. by repeat case_match. Qed.

Lemma closeAll_with st r : exists r', closeAll (with_removed r st) = with_removed r' (closeAll st).
Proof. unfold closeAll, with_removed. simpl. destruct (cs_dead (cs st)); simpl; eauto. Qed.

Lemma closeAll_frame st : cremoved st = [] ->
  cconn (closeAll st) = cconn st /\ cs_sessionID (cs (closeAll st)) = cs_sessionID (cs st) /\
  (cremoved (closeAll st) = [] /\ cs_dead (cs (closeAll st)) = cs_dead (cs st) \/
   cremoved (closeAll st) = [cs_sessionID (cs st)] /\ cs_dead (cs (closeAll st)) = true).
Proof. intros E. unfold closeAll. destruct (cs_dead (cs st)) eqn:Ed; simpl; rewrite ?E, ?Ed; auto. Qed.

(** Methods that never close the session. *)
Lemma cop_quiet {A} (op : cst C -> cst C * A) :
  (forall st r, op (with_removed r st) = (with_removed r (fst (op st)), snd (op st))) ->
  (forall st, cconn (fst (op st)) = cconn st /\ cs_sessionID (cs (fst (op st))) = cs_sessionID (cs st) /\
              cremoved (fst (op st)) = cremoved st /\ cs_dead (cs (fst (op st))) = cs_dead (cs st)) ->
  cop_ok op.
Proof.
  intros H1 H2. split.
  - eauto.
  - apply H2.
  - apply H2.
  - intros st E. left. destruct (H2 st) as (_ & _ & -> & ->). done.
Qed.

Lemma cop_closeUp reason : cop_ok (fun st => (closeUp reason st, tt)).
Proof.
  apply cop_quiet; simpl; intros st; [intros r|]; unfold closeUp; simpl.
  - destruct (cs_upClosed (cs st)); [done|].
    change (cupd (set_cs_upClosed true) (with_removed r st)) with (with_removed r (cupd (set_cs_upClosed true) st)).
    by rewrite csend_with.
  - destruct (cs_upClosed (cs st)); [done|].
    match goal with |- context [csend ?f ?s] => destruct (csend_frame f s) as (-> & -> & ->) end. done.
Qed.

Lemma write_loop_with fuel p st r :
  write_loop fuel p (with_removed r st) =
    (with_removed r (fst (write_loop fuel p st)), snd (write_loop fuel p st)).
Proof.
  revert p st. induction fuel as [|fuel IH]; intros p st; destruct p as [|b p]; try done. simpl.
  destruct (cs_dead (cs st)); [done|]. destruct (_ =? 0); [done|]. destruct (Append _ _) as [d|e]; [|done].
  change (cupd (set_cs_upBuf d) (with_removed r st)) with (with_removed r (cupd (set_cs_upBuf d) st)).
  rewrite csend_with. apply IH.
Qed.

Lemma write_loop_frame fuel p st :
  let st' := fst (write_loop fuel p st) in
  cconn st' = cconn st /\ cs_sessionID (cs st') = cs_sessionID (cs st) /\
  cremoved st' = cremoved st /\ cs_dead (cs st') = cs_dead (cs st).
Proof.
  revert p st. induction fuel as [|fuel IH]; intros p st; destruct p as [|b p]; try done. simpl.
  destruct (cs_dead (cs st)) eqn:Ed; [done|]. destruct (_ =? 0); [done|]. destruct (Append _ _) as [d|e]; [|done].
  match goal with |- context [csend ?f ?s] => pose proof (csend_frame f s) as (E1 & E2 & E3); set (x := csend f s) in * end.
  destruct (IH (zdrop (if len (b :: p) >? Free (cs_upBuf (cs st)) then Free (cs_upBuf (cs st)) else len (b :: p)) (b :: p)) x)
    as (-> & -> & -> & ->). by rewrite E1, E2, E3.
Qed.

Lemma cop_writeUp p : cop_ok (writeUp p).
Proof. apply cop_quiet; intros st; [intros r; apply write_loop_with|apply write_loop_frame]. Qed.

Lemma cop_deliver o p : cop_ok (fun st => (deliverDown o p st, tt)).
Proof.
  assert (forall q st r, exists r', deliver_write q (with_removed r st) = with_removed r' (deliver_write q st)) as K.
  { intros q st r. unfold deliver_write. simpl. destruct (sock_write q (cs_agent (cs st))) as [a ok].
    destruct ok.
    - exists r. match goal with |- csend ?f ?s = with_removed r (csend ?g ?t) =>
        change (csend f s) with (csend g (with_removed r t)) end. apply csend_with.
    - apply (closeAll_with (cupd (set_cs_agent a) st) r). }
  assert (forall q st, cconn (deliver_write q st) = cconn st /\
    cs_sessionID (cs (deliver_write q st)) = cs_sessionID (cs st) /\ (cremoved st = [] ->
    cremoved (deliver_write q st) = [] /\ cs_dead (cs (deliver_write q st)) = cs_dead (cs st) \/
    cremoved (deliver_write q st) = [cs_sessionID (cs st)] /\ cs_dead (cs (deliver_write q st)) = true)) as F.
  { intros q st. unfold deliver_write. destruct (sock_write q (cs_agent (cs st))) as [a ok]. destruct ok.
    - match goal with |- context [csend ?f ?s] => destruct (csend_frame f s) as (-> & -> & ->) end. simpl. auto.
    - split_and!; [unfold closeAll; by destruct (cs_dead _)..|].
      intros E. by destruct (closeAll_frame (cupd (set_cs_agent a) st) E) as (_ & _ & ?). }
  split; simpl; intros st; [intros r|..]; unfold deliverDown; simpl; destruct (deliver_check o p (cs st)) as [q|]; eauto.
  - destruct (K q st r) as [r' ->]. eauto.
  - apply F.
  - apply F.
  - apply F.
Qed.

Lemma cop_onClose d reason : cop_ok (fun st => (onClose d reason st, tt)).
Proof.
  split; simpl; intros st; [intros r|..]; unfold onClose; simpl; (destruct (d =? DirDown); [|by eauto]);
    (destruct (cs_canCloseWrite (cs st)); [by eauto|]).
  - destruct (closeAll_with (cupd (set_cs_downClosed true) st) r) as [r' E]. exists r'. by rewrite <- E.
  - unfold closeAll. by destruct (cs_dead _).
  - unfold closeAll. by destruct (cs_dead _).
  - intros E. by destruct (closeAll_frame (cupd (set_cs_downClosed true) st) E) as (_ & _ & ?).
Qed.

Lemma cop_attachOK o : cop_ok (fun st => (onAttachOK o st, tt)).
Proof.
  apply cop_quiet; simpl; intros st; [intros r|]; unfold onAttachOK; simpl;
    (destruct (From _ o) as [q|]; [|done]); (destruct (_ >? 0); [|done]).
  - f_equal. match goal with |- csend ?f ?s = with_removed r (csend ?g ?t) =>
      change (csend f s) with (csend g (with_removed r t)) end. apply csend_with.
  - match goal with |- context [csend ?f ?s] => destruct (csend_frame f s) as (-> & -> & ->) end. done.
Qed.

Lemma cop_dispatch f : cop_ok (fun st => (session_dispatch f st, tt)).
Proof.
  unfold session_dispatch. destruct (_ =? _); [apply cop_attachOK|]. destruct (_ =? _); [apply cop_deliver|].
  destruct (_ =? _); [by apply cop_quiet|]. destruct (_ =? _); [apply cop_onClose|by apply cop_quiet].
Qed.

(** The client and the session model agree on session [sid]. *)
Definition cview (sid : Z) cl y : Prop :=
  cl_conn cl = cconn (y_c y) /\ cl_net cl = cnet (y_c y) /\ cs_sessionID (cs (y_c y)) = sid /\
  cs_dead (cs (y_c y)) = false /\ cl_sessions cl !! sid = Some (cs (y_c y)).

(** What a step from [cl0] to [cl] must establish: same connections, the session
    in the table exactly while the model's is not dead, and every other entry
    as before. *)
Definition csimulates (sid : Z) cl0 cl y : Prop :=
  cl_conn cl = cconn (y_c y) /\ cl_net cl = cnet (y_c y) /\
  cl_sessions cl !! sid = (if cs_dead (cs (y_c y)) then None else Some (cs (y_c y))) /\
  forall id, id <> sid -> cl_sessions cl !! id = cl_sessions cl0 !! id.

(** A method run on the session's table entry: it is the method run on the
    model, and the entry goes when the method closes the session. *)
Lemma run_entry {A} sid (op : cst C -> cst C * A) cl y :
  cop_ok op -> cl_conn cl = cconn (y_c y) -> cl_net cl = cnet (y_c y) -> cs_sessionID (cs (y_c y)) = sid ->
  cl_sessions cl !! sid = Some (cs (y_c y)) ->
  let cl' := fst (run_session sid op cl) in
  let c' := fst (op (y_c y)) in
  snd (run_session sid op cl) = Some (snd (op (y_c y))) /\ cl_conn cl' = cconn c' /\ cl_net cl' = cnet c' /\
  (forall id, id <> sid -> cl_sessions cl' !! id = cl_sessions cl !! id) /\
  (cl_sessions cl' !! sid = Some (cs c') /\ cs_dead (cs c') = cs_dead (cs (y_c y)) \/
   cl_sessions cl' !! sid = None /\ cs_dead (cs c') = true).
Proof.
  intros [L K I Rm] V1 V2 V3 V4. unfold run_session. rewrite V4, V1, V2.
  destruct (L (y_c y) []) as [r' E]. change (with_removed [] (y_c y)) with (MkCst (cs (y_c y)) (cconn (y_c y)) (cnet (y_c y)) []) in E.
  pose proof (Rm (MkCst (cs (y_c y)) (cconn (y_c y)) (cnet (y_c y)) []) eq_refl) as Hr. rewrite E in Hr |- *. simpl in Hr |- *.
  rewrite V3 in Hr. rewrite K. split_and!; try done; destruct Hr as [[-> Hd]|[-> Hd]]; simpl.
  - intros id Hid. by apply lookup_insert_ne.
  - intros id Hid. rewrite lookup_delete_ne by done. by apply lookup_insert_ne.
  - left. split; [apply lookup_insert_eq|done].
  - right. split; [apply lookup_delete_eq|done].
Qed.

Lemma cview_run {A} sid (op : cst C -> cst C * A) cl y :
  cop_ok op -> cview sid cl y ->
  csimulates sid cl (fst (run_session sid op cl)) (with_c (fst (op (y_c y))) y) /\
  snd (run_session sid op cl) = Some (snd (op (y_c y))).
Proof.
  intros Ok (V1 & V2 & V3 & V4 & V5). destruct (run_entry sid op cl y Ok V1 V2 V3 V5) as (E1 & E2 & E3 & E4 & E5).
  split; [|done]. split_and!; try done. simpl. rewrite V4 in E5. by destruct E5 as [[-> ->]|[-> ->]].
Qed.
End client.

(** ** Properties *)

Section properties.
Context {C : Type} `{FrameWriter C} (os_error : string).
Context (cfg : Config) (b : Broker C) (R : rtc (bstep os_error) (New cfg) b).
Context (actorID : string) (sid : Z) (target : string).

(** C17. Frame refinement: in any reachable state, the whole broker's handling of a
    frame that arrives on the actor's tunnel, table lookups, session creation,
    binding and callbacks included, does to the addressed session and to every
    connection exactly what the session model does.  Afterwards the session is in
    the table exactly when the model's has been created and is not dead.  This is
    for a session whose target the policy allows, before it has been destroyed,
    and OPEN and ATTACH frames that name that target. *)
Theorem broker_frames_refine_session (y : sys C) (tc : nat) (t : tunnelConn) (f : Frame)
    (V : view actorID sid target b y) (Ht : bk_tunnels b !! tc = Some t) (Ha : t_actor t = actorID)
    (Hal : allowed (bk_cfg b) target = true) (Hf : fType f = TypePing \/ fSessionID f = sid)
    (Hft : fType f = TypeOpen \/ fType f = TypeAttach -> fTarget f = target)
    (Hsid : s_sessionID (ss (y_b y)) = sid) :
  simulates actorID sid target (handleFrame os_error actorID tc f b) (broker_frame os_error tc f y).
Proof using R.
  pose proof (table_reachable os_error cfg b R) as T.
  apply view_simulates; [subst actorID; by apply table_handleFrame|]. unfold broker_frame, handleFrame. rewrite Hsid.
  assert ((fType f =? TypePing) || (fSessionID f =? sid) = true) as ->.
  { destruct Hf as [-> | ->]; [done|]. by rewrite Z.eqb_refl, orb_true_r. }
  unfold broker_recv. destruct (Z.eqb_spec (fType f) TypePing); [left; by apply view_write|].
  destruct Hf as [|Hf]; [done|]. rewrite Hf. destruct (Z.eqb_spec (fType f) TypeOpen).
  { eapply view_open; [done|exact Ht|done|done|done|auto|done]. }
  destruct (Z.eqb_spec (fType f) TypeAttach).
  { rewrite <- Hf. eapply view_attach; rewrite ?Hf; [done|exact Ht|done|done|done|auto|done]. }
  pose proof V as [_ Hv].
  destruct (fType f =? TypeData); [apply view_on_session; [apply life_onData|apply _|done|done]|].
  destruct (fType f =? TypeAck); [apply view_on_session; [apply life_ack|apply _|done|done]|].
  destruct (fType f =? TypeClose); [apply view_on_session; [apply life_close|apply _|done|done]|].
  left. by destruct (negb (y_created y)).
Qed.

(** Event refinement: a dial that completes, a read from the destination, the
    watchdog and the loss of a tunnel do to the session what the corresponding
    step of the model does. *)
Theorem broker_events_refine_session (y : sys C) (l : nat)
    (V : view actorID sid target b y) (El : bk_sessions b !! (actorID, sid) = Some l) :
  (forall r, view_or_gone actorID sid target (run l (fun st => fst (dialUpstream os_error r st)) b) (dial os_error r y)) /\
  (forall p err, view_or_gone actorID sid target (run l (fun st => fst (readUpstream p err st)) b) (dest_read p err y)) /\
  view_or_gone actorID sid target (run l watchdog_fire b) (with_b (watchdog_fire (y_b y)) y) /\
  (forall tc, view actorID sid target (detachAll tc b) (with_b (detach tc (y_b y)) y)).
Proof using R.
  pose proof (table_reachable os_error cfg b R) as T. split_and!.
  - intros r. unfold dial. destruct (dialUpstream os_error r (y_b y)) as [x go] eqn:E.
    change x with (fst (x, go)). rewrite <- E.
    apply (view_run actorID sid target l (fun st => fst (dialUpstream os_error r st)) b y (life_dial os_error r)); try done.
    intros st st' Es. apply (dial_eqv os_error r st st' Es).
  - intros p err. unfold dest_read. destruct (readUpstream p err (y_b y)) as [x r] eqn:E.
    change x with (fst (x, r)). rewrite <- E.
    apply (view_run actorID sid target l (fun st => fst (readUpstream p err st)) b y (life_read p err)); try done.
    intros st st' Es. apply (read_eqv p err st st' Es).
  - apply view_run; [apply life_watchdog|apply _|done|done|done].
  - intros tc. by apply view_detachAll.
Qed.
End properties.

Section client_properties.
Context {C : Type} `{FrameWriter C}.

(** C18. Client refinement: for a live session in the client's table, a frame from
    the broker dispatched by the read loop (anything but PING and PONG), a
    [WriteUp] and a [CloseUp] from the proxy have exactly the effect of the
    session's own method on its entry, on every connection and on the result.
    Afterwards the session is in the table exactly when it is not dead, and no
    other session's entry has changed. *)
Theorem client_refines_session (cl : Client C) (y : sys C) (sid : Z) (V : cview sid cl y) :
  (forall tc now f, fType f <> TypePing -> fType f <> TypePong -> fSessionID f = sid ->
     csimulates sid cl (handle_frame tc now f cl) (client_frame f y)) /\
  (forall p, csimulates sid cl (fst (run_session sid (writeUp p) cl)) (with_c (fst (writeUp p (y_c y))) y) /\
             snd (run_session sid (writeUp p) cl) = Some (snd (writeUp p (y_c y)))) /\
  (forall reason, csimulates sid cl (fst (run_session sid (fun st => (closeUp reason st, tt)) cl))
                    (with_c (closeUp reason (y_c y)) y)).
Proof.
  split; [|split].
  - intros tc now f H1 H2 Hf. unfold handle_frame, client_frame.
    rewrite (proj2 (Z.eqb_neq _ _) H2), (proj2 (Z.eqb_neq _ _) H1), Hf.
    pose proof V as (_ & _ & V3 & _). rewrite V3, Z.eqb_refl.
    by apply (cview_run sid (fun st => (session_dispatch f st, tt)) cl y (cop_dispatch f)).
  - intros p. apply cview_run; [apply cop_writeUp|done].
  - intros reason. by apply (cview_run sid (fun st => (closeUp reason st, tt)) cl y (cop_closeUp reason)).
Qed.
End client_properties.

(** ** Witnesses *)

(** The model of the session that the broker's demo has just opened. *)
Definition demo_y : sys Conn :=
  MkSys (MkCst (newClientSession 8 1 "mcp:80" new_sock true) None ∅ [])
    (MkSst Broker.Demo.s3 (bk_net Broker.Demo.b3) []) true false RStopped [] [] [].

Lemma demo_view : view "ns/a" 1 "mcp:80" Broker.Demo.b3 demo_y.
Proof. split; [reflexivity|]. vm_compute. split; reflexivity. Qed.

Lemma demo_allowed : allowed (bk_cfg Broker.Demo.b3) "mcp:80" = true.
Proof. vm_compute. reflexivity. Qed.

Lemma demo_tunnel : bk_tunnels Broker.Demo.b3 !! 0%nat = Some Broker.Demo.t3.
Proof. vm_compute. reflexivity. Qed.

Lemma demo_entry : bk_sessions Broker.Demo.b3 !! ("ns/a", 1) = Some 0%nat.
Proof. vm_compute. reflexivity. Qed.

Lemma broker_frames_refine_session_witness :
  simulates "ns/a" 1 "mcp:80" (handleFrame "broken pipe" "ns/a" 0 (DataF 1 0 [x61]) Broker.Demo.b3)
    (broker_frame "broken pipe" 0 (DataF 1 0 [x61]) demo_y).
Proof.
  refine (broker_frames_refine_session "broken pipe" Broker.Demo.cfg Broker.Demo.b3 Broker.Demo.demo_broker_reached
    "ns/a" 1 "mcp:80" demo_y 0 Broker.Demo.t3 (DataF 1 0 [x61]) demo_view demo_tunnel eq_refl demo_allowed
    (or_intror eq_refl) _ eq_refl).
  intros [E|E]; discriminate E.
Defined.

Lemma broker_events_refine_session_witness :
  view "ns/a" 1 "mcp:80" (detachAll 0 Broker.Demo.b3) (with_b (detach 0 (y_b demo_y)) demo_y).
Proof.
  pose proof (broker_events_refine_session "broken pipe" Broker.Demo.cfg Broker.Demo.b3 Broker.Demo.demo_broker_reached
    "ns/a" 1 "mcp:80" demo_y 0 demo_view demo_entry) as (_ & _ & _ & P).
  exact (P 0%nat).
Defined.

Definition demo_cl : Client Conn :=
  MkClient (client_defaults (MkClientConfig 0 0 0 0)) 1 None {[1 := newClientSession 8 1 "mcp:80" new_sock true]} ∅ 0.

Lemma demo_cview : cview 1 demo_cl demo_y.
Proof. split_and!; reflexivity. Qed.

Lemma client_refines_session_witness :
  csimulates 1 demo_cl (handle_frame 0 5 (DataF 1 0 [x61]) demo_cl) (client_frame (DataF 1 0 [x61]) demo_y).
Proof.
  pose proof (client_refines_session demo_cl demo_y 1 demo_cview) as (P & _ & _).
  apply (P 0%nat 5 (DataF 1 0 [x61])); [discriminate|discriminate|reflexivity].
Defined.
