(* ===== verification/Traffic.v ===== *)
(** * Traffic: what a session puts on the connections it shares

    Many sessions write to one tunnel connection.  For a session that is looked
    at, the others matter only through what they write: frames with
    their own session id, on the connection they are bound to.  This file shows
    that every method of [BrokerSession.session] and [Sidecar.clientSession]
    does no more than that, from a condition on the session's own fields
    ([swf], [cwf]) that the methods preserve. *)
From S2P Require Import Prelude ReplayBuffer Socket Wire Link BrokerSession Sidecar.

(** ** Sequences of writes *)

Section sends.
Context {C : Type} `{FrameWriter C}.
Implicit Types (n : gmap nat C) (T : nat -> Prop) (P : Frame -> Prop).

(** One frame is written to a connection in [T]. *)
Inductive put T P n : gmap nat C -> Prop :=
| put_frame tc c f : T tc -> P f -> n !! tc = Some c -> put T P n (<[tc := fst (fw_write f c)]> n).

Definition sends T P : relation (gmap nat C) := rtc (put T P).

#[export] Instance sends_preorder T P : PreOrder (sends T P).
Proof. apply _. Qed.

Lemma sends_weaken T T' P P' n n' :
  (forall tc, T tc -> T' tc) -> (forall f, P f -> P' f) -> sends T P n n' -> sends T' P' n n'.
Proof.
  intros HT HP. apply rtc_subrel. intros n1 n2 [tc c f Htc Hf E]. apply put_frame; auto.
Qed.

Lemma sends_net_ok `{!FrameWriterLaws C} T P Q n n' :
  (forall f, P f -> postable f /\ (wf_frame f -> Q f)) -> sends T P n n' -> net_ok Q n -> net_ok Q n'.
Proof.
  intros HP. induction 1 as [|n1 n2 n3 [tc c f _ Hf E] _ IH]; [done|]. intros N. apply IH.
  destruct (HP f Hf) as [Hwf HQ]. destruct (fw_write f c) as [c' ok] eqn:W. simpl.
  by eapply net_ok_write.
Qed.

Lemma sends_onet_ok `{!FrameWriterLaws C} {Own : Ownership} T P Q n n' :
  (forall tc f, owns tc -> T tc -> P f -> postable f /\ (wf_frame f -> Q f)) ->
  sends T P n n' -> onet_ok Q n -> onet_ok Q n'.
Proof.
  intros HP. induction 1 as [|n1 n2 n3 [tc c f HT Hf E] _ IH]; [done|]. intros N. apply IH.
  destruct (fw_write f c) as [c' ok] eqn:W. simpl. eapply onet_ok_write; eauto.
Qed.

Lemma sends_dom T P n n' tc : sends T P n n' -> n' !! tc = None <-> n !! tc = None.
Proof.
  induction 1 as [|n1 n2 n3 [tc' c f _ _ E] _ IH]; [done|]. rewrite IH.
  rewrite lookup_insert_None. split; [by intros []|]. intros E'. split; [done|congruence].
Qed.
End sends.

(** Frames of session [id]: never a HELLO, which belongs to the connection. *)
Definition of_session (id : Z) (f : Frame) : Prop :=
  postable f /\ fSessionID f = id /\ fType f <> TypeHello.

Lemma End_u64 b : is_u64 (End_ b).
Proof. apply u64_range. Qed.
#[export] Hint Resolve End_u64 : tunnel.

Lemma wf_post (P : Frame -> Prop) f : wf_frame f -> P f -> postable f /\ (wf_frame f -> P f).
Proof. intros. by split; [apply pb_wf|]. Qed.

Lemma wf_of_session id f : wf_frame f -> fSessionID f = id -> fType f <> TypeHello -> of_session id f.
Proof. intros. by split; [apply pb_wf|]. Qed.

Lemma data_of_session id o p : is_u64 id -> is_u64 o -> of_session id (DataF id o p).
Proof. intros. split; [by apply postable_data|done]. Qed.

(** ** The broker's sessions *)

Section broker.
Context {C : Type} `{FrameWriter C} (os_error : string) (Hos : str_len os_error <= maxString).
Implicit Types (st : sst C).

Record swf (s : session) : Prop := {
  swf_id : is_u64 (s_sessionID s);
  swf_written : is_u64 (s_upstreamWritten s);
}.

(** [talks st st']: from [st] to [st'] the session stays well formed and has
    written only frames of its own, to the connection it was bound to. *)
Record talks st st' : Prop := {
  tk_swf : swf (ss st) -> swf (ss st');
  tk_id : s_sessionID (ss st') = s_sessionID (ss st);
  tk_bound : s_tconn (ss st') = s_tconn (ss st) \/ s_tconn (ss st') = None;
  tk_sends : swf (ss st) ->
    sends (fun tc => s_tconn (ss st) = Some tc) (of_session (s_sessionID (ss st))) (net st) (net st');
}.

Lemma talks_trans st1 st2 st3 : talks st1 st2 -> talks st2 st3 -> talks st1 st3.
Proof.
  intros [W1 I1 B1 S1] [W2 I2 B2 S2]. split; [auto|congruence|intuition congruence|].
  intros W. etrans; [by apply S1|]. eapply sends_weaken; [| |apply S2; auto].
  - intros tc E. destruct B1; congruence.
  - intros f. by rewrite I1.
Qed.

(** Assignments that keep the id and the written offset, and a good buffer. *)
Lemma talks_quiet st st' :
  net st' = net st -> s_sessionID (ss st') = s_sessionID (ss st) ->
  s_upstreamWritten (ss st') = s_upstreamWritten (ss st) ->
  s_tconn (ss st') = s_tconn (ss st) \/ s_tconn (ss st') = None -> talks st st'.
Proof.
  intros En Ei Ew Ht. split; [|done|done|intros _; rewrite En; reflexivity].
  intros [? ?]. split; rewrite ?Ei, ?Ew; auto.
Qed.

Lemma talks_refl st : talks st st.
Proof. apply talks_quiet; auto. Qed.

Lemma talks_tc_write tc f st :
  s_tconn (ss st) = Some tc -> (swf (ss st) -> of_session (s_sessionID (ss st)) f) ->
  talks st (fst (tc_write tc f st)).
Proof.
  intros Ht Hf. unfold tc_write. destruct (net st !! tc) as [c|] eqn:E; [|apply talks_refl].
  destruct (fw_write f c) as [c' ok] eqn:W. split; simpl; auto.
  intros S. apply rtc_once. change c' with (fst (c', ok)). rewrite <- W. by apply put_frame; auto.
Qed.

Lemma talks_detach tc st : talks st (detach tc st).
Proof.
  unfold detach. destruct (decide _); [|apply talks_refl]. destruct (_ && _); apply talks_quiet; auto.
Qed.

Lemma talks_send f st :
  (swf (ss st) -> of_session (s_sessionID (ss st)) f) -> talks st (sendToSidecar f st).
Proof.
  intros Hf. unfold sendToSidecar. destruct (s_tconn (ss st)) as [tc|] eqn:E; [|apply talks_refl].
  pose proof (talks_tc_write tc f st E Hf) as T. destruct (tc_write tc f st) as [st1 []]; [done|].
  eapply talks_trans; [exact T|apply talks_detach].
Qed.

Lemma talks_destroy st : talks st (destroy st).
Proof. unfold destroy. destruct (s_dead (ss st)); [apply talks_refl|]. apply talks_quiet; auto. Qed.

Lemma talks_maybeDestroy st : talks st (maybeDestroy st).
Proof. unfold maybeDestroy. destruct (_ && _); [apply talks_destroy|apply talks_refl]. Qed.

Lemma close_of_session s r :
  str_len r <= maxString -> swf s -> of_session (s_sessionID s) (CloseF (s_sessionID s) DirDown r).
Proof. intros Hr [? ?]. by apply wf_of_session; [constructor|..]. Qed.

Lemma talks_closeUpstream c st :
  str_len (default "upstream EOF" c) <= maxString -> talks st (closeUpstream c st).
Proof.
  intros Hc. unfold closeUpstream. destruct (s_downClosed (ss st)); [apply talks_refl|].
  eapply talks_trans; [|apply talks_maybeDestroy].
  eapply (talks_trans _ (upd (set_downClosed true) st)); [apply talks_quiet; auto|].
  destruct (bool_decide _); [apply talks_send; intros ?; by apply close_of_session|].
  destruct (s_requestOutstanding _); [apply talks_quiet; auto|apply talks_refl].
Qed.

Lemma talks_watchdog st : talks st (watchdog_fire st).
Proof. unfold watchdog_fire. destruct (_ && _); apply talks_quiet; auto. Qed.

Lemma talks_up_write p st st' ok : up_write p st = (st', ok) -> talks st st'.
Proof.
  unfold up_write. destruct (s_upstream (ss st)) as [u|]; [|intros [= <- <-]; apply talks_refl].
  destruct (sock_write p u). intros [= <- <-]. apply talks_quiet; auto.
Qed.

Lemma talks_commit n st : talks st (commit_upstream n st).
Proof.
  unfold commit_upstream. set (st1 := upd _ st).
  assert (talks st st1) as T1.
  { split; simpl; auto; [|intros _; reflexivity]. intros [? ?]. split; simpl; auto. apply u64_range. }
  eapply talks_trans; [exact T1|]. apply talks_send. intros [? ?]. by apply wf_of_session; [constructor|..].
Qed.

Lemma talks_onData o p st : talks st (onData os_error o p st).
Proof using Hos.
  unfold onData. destruct (onData_check o p (ss st)) as [s w] eqn:E.
  assert (talks st (upd (fun _ => s) st)) as T1.
  { revert E. unfold onData_check. intros E. apply talks_quiet; simpl; repeat (case_match; simplify_eq/=); auto. }
  destruct w as [q|]; [|done]. eapply talks_trans; [exact T1|]. unfold onData_write.
  destruct (up_write q _) as [st2 ok] eqn:W. apply talks_up_write in W. eapply talks_trans; [exact W|].
  destruct ok; [|by apply talks_closeUpstream].
  eapply talks_trans; [|apply talks_commit]. apply talks_quiet; auto.
Qed.

Lemma talks_dial r st :
  (forall e, r = Err e -> str_len ("dial failed: " +:+ e) <= maxString) ->
  talks st (fst (dialUpstream os_error r st)).
Proof using Hos.
  intros Hr. unfold dialUpstream. destruct r as [conn|e]; simpl.
  2: { eapply talks_trans; [|apply talks_destroy]. apply talks_send. intros ?. apply close_of_session; auto. }
  unfold dial_connect. destruct (s_dead (ss st)); [apply talks_refl|].
  set (st1 := upd _ st). assert (talks st st1) as T1 by (apply talks_quiet; auto).
  unfold dial_flush. destruct (_ >? 0); [|done].
  destruct (up_write _ st1) as [st2 ok] eqn:W. apply talks_up_write in W.
  eapply talks_trans; [exact T1|]. eapply talks_trans; [exact W|].
  destruct ok; [apply talks_commit|by apply talks_closeUpstream].
Qed.

Lemma talks_forward o q st :
  is_u64 o -> talks st (try_forward o q st).
Proof.
  intros Ho. unfold try_forward. destruct (s_tconn (ss st)) as [tc|] eqn:E; [|apply talks_refl].
  assert (talks st (fst (tc_write tc (DataF (s_sessionID (ss st)) o q) st))) as T.
  { apply talks_tc_write; [done|]. intros [? ?]. by apply data_of_session. }
  destruct (tc_write _ _ _) as [st1 []]; [done|]. eapply talks_trans; [exact T|]. apply talks_quiet; auto.
Qed.

Lemma talks_produce fuel p st : talks st (fst (produce_loop fuel p st)).
Proof.
  revert p st. induction fuel as [|fuel IH]; intros p st; destruct p as [|b p]; simpl; try apply talks_refl.
  destruct (s_dead (ss st)); [apply talks_refl|]. destruct (_ =? 0); [apply talks_refl|].
  destruct (Append _ _) as [d|e] eqn:Ea; [|apply talks_refl].
  set (st1 := upd (set_downBuf d) st).
  assert (talks st st1) as T1 by (apply talks_quiet; simpl; eauto with tunnel).
  eapply talks_trans; [exact T1|]. set (o := End_ _). set (q := ztake _ _).
  assert (talks st1 (try_forward o q st1)) as T2.
  { apply talks_forward, End_u64. }
  assert (talks (try_forward o q st1) (wake_if_detached (try_forward o q st1))) as T3.
  { unfold wake_if_detached. destruct (_ && _); apply talks_quiet; auto. }
  eapply talks_trans; [exact T2|]. eapply talks_trans; [exact T3|]. apply IH.
Qed.

Lemma talks_read p err st :
  (forall e, err = Some (Some e) -> str_len e <= maxString) ->
  talks st (fst (readUpstream p err st)).
Proof.
  intros He. unfold readUpstream.
  assert (talks st (fst (match p with [] => (st, PDone) | _ => produceDownstream p st end))) as L
    by (destruct p; [apply talks_refl|by apply talks_produce]).
  destruct (match p with [] => _ | _ => _ end) as [st1 r]. simpl in L.
  eapply talks_trans; [exact L|].
  destruct r; [destruct err as [[e|]|]|..]; simpl; try apply talks_destroy; try apply talks_refl;
    apply talks_closeUpstream; [simpl; auto|done].
Qed.

Lemma talks_attach o st : is_u64 o -> talks st (onSidecarAttach o st).
Proof.
  intros Ho. unfold onSidecarAttach. set (replay := match From _ _ with Ok p => p | Err _ => [] end).
  set (st1 := sendToSidecar (AttachOKF _ _) st).
  assert (talks st st1) as T1 by (apply talks_send; intros [? ?]; by apply wf_of_session; [constructor|..]).
  set (st2 := if len replay >? 0 then _ else st1).
  assert (talks st st2) as T2.
  { eapply talks_trans; [exact T1|]. unfold st2. destruct (_ >? 0); [|apply talks_refl].
    rewrite <- (tk_id _ _ T1). apply talks_send. intros [? ?]. by apply data_of_session. }
  eapply talks_trans; [exact T2|]. destruct (_ && _); [|apply talks_refl].
  rewrite <- (tk_id _ _ T2). apply talks_send. intros ?. by apply close_of_session.
Qed.

Lemma talks_ack o st : talks st (onDownstreamAck o st).
Proof.
  unfold onDownstreamAck. apply talks_quiet; simpl; destruct (Len (TrimTo (s_downBuf (ss st)) o) =? 0); simpl; auto with tunnel.
Qed.

Lemma talks_close d r st : talks st (onSidecarClose d r st).
Proof.
  unfold onSidecarClose. destruct (negb _); [apply talks_refl|].
  eapply talks_trans; [|apply talks_maybeDestroy]. apply talks_quiet; auto.
Qed.
End broker.
#[export] Hint Resolve talks_refl talks_detach talks_watchdog talks_onData talks_dial talks_read talks_attach
  talks_ack talks_close : tunnel.

(** ** The sidecar's sessions *)

Section client.
Context {C : Type} `{FrameWriter C}.
Implicit Types (st : cst C).

Record cwf (s : clientSession) : Prop := {
  cwf_id : is_u64 (cs_sessionID s);
  cwf_target : str_len (cs_target s) <= maxString;
  cwf_delivered : is_u64 (cs_downDelivered s);
}.

(** A frame of the session; a CLOSE only as long as it has not sent one. *)
Definition own_frame (s : clientSession) (f : Frame) : Prop :=
  of_session (cs_sessionID s) f /\ (fType f = TypeClose -> cs_upClosed s = false).

Record ctalks st st' : Prop := {
  ck_cwf : cwf (cs st) -> cwf (cs st');
  ck_id : cs_sessionID (cs st') = cs_sessionID (cs st);
  ck_conn : cconn st' = cconn st;
  ck_closed : cs_upClosed (cs st) = true -> cs_upClosed (cs st') = true;
  ck_says : cwf (cs st) -> sends (fun tc => cconn st = Some tc) (own_frame (cs st)) (cnet st) (cnet st');
}.

Lemma ck_sends st st' :
  ctalks st st' -> cwf (cs st) ->
  sends (fun tc => cconn st = Some tc) (of_session (cs_sessionID (cs st))) (cnet st) (cnet st').
Proof. intros T W. eapply sends_weaken; [| |by apply ck_says]; [done|by intros f []]. Qed.

Lemma ctalks_trans st1 st2 st3 : ctalks st1 st2 -> ctalks st2 st3 -> ctalks st1 st3.
Proof.
  intros [W1 I1 B1 U1 S1] [W2 I2 B2 U2 S2]. split; [auto|congruence|congruence|auto|].
  intros W. etrans; [by apply S1|]. rewrite <- B1. eapply sends_weaken; [| |by apply S2; auto]; [done|].
  intros f [Hf Hc]. rewrite I1 in Hf. split; [done|]. intros Ht. specialize (Hc Ht).
  destruct (cs_upClosed (cs st1)); [|done]. by rewrite (U1 eq_refl) in Hc.
Qed.

Lemma ctalks_quiet st st' :
  cnet st' = cnet st -> cconn st' = cconn st -> cs_sessionID (cs st') = cs_sessionID (cs st) ->
  cs_target (cs st') = cs_target (cs st) ->
  (is_u64 (cs_downDelivered (cs st)) -> is_u64 (cs_downDelivered (cs st'))) ->
  (cs_upClosed (cs st) = true -> cs_upClosed (cs st') = true) -> ctalks st st'.
Proof.
  intros En Ec Ei Et Hd Hu. split; [|done|done|done|intros _; rewrite En; reflexivity].
  intros [? ? ?]. split; rewrite ?Ei, ?Et; auto.
Qed.

Lemma ctalks_refl st : ctalks st st.
Proof. apply ctalks_quiet; auto. Qed.

Lemma ctalks_send f st :
  (cwf (cs st) -> own_frame (cs st) f) -> ctalks st (csend f st).
Proof.
  intros Hf. unfold csend. destruct (cconn st) as [tc|] eqn:E; [|apply ctalks_refl].
  destruct (cnet st !! tc) as [c|] eqn:Ec; [|apply ctalks_refl]. split; simpl; auto.
  intros S. apply rtc_once. by apply put_frame; auto.
Qed.

Lemma ctalks_closeAll st : ctalks st (closeAll st).
Proof. unfold closeAll. destruct (cs_dead (cs st)); [apply ctalks_refl|]. apply ctalks_quiet; auto. Qed.

Lemma ctalks_write fuel p st : ctalks st (fst (write_loop fuel p st)).
Proof.
  revert p st. induction fuel as [|fuel IH]; intros p st; destruct p as [|b p]; simpl; try apply ctalks_refl.
  destruct (cs_dead (cs st)); [apply ctalks_refl|]. destruct (_ =? 0); [apply ctalks_refl|].
  destruct (Append _ _) as [d|e] eqn:Ea; [|apply ctalks_refl].
  set (st1 := cupd (set_cs_upBuf d) st).
  assert (ctalks st st1) as T1 by (apply ctalks_quiet; simpl; eauto with tunnel).
  eapply ctalks_trans; [exact T1|]. set (f := DataF _ _ _).
  assert (ctalks st1 (csend f st1)) as T2.
  { apply ctalks_send. intros [? ? ?]. split; [|done]. apply data_of_session; [done|apply End_u64]. }
  eapply ctalks_trans; [exact T2|]. apply IH.
Qed.

Lemma ctalks_attachOK o st : is_u64 o -> ctalks st (onAttachOK o st).
Proof.
  intros Ho. unfold onAttachOK. set (st1 := cupd _ st).
  assert (ctalks st st1) as T1 by (apply ctalks_quiet; simpl; auto with tunnel).
  destruct (From _ o) as [q|] eqn:Ef; [|done]. destruct (_ >? 0); [|done].
  eapply ctalks_trans; [exact T1|]. apply ctalks_send. intros [? ? ?]. split; [|done]. by apply data_of_session.
Qed.

Lemma ctalks_deliver o p st : ctalks st (deliverDown o p st).
Proof.
  unfold deliverDown. destruct (deliver_check _ _ _) as [q|]; [|apply ctalks_refl].
  unfold deliver_write. destruct (sock_write q _) as [u ok].
  set (st1 := cupd (set_cs_agent u) st). assert (ctalks st st1) as T1 by (apply ctalks_quiet; auto).
  eapply ctalks_trans; [exact T1|]. destruct ok; [|apply ctalks_closeAll].
  set (st2 := cupd _ st1).
  assert (ctalks st1 st2) as T2 by (apply ctalks_quiet; auto; intros _; apply u64_range).
  eapply ctalks_trans; [exact T2|]. apply ctalks_send. intros [? ? ?]. split; [|done]. by apply wf_of_session; [constructor|..].
Qed.

Lemma ctalks_onClose d r st : ctalks st (onClose d r st).
Proof.
  unfold onClose. destruct (_ =? _); [|apply ctalks_refl].
  eapply (ctalks_trans _ (cupd (set_cs_downClosed true) st)); [apply ctalks_quiet; auto|].
  destruct (cs_canCloseWrite _); [apply ctalks_quiet; auto|apply ctalks_closeAll].
Qed.

Lemma ctalks_closeUp r st : str_len r <= maxString -> ctalks st (closeUp r st).
Proof.
  intros Hr. unfold closeUp. destruct (cs_upClosed (cs st)) eqn:E; [apply ctalks_refl|]. unfold csend. cbn [cconn cnet cupd].
  destruct (cconn st) as [tc|] eqn:Ec; [|by apply ctalks_quiet; auto].
  destruct (cnet st !! tc) as [c|] eqn:En; [|by apply ctalks_quiet; auto]. split; simpl; auto; [by intros []|].
  intros [? ? ?]. apply rtc_once. apply put_frame; [done| |done]. split; [|done]. by apply wf_of_session; [constructor|..].
Qed.

Lemma ctalks_dispatch f st : wf_frame f -> ctalks st (session_dispatch f st).
Proof.
  intros Hf. unfold session_dispatch.
  destruct (Z.eqb_spec (fType f) TypeAttachOK) as [E|_].
  { apply ctalks_attachOK. by destruct Hf. }
  destruct (_ =? _); [apply ctalks_deliver|].
  destruct (_ =? _); [apply ctalks_quiet; simpl; auto with tunnel|].
  destruct (_ =? _); [apply ctalks_onClose|apply ctalks_refl].
Qed.

Lemma attachFrame_of_session s : cwf s -> of_session (cs_sessionID s) (attachFrame s).
Proof. intros [? ? ?]. by apply wf_of_session; [constructor|..]. Qed.
End client.
