(* ===== verification/HalfClose.v ===== *)
(** * HalfClose: the end of a request is announced once

    [closeUp] sends CLOSE when the agent has finished sending, and never again:
    neither ATTACH nor the replay after ATTACH_OK says that the stream has ended.
    Here is what becomes of a session whose CLOSE went down with a tunnel
    connection ([lost]), over any run of [System.ystep]. *)
From S2P Require Import Prelude ReplayBuffer Socket Wire Link BrokerSession Sidecar BrokerStream SidecarStream System Broker Traffic.

#[local] Existing Instance all_owned.

Section half_close.
Context {C : Type} `{FrameWriterLaws C}.
Context (sid : Z) (Hsid : is_u64 sid).
Context (os_error : string) (Hos : str_len os_error <= maxString).
Implicit Types (y : sys C) (st : sst C) (c : cst C).

(** ** The broker's half *)

(** The destination has not been told that the request is complete. *)
Definition up_open (s : session) : Prop :=
  s_upClosed s = false /\ forall u, s_upstream s = Some u -> sk_wclosed u = false.

Definition keeps_open st st' : Prop := up_open (ss st) -> up_open (ss st').

#[local] Instance keeps_open_preorder : PreOrder keeps_open.
Proof. split; [intros st O; exact O|]. intros x y z H1 H2 O. exact (H2 (H1 O)). Qed.

Lemma keeps_same st st' :
  s_upClosed (ss st') = s_upClosed (ss st) -> s_upstream (ss st') = s_upstream (ss st) -> keeps_open st st'.
Proof. intros E1 E2 [O1 O2]. split; [congruence|]. intros u. rewrite E2. apply O2. Qed.

Lemma keeps_tc_write tc f st : keeps_open st (fst (tc_write tc f st)).
Proof. unfold tc_write. repeat case_match; by apply keeps_same. Qed.

Lemma keeps_detach tc st : keeps_open st (detach tc st).
Proof. unfold detach. repeat case_match; by apply keeps_same. Qed.

Lemma keeps_send f st : keeps_open st (sendToSidecar f st).
Proof.
  unfold sendToSidecar. destruct (s_tconn (ss st)) as [tc|]; [|reflexivity].
  pose proof (keeps_tc_write tc f st) as K. destruct (tc_write tc f st) as [st1 []]; [done|].
  etrans; [exact K|apply keeps_detach].
Qed.

Lemma keeps_destroy st : keeps_open st (destroy st).
Proof.
  unfold destroy. destruct (s_dead (ss st)); [reflexivity|]. intros [O1 O2]. split; [done|]. simpl.
  intros u. destruct (s_upstream (ss st)) as [v|]; [|done]. intros [= <-]. by apply (O2 v).
Qed.

Lemma keeps_maybeDestroy st : keeps_open st (maybeDestroy st).
Proof. unfold maybeDestroy. destruct (_ && _); [apply keeps_destroy|reflexivity]. Qed.

Lemma keeps_closeUpstream cause st : keeps_open st (closeUpstream cause st).
Proof.
  unfold closeUpstream. destruct (s_downClosed (ss st)); [reflexivity|]. etrans; [|apply keeps_maybeDestroy].
  transitivity (upd (set_downClosed true) st); [by apply keeps_same|].
  destruct (bool_decide _); [apply keeps_send|]. destruct (s_requestOutstanding _); by apply keeps_same.
Qed.

Lemma sock_write_wclosed p u : sk_wclosed u = false -> sk_wclosed (fst (sock_write p u)) = false.
Proof. unfold sock_write. by repeat case_match. Qed.

Lemma keeps_up_write p st : keeps_open st (fst (up_write p st)).
Proof.
  unfold up_write. destruct (s_upstream (ss st)) as [u|] eqn:E; [|reflexivity].
  pose proof (sock_write_wclosed p u) as K. destruct (sock_write p u) as [u' ok]. intros [O1 O2].
  split; [done|]. simpl. intros v [= <-]. by apply K, O2.
Qed.

Lemma keeps_commit n st : keeps_open st (commit_upstream n st).
Proof. unfold commit_upstream. etrans; [|apply keeps_send]. by apply keeps_same. Qed.

Lemma keeps_onData o p st : keeps_open st (onData os_error o p st).
Proof.
  unfold onData. destruct (onData_check o p (ss st)) as [s w] eqn:E.
  assert (keeps_open st (upd (fun _ => s) st)) as K1.
  { revert E. unfold onData_check. intros E. apply keeps_same; simpl; repeat (case_match; simplify_eq/=); done. }
  destruct w as [q|]; [|done]. etrans; [exact K1|]. unfold onData_write.
  pose proof (keeps_up_write q (upd (fun _ => s) st)) as K2. destruct (up_write q _) as [st2 ok]. etrans; [exact K2|].
  destruct ok; [|apply keeps_closeUpstream]. etrans; [|apply keeps_commit]. by apply keeps_same.
Qed.

Lemma keeps_attach o st : keeps_open st (onSidecarAttach o st).
Proof. unfold onSidecarAttach. repeat case_match; repeat (etrans; [|apply keeps_send]); reflexivity. Qed.

Lemma keeps_dial r st :
  (forall conn, r = Ok conn -> sk_wclosed conn = false) -> keeps_open st (fst (dialUpstream os_error r st)).
Proof.
  intros Hr. unfold dialUpstream. destruct r as [conn|e]; simpl.
  2: { etrans; [apply keeps_send|apply keeps_destroy]. }
  unfold dial_connect. destruct (s_dead (ss st)); [reflexivity|]. set (st1 := upd _ st).
  assert (keeps_open st st1) as K1 by (intros [O1 O2]; split; [done|]; intros u [= <-]; by apply Hr).
  unfold dial_flush. destruct (_ >? 0); [|exact K1]. etrans; [exact K1|].
  pose proof (keeps_up_write (s_preConn (ss st)) st1) as K2. destruct (up_write _ st1) as [st2 ok]. etrans; [exact K2|].
  destruct ok; [apply keeps_commit|apply keeps_closeUpstream].
Qed.

Lemma keeps_forward o q st : keeps_open st (try_forward o q st).
Proof.
  unfold try_forward. destruct (s_tconn (ss st)) as [tc|]; [|reflexivity].
  pose proof (keeps_tc_write tc (DataF (s_sessionID (ss st)) o q) st) as K. destruct (tc_write _ _ st) as [st1 []]; [exact K|].
  etrans; [exact K|by apply keeps_same].
Qed.

Lemma keeps_wake st : keeps_open st (wake_if_detached st).
Proof. unfold wake_if_detached. case_match; by apply keeps_same. Qed.

Lemma keeps_produce fuel p st : keeps_open st (fst (produce_loop fuel p st)).
Proof.
  revert p st. induction fuel as [|fuel IH]; intros p st; destruct p as [|b p]; simpl; try reflexivity.
  destruct (s_dead (ss st)); [reflexivity|]. destruct (_ =? 0); [reflexivity|].
  destruct (Append _ _) as [d|e]; [|reflexivity]. etrans; [|apply IH]. etrans; [|apply keeps_wake].
  etrans; [|apply keeps_forward]. by apply keeps_same.
Qed.

Lemma keeps_read p err st : keeps_open st (fst (readUpstream p err st)).
Proof.
  unfold readUpstream. assert (keeps_open st (fst (match p with [] => (st, PDone) | _ => produceDownstream p st end))) as K
    by (destruct p; [reflexivity|apply keeps_produce]).
  destruct (match p with [] => _ | _ => _ end) as [st1 r]. etrans; [exact K|].
  destruct r; [destruct err|..]; simpl; try apply keeps_closeUpstream; try apply keeps_destroy; reflexivity.
Qed.

(** Everything a frame that is not a CLOSE makes the broker do. *)
Lemma keeps_recv tc f y : fType f <> TypeClose -> keeps_open (y_b y) (y_b (broker_recv os_error tc f y)).
Proof.
  intros Hc. assert (forall o, keeps_open (y_b y) (onSidecarAttach o (bind tc (y_b y)))) as Ka
    by (intros o; etrans; [|apply keeps_attach]; by apply keeps_same).
  unfold broker_recv. destruct (_ =? TypePing); [apply keeps_tc_write|].
  destruct (_ =? TypeOpen); [destruct (y_created y); [apply Ka|by apply keeps_same]|].
  destruct (_ =? TypeAttach); [destruct (y_created y); [apply Ka|case_match; [apply Ka|apply keeps_tc_write]]|].
  destruct (negb _); [reflexivity|]. destruct (_ =? TypeData); [apply keeps_onData|].
  destruct (_ =? TypeAck); [|destruct (Z.eqb_spec (fType f) TypeClose); [done|reflexivity]].
  simpl. unfold onDownstreamAck. apply keeps_same; simpl; by case_match.
Qed.

(** ** A CLOSE that is on no connection *)

(** The fields of a frame the code has handed over. *)
Lemma postable_fields f :
  postable f -> (fType f = TypePing -> is_u64 (fNonce f)) /\ (fType f = TypeAttach -> is_u64 (fOffset f) /\ is_u64 (fSessionID f)).
Proof. intros [f' Wf|]; [by destruct Wf|done]. Qed.

Lemma ctalks_dispatch_post f c : postable f -> ctalks c (session_dispatch f c).
Proof. intros [f' Wf|]; [by apply ctalks_dispatch|apply ctalks_deliver]. Qed.

(** A frame that does not end this session's stream. *)
Definition no_close (f : Frame) : Prop := postable f /\ (fSessionID f = sid -> fType f <> TypeClose).

Record lost y : Prop := {
  lo_said : cs_upClosed (cs (y_c y)) = true;
  lo_cwf : cwf (cs (y_c y));
  lo_cid : cs_sessionID (cs (y_c y)) = sid;
  lo_up : net_ok no_close (cnet (y_c y));
  lo_open : up_open (ss (y_b y));
  lo_swf : swf (ss (y_b y));
  lo_bid : s_sessionID (ss (y_b y)) = sid;
  lo_down : net_ok postable (net (y_b y));
}.

Lemma lost_client y c : lost y -> ctalks (y_c y) c -> lost (with_c c y).
Proof.
  intros [Sd Cw Ci Up Op Sw Bi Dn] [Tw Ti Tc Tu Ts]. split; simpl; auto; [congruence|].
  eapply sends_net_ok; [|exact (Ts Cw)|exact Up]. intros f [(Hp & Hi & _) Hc]. split; [done|]. intros Wf.
  split; [done|]. intros _ Ht. specialize (Hc Ht). congruence.
Qed.

Lemma lost_broker y b : lost y -> keeps_open (y_b y) b -> talks (y_b y) b -> lost (with_b b y).
Proof.
  intros [Sd Cw Ci Up Op Sw Bi Dn] K [Tw Ti Tb Ts]. split; simpl; auto; [congruence|].
  eapply sends_net_ok; [|exact (Ts Sw)|exact Dn]. intros f (Hp & _). by split.
Qed.

(** The model's bookkeeping does not matter. *)
Lemma lost_ext y y' : lost y -> y_c y' = y_c y -> y_b y' = y_b y -> lost y'.
Proof. intros [] E1 E2. split; rewrite ?E1, ?E2; done. Qed.

Lemma lost_csend y f : lost y -> no_close f -> lost (with_c (csend f (y_c y)) y).
Proof.
  intros L [Hp Hc]. unfold csend. destruct (cconn (y_c y)) as [tc|]; [|by eapply lost_ext; [exact L|destruct y..]].
  destruct (cnet (y_c y) !! tc) as [c|] eqn:E; [|by eapply lost_ext; [exact L|destruct y..]].
  destruct L as [Sd Cw Ci Up Op Sw Bi Dn]. split; simpl; auto. destruct (fw_write f c) as [c' ok] eqn:W.
  eapply net_ok_write; [exact Up|exact E|exact Hp|by split|exact W].
Qed.

Lemma lost_tc_write y tc f : lost y -> postable f -> lost (with_b (fst (tc_write tc f (y_b y))) y).
Proof.
  intros L Hf. pose proof (keeps_tc_write tc f (y_b y)) as K. destruct L as [Sd Cw Ci Up Op Sw Bi Dn]. specialize (K Op).
  revert K. unfold tc_write. destruct (net (y_b y) !! tc) as [c|] eqn:E; [|by split].
  destruct (fw_write f c) as [c' ok] eqn:W. intros K. split; simpl; auto.
  by eapply (net_ok_write postable); [exact Dn|exact E|exact Hf| |exact W].
Qed.

Lemma lost_bind y tc : lost y -> lost (with_b (bind tc (y_b y)) y).
Proof. intros [Sd Cw Ci Up Op [? ?] Bi Dn]. by split. Qed.

Lemma lost_connect y actorID tc cu cd :
  lost y -> str_len actorID <= maxString -> fw_clean cu -> fw_sent cu = [] -> fw_clean cd -> fw_sent cd = [] ->
  lost (connect_step actorID tc cu cd y).
Proof.
  intros L Ha C1 S1 C2 S2. unfold connect_step, session_connect.
  destruct (fw_write (HelloF actorID) cu) as [c' ok] eqn:W.
  assert (wf_frame (HelloF actorID)) as Wh by (by constructor).
  assert (lost (with_b (MkSst (ss (y_b y)) (<[tc := cd]> (net (y_b y))) (evs (y_b y)))
    (with_c (MkCst (cs (y_c y)) (if ok then Some tc else cconn (y_c y)) (<[tc := c']> (cnet (y_c y))) (cremoved (y_c y))) y))) as L1.
  { destruct L as [Sd Cw Ci Up Op Sw Bi Dn]. split; simpl; auto.
    - destruct (fw_write_spec _ _ _ _ C1 (pb_wf _ Wh) W) as [C3 S3].
      apply net_ok_insert; [done|done|]. destruct S3 as [-> | (_ & _ & ->)]; rewrite S1; [done|].
      constructor; [|done]. split; [by apply pb_wf|]. intros _. by vm_compute.
    - apply net_ok_insert; [done|done|]. by rewrite S2. }
  destruct ok; simpl; [|exact L1]. apply (lost_csend _ (attachFrame (cs (y_c y))) L1).
  destruct (lo_cwf _ L). split; [by apply pb_wf; constructor|done].
Qed.

(** ** Every step *)

Lemma lost_recv y tc f :
  lost y -> postable f -> (fSessionID f = sid -> fType f <> TypeClose) -> lost (broker_frame os_error tc f y).
Proof using Type*.
  intros L Hp Hc. destruct (postable_fields f Hp) as [Fp Fa]. unfold broker_frame. rewrite (lo_bid _ L).
  destruct ((_ =? TypePing) || (fSessionID f =? sid)) eqn:Eb; [|done].
  assert (fType f <> TypeClose) as Nc.
  { apply orb_true_iff in Eb as [E|E]; [|apply Hc; lia]. intros E1. by rewrite E1 in E. }
  assert (forall o, is_u64 o -> lost (with_b (onSidecarAttach o (bind tc (y_b y))) y)) as La.
  { intros o Ho. apply (lost_broker (with_b (bind tc (y_b y)) y)); [by apply lost_bind|apply keeps_attach|by apply talks_attach]. }
  assert (is_u64 0) as U0 by done.
  unfold broker_recv. destruct (Z.eqb_spec (fType f) TypePing) as [Et|_].
  { apply lost_tc_write; [done|]. apply pb_wf. constructor. by apply Fp. }
  destruct (_ =? TypeOpen).
  { destruct (y_created y); [by apply La|]. by eapply lost_ext; [apply (lost_bind y tc L)|..]. }
  destruct (Z.eqb_spec (fType f) TypeAttach) as [Et|_].
  { destruct (Fa Et) as [Ho Hi]. destruct (y_created y); [by apply La|].
    case_match; [by eapply lost_ext; [apply (La _ Ho)|..]|]. apply lost_tc_write; [done|]. by apply pb_wf; constructor. }
  destruct (negb _); [done|]. destruct (_ =? TypeData); [apply lost_broker; [done|apply keeps_onData|by apply talks_onData]|].
  destruct (_ =? TypeAck); [|destruct (Z.eqb_spec (fType f) TypeClose); done].
  apply lost_broker; [done| |apply talks_ack]. unfold onDownstreamAck. apply keeps_same; simpl; by case_match.
Qed.

Lemma lost_step y y' : lost y -> ystep os_error y y' -> lost y'.
Proof using Type*.
  intros L S. pose proof L as [Sd Cw Ci Up Op Sw Bi Dn].
  assert (forall p, lost (with_c (fst (writeUp p (y_c y))) y)) as Lw by (intros p; apply lost_client; [done|apply ctalks_write]).
  assert (forall p err, (forall e, err = Some (Some e) -> str_len e <= maxString) ->
    lost (with_b (fst (readUpstream p err (y_b y))) y)) as Lr by (intros p err He; apply lost_broker; [done|apply keeps_read|by apply talks_read]).
  destruct S as [p Hw| |p err Hr He|rest err Hr He|cap Hc Hd|e Hc Hd He|from tc f Hd Hf|from f Hf|tc| |actorID tc cu cd Ha C1 S1 C2 S2|
    tc|n Hn| |reason Hr|tc f Hf Hi|tc f Hf Hi|tc Hc].
  - unfold agent_write. specialize (Lw p). destruct (writeUp p (y_c y)) as [c r]. by eapply lost_ext.
  - unfold agent_retry. specialize (Lw (y_upwait y)). destruct (writeUp _ (y_c y)) as [c r]. by eapply lost_ext.
  - unfold dest_read. specialize (Lr p err He). destruct (readUpstream p err (y_b y)) as [b r]. by eapply lost_ext.
  - unfold dest_retry. specialize (Lr rest err He). destruct (readUpstream rest err (y_b y)) as [b r]. by eapply lost_ext.
  - assert (lost (with_b (fst (dialUpstream os_error (Ok (MkSock [] cap false false)) (y_b y))) y)) as Ld
      by (apply lost_broker; [done|apply keeps_dial; by intros ? [= <-]|by apply talks_dial]).
    unfold dial. destruct (dialUpstream _ _ (y_b y)) as [b go]. by eapply lost_ext.
  - assert (lost (with_b (fst (dialUpstream os_error (Err e) (y_b y))) y)) as Ld
      by (apply lost_broker; [done|by apply keeps_dial|apply talks_dial; [done|by intros ? [= <-]]]).
    unfold dial. destruct (dialUpstream _ _ (y_b y)) as [b go]. by eapply lost_ext.
  - unfold sent_up in Hf. destruct (cnet (y_c y) !! from) as [c|] eqn:E; [|by apply elem_of_nil in Hf].
    destruct (Up from c E) as [_ HF]. rewrite Forall_forall in HF. destruct (HF f Hf). by apply lost_recv.
  - unfold sent_down in Hf. destruct (net (y_b y) !! from) as [c|] eqn:E; [|by apply elem_of_nil in Hf].
    destruct (Dn from c E) as [_ HF]. rewrite Forall_forall in HF. specialize (HF f Hf).
    unfold client_frame. case_match; [|done]. by apply lost_client; [|apply ctalks_dispatch_post].
  - apply lost_broker; [done|apply keeps_detach|apply talks_detach].
  - apply lost_broker; [done| |apply talks_watchdog]. unfold watchdog_fire. case_match; by apply keeps_same.
  - by apply lost_connect.
  - unfold session_disconnect. case_decide; [|by eapply lost_ext; [exact L|destruct y..]]. by split.
  - apply lost_csend; [done|]. by split; [apply pb_wf; constructor|].
  - apply lost_csend; [done|]. destruct Cw. by split; [apply pb_wf; constructor|].
  - apply lost_client; [done|by apply ctalks_closeUp].
  - unfold other_up. destruct (cnet (y_c y) !! tc) as [x|] eqn:E; [|by eapply lost_ext; [exact L|destruct y..]].
    split; simpl; auto. destruct (fw_write f x) as [c' ok] eqn:W.
    eapply net_ok_write; [exact Up|exact E|exact Hf| |exact W]. intros Wf. split; [done|]. intros E1. congruence.
  - by apply lost_tc_write.
  - apply lost_tc_write; [done|]. apply pb_wf. destruct Sw. by constructor.
Qed.

Lemma lost_forever y y' : lost y -> rtc (ystep os_error) y y' -> lost y'.
Proof using Type*. intros L R. induction R as [|y1 y2 y3 S _ IH]; [done|]. apply IH. by eapply lost_step. Qed.
End half_close.

(** ** Property *)


Section properties.
Context {C : Type} `{FrameWriterLaws C}.
Context (sid cbuf bbuf : Z) (target actorID os_error : string) (cap : option nat) (cw : bool).
Context (Hsid : is_u64 sid) (Ht : str_len target <= maxString) (Hos : str_len os_error <= maxString).
Context (Ha : str_len actorID <= maxString) (Hcb : 0 <= cbuf) (Hbb : 0 <= bbuf).
Context (y : sys C).
Context (R : rtc (ystep os_error) (initial sid target cbuf bbuf actorID cap cw) y).
Context (HA : len (y_agent y) < 2 ^ 64) (HD : len (y_dest y) < 2 ^ 64).

(** C35. A half-close that is lost stays lost.  Suppose the agent has finished
    sending and the session's CLOSE is on no tunnel connection (it was written to
    one that the suspend took away, or while there was none) and the broker has
    not handled it.  Then no reconnect, replay, retransmission or other step of
    the session, however the run goes on, ever tells the broker: the destination
    never sees the end of the request, although every byte of it may arrive. *)
Theorem lost_half_close_stays_lost (y' : sys C)
    (Hsaid : cs_upClosed (cs (y_c y)) = true)
    (Hlost : forall tc f, f ∈ sent_up tc y -> fSessionID f = sid -> fType f <> TypeClose)
    (Hopen : s_upClosed (ss (y_b y)) = false)
    (Hup : forall u, s_upstream (ss (y_b y)) = Some u -> sk_wclosed u = false)
    (R' : rtc (ystep os_error) y y') :
  s_upClosed (ss (y_b y')) = false /\ forall u, s_upstream (ss (y_b y')) = Some u -> sk_wclosed u = false.
Proof using Type*.
  destruct (reachable_inv sid cbuf bbuf target actorID os_error cap cw Hsid Ht Hos Ha Hcb Hbb y R HA HD) as (A & D & J).
  pose proof (yi_c _ _ _ _ J) as Jc. pose proof (yi_b _ _ _ _ J) as Jb.
  apply (lo_open sid y'), (lost_forever sid Hsid os_error Hos y y'); [|done]. split; try done.
  - split; [by rewrite (ci_sid _ _ _ _ _ Jc)|apply Jc|by eapply cinv_dl].
  - apply Jc.
  - intros tc c E. destruct (ci_net _ _ _ _ _ Jc tc c E) as [Hc HF]. split; [done|]. apply Forall_forall. intros f Hf.
    rewrite Forall_forall in HF. split; [by eapply good_up_postable, HF|]. apply (Hlost tc). unfold sent_up. by rewrite E.
  - split; [by rewrite (bi_sid _ _ _ _ _ Jb)|]. apply (binv_uw _ _ _ _ _ Jb).
  - apply Jb.
  - intros tc c E. destruct (bi_net _ _ _ _ _ Jb tc c ltac:(done) E) as [Hc HF]. split; [done|].
    eapply Forall_impl; [exact HF|]. intros f. by apply good_down_postable.
Qed.
End properties.

(** ** Witness *)

(** The agent ends its request while the tunnel is down; the sidecar reconnects
    and the request's bytes arrive. *)
Module Ended.
Import System.Demo.
Definition z5 : sys Conn := with_c (session_disconnect 0 (y_c y4)) y4.
Definition z6 : sys Conn := with_c (closeUp "EOF" (y_c z5)) z5.
Definition z7 : sys Conn := connect_step "ns/a" 1 (NewConn new_sock) (NewConn new_sock) z6.
Definition z8 : sys Conn := broker_frame os 1 (AttachF 1 0 "mcp:80") z7.
Definition z9 : sys Conn := client_frame (AttachOKF 1 0) z8.
Definition z10 : sys Conn := broker_frame os 1 (DataF 1 0 [x47; x45; x54]) z9.

Lemma ended_reached : rtc (ystep os) y0 z6.
Proof.
  destruct new_conn_works as (W1 & _ & W2).
  apply (rtc_l _ _ y1); [by apply YConnect|].
  apply (rtc_l _ _ y2); [apply YBrokerRecv with (from := 0%nat); [done|in_list]|].
  apply (rtc_l _ _ y3); [by apply YDialOk|].
  apply (rtc_l _ _ y4); [by apply YAgentWrite|].
  apply (rtc_l _ _ z5); [by apply YDisconnect|].
  apply (rtc_l _ _ z6); [by apply YCloseUp|]. apply rtc_refl.
Qed.

Lemma ended_resumed : rtc (ystep os) z6 z10.
Proof.
  destruct new_conn_works as (W1 & _ & W2).
  apply (rtc_l _ _ z7); [by apply YConnect|].
  apply (rtc_l _ _ z8); [apply YBrokerRecv with (from := 1%nat); [done|in_list]|].
  apply (rtc_l _ _ z9); [apply YClientRecv with (from := 1%nat); in_list|].
  apply (rtc_l _ _ z10); [apply YBrokerRecv with (from := 1%nat); [done|in_list]|]. apply rtc_refl.
Qed.

Lemma ended_unsaid tc f : f ∈ sent_up tc z6 -> fSessionID f = 1 -> fType f <> TypeClose.
Proof.
  unfold sent_up. destruct (cnet (y_c z6) !! tc) as [c|] eqn:E; [|by intros ?%elem_of_nil].
  apply elem_of_map_to_list in E. revert E. vm_compute (map_to_list _). rewrite !elem_of_cons.
  intros [[= -> ->]|E%elem_of_nil]; [|done]. vm_compute (fw_sent _). rewrite !elem_of_cons.
  by intros [->|[->|[->|E%elem_of_nil]]].
Qed.
End Ended.

Lemma lost_half_close_stays_lost_witness :
  cs_upClosed (cs (y_c Ended.z10)) = true /\ (sk_out <$> s_upstream (ss (y_b Ended.z10))) = Some [x47; x45; x54] /\
  s_upClosed (ss (y_b Ended.z10)) = false /\
  (forall u, s_upstream (ss (y_b Ended.z10)) = Some u -> sk_wclosed u = false).
Proof.
  split; [reflexivity|]. split; [reflexivity|].
  apply (lost_half_close_stays_lost 1 8 4 "mcp:80" "ns/a" Demo.os None true) with (y := Ended.z6);
    first [exact Ended.ended_reached | exact Ended.ended_resumed | exact Ended.ended_unsaid | by_compute | idtac].
  intros u. vm_compute. by intros [= <-].
Defined.
