(* ===== verification/Answers.v ===== *)
(** * Answers: what a method says on a connection that works

    On a tunnel connection that takes every frame, what a session's method does
    to the session and which frames it writes are determined by the session
    alone, not by what other sessions have written to the same connection.
    [answers] and [canswers] say this of one method, for a session of the broker
    and of the sidecar; here are the methods a frame from the peer invokes. *)
From S2P Require Import Prelude ReplayBuffer Socket Wire Link BrokerSession Sidecar System Traffic.

(** ** Frames *)

(** A frame of session [id] that fits on the wire. *)
Definition wf_of (id : Z) (f : Frame) : Prop := wf_frame f /\ fSessionID f = id.

(** The frames a session exchanges while both of its streams are open, to the
    broker and to the sidecar. *)
Definition upward (f : Frame) : Prop := fType f = TypeAttach \/ fType f = TypeData \/ fType f = TypeAck.
Definition downward (f : Frame) : Prop := fType f = TypeAttachOK \/ fType f = TypeData \/ fType f = TypeAck.

(** What a buffer holds fits in a frame. *)
Definition fits (b : ReplayBuffer) : Prop := Len b <= MaxPayload.

Lemma From_len b o p : From b o = Ok p -> len p <= Len b.
Proof.
  unfold From, Len. repeat case_match; try done. intros [= <-]. unfold zdrop, len. rewrite length_drop. lia.
Qed.

Lemma TrimTo_len b o : Len (TrimTo b o) <= Len b.
Proof.
  unfold TrimTo, Len, go_copy. pose proof (len_nonneg (rb_buf b)). repeat case_match; simpl; [lia|done|].
  simplify_eq/=. unfold ztake, zdrop, len in *. rewrite length_take, length_app, length_drop. rewrite !length_drop. lia.
Qed.

Lemma fits_trim b o : fits b -> fits (TrimTo b o).
Proof. unfold fits. pose proof (TrimTo_len b o). lia. Qed.

Lemma fits_from b o p : fits b -> From b o = Ok p -> len p <= MaxPayload.
Proof. unfold fits. intros ? ?%From_len. lia. Qed.

Section answers.
Context {C : Type} `{FrameWriterLaws C}.

(** Connection [tc] works and has carried [fs]. *)
Definition carries (tc : nat) (fs : list Frame) (n : gmap nat C) : Prop :=
  exists c, n !! tc = Some c /\ works c fs.

Lemma carries_write tc fs n c f :
  carries tc fs n -> n !! tc = Some c -> wf_frame f ->
  snd (fw_write f c) = true /\ carries tc (fs ++ [f]) (<[tc := fst (fw_write f c)]> n).
Proof.
  intros (c0 & Ec & W) E Hf. assert (c0 = c) as -> by congruence.
  destruct (works_write c fs f W Hf) as (c' & -> & W'). split; [done|]. exists c'. by rewrite lookup_insert_eq.
Qed.

Lemma carries_sent tc fs n c : carries tc fs n -> n !! tc = Some c -> fw_sent c = fs.
Proof. intros (c0 & Ec & _ & _ & Hs) E. congruence. Qed.

(** Writes to other connections leave it alone. *)
Lemma sends_elsewhere (T : nat -> Prop) P (n n' : gmap nat C) tc : ~ T tc -> sends T P n n' -> n' !! tc = n !! tc.
Proof.
  intros HT. induction 1 as [|n1 n2 n3 [tc' c f Htc _ E] _ IH]; [done|]. rewrite IH.
  apply lookup_insert_ne. congruence.
Qed.

(** ** The broker's sessions *)

Section broker.
Context (tc : nat) (os_error : string) (Hos : str_len os_error <= maxString).
Implicit Types (s : session) (op : sst C -> sst C) (st : sst C).

Definition answers op s s' (out : list Frame) : Prop :=
  forall st fs, ss st = s -> carries tc fs (net st) -> ss (op st) = s' /\ carries tc (fs ++ out) (net (op st)).

(** ... where the session stays bound and well formed, and speaks only for itself. *)
Record voice op s s' (out : list Frame) : Prop := {
  vo_answers : answers op s s' out;
  vo_frames : Forall (wf_of (s_sessionID s)) out;
  vo_bound : s_tconn s' = Some tc;
  vo_id : s_sessionID s' = s_sessionID s;
  vo_swf : swf s';
}.

Lemma voice_upd g s :
  s_tconn (g s) = Some tc -> s_sessionID (g s) = s_sessionID s -> swf (g s) -> voice (upd g) s (g s) [].
Proof.
  intros Hb Hi Hw. split; auto. intros st fs <- L. by rewrite app_nil_r.
Qed.

Lemma voice_emit e s : s_tconn s = Some tc -> swf s -> voice (emit e) s s [].
Proof. intros Hb Hw. split; auto. intros st fs <- L. by rewrite app_nil_r. Qed.

Lemma voice_id s : s_tconn s = Some tc -> swf s -> voice (fun st => st) s s [].
Proof. intros Hb Hw. split; auto. intros st fs <- L. by rewrite app_nil_r. Qed.

Lemma voice_send f s : s_tconn s = Some tc -> swf s -> wf_of (s_sessionID s) f -> voice (sendToSidecar f) s s [f].
Proof.
  intros Hb Hw [Hf Hi]. split; auto; [|by repeat constructor]. intros st fs <- L.
  destruct (link_down_send tc fs st f) as [[_ K] E]; [by split|done|]. done.
Qed.

Lemma voice_comp op1 op2 s s1 s2 o1 o2 :
  voice op1 s s1 o1 -> voice op2 s1 s2 o2 -> voice (fun st => op2 (op1 st)) s s2 (o1 ++ o2).
Proof.
  intros [A1 F1 B1 I1 W1] [A2 F2 B2 I2 W2]. split; auto; [| |congruence].
  - intros st fs E L. destruct (A1 st fs E L) as [E1 L1]. rewrite app_assoc. by apply A2.
  - rewrite I1 in F2. by apply Forall_app.
Qed.

(** A method that is this one on every state of the session. *)
Lemma voice_ext op op' s s' o : (forall st, ss st = s -> op' st = op st) -> voice op s s' o -> voice op' s s' o.
Proof. intros E [A F B I W]. split; auto. intros st fs Es. rewrite (E st Es). by apply A. Qed.

(** [op] has a voice in [s], whatever the outcome. *)
Definition vocal op s : Prop := exists s' out, voice op s s' out.

Lemma vocal_comp op1 op2 s s1 o1 : voice op1 s s1 o1 -> vocal op2 s1 -> vocal (fun st => op2 (op1 st)) s.
Proof. intros V1 (s2 & o2 & V2). exists s2, (o1 ++ o2). by eapply voice_comp. Qed.

Lemma voice_opt (b : bool) f s :
  s_tconn s = Some tc -> swf s -> (b = true -> wf_of (s_sessionID s) f) ->
  voice (fun st => if b then sendToSidecar f st else st) s s (opt b f).
Proof. intros Hb Hw Hf. destruct b; [by apply voice_send; auto|by apply voice_id]. Qed.

(** [onSidecarAttach] and its answer. *)
Definition replay_of (o : Z) s : list byte := match From (s_downBuf s) o with Ok p => p | Err _ => [] end.
Definition attach_close (o : Z) s : bool :=
  s_downClosed s && (End_ (s_downBuf s) =? u64 (o + len (replay_of o s))).
Definition attach_out (o : Z) s : list Frame :=
  [AttachOKF (s_sessionID s) (s_upstreamWritten s)] ++
  opt (len (replay_of o s) >? 0) (DataF (s_sessionID s) o (replay_of o s)) ++
  opt (attach_close o s) (CloseF (s_sessionID s) DirDown "upstream EOF").

Lemma voice_attach o s :
  is_u64 o -> s_tconn s = Some tc -> swf s -> fits (s_downBuf s) -> voice (onSidecarAttach o) s s (attach_out o s).
Proof.
  intros Ho Hb [Wi Ww] Hf. unfold attach_out.
  assert (len (replay_of o s) <= MaxPayload) as Hr.
  { unfold replay_of. destruct (From _ o) eqn:E; [by eapply fits_from|done]. }
  eapply voice_ext; [|eapply voice_comp; [apply (voice_send (AttachOKF (s_sessionID s) (s_upstreamWritten s)))|
    eapply voice_comp; [apply (voice_opt (len (replay_of o s) >? 0) (DataF (s_sessionID s) o (replay_of o s)))|
      apply (voice_opt (attach_close o s) (CloseF (s_sessionID s) DirDown "upstream EOF"))]]]; try done.
  - by intros st <-.
  - by split; [constructor|].
  - intros _. by split; [constructor|].
  - intros _. by split; [constructor|].
Qed.

Lemma voice_reattach o s :
  is_u64 o -> swf s -> fits (s_downBuf s) ->
  voice (fun st => onSidecarAttach o (bind tc st)) s (set_tconn (Some tc) s) (attach_out o (set_tconn (Some tc) s)).
Proof.
  intros Ho [Wi Ww] Hf. change (attach_out o (set_tconn (Some tc) s)) with ([] ++ attach_out o (set_tconn (Some tc) s)).
  eapply voice_comp; [by apply (voice_upd (set_tconn (Some tc)))|by apply voice_attach].
Qed.

(** [destroy], [maybeDestroy] and [closeUpstream] of a bound session. *)
Lemma vocal_destroy s : s_tconn s = Some tc -> swf s -> vocal destroy s.
Proof.
  intros Hb [Wi Ww]. destruct (s_dead s) eqn:E.
  { exists s, []. eapply voice_ext; [|by apply voice_id]. intros st Es. unfold destroy. by rewrite Es, E. }
  eexists _, _. eapply voice_ext; [|eapply voice_comp;
    [apply (voice_upd (fun s => set_watchdog (option_map (fun _ => false) (s_watchdog s))
       (set_upstream (option_map sock_close (s_upstream s)) (set_dead true s))) s)|
     apply (voice_emit (EvRemove (s_actorID s) (s_sessionID s)))]]; try done.
  intros st <-. unfold destroy. by rewrite E.
Qed.

Lemma vocal_maybeDestroy s : s_tconn s = Some tc -> swf s -> vocal maybeDestroy s.
Proof.
  intros Hb Hw. destruct (s_upClosed s && s_downClosed s && (Len (s_downBuf s) =? 0)) eqn:E.
  - destruct (vocal_destroy s Hb Hw) as (s' & o & V). exists s', o. eapply voice_ext; [|exact V].
    intros st Es. unfold maybeDestroy. by rewrite Es, E.
  - exists s, []. eapply voice_ext; [|by apply voice_id]. intros st Es. unfold maybeDestroy. by rewrite Es, E.
Qed.

Lemma vocal_closeUpstream c s :
  str_len (default "upstream EOF" c) <= maxString -> s_tconn s = Some tc -> swf s -> vocal (closeUpstream c) s.
Proof.
  intros Hc Hb [Wi Ww]. destruct (s_downClosed s) eqn:E.
  { exists s, []. eapply voice_ext; [|by apply voice_id]. intros st Es. unfold closeUpstream. by rewrite Es, E. }
  set (s1 := set_downClosed true s). set (f := CloseF (s_sessionID s) DirDown (default "upstream EOF" c)).
  destruct (vocal_maybeDestroy s1) as (s2 & o & V); [done|done|].
  eexists _, _. eapply voice_ext; [|eapply voice_comp; [apply (voice_upd (set_downClosed true) s)|
    eapply voice_comp; [apply (voice_send f s1)|exact V]]]; try done.
  - intros st Es. unfold closeUpstream. rewrite Es, E. cbn [upd ss]. rewrite Es. cbn [s_tconn set_downClosed]. rewrite Hb. done.
  - by split; [constructor|].
Qed.

Lemma voice_commit n s :
  s_tconn s = Some tc -> swf s ->
  let s1 := set_requestOutstanding true (set_upstreamWritten (u64 (s_upstreamWritten s + n)) s) in
  voice (commit_upstream n) s s1 [AckF (s_sessionID s) (s_upstreamWritten s1)].
Proof.
  intros Hb [Wi Ww] s1. assert (is_u64 (s_upstreamWritten s1)) as Hu by apply u64_range.
  change ([AckF (s_sessionID s) (s_upstreamWritten s1)]) with ([] ++ [AckF (s_sessionID s1) (s_upstreamWritten s1)]).
  eapply voice_ext; [|eapply voice_comp;
    [apply (voice_upd (fun s => set_requestOutstanding true (set_upstreamWritten (u64 (s_upstreamWritten s + n)) s)) s)|
     apply (voice_send (AckF (s_sessionID s1) (s_upstreamWritten s1)) s1)]]; try done.
  - by intros st <-.
  - by split; [constructor|].
Qed.

(** [onData]: the check, the upstream write, the confirmation. *)
Definition written (u : sock) (n : Z) s : session :=
  set_requestOutstanding true (set_upstreamWritten (u64 (s_upstreamWritten s + n)) (armWatchdogLocked (set_upstream (Some u) s))).

Lemma voice_written q s u u' :
  s_upstream s = Some u -> sock_write q u = (u', true) -> s_tconn s = Some tc -> swf s ->
  voice (onData_write os_error q) s (written u' (len q) s) [AckF (s_sessionID s) (s_upstreamWritten (written u' (len q) s))].
Proof.
  intros Hu Hw Hb [Wi Ww]. set (s1 := armWatchdogLocked (set_upstream (Some u') s)).
  assert (voice (upd (fun s => armWatchdogLocked (set_upstream (Some u') s))) s s1 []) as V1
    by (by apply (voice_upd (fun s => armWatchdogLocked (set_upstream (Some u') s)))).
  eapply voice_ext; [|exact (voice_comp _ _ _ _ _ _ _ V1 (voice_commit (len q) s1 Hb (Build_swf s1 Wi Ww)))].
  intros st Es. unfold onData_write, up_write. by rewrite Es, Hu, Hw.
Qed.

(** The outcome of [onData], from that of the check. *)
Lemma voice_data o p s s1 w :
  onData_check o p s = (s1, w) -> s_tconn s = Some tc -> swf s ->
  s_tconn s1 = Some tc /\ s_sessionID s1 = s_sessionID s /\ swf s1 /\ s_upstream s1 = s_upstream s /\
  s_dead s1 = s_dead s /\ s_downClosed s1 = s_downClosed s /\
  match w with
  | None => voice (onData os_error o p) s s1 []
  | Some q => forall s2 out, voice (onData_write os_error q) s1 s2 out -> voice (onData os_error o p) s s2 out
  end.
Proof.
  intros Ec Hb [Wi Ww].
  assert (s_tconn s1 = Some tc /\ s_sessionID s1 = s_sessionID s /\ swf s1 /\ s_upstream s1 = s_upstream s /\
    s_dead s1 = s_dead s /\ s_downClosed s1 = s_downClosed s) as (Hb1 & Hi1 & Hw1 & K).
  { revert Ec. unfold onData_check. repeat (case_match; try (intros [= <- <-]; done)). }
  assert (voice (upd (fun _ => s1)) s s1 []) as V1 by (by apply (voice_upd (fun _ => s1))).
  split_and!; try done; [by destruct K as (? & ? & ?)..|]. destruct w as [q|].
  - intros s2 out V2. eapply voice_ext; [|exact (voice_comp _ _ _ _ _ _ _ V1 V2)].
    intros st Es. unfold onData. by rewrite Es, Ec.
  - eapply voice_ext; [|exact V1]. intros st Es. unfold onData. by rewrite Es, Ec.
Qed.

Lemma vocal_onData o p s : s_tconn s = Some tc -> swf s -> vocal (onData os_error o p) s.
Proof using Type*.
  intros Hb Hw. destruct (onData_check o p s) as [s1 w] eqn:Ec.
  destruct (voice_data o p s s1 w Ec Hb Hw) as (Hb1 & Hi1 & Hw1 & _ & _ & _ & K).
  destruct w as [q|]; [|by exists s1, []].
  destruct (s_upstream s1) as [u|] eqn:Eu.
  - destruct (sock_write q u) as [u' [|]] eqn:Ew; [eexists _, _; apply K; by eapply voice_written|].
    set (s2 := set_upstream (Some u') s1). assert (swf s2) as W2 by (by destruct Hw1).
    destruct (vocal_closeUpstream (Some os_error) s2) as (s3 & o3 & V3); [done..|].
    assert (voice (upd (set_upstream (Some u'))) s1 s2 []) as V2 by (by apply voice_upd).
    eexists _, _. apply K. eapply voice_ext; [|exact (voice_comp _ _ _ _ _ _ _ V2 V3)].
    intros st Es. unfold onData_write, up_write. by rewrite Es, Eu, Ew.
  - destruct (vocal_closeUpstream (Some os_error) s1) as (s3 & o3 & V); [done..|]. eexists _, _. apply K.
    eapply voice_ext; [|exact V]. intros st Es. unfold onData_write, up_write. by rewrite Es, Eu.
Qed.

Definition acked (o : Z) s : session :=
  let s := set_downBuf (TrimTo (s_downBuf s) o) s in
  if Len (s_downBuf s) =? 0 then set_requestOutstanding false s else s.

Lemma voice_ack o s : s_tconn s = Some tc -> swf s -> voice (onDownstreamAck o) s (acked o s) [].
Proof.
  intros Hb [Wi Ww]. assert (forall P, P (set_downBuf (TrimTo (s_downBuf s) o) s) ->
    P (set_requestOutstanding false (set_downBuf (TrimTo (s_downBuf s) o) s)) -> P (acked o s)) as Hc
    by (intros P H1 H2; unfold acked; simpl; by destruct (_ =? 0)).
  apply (voice_upd (acked o)); by apply Hc.
Qed.

Lemma vocal_close d r s : s_tconn s = Some tc -> swf s -> vocal (onSidecarClose d r) s.
Proof.
  intros Hb [Wi Ww]. destruct (negb (d =? DirUp)) eqn:E.
  { exists s, []. eapply voice_ext; [|by apply voice_id]. intros st _. unfold onSidecarClose. by rewrite E. }
  destruct (vocal_maybeDestroy (set_upstream (option_map sock_close_write (s_upstream s)) (set_upClosed true s)))
    as (s' & o & V); [done|done|]. exists s', o. eapply (voice_ext (fun st => maybeDestroy (upd _ st)));
    [|eapply (voice_comp (upd (fun s => set_upstream (option_map sock_close_write (s_upstream s)) (set_upClosed true s))) maybeDestroy s _ _ [] o); [by apply voice_upd|exact V]].
  intros st _. unfold onSidecarClose. by rewrite E.
Qed.

(** ** A session both of whose streams are open *)

Definition b_alive s : Prop :=
  s_dead s = false /\ s_downClosed s = false /\ exists u, s_upstream s = Some u /\ sock_healthy u.

Lemma own_attach o s : b_alive s -> b_alive (set_tconn (Some tc) s) /\ Forall downward (attach_out o (set_tconn (Some tc) s)).
Proof.
  intros (Hd & Hc & Hu). split; [done|]. unfold attach_out, attach_close. simpl. rewrite Hc. simpl. rewrite app_nil_r.
  unfold downward, opt. case_match; repeat first [apply Forall_nil_2 | apply Forall_cons_2]; simpl; auto.
Qed.

Lemma own_ack o s : b_alive s -> b_alive (acked o s).
Proof. intros (Hd & Hc & Hu). unfold acked. simpl. by destruct (_ =? 0). Qed.

Lemma own_data o p s :
  b_alive s -> s_tconn s = Some tc -> swf s ->
  exists s' out, voice (onData os_error o p) s s' out /\ b_alive s' /\ Forall downward out.
Proof.
  intros (Hd & Hc & u & Hu & Hh) Hb Hw. destruct (onData_check o p s) as [s1 w] eqn:Ec.
  destruct (voice_data o p s s1 w Ec Hb Hw) as (Hb1 & Hi1 & Hw1 & Eu & Ed & Ec1 & K). rewrite Hu in Eu.
  destruct w as [q|].
  2: { exists s1, []. split_and!; [done| |by constructor]. split_and!; [congruence|congruence|eauto]. }
  eexists _, _. split_and!; [apply K; eapply voice_written; [exact Eu|by rewrite (sock_write_healthy _ _ Hh)|done..]|..].
  - split_and!; [by rewrite <- Ed in Hd|by rewrite <- Ec1 in Hc|]. by eexists.
  - constructor; [unfold downward; auto|constructor].
Qed.
End broker.

(** ** The sidecar's sessions *)

Section client.
Context (tc : nat).
Implicit Types (s : clientSession) (op : cst C -> cst C) (st : cst C).

Definition canswers op s s' (out : list Frame) : Prop :=
  forall st fs, cs st = s -> link_up tc fs st -> cs (op st) = s' /\ link_up tc (fs ++ out) (op st).

Record cvoice op s s' (out : list Frame) : Prop := {
  cv_answers : canswers op s s' out;
  cv_frames : Forall (fun f => wf_of (cs_sessionID s) f /\ upward f) out;
  cv_fits : fits (cs_upBuf s) -> fits (cs_upBuf s');
  cv_id : cs_sessionID s' = cs_sessionID s;
}.

Lemma cvoice_quiet op g s :
  (forall st, cs st = s -> cs (op st) = g /\ cconn (op st) = cconn st /\ cnet (op st) = cnet st) ->
  (fits (cs_upBuf s) -> fits (cs_upBuf g)) -> cs_sessionID g = cs_sessionID s -> cvoice op s g [].
Proof.
  intros Hop Hf Hi. split; auto. intros st fs Es (Lc & Ln). destruct (Hop st Es) as (E1 & E2 & E3).
  rewrite app_nil_r. split; [done|]. split; [congruence|by rewrite E3].
Qed.

Lemma cvoice_send f s : wf_of (cs_sessionID s) f -> upward f -> cvoice (csend f) s s [f].
Proof.
  intros Hf Hst. split; auto. intros st fs <- L.
  destruct (link_up_send tc fs st f L) as [L' E]; [by destruct Hf|done].
Qed.

Lemma cvoice_comp op1 op2 s s1 s2 o1 o2 :
  cvoice op1 s s1 o1 -> cvoice op2 s1 s2 o2 -> cvoice (fun st => op2 (op1 st)) s s2 (o1 ++ o2).
Proof.
  intros [A1 F1 B1 I1] [A2 F2 B2 I2]. split; auto; [| |congruence].
  - intros st fs E L. destruct (A1 st fs E L) as [E1 L1]. rewrite app_assoc. by apply A2.
  - rewrite I1 in F2. by apply Forall_app.
Qed.

Lemma cvoice_ext op op' s s' o : (forall st, cs st = s -> op' st = op st) -> cvoice op s s' o -> cvoice op' s s' o.
Proof. intros E [A F B I]. split; auto. intros st fs Es. rewrite (E st Es). by apply A. Qed.

Definition cvocal op s : Prop := exists s' out, cvoice op s s' out.

Lemma cvocal_closeAll s : cvocal closeAll s.
Proof.
  eexists (if cs_dead s then s else set_cs_agent (sock_close (cs_agent s)) (set_cs_dead true s)), [].
  apply cvoice_quiet; [|by destruct (cs_dead s)..]. intros st <-. unfold closeAll. by destruct (cs_dead (cs st)).
Qed.

Lemma cvocal_attachOK o s : is_u64 o -> cwf s -> fits (cs_upBuf s) -> cvocal (onAttachOK o) s.
Proof.
  intros Ho [Wi Wt Wd] Hf. set (s1 := set_cs_upBuf (TrimTo (cs_upBuf s) o) s).
  assert (cvoice (cupd (fun s => set_cs_upBuf (TrimTo (cs_upBuf s) o) s)) s s1 []) as V1.
  { apply cvoice_quiet; [|apply fits_trim|done]. by intros st <-. }
  pose proof (fits_trim _ o Hf) as Hf1.
  destruct (From (cs_upBuf s1) o) as [q|] eqn:E.
  2: { exists s1, []. eapply cvoice_ext; [|exact V1]. intros st Es. unfold onAttachOK. cbn [cupd cs]. rewrite Es. fold s1. by rewrite E. }
  destruct (len q >? 0) eqn:Eq.
  2: { exists s1, []. eapply cvoice_ext; [|exact V1]. intros st Es. unfold onAttachOK. cbn [cupd cs]. rewrite Es. fold s1. by rewrite E, Eq. }
  eexists _, _. eapply cvoice_ext; [|exact (cvoice_comp _ _ _ _ _ _ _ V1 (cvoice_send (DataF (cs_sessionID s) o q) s1
    (conj (wf_data _ _ _ Wi Ho (fits_from _ _ _ Hf1 E)) eq_refl) ltac:(unfold upward; auto)))].
  intros st Es. unfold onAttachOK. cbn [cupd cs]. rewrite Es. fold s1. by rewrite E, Eq.
Qed.

Lemma cvocal_deliver o p s : cwf s -> cvocal (deliverDown o p) s.
Proof.
  intros [Wi Wt Wd]. destruct (deliver_check o p s) as [q|] eqn:E.
  2: { exists s, []. apply cvoice_quiet; [|done..]. intros st Es. unfold deliverDown. by rewrite Es, E. }
  destruct (sock_write q (cs_agent s)) as [u ok] eqn:Ew. destruct ok.
  - set (s1 := set_cs_downDelivered (u64 (cs_downDelivered s + len q)) (set_cs_agent u s)).
    assert (is_u64 (cs_downDelivered s1)) as Hu by apply u64_range.
    assert (cvoice (fun st => cupd (fun _ => s1) st) s s1 []) as V1 by (by apply cvoice_quiet).
    eexists _, _. eapply cvoice_ext; [|exact (cvoice_comp _ _ _ _ _ _ _ V1 (cvoice_send (AckF (cs_sessionID s1) (cs_downDelivered s1)) s1
      (conj (wf_ack _ _ Wi Hu) eq_refl) ltac:(unfold upward; auto)))].
    intros st <-. unfold deliverDown, deliver_write. by rewrite E, Ew.
  - assert (cvoice (cupd (set_cs_agent u)) s (set_cs_agent u s) []) as V1 by (apply cvoice_quiet; [|done..]; by intros st <-).
    destruct (cvocal_closeAll (set_cs_agent u s)) as (s' & out & V2). eexists _, _.
    eapply cvoice_ext; [|exact (cvoice_comp _ _ _ _ _ _ _ V1 V2)]. intros st <-. unfold deliverDown, deliver_write. by rewrite E, Ew.
Qed.

Lemma cvocal_onClose d r s : cvocal (onClose d r) s.
Proof.
  destruct (d =? DirDown) eqn:E.
  2: { exists s, []. apply cvoice_quiet; [|done..]. intros st <-. unfold onClose. by rewrite E. }
  assert (cvoice (cupd (set_cs_downClosed true)) s (set_cs_downClosed true s) []) as V1
    by (apply cvoice_quiet; [|done..]; by intros st <-).
  destruct (cs_canCloseWrite s) eqn:Ew.
  - eexists (set_cs_agent (sock_close_write (cs_agent s)) (set_cs_downClosed true s)), [].
    apply cvoice_quiet; [|done..]. intros st <-. unfold onClose. rewrite E. cbn [cupd cs cs_canCloseWrite set_cs_downClosed]. by rewrite Ew.
  - destruct (cvocal_closeAll (set_cs_downClosed true s)) as (s' & out & V2). eexists _, _.
    eapply cvoice_ext; [|exact (cvoice_comp _ _ _ _ _ _ _ V1 V2)]. intros st <-. unfold onClose. rewrite E. cbn [cupd cs cs_canCloseWrite set_cs_downClosed]. by rewrite Ew.
Qed.

(** Every frame from the broker. *)
Lemma cvocal_dispatch f s : wf_frame f -> cwf s -> fits (cs_upBuf s) -> cvocal (session_dispatch f) s.
Proof.
  intros Wf Hw Hf. unfold session_dispatch.
  destruct (Z.eqb_spec (fType f) TypeAttachOK); [apply cvocal_attachOK; [by destruct Wf|done|done]|].
  destruct (_ =? TypeData); [by apply cvocal_deliver|].
  destruct (_ =? TypeAck); [|destruct (_ =? TypeClose); [apply cvocal_onClose|]].
  - eexists _, []. apply (cvoice_quiet _ (set_cs_upBuf (TrimTo (cs_upBuf s) (fOffset f)) s)); [by intros st <-|apply fits_trim|done].
  - exists s, []. by apply cvoice_quiet.
Qed.
End client.
End answers.
