(* ===== verification/Oversize.v ===== *)
(** * Oversize: what a replay larger than a frame does to a session

    Both ends replay everything unacknowledged in one DATA frame, and the frame
    encoder refuses payloads over [MaxPayload].  [System] shows that this never
    corrupts a stream; this file shows that it can stop one for good: as long as
    the sidecar has more than [MaxPayload] bytes to replay, no reconnect, however
    often repeated and however well the connections work, gets a byte to the
    destination. *)
From S2P Require Import Prelude ReplayBuffer Socket Wire Link BrokerSession Sidecar.
From S2P Require Import BrokerStream SidecarStream System Traffic.

#[local] Existing Instance all_owned.

Section oversize.
Context {C : Type} `{FrameWriterLaws C}.
Context (sid : Z) (Hsid : is_u64 sid).
Context (os_error : string) (Hos : str_len os_error <= maxString).
Implicit Types (y : sys C) (c : cst C).

Abbreviation uw y := (s_upstreamWritten (ss (y_b y))).

(** The frames that leave the destination alone. *)
Definition calm (f : Frame) : Prop :=
  fSessionID f = sid /\ (fType f = TypeAttach \/ fType f = TypeAck).

(** After HELLO, only such frames have been sent on [tc] by the sidecar ... *)
Definition quiet (tc : nat) c : Prop :=
  forall x, cnet c !! tc = Some x -> Forall calm (drop 1 (fw_sent x)).

(** ... and only frames of this session by the broker. *)
Definition mine (tc : nat) (b : sst C) : Prop :=
  onet_ok (Own := fun t => t = tc) (fun f => fSessionID f = sid) (net b).

(** ** The sidecar *)

Lemma quiet_send P tc c f :
  net_ok P (cnet c) -> postable f -> (wf_frame f -> calm f) -> quiet tc c -> quiet tc (csend f c).
Proof.
  intros I Hf Hc Q. unfold csend. destruct (cconn c) as [t|]; [|done].
  destruct (cnet c !! t) as [x|] eqn:E; [|done]. intros x'. simpl. rewrite lookup_insert_Some.
  intros [[-> <-]|[_ E']]; [|by apply Q].
  destruct (fw_write f x) as [x1 ok] eqn:W. destruct (I tc x E) as [Hx _]. simpl.
  destruct (fw_write_spec f x x1 ok Hx Hf W) as [_ [->|(_ & Hw & ->)]]; [by apply Q|].
  specialize (Q x E). destruct (fw_sent x) as [|h l]; [done|]. simpl in *.
  rewrite drop_0 in *. apply Forall_app. split; [done|]. apply Forall_singleton. by apply Hc.
Qed.

(** A replay of more than a frame's worth is refused. *)
Lemma quiet_attachOK tc A D u c o :
  cinv sid A D u c -> 0 <= o <= u -> u <= len A -> MaxPayload < len A - u -> quiet tc c ->
  quiet tc (onAttachOK o c).
Proof using Type*.
  intros I Ho Hu Hbig Q. pose proof (cinv_A _ _ _ _ _ I) as HA. unfold onAttachOK.
  assert (cinv sid A D u (cupd (fun s => set_cs_upBuf (TrimTo (cs_upBuf s) o) s) c)) as I1
    by (apply cinv_trim; [lia|done]).
  destruct (ci_up _ _ _ _ _ I1) as (a & R & _).
  destruct (From _ o) as [q|] eqn:E; [|done]. destruct (_ >? 0); [|done].
  pose proof E as E'. rewrite (rep_from R) in E'. simpl in E'. revert E'. zcases; [done|done|]. intros [= <-].
  eapply quiet_send; [apply I1| | |exact Q]; rewrite (ci_sid _ _ _ _ _ I1).
  - apply postable_data; [done|unfold is_u64; lia].
  - intros Hw. exfalso. inversion Hw; subst. match goal with L : len _ <= MaxPayload |- _ => revert L end.
    rewrite len_zdrop by lia. lia.
Qed.

Lemma quiet_dispatch tc A D u c f :
  cinv sid A D u c -> 0 <= u <= len A -> MaxPayload < len A - u -> quiet tc c ->
  good_down sid D u f -> fSessionID f = sid -> quiet tc (session_dispatch f c).
Proof using Type*.
  intros I Hu Hbig Q Hf Hs. unfold session_dispatch.
  destruct (Z.eqb_spec (fType f) TypeAttachOK) as [Et|_].
  { eapply quiet_attachOK; [exact I| |lia|lia|done]. by destruct Hf. }
  destruct (Z.eqb_spec (fType f) TypeData) as [Et|_].
  { unfold deliverDown. destruct (deliver_check _ _ _) as [q|]; [|done].
    unfold deliver_write. destruct (sock_write q _) as [k ok]. destruct ok; [|unfold closeAll; by case_match].
    eapply quiet_send; [apply I| | |exact Q]; cbn [cs cupd cs_sessionID set_cs_downDelivered set_cs_agent].
    - apply pb_wf, wf_ack; [by rewrite (ci_sid _ _ _ _ _ I)|apply u64_range].
    - intros _. split; [apply (ci_sid _ _ _ _ _ I)|by right]. }
  destruct (_ =? _); [done|]. destruct (_ =? _); [|done].
  unfold onClose, closeAll. by repeat case_match.
Qed.

(** ** The broker *)

(** A calm frame keeps the destination's connection and its offset. *)
Lemma calm_recv tc f y :
  calm f -> let y' := broker_recv os_error tc f y in
  y_c y' = y_c y /\ uw y' = uw y /\ s_upstream (ss (y_b y')) = s_upstream (ss (y_b y)).
Proof.
  assert (forall o, uw (with_b (onSidecarAttach o (bind tc (y_b y))) y) = uw y /\
    s_upstream (ss (onSidecarAttach o (bind tc (y_b y)))) = s_upstream (ss (y_b y))) as Ha.
  { intros o. simpl. by destruct (attach_ss o (bind tc (y_b y))) as [v ->]. }
  intros (_ & [E|E]); unfold broker_recv; rewrite E; simpl.
  - case_match; [by destruct (Ha (fOffset f))|]. case_match; [by destruct (Ha (fOffset f))|].
    destruct (tc_write _ _ _) as [b ok] eqn:W. simpl. by destruct (tc_write_ss _ _ _ _ _ W) as [-> _].
  - case_match; [done|]. split_and!; [done|..]; unfold onDownstreamAck; simpl; by case_match.
Qed.

Lemma mine_recv tc f A D y :
  yinv sid y A D -> good_up sid A (cs_downDelivered (cs (y_c y))) f -> calm f -> mine tc (y_b y) ->
  mine tc (y_b (broker_recv os_error tc f y)).
Proof using Type*.
  intros I Hg (Hs & Ht) M. pose proof (yi_b _ _ _ _ I) as B. pose proof (bi_sid _ _ _ _ _ B) as Eb.
  assert (is_u64 (fOffset f)) as Ho by (by destruct Hg as [| | | | | | |? [? []|]]).
  assert (swf (ss (bind tc (y_b y)))) as Ws by (split; simpl; [by rewrite Eb|by destruct (binv_uw _ _ _ _ _ B)]).
  assert (mine tc (onSidecarAttach (fOffset f) (bind tc (y_b y)))) as Ha.
  { eapply sends_onet_ok; [|by apply (tk_sends _ _ (talks_attach (fOffset f) (bind tc (y_b y)) Ho))|exact M].
    simpl. rewrite Eb. intros tc' g _ _ (Hp & Es & _). done. }
  destruct Ht as [E|E]; unfold broker_recv; rewrite E; simpl.
  - case_match; [exact Ha|]. case_match; [exact Ha|].
    unfold tc_write. destruct (net (y_b y) !! tc) as [c|] eqn:En; [|exact M].
    destruct (fw_write _ c) as [c' ok] eqn:W. simpl. eapply onet_ok_write; [exact M|exact En| |exact W].
    intros _. rewrite Hs. split; [|done]. by apply pb_wf, wf_close.
  - by case_match.
Qed.

(** ** A handshake *)

Record jam tc A D y : Prop := {
  ja_inv : yinv sid y A D;
  ja_big : MaxPayload < len A - uw y;
  ja_quiet : quiet tc (y_c y);
  ja_mine : mine tc (y_b y);
}.

(** Nothing has reached the destination between the two states. *)
Definition stalled y y' : Prop :=
  uw y' = uw y /\ s_upstream (ss (y_b y')) = s_upstream (ss (y_b y)).

#[export] Instance stalled_preorder : PreOrder stalled.
Proof. split; [done|]. intros y1 y2 y3 [] []. split; congruence. Qed.

Lemma jam_broker tc A D y fs :
  jam tc A D y -> Forall (fun f => f ∈ sent_up tc y /\ calm f) fs ->
  let y' := foldl (fun y f => broker_recv os_error tc f y) y fs in jam tc A D y' /\ stalled y y'.
Proof using Type*.
  revert y. induction fs as [|f fs IH]; intros y J HF; [done|]. apply Forall_cons in HF as [[Hin Hf] HF]. simpl.
  destruct (calm_recv tc f y Hf) as (Ec & Eu & Es). destruct J as [I Hb Q M].
  pose proof (sent_up_good _ _ _ _ _ _ I Hin) as Hg.
  destruct (IH (broker_recv os_error tc f y)) as [J' S'].
  - split; [|by rewrite Eu|by rewrite Ec|by eapply mine_recv]. apply yinv_broker_recv; try done. right. apply Hf.
  - unfold sent_up in *. by rewrite Ec.
  - split; [done|]. etrans; [|exact S']. done.
Qed.

Lemma jam_client tc A D y fs :
  jam tc A D y -> Forall (fun f => f ∈ sent_down tc y) fs ->
  let y' := foldl (fun y f => client_recv f y) y fs in jam tc A D y' /\ stalled y y'.
Proof using Type*.
  revert y. induction fs as [|f fs IH]; intros y J HF; [done|]. apply Forall_cons in HF as [Hin HF]. simpl.
  destruct J as [I Hb Q M]. pose proof (sent_down_good _ _ _ _ tc _ I Logic.I Hin) as Hg.
  assert (fSessionID f = sid) as Hs.
  { unfold sent_down in Hin. destruct (net (y_b y) !! tc) as [c|] eqn:E; [|by apply elem_of_nil in Hin].
    destruct (M tc c eq_refl E) as [_ HM]. rewrite Forall_forall in HM. by apply HM. }
  destruct (IH (client_recv f y)) as [J' S']; [|done|done].
  split; [by apply yinv_client_recv|done| |done]. simpl.
  destruct (binv_uw _ _ _ _ _ (yi_b _ _ _ _ I)) as [Hu _].
  eapply quiet_dispatch; [apply I|exact Hu|done..].
Qed.

Lemma jam_exchange tc A D y ku kd :
  jam tc A D y -> (1 <= ku)%nat ->
  let '(y', ku', kd') := exchange os_error tc (y, ku, kd) in jam tc A D y' /\ stalled y y' /\ (1 <= ku')%nat.
Proof using Type*.
  intros J Hk. unfold exchange. set (fs := drop ku (sent_up tc y)).
  destruct (jam_broker tc A D y fs) as [J1 S1]; [done| |].
  { pose proof (ja_quiet _ _ _ _ J) as Q. unfold fs, quiet, sent_up in *.
    destruct (cnet (y_c y) !! tc) as [x|]; [|by rewrite drop_nil]. specialize (Q x eq_refl).
    apply Forall_forall. intros f Hf. split; [by eapply subseteq_drop|]. rewrite Forall_forall in Q. apply Q.
    replace ku with (1 + (ku - 1))%nat in Hf by lia. rewrite <- drop_drop in Hf. by eapply subseteq_drop. }
  set (y1 := foldl _ y fs) in *. destruct (jam_client tc A D y1 (drop kd (sent_down tc y1))) as [J2 S2]; [done| |].
  { apply Forall_forall. intros f Hf. by eapply subseteq_drop. }
  split_and!; [done|by etrans|lia].
Qed.

Definition fresh (c : C) : Prop := fw_clean c /\ fw_sent c = [].

Lemma jam_connect actorID tc cu cd A D y :
  yinv sid y A D -> MaxPayload < len A - uw y -> str_len actorID <= maxString -> fresh cu -> fresh cd ->
  jam tc A D (connect_step actorID tc cu cd y).
Proof using Type*.
  intros I Hb Ha [Hu Su] [Hd Sd]. split; [by apply yinv_connect|done|..].
  - simpl. unfold session_connect. destruct (fw_write (HelloF actorID) cu) as [c ok] eqn:W.
    apply fw_write_spec in W as [Hc Hs]; [|done|by apply pb_wf, wf_hello]. rewrite Su in Hs.
    assert (forall o, quiet tc (MkCst (cs (y_c y)) o (<[tc:=c]> (cnet (y_c y))) (cremoved (y_c y)))) as Q.
    { intros o x. simpl. rewrite lookup_insert_Some. intros [[_ <-]|[? _]]; [|done].
      by destruct Hs as [->|(_ & _ & ->)]. }
    pose proof (yi_c _ _ _ _ I) as Cc. destruct ok; simpl; [|apply Q].
    apply (quiet_send (fun _ => True)); [|..|apply Q].
    + apply net_ok_insert; [|done|by apply Forall_forall]. eapply net_ok_impl; [|apply Cc]. done.
    + apply pb_wf, wf_attach; [by rewrite (ci_sid _ _ _ _ _ Cc)|by eapply cinv_dl|apply Cc].
    + intros _. split; [apply (ci_sid _ _ _ _ _ Cc)|by left].
  - intros t x Ht. simpl. rewrite lookup_insert_Some. intros [[_ <-]|[? _]]; [by rewrite Sd|by destruct Ht].
Qed.

Lemma jam_heal actorID tc cu cd A D y :
  yinv sid y A D -> MaxPayload < len A - uw y -> str_len actorID <= maxString -> fresh cu -> fresh cd ->
  let '(y', _, _) := heal os_error actorID tc cu cd y in
  yinv sid y' A D /\ MaxPayload < len A - uw y' /\ stalled y y'.
Proof using Type*.
  intros I Hb Ha Fu Fd. pose proof (jam_connect actorID tc cu cd A D y I Hb Ha Fu Fd) as J. unfold heal.
  pose proof (jam_exchange tc A D _ 1 0 J ltac:(lia)) as E1.
  destruct (exchange os_error tc (connect_step _ _ _ _ _, _, _)) as [[y1 ku] kd]. destruct E1 as (J1 & S1 & Hk).
  pose proof (jam_exchange tc A D y1 ku kd J1 Hk) as E2.
  destruct (exchange os_error tc (y1, ku, kd)) as [[y2 ku2] kd2]. destruct E2 as (J2 & S2 & _).
  split_and!; [apply J2|apply J2|]. etrans; [|exact S2]. etrans; [|exact S1]. done.
Qed.

(** Reconnecting again and again, each time over connections of its own. *)
Definition retry (actorID : string) y (l : nat * C * C) : sys C :=
  let '(tc, cu, cd) := l in fst (fst (heal os_error actorID tc cu cd y)).
End oversize.

(** ** Property *)

(** C36. A session with more than [MaxPayload] (256 KiB) to replay is never repaired.
    Take any reachable state in which the sidecar's buffer, of any capacity over
    [MaxPayload] such as the default 4 MiB, holds that much more than the
    destination has received.  However often the sidecar reconnects, over
    whatever connections, the complete handshake leaves the destination's
    connection and the broker's offset exactly as they were, and the sidecar
    still holds every one of those bytes. *)
Theorem oversize_replay_is_never_delivered {C : Type} `{FrameWriterLaws C}
    (sid cbuf bbuf : Z) (target actorID os_error : string) (cap : option nat) (cw : bool) (y : sys C)
    (tries : list (nat * C * C))
    (Hsid : is_u64 sid) (Ht : str_len target <= maxString) (Hos : str_len os_error <= maxString)
    (Ha : str_len actorID <= maxString) (Hcb : 0 <= cbuf) (Hbb : 0 <= bbuf)
    (R : rtc (ystep os_error) (initial sid target cbuf bbuf actorID cap cw) y)
    (HA : len (y_agent y) < 2 ^ 64) (HD : len (y_dest y) < 2 ^ 64)
    (Hbig : MaxPayload < End_ (cs_upBuf (cs (y_c y))) - s_upstreamWritten (ss (y_b y)))
    (Hfresh : Forall (fun '(_, cu, cd) => fresh cu /\ fresh cd) tries) :
  let y' := foldl (retry os_error actorID) y tries in
  s_upstream (ss (y_b y')) = s_upstream (ss (y_b y)) /\
  s_upstreamWritten (ss (y_b y')) = s_upstreamWritten (ss (y_b y)) /\
  End_ (cs_upBuf (cs (y_c y'))) = End_ (cs_upBuf (cs (y_c y))) /\
  MaxPayload < Len (cs_upBuf (cs (y_c y'))).
Proof.
  destruct (reachable_inv sid cbuf bbuf target actorID os_error cap cw Hsid Ht Hos Ha Hcb Hbb y R HA HD)
    as (A & D & I); [done..|].
  assert (forall y, yinv sid y A D -> exists a, rb_rep (cs_upBuf (cs (y_c y))) (MkStream A a) /\
    a <= s_upstreamWritten (ss (y_b y))) as Hrep by (intros y0 I0; apply (ci_up _ _ _ _ _ (yi_c _ _ _ _ I0))).
  assert (End_ (cs_upBuf (cs (y_c y))) = len A) as EA by (destruct (Hrep y I) as (a & Ra & _); apply (rep_End Ra)).
  rewrite EA in *. clear R HA HD EA. intros y'.
  assert (yinv sid y' A D /\ MaxPayload < len A - s_upstreamWritten (ss (y_b y')) /\ stalled y y') as (I' & Hb' & S').
  { unfold y'. clear y'. revert y I Hbig. induction Hfresh as [|[[tc cu] cd] tries [Fu Fd] _ IH]; intros y I Hb; [done|].
    cbn [foldl retry]. pose proof (jam_heal sid Hsid os_error Hos actorID tc cu cd A D y I Hb Ha Fu Fd) as J.
    destruct (heal _ _ _ _ _ _) as [[y1 ku] kd]. destruct J as (I1 & B1 & S1).
    destruct (IH y1 I1 B1) as (I2 & B2 & S2). split_and!; [done|done|by etrans..]. }
  destruct S' as [E1 E2]. destruct (Hrep y' I') as (a & Ra & Hle). split_and!; [done|done|apply (rep_End Ra)|].
  unfold Len. rewrite (rep_len Ra). simpl. lia.
Qed.

(** ** Witness *)

(** With the default buffers: the tunnel goes down, and the agent writes one
    byte more than fits in a frame. *)
Module Demo.
Definition os : string := "broken pipe".
Definition big : list byte := repeat x61 (Z.to_nat (MaxPayload + 1)).
Definition y0 : sys Conn := initial 1 "mcp:80" (2 ^ 22) (2 ^ 22) "ns/a" None true.
Definition y1 : sys Conn := connect_step "ns/a" 0 (NewConn new_sock) (NewConn new_sock) y0.
Definition y2 : sys Conn := broker_frame os 0 (AttachF 1 0 "mcp:80") y1.
Definition y3 : sys Conn := dial os (Ok new_sock) y2.
Definition y4 : sys Conn := with_c (session_disconnect 0 (y_c y3)) y3.
Definition y5 : sys Conn := agent_write big y4.

Lemma demo_fresh : fresh (NewConn new_sock).
Proof. destruct (fw_new_ok (C := Conn)) as (? & _ & ?). done. Qed.

Lemma demo_stuck_reached : rtc (ystep os) y0 y5.
Proof.
  destruct demo_fresh as [W1 W2].
  apply (rtc_l _ _ y1); [by apply YConnect|].
  apply (rtc_l _ _ y2); [apply YBrokerRecv with (from := 0%nat); [done|]|].
  { vm_compute. apply list_elem_of_further, list_elem_of_here. }
  apply (rtc_l _ _ y3); [by apply YDialOk|].
  apply (rtc_l _ _ y4); [apply YDisconnect|].
  apply (rtc_l _ _ y5); [apply YAgentWrite; by vm_compute|].
  apply rtc_refl.
Qed.
End Demo.

Lemma oversize_replay_is_never_delivered_witness :
  let y' := foldl (retry Demo.os "ns/a") Demo.y5
              [(1%nat, NewConn new_sock, NewConn new_sock); (2%nat, NewConn new_sock, NewConn new_sock)] in
  s_upstreamWritten (ss (y_b y')) = s_upstreamWritten (ss (y_b Demo.y5)).
Proof.
  pose proof (oversize_replay_is_never_delivered 1 (2 ^ 22) (2 ^ 22) "mcp:80" "ns/a" Demo.os None true Demo.y5
    [(1%nat, NewConn new_sock, NewConn new_sock); (2%nat, NewConn new_sock, NewConn new_sock)]
    ltac:(by_compute) ltac:(by_compute) ltac:(by_compute) ltac:(by_compute) ltac:(by_compute) ltac:(by_compute)
    Demo.demo_stuck_reached ltac:(by_compute) ltac:(by_compute) ltac:(by_compute)
    ltac:(repeat constructor; apply Demo.demo_fresh)) as P.
  exact (proj1 (proj2 P)).
Defined.
