(* ===== verification/Deployment.v ===== *)
(** * Deployment: one broker, any number of actors and sessions

    The whole tunnel as it is deployed: the broker of [Broker] with its table
    and heap of sessions, and for every actor a sidecar, the client of
    [Sidecar], with all its sessions; connections belong to the actor whose
    sidecar dialed them.  Actors use the same session ids, sessions share
    connections, and the broker keeps them all in one table.

    [System] proves the byte streams of one session exact.  Here every session
    of a deployment is shown to run that system: [good] relates the state of a
    deployment to a state of [System.sys] that satisfies its invariant, and
    every step of the deployment preserves it, for the session that acts (its
    methods are the ones [System] composes), for the other sessions of the same
    sidecar ([Traffic]: they put only frames of their own on the shared
    connections) and for the sessions of other actors (their connections are
    not this actor's). *)
From S2P Require Import Prelude ReplayBuffer Socket Wire Link BrokerSession Sidecar.
From S2P Require Import BrokerStream SidecarStream System Resumer Broker Refinement Traffic.

(** ** State *)

(** What the agent has handed to a session, and what a blocked [writeUp] of it
    has still to send. *)
Record up_log : Type := MkUp { ul_sent : list byte; ul_wait : list byte }.

(** A broker session's dial and reader goroutines, and what its destination has
    sent so far. *)
Record down_log : Type := MkDown { dl_dialed : bool; dl_reader : read_next; dl_sent : list byte }.

Record world (C : Type) : Type := MkWorld {
  w_cl : gmap string (Client C);           (* the sidecars, by actor *)
  w_bk : Broker C;
  w_owner : gmap nat string;               (* who dialed a connection *)
  w_up : gmap (string * Z) up_log;
  w_down : gmap nat down_log;              (* by heap cell of the broker *)
}.
Arguments MkWorld {C} _ _ _ _ _.
Arguments w_cl {C} _.
Arguments w_bk {C} _.
Arguments w_owner {C} _.
Arguments w_up {C} _.
Arguments w_down {C} _.

Section deployment.
Context {C : Type} `{FrameWriter C} (os_error : string).
Implicit Types (w : world C).

Definition up (k : string * Z) w : up_log := default (MkUp [] []) (w_up w !! k).
Definition down (l : nat) w : down_log := default (MkDown false RStopped []) (w_down w !! l).

Definition set_client (a : string) (cl : Client C) w : world C :=
  MkWorld (<[a := cl]> (w_cl w)) (w_bk w) (w_owner w) (w_up w) (w_down w).
Definition set_broker (b : Broker C) w : world C :=
  MkWorld (w_cl w) b (w_owner w) (w_up w) (w_down w).
Definition set_up (k : string * Z) (u : up_log) w : world C :=
  MkWorld (w_cl w) (w_bk w) (w_owner w) (<[k := u]> (w_up w)) (w_down w).
Definition set_down (l : nat) (d : down_log) w : world C :=
  MkWorld (w_cl w) (w_bk w) (w_owner w) (w_up w) (<[l := d]> (w_down w)).
Definition set_owner (tc : nat) (a : string) w : world C :=
  MkWorld (w_cl w) (w_bk w) (<[tc := a]> (w_owner w)) (w_up w) (w_down w).

Definition boot (cfg : Config) : world C := MkWorld ∅ (New cfg) ∅ ∅ ∅.

(** ** Steps *)

(** The pump of session [id] hands [p] to [WriteUp] ([fresh]: newly read from
    the agent, otherwise what was left of an earlier call). *)
Definition pump (a : string) (cl : Client C) (id : Z) (p : list byte) (fresh : bool) w : world C :=
  match run_session id (writeUp p) cl with
  | (cl', Some r) =>
      set_up (a, id)
        (MkUp (ul_sent (up (a, id) w) ++ if fresh then p else []) (match r with WBlocked k => k | _ => [] end))
        (set_client a cl' w)
  | (_, None) => w
  end.

(** The sidecar of [a] dials the broker; [cu] and [cd] are the two directions. *)
Definition dial_tunnel (a : string) (cl : Client C) (tc : nat) (cu cd : C) (now : Z) w : world C :=
  set_owner tc a
    (set_broker (set_bnet (<[tc := cd]> (bk_net (w_bk w))) (w_bk w))
      (set_client a (fst (connect a tc cu now cl)) w)).

(** A turn of the reader goroutine of the session at [l]. *)
Definition read_turn (l : nat) (s : session) (p : list byte) (err : option (option string)) (fresh : bool) w : world C :=
  let r := snd (readUpstream p err (MkSst s (bk_net (w_bk w)) [])) in
  set_down l (MkDown (dl_dialed (down l w)) r (dl_sent (down l w) ++ if fresh then p else []))
    (set_broker (run l (fun st => fst (readUpstream p err st)) (w_bk w)) w).

(** Its dial completes. *)
Definition dial_turn (l : nat) (s : session) (r : res string sock) w : world C :=
  let go := snd (dialUpstream os_error r (MkSst s (bk_net (w_bk w)) [])) in
  set_down l (MkDown true (if go then RNext else RStopped) (dl_sent (down l w)))
    (set_broker (run l (fun st => fst (dialUpstream os_error r st)) (w_bk w)) w).

(** Frames actor [a]'s sidecar has written to [tc], and the broker has. *)
Definition sent_by_client (a : string) (tc : nat) w : list Frame :=
  match w_cl w !! a with
  | Some cl => match cl_net cl !! tc with Some c => fw_sent c | None => [] end
  | None => []
  end.
Definition sent_by_broker (tc : nat) w : list Frame :=
  match bk_net (w_bk w) !! tc with Some c => fw_sent c | None => [] end.

Inductive wstep w : world C -> Prop :=
| WBoot a cfg :
    w_cl w !! a = None -> 0 <= cc_SessionBuffer (client_defaults cfg) ->
    wstep w (set_client a (NewClient cfg) w)
| WOpen a cl cap cw target :
    w_cl w !! a = Some cl -> str_len target <= maxString -> cl_nextID cl + 1 < 2 ^ 64 ->
    wstep w (let '(cl', id) := OpenSession (MkSock [] cap false false) cw target cl in
             set_up (a, id) (MkUp [] []) (set_client a cl' w))
| WWrite a cl id p :
    w_cl w !! a = Some cl -> ul_wait (up (a, id) w) = [] -> wstep w (pump a cl id p true w)
| WRetry a cl id :
    w_cl w !! a = Some cl -> wstep w (pump a cl id (ul_wait (up (a, id) w)) false w)
| WCloseUp a cl id reason :
    w_cl w !! a = Some cl -> str_len reason <= maxString ->
    wstep w (set_client a (fst (run_session id (fun st => (closeUp reason st, tt)) cl)) w)
| WCloseGone a cl id reason :   (* the pump of a session that has left the table *)
    w_cl w !! a = Some cl -> cl_sessions cl !! id = None -> 1 <= id <= cl_nextID cl ->
    str_len reason <= maxString -> wstep w (set_client a (send (CloseF id DirUp reason) cl) w)
| WClientFrame a cl from tc now f :
    w_cl w !! a = Some cl -> w_owner w !! from = Some a -> w_owner w !! tc = Some a ->
    f ∈ sent_by_broker from w -> wstep w (set_client a (handle_frame tc now f cl) w)
| WPing a cl tc now nonce :
    w_cl w !! a = Some cl -> w_owner w !! tc = Some a ->
    wstep w (set_client a (fst (ping_tick tc now nonce cl)) w)
| WConnect a cl tc cu cd now :
    w_cl w !! a = Some cl -> w_owner w !! tc = None -> str_len a <= maxString ->
    fw_clean cu -> fw_sent cu = [] -> fw_clean cd -> fw_sent cd = [] ->
    wstep w (dial_tunnel a cl tc cu cd now w)
| WDisconnect a cl tc :
    w_cl w !! a = Some cl -> wstep w (set_client a (disconnect tc cl) w)
| WHello a tc f :
    w_owner w !! tc = Some a -> bk_tunnels (w_bk w) !! tc = None -> f ∈ sent_by_client a tc w ->
    wstep w (set_broker (fst (hello tc f (w_bk w))) w)
| WFrame a from tc t f :
    w_owner w !! from = Some a -> w_owner w !! tc = Some a -> bk_tunnels (w_bk w) !! tc = Some t ->
    f ∈ sent_by_client a from w -> wstep w (set_broker (handleFrame os_error (t_actor t) tc f (w_bk w)) w)
| WClosed tc : wstep w (set_broker (detachAll tc (w_bk w)) w)
| WDialOk l s cap :
    bk_heap (w_bk w) !! l = Some s -> dl_dialed (down l w) = false ->
    wstep w (dial_turn l s (Ok (MkSock [] cap false false)) w)
| WDialFail l s e :
    bk_heap (w_bk w) !! l = Some s -> dl_dialed (down l w) = false ->
    str_len ("dial failed: " +:+ e) <= maxString -> wstep w (dial_turn l s (Err e) w)
| WRead l s p err :
    bk_heap (w_bk w) !! l = Some s -> dl_reader (down l w) = RNext ->
    (forall e, err = Some (Some e) -> str_len e <= maxString) -> wstep w (read_turn l s p err true w)
| WReadRetry l s rest err :
    bk_heap (w_bk w) !! l = Some s -> dl_reader (down l w) = RWait rest err ->
    (forall e, err = Some (Some e) -> str_len e <= maxString) -> wstep w (read_turn l s rest err false w)
| WWatchdog l : wstep w (set_broker (run l watchdog_fire (w_bk w)) w)
| WResumed a : wstep w (set_broker (set_resumer (resume_done a (bk_resumer (w_bk w))) (w_bk w)) w).
End deployment.

(** ** What a frame does to the broker's heap and connections *)

Section effects.
Context {C : Type} `{FrameWriter C} (os_error : string).
Implicit Types (b : Broker C).

(** The session method a frame invokes on a session that exists, and on one
    that the frame creates. *)
Definition frame_op (tc : nat) (f : Frame) : option (sst C -> sst C) :=
  if fType f =? TypePing then None
  else if fType f =? TypeOpen then Some (fun st => onSidecarAttach 0 (bind tc st))
  else if fType f =? TypeAttach then Some (fun st => onSidecarAttach (fOffset f) (bind tc st))
  else if fType f =? TypeData then Some (onData os_error (fOffset f) (fPayload f))
  else if fType f =? TypeAck then Some (onDownstreamAck (fOffset f))
  else if fType f =? TypeClose then Some (onSidecarClose (fDir f) (fReason f))
  else None.

Definition new_op (tc : nat) (f : Frame) : sst C -> sst C :=
  if fType f =? TypeOpen then bind tc else fun st => onSidecarAttach (fOffset f) (bind tc st).

Definition creates (f : Frame) : Prop :=
  fType f = TypeOpen \/ fType f = TypeAttach /\ (fOffset f =? 0) && bool_decide (fTarget f <> "") = true.

(** What the broker may answer on the connection itself. *)
Inductive reply (f : Frame) : Frame -> Prop :=
| rp_pong : fType f = TypePing -> reply f (PongF (fNonce f))
| rp_refused : fType f <> TypePing -> reply f (CloseF (fSessionID f) DirDown "target not allowed")
| rp_lost : fType f <> TypePing -> reply f (CloseF (fSessionID f) DirDown "session lost").

Definition fresh_session (a : string) (f : Frame) b : session :=
  newSession (bc_SessionBufferBytes (bk_cfg b)) a (fSessionID f) (fTarget f).

Inductive frame_effect (a : string) (tc : nat) (f : Frame) b : gmap nat session -> gmap nat C -> Prop :=
| fe_none : frame_effect a tc f b (bk_heap b) (bk_net b)
| fe_reply g : reply f g -> frame_effect a tc f b (bk_heap b) (bk_net (write_ignore tc g b))
| fe_op l s op :
    bk_sessions b !! (a, fSessionID f) = Some l -> bk_heap b !! l = Some s -> frame_op tc f = Some op ->
    let st := op (MkSst s (bk_net b) []) in
    frame_effect a tc f b (<[l := ss st]> (bk_heap b)) (net st)
| fe_new :
    bk_sessions b !! (a, fSessionID f) = None -> creates f ->
    let st := new_op tc f (MkSst (fresh_session a f b) (bk_net b) []) in
    frame_effect a tc f b (<[bk_next b := ss st]> (bk_heap b)) (net st).

Lemma run_heap l op b s :
  bk_heap b !! l = Some s -> bk_heap (run l op b) = <[l := ss (op (MkSst s (bk_net b) []))]> (bk_heap b).
Proof.
  intros E. unfold run. rewrite E. set (st := op _).
  by destruct (callbacks_frame (evs st)
    (MkBroker (bk_cfg b) (bk_sessions b) (<[l := ss st]> (bk_heap b)) (bk_next b) (bk_tunnels b)
           (net st) (bk_resumer b))) as (_ & -> & _).
Qed.

Lemma attach_found_effect tc l o b s t :
  bk_heap b !! l = Some s -> bk_tunnels b !! tc = Some t ->
  let st := onSidecarAttach o (bind tc (MkSst s (bk_net b) [])) in
  bk_heap (attach_found tc l o b) = <[l := ss st]> (bk_heap b) /\ bk_net (attach_found tc l o b) = net st.
Proof.
  intros Hs Ht. unfold attach_found. rewrite (bind_session_eq tc l b s t Hs Ht).
  set (b1 := MkBroker _ _ _ _ _ _ _). assert (bk_heap b1 !! l = Some (set_tconn (Some tc) s)) as Hs1 by apply lookup_insert_eq.
  split; [|by rewrite (run_net l _ b1 _ Hs1)]. rewrite (run_heap l _ b1 _ Hs1). unfold b1. simpl.
  by rewrite insert_insert_eq.
Qed.

Lemma open_effect a tc f b t :
  table_ok b -> bk_tunnels b !! tc = Some t -> fType f = TypeOpen ->
  let b' := openSession a tc f b in frame_effect a tc f b (bk_heap b') (bk_net b').
Proof.
  intros T Ht Hf. cbv zeta. unfold openSession, lookup_session.
  destruct (match bc_AllowTarget _ with Some _ => _ | None => _ end).
  { replace (bk_heap (write_ignore _ _ b)) with (bk_heap b) by (unfold write_ignore; by case_match).
    apply fe_reply. apply rp_refused. by rewrite Hf. }
  destruct (bk_sessions b !! (a, fSessionID f)) as [l|] eqn:El.
  - destruct (to_live _ _ T _ _ El) as (s & Hs & _).
    destruct (attach_found_effect tc l 0 b s t Hs Ht) as [-> ->].
    apply (fe_op a tc f b l s (fun st => onSidecarAttach 0 (bind tc st))); [done|done|]. unfold frame_op. by rewrite Hf.
  - simpl. rewrite (bind_session_eq tc (bk_next b) _ (fresh_session a f b) t); [|apply lookup_insert_eq|done]. simpl.
    rewrite insert_insert_eq. replace (set_tconn (Some tc) (fresh_session a f b)) with
      (ss (new_op tc f (MkSst (fresh_session a f b) (bk_net b) []))) by (unfold new_op; by rewrite Hf).
    replace (bk_net b) with (net (new_op tc f (MkSst (fresh_session a f b) (bk_net b) []))) at 2
      by (unfold new_op; by rewrite Hf).
    apply fe_new; [done|by left].
Qed.

Lemma attach_effect a tc f b t :
  table_ok b -> bk_tunnels b !! tc = Some t -> fType f = TypeAttach ->
  let b' := attachSession a tc f b in frame_effect a tc f b (bk_heap b') (bk_net b').
Proof.
  intros T Ht Hf. cbv zeta. unfold attachSession, lookup_session.
  destruct (bk_sessions b !! (a, fSessionID f)) as [l|] eqn:El.
  { destruct (to_live _ _ T _ _ El) as (s & Hs & _).
    destruct (attach_found_effect tc l (fOffset f) b s t Hs Ht) as [-> ->].
    apply (fe_op a tc f b l s (fun st => onSidecarAttach (fOffset f) (bind tc st))); [done|done|]. unfold frame_op. by rewrite Hf. }
  assert (forall g, bk_heap (write_ignore tc g b) = bk_heap b) as Hw by (intros g; unfold write_ignore; by case_match).
  assert (forall g, bk_sessions (write_ignore tc g b) = bk_sessions b) as Hw' by (intros g; unfold write_ignore; by case_match).
  destruct ((fOffset f =? 0) && bool_decide (fTarget f <> "")) eqn:Ec.
  2: { rewrite Hw. apply fe_reply, rp_lost. by rewrite Hf. }
  unfold openSession, lookup_session. cbn [fSessionID fTarget OpenF].
  destruct (match bc_AllowTarget _ with Some _ => _ | None => _ end).
  { rewrite Hw', El, Hw. apply fe_reply, rp_refused. by rewrite Hf. }
  rewrite El. cbn [create]. set (b1 := MkBroker _ _ _ _ _ _ _).
  rewrite (bind_session_eq tc (bk_next b) b1 (fresh_session a f b) t); [|apply lookup_insert_eq|done].
  set (b2 := MkBroker _ _ _ _ _ _ _).
  assert (bk_sessions b2 !! (a, fSessionID f) = Some (bk_next b)) as E2 by apply lookup_insert_eq.
  assert (bk_heap b2 !! bk_next b = Some (set_tconn (Some tc) (fresh_session a f b))) as H2 by apply lookup_insert_eq.
  rewrite E2, (run_heap _ _ b2 _ H2), (run_net _ _ b2 _ H2).
  change (bk_heap b2) with (<[bk_next b := set_tconn (Some tc) (fresh_session a f b)]> (<[bk_next b := fresh_session a f b]> (bk_heap b))).
  rewrite !insert_insert_eq. change (bk_net b2) with (bk_net b).
  replace (onSidecarAttach (fOffset f) (MkSst (set_tconn (Some tc) (fresh_session a f b)) (bk_net b) []))
    with (new_op tc f (MkSst (fresh_session a f b) (bk_net b) [])) by (unfold new_op; by rewrite Hf).
  apply fe_new; [done|by right].
Qed.

Lemma handleFrame_effect a tc f b t :
  table_ok b -> bk_tunnels b !! tc = Some t ->
  let b' := handleFrame os_error a tc f b in frame_effect a tc f b (bk_heap b') (bk_net b').
Proof.
  intros T Ht. cbv zeta.
  assert (forall op, frame_op tc f = Some op ->
    frame_effect a tc f b (bk_heap (on_session a (fSessionID f) op b)) (bk_net (on_session a (fSessionID f) op b))) as Hop.
  { intros op Ho. unfold on_session, lookup_session. destruct (bk_sessions b !! _) as [l|] eqn:El; [|apply fe_none].
    destruct (to_live _ _ T _ _ El) as (s & Hs & _). rewrite (run_heap _ _ _ _ Hs), (run_net _ _ _ _ Hs). by apply fe_op. }
  unfold handleFrame. destruct (Z.eqb_spec (fType f) TypePing) as [E|En].
  { replace (bk_heap (write_ignore _ _ b)) with (bk_heap b) by (unfold write_ignore; by case_match).
    by apply fe_reply, rp_pong. }
  destruct (Z.eqb_spec (fType f) TypeOpen); [by eapply open_effect|].
  destruct (Z.eqb_spec (fType f) TypeAttach); [by eapply attach_effect|].
  unfold frame_op in Hop. rewrite !(proj2 (Z.eqb_neq _ _)) in Hop by done.
  repeat (destruct (fType f =? _); [by apply Hop|]). apply fe_none.
Qed.
End effects.
