(* ===== verification/DeploymentInv.v ===== *)
(** * DeploymentInv: every session of a deployment is a run of [System]

    The invariant of [Deployment.world] and its preservation by every step.
    [wok] holds of the tables and connections whatever the sessions carry;
    [good] says that one session is related to a state of [System.sys] that
    satisfies [yinv]. *)
From S2P Require Import Prelude ReplayBuffer Socket Wire Link BrokerSession Sidecar.
From S2P Require Import BrokerStream SidecarStream System Resumer Broker Refinement Traffic Deployment.

(** Safety asks nothing of the buffer sizes. *)

(** ** The invariant *)

Section invariant.
Context {C : Type} `{FrameWriterLaws C} (os_error : string) (Hos : str_len os_error <= maxString).
Context (bcfg : Config) (Hbuf : 0 <= bc_SessionBufferBytes (withDefaults bcfg)).
Implicit Types (w : world C) (y : sys C).

(** The connections of actor [a]. *)
Definition own (a : string) w : Ownership := fun tc => w_owner w !! tc = Some a.

(** Frames on the sidecar's, and on the broker's, side of connections whose
    sidecar has opened [n] sessions. *)
Definition up_frame (a : string) (n : Z) (f : Frame) : Prop :=
  wf_frame f /\ fSessionID f <= n /\ (fType f = TypeHello -> fActorID f = a) /\
  (fType f = TypeOpen \/ fType f = TypeAttach -> 1 <= fSessionID f).
Definition down_frame (n : Z) (f : Frame) : Prop :=
  wf_frame f /\ fSessionID f <= n /\ (fType f = TypeData -> 1 <= fSessionID f).

Record client_ok (a : string) (cl : Client C) : Prop := {
  ko_next : 0 <= cl_nextID cl < 2 ^ 64;
  ko_cfg : 0 <= cc_SessionBuffer (cl_cfg cl);
  ko_sess : forall id s, cl_sessions cl !! id = Some s -> cwf s /\ cs_sessionID s = id /\ 1 <= id <= cl_nextID cl;
  ko_net : net_ok (up_frame a (cl_nextID cl)) (cl_net cl);
}.

Record cell_ok w (s : session) : Prop := {
  eo_swf : swf s;
  eo_bound : forall tc, s_tconn s = Some tc -> w_owner w !! tc = Some (s_actorID s);
  eo_opened : exists cl, w_cl w !! s_actorID s = Some cl /\ 1 <= s_sessionID s <= cl_nextID cl;
}.

(** What holds of the tables and the connections, whatever the sessions carry. *)
Record wok w : Prop := {
  wo_bk : rtc (bstep os_error) (New bcfg) (w_bk w);
  wo_net : forall tc, is_Some (bk_net (w_bk w) !! tc) -> is_Some (w_owner w !! tc);
  wo_cell : forall l s, bk_heap (w_bk w) !! l = Some s -> cell_ok w s;
  wo_tun : forall tc t, bk_tunnels (w_bk w) !! tc = Some t -> w_owner w !! tc = Some (t_actor t);
  wo_cl : forall a cl, w_cl w !! a = Some cl -> client_ok a cl;
  wo_down : forall a cl, w_cl w !! a = Some cl ->
    onet_ok (Own := own a w) (down_frame (cl_nextID cl)) (bk_net (w_bk w));
  wo_log : forall l, is_Some (w_down w !! l) -> is_Some (bk_heap (w_bk w) !! l);
  wo_owner : forall tc a, w_owner w !! tc = Some a -> is_Some (w_cl w !! a);
}.

(** The model of a session, seen from its sidecar and from the broker. *)
Definition csim (sid : Z) (cl : Client C) (u : up_log) y : Prop :=
  cl_conn cl = cconn (y_c y) /\ cl_net cl = cnet (y_c y) /\ u = MkUp (y_agent y) (y_upwait y) /\
  (cl_sessions cl !! sid = Some (cs (y_c y)) \/ cl_sessions cl !! sid = None /\ cs_dead (cs (y_c y)) = true).

Definition no_cell (k : sessionKey) (b : Broker C) : Prop :=
  forall l s, bk_heap b !! l = Some s -> skey s <> k.

Definition bsim (a : string) (sid : Z) (b : Broker C) (dn : nat -> down_log) y : Prop :=
  bk_net b = net (y_b y) /\
  ((exists l, bk_heap b !! l = Some (ss (y_b y)) /\ skey (ss (y_b y)) = (a, sid) /\ y_created y = true /\
              dn l = MkDown (y_dialed y) (y_reader y) (y_dest y)) \/
   (no_cell (a, sid) b /\ y_created y = false /\ y_dialed y = false /\ y_reader y = RStopped /\ y_dest y = [] /\
    exists t, ss (y_b y) = newSession (bc_SessionBufferBytes (withDefaults bcfg)) a sid t)).

Definition good (a : string) (sid : Z) w : Prop :=
  exists cl y A D, w_cl w !! a = Some cl /\ csim sid cl (up (a, sid) w) y /\
    bsim a sid (w_bk w) (fun l => down l w) y /\ yinv (Own := own a w) sid y A D.

(** The broker has created the session at most once. *)
Definition once (k : sessionKey) w : Prop :=
  forall l l' s s', bk_heap (w_bk w) !! l = Some s -> bk_heap (w_bk w) !! l' = Some s' ->
    skey s = k -> skey s' = k -> l = l'.

(** The sessions the theorem speaks of: created at most once, and short of 2^64
    bytes in either direction. *)
Record fine (k : sessionKey) w : Prop := {
  fi_once : once k w;
  fi_up : len (ul_sent (up k w)) < 2 ^ 64;
  fi_down : forall l s, bk_heap (w_bk w) !! l = Some s -> skey s = k -> len (dl_sent (down l w)) < 2 ^ 64;
}.

Record winv w : Prop := {
  wi_ok : wok w;
  wi_good : forall a cl sid, w_cl w !! a = Some cl -> 1 <= sid <= cl_nextID cl -> fine (a, sid) w -> good a sid w;
}.

Lemma wo_table w : wok w -> table_ok (w_bk w).
Proof. intros W. eapply table_reachable, W. Qed.

(** ** Replacing the connections under a session's model *)

Lemma yinv_cnet {Own : Ownership} sid y A D o n :
  yinv sid y A D -> net_ok (good_up sid A (cs_downDelivered (cs (y_c y)))) n ->
  yinv sid (with_c (MkCst (cs (y_c y)) o n []) y) A D.
Proof.
  intros I N. apply yinv_client; [done| |done|done]. destruct (yi_c _ _ _ _ I). by split.
Qed.

Lemma yinv_bnet (O1 O2 : Ownership) sid y A D v n :
  yinv (Own := O1) sid y A D ->
  onet_ok (Own := O2) (good_down sid D (s_upstreamWritten (ss (y_b y)))) n ->
  yinv (Own := O2) sid (with_b (MkSst (set_tconn v (ss (y_b y))) n []) y) A D.
Proof. intros [Hc Hb ? ? ? ? ?] N. split; try done. destruct Hb. by split. Qed.

Lemma yinv_target {Own : Ownership} sid y A D buf a t t' :
  yinv sid y A D -> ss (y_b y) = newSession buf a sid t ->
  yinv sid (with_b (MkSst (newSession buf a sid t') (net (y_b y)) []) y) A D.
Proof.
  intros [Hc Hb ? ? ? ? ?] E. destruct Hb. rewrite E in *. split; simpl; try done; rewrite E in *; try done.
Qed.

(** ** Steps of a sidecar *)

Lemma up_frame_mono a n n' f : n <= n' -> up_frame a n f -> up_frame a n' f.
Proof. intros Hn (? & ? & ? & ?). split_and!; [done|lia|done|done]. Qed.

Lemma of_session_up a id n f : 1 <= id <= n -> of_session id f -> postable f /\ (wf_frame f -> up_frame a n f).
Proof. intros Hi (Hw & Es & Ht). split; [done|]. intros ?. split_and!; [done|lia|done|lia]. Qed.

Lemma of_session_other sid id A dl f : sid <> id -> of_session id f -> postable f /\ (wf_frame f -> good_up sid A dl f).
Proof. intros Hi (Hw & Es & _). split; [done|]. intros _. apply gu_other; [done|congruence]. Qed.

Lemma wok_client w a cl cl' :
  wok w -> w_cl w !! a = Some cl -> client_ok a cl' -> cl_nextID cl <= cl_nextID cl' -> wok (set_client a cl' w).
Proof.
  intros [B N Ce T K Dn Lg Ow] Ea Ko Hn.
  assert (forall a1 cl1, w_cl (set_client a cl' w) !! a1 = Some cl1 ->
    (a1 = a /\ cl1 = cl') \/ (a1 <> a /\ w_cl w !! a1 = Some cl1)) as Hcl.
  { intros a1 cl1. simpl. rewrite lookup_insert_Some. intros [[-> ->]|[? ?]]; auto. }
  split; simpl; auto.
  - intros l s Hs. destruct (Ce l s Hs) as [W Bd (cl1 & E1 & Hi)]. split; [done|done|]. simpl.
    destruct (decide (s_actorID s = a)) as [Es|]; [|rewrite lookup_insert_ne by done; eauto].
    rewrite Es in *. rewrite lookup_insert_eq. eexists. split; [done|]. simplify_eq. lia.
  - intros a1 cl1 E1. destruct (Hcl _ _ E1) as [[-> ->]|[_ ?]]; auto.
  - intros a1 cl1 E1. destruct (Hcl _ _ E1) as [[-> ->]|[_ E]]; [|by apply (Dn a1)].
    intros tc c Ho Hc. destruct (Dn a cl Ea tc c Ho Hc) as [? HF]. split; [done|].
    eapply Forall_impl; [exact HF|]. intros f (? & ? & ?). split_and!; [done|lia|done].
  - intros tc a1 E1. destruct (decide (a1 = a)) as [->|]; [rewrite lookup_insert_eq; eauto|].
    rewrite lookup_insert_ne by done. eauto.
Qed.

Lemma wok_log w k u : wok w -> wok (set_up k u w).
Proof. intros [B N Ce T K Dn Lg Ow]. split; auto. intros l s Hs. by destruct (Ce l s Hs). Qed.

Lemma up_set w k u k' : up k' (set_up k u w) = if decide (k' = k) then u else up k' w.
Proof.
  unfold up, set_up. simpl. case_decide as E; [subst; by rewrite lookup_insert_eq|]. by rewrite lookup_insert_ne.
Qed.

(** A step of one sidecar, on behalf of its session [id]: the other sessions of
    that sidecar see new frames that are not theirs, other actors nothing. *)
Lemma winv_client w a cl cl' id u :
  winv w -> w_cl w !! a = Some cl -> client_ok a cl' -> cl_nextID cl <= cl_nextID cl' ->
  (forall sid, 1 <= sid <= cl_nextID cl' -> sid <> id ->
     sid <= cl_nextID cl /\ cl_sessions cl' !! sid = cl_sessions cl !! sid) ->
  (forall sid A dl, 1 <= sid -> sid <> id -> net_ok (good_up sid A dl) (cl_net cl) -> net_ok (good_up sid A dl) (cl_net cl')) ->
  let w' := set_up (a, id) u (set_client a cl' w) in
  (1 <= id <= cl_nextID cl' -> fine (a, id) w' -> good a id w') -> winv w'.
Proof.
  intros [W G] Ea Ko Hn Hses Hnet w' Own. split; [apply wok_log; by eapply wok_client|].
  intros a1 cl1 sid E1 Hsid F. simpl in E1. rewrite lookup_insert_Some in E1.
  destruct (decide ((a1, sid) = (a, id))) as [[= -> ->]|Hne].
  { apply Own; [|done]. destruct E1 as [[_ <-]|[? _]]; done. }
  assert (fine (a1, sid) w) as F0.
  { destruct F as [F1 F2 F3]. split; [exact F1| |exact F3]. unfold w' in F2. rewrite up_set in F2.
    by rewrite decide_False in F2. }
  assert (up (a1, sid) w' = up (a1, sid) w) as Eup by (unfold w'; rewrite up_set; by rewrite decide_False).
  destruct E1 as [[<- <-]|[Hna E1]].
  - destruct (Hses sid Hsid) as [Hle Es]; [congruence|].
    destruct (G a cl sid Ea) as (cl0 & y & A & D & E0 & (S1 & S2 & S3 & S4) & Bs & I); [lia|done|].
    assert (cl0 = cl) as -> by congruence.
    exists cl', (with_c (MkCst (cs (y_c y)) (cl_conn cl') (cl_net cl') []) y), A, D.
    split_and!; [apply lookup_insert_eq| |done|].
    + rewrite Eup. split_and!; [done|done|done|]. simpl. by rewrite Es.
    + apply yinv_cnet; [done|]. apply Hnet; [lia|congruence|]. rewrite S2. apply (ci_net _ _ _ _ _ (yi_c _ _ _ _ I)).
  - destruct (G a1 cl1 sid E1 Hsid F0) as (cl0 & y & A & D & E0 & Cs & Bs & I).
    exists cl0, y, A, D. split_and!; [|by rewrite Eup|done|done]. simpl. by rewrite lookup_insert_ne.
Qed.

(** The same when no session is concerned. *)
Lemma winv_client_quiet w a cl cl' :
  winv w -> w_cl w !! a = Some cl -> client_ok a cl' -> cl_nextID cl' = cl_nextID cl ->
  cl_sessions cl' = cl_sessions cl ->
  (forall sid A dl, 1 <= sid -> net_ok (good_up sid A dl) (cl_net cl) -> net_ok (good_up sid A dl) (cl_net cl')) ->
  winv (set_client a cl' w).
Proof.
  intros [W G] Ea Ko Hn Hses Hnet. split; [eapply wok_client; eauto; lia|].
  intros a1 cl1 sid E1 Hsid F. simpl in E1. rewrite lookup_insert_Some in E1.
  assert (fine (a1, sid) w) as F0 by (by destruct F).
  destruct E1 as [[<- <-]|[Hna E1]].
  - destruct (G a cl sid Ea) as (cl0 & y & A & D & E0 & (S1 & S2 & S3 & S4) & Bs & I); [lia|done|].
    assert (cl0 = cl) as -> by congruence.
    exists cl', (with_c (MkCst (cs (y_c y)) (cl_conn cl') (cl_net cl') []) y), A, D.
    split_and!; [apply lookup_insert_eq| |done|].
    + split_and!; [done|done|done|]. simpl. by rewrite Hses.
    + apply yinv_cnet; [done|]. apply Hnet; [lia|]. rewrite S2. apply (ci_net _ _ _ _ _ (yi_c _ _ _ _ I)).
  - destruct (G a1 cl1 sid E1 Hsid F0) as (cl0 & y & A & D & E0 & Cs & Bs & I).
    exists cl0, y, A, D. split_and!; [|done|done|done]. simpl. by rewrite lookup_insert_ne.
Qed.

(** A method of session [id] run in the client. *)
Lemma run_session_ok {T} a cl id (op : cst C -> cst C * T) s :
  client_ok a cl -> cl_sessions cl !! id = Some s -> cop_ok op -> (forall st, cwf (cs st) -> ctalks st (fst (op st))) ->
  let cl' := fst (run_session id op cl) in
  client_ok a cl' /\ cl_nextID cl' = cl_nextID cl /\
  (forall sid, sid <> id -> cl_sessions cl' !! sid = cl_sessions cl !! sid) /\
  sends (fun _ => True) (of_session id) (cl_net cl) (cl_net cl').
Proof.
  intros [Kn Kc Ks Kt] Es [L Kk Ki Rm] Tk. destruct (Ks id s Es) as (Ws & Ei & Hi).
  set (st := MkCst s (cl_conn cl) (cl_net cl) []).
  pose proof (ck_sends _ _ (Tk st Ws)) as Tsn. destruct (Tk st Ws) as [Tw Ti Tc _ _]. simpl in Tw, Ti, Tsn.
  unfold run_session. rewrite Es. fold st. pose proof (Rm st eq_refl) as Hr. simpl in Hr. rewrite Ei in *.
  destruct (op st) as [st' r]. simpl in *. specialize (Tw Ws). specialize (Tsn Ws).
  assert (sends (fun _ => True) (of_session id) (cl_net cl) (cnet st')) as Sn by (eapply sends_weaken; [done|done|exact Tsn]).
  set (ses := foldr _ _ _).
  assert (ses = <[id := cs st']> (cl_sessions cl) \/ ses = delete id (cl_sessions cl)) as Hses.
  { unfold ses. destruct Hr as [[-> _]|[-> _]]; simpl; [by left|right; apply delete_insert_eq]. }
  split_and!; [|done| |done].
  - split; simpl; [done|done| |].
    + intros i s'. destruct Hses as [-> | ->].
      * rewrite lookup_insert_Some. intros [[<- <-]|[_ E]]; [|by apply Ks]. split_and!; [done|congruence|lia..].
      * rewrite lookup_delete_Some. intros [_ E]. by apply Ks.
    + eapply sends_net_ok; [|exact Sn|done]. intros f. apply of_session_up. lia.
  - intros sid Hne. destruct Hses as [-> | ->]; [by rewrite lookup_insert_ne|by rewrite lookup_delete_ne].
Qed.

Lemma csim_run {T} sid cl u y (op : cst C -> cst C * T) :
  cop_ok op -> csim sid cl u y -> cl_sessions cl !! sid = Some (cs (y_c y)) -> cs_sessionID (cs (y_c y)) = sid ->
  csim sid (fst (run_session sid op cl)) u (with_c (fst (op (y_c y))) y) /\
  snd (run_session sid op cl) = Some (snd (op (y_c y))).
Proof.
  intros Ok (S1 & S2 & S3 & _) Es Ei.
  destruct (run_entry sid op cl y Ok S1 S2 Ei Es) as (E & V1 & V2 & _ & V3). split; [|done].
  split_and!; try done. destruct V3 as [[? _]|[? ?]]; auto.
Qed.

Lemma winv_boot w a cfg :
  winv w -> w_cl w !! a = None -> 0 <= cc_SessionBuffer (client_defaults cfg) ->
  winv (set_client a (NewClient cfg) w).
Proof.
  intros [W G] Ea Hc. assert (client_ok a (NewClient cfg : Client C)) as Ko.
  { split; simpl; [lia|done| |]; intros i x; by rewrite lookup_empty. }
  assert (forall a1 cl1, w_cl (set_client a (NewClient cfg) w) !! a1 = Some cl1 ->
    (a1 = a /\ cl1 = NewClient cfg) \/ (a1 <> a /\ w_cl w !! a1 = Some cl1)) as Hcl.
  { intros a1 cl1. simpl. rewrite lookup_insert_Some. intros [[-> ->]|[? ?]]; auto. }
  split.
  - destruct W as [B N Ce T K Dn Lg Ow]. split; auto.
    + intros l s Hs. destruct (Ce l s Hs) as [Wf Bd (cl1 & E1 & Hi)]. split; [done|done|]. simpl.
      rewrite lookup_insert_ne by congruence. eauto.
    + intros a1 cl1 E1. destruct (Hcl _ _ E1) as [[-> ->]|[_ ?]]; auto.
    + intros a1 cl1 E1. destruct (Hcl _ _ E1) as [[-> ->]|[_ E]]; [|by apply (Dn a1)].
      intros tc c Ho _. destruct (Ow tc a Ho). congruence.
    + intros tc a1 E1. simpl. rewrite lookup_insert_ne; [eauto|]. intros <-. destruct (Ow tc a E1). congruence.
  - intros a1 cl1 sid E1 Hsid F. destruct (Hcl _ _ E1) as [[-> ->]|[Hne E]]; [simpl in Hsid; lia|].
    destruct (G a1 cl1 sid E Hsid) as (cl0 & y & A & D & E0 & Cs & Bs & I); [by destruct F|].
    exists cl0, y, A, D. split_and!; [|done|done|done]. simpl. by rewrite lookup_insert_ne.
Qed.

(** [send] and [conn_write] in the client. *)
Lemma conn_write_frame tc f (cl : Client C) :
  let cl' := fst (conn_write tc f cl) in
  cl_cfg cl' = cl_cfg cl /\ cl_nextID cl' = cl_nextID cl /\ cl_sessions cl' = cl_sessions cl /\
  cl_conn cl' = cl_conn cl /\ sends (fun tc' => tc' = tc) (fun g => g = f) (cl_net cl) (cl_net cl').
Proof.
  unfold conn_write. destruct (cl_net cl !! tc) as [c|] eqn:E; [|split_and!; try done; reflexivity].
  destruct (fw_write f c) as [c' ok] eqn:W. simpl. split_and!; try done.
  apply rtc_once. change c' with (fst (c', ok)). rewrite <- W. by apply put_frame.
Qed.

Lemma send_frame f (cl : Client C) :
  let cl' := send f cl in
  cl_cfg cl' = cl_cfg cl /\ cl_nextID cl' = cl_nextID cl /\ cl_sessions cl' = cl_sessions cl /\
  cl_conn cl' = cl_conn cl /\ sends (fun _ => True) (fun g => g = f) (cl_net cl) (cl_net cl').
Proof.
  unfold send. destruct (cl_conn cl) as [tc|] eqn:E; [|split_and!; try done; reflexivity].
  destruct (conn_write_frame tc f cl) as (? & ? & ? & ? & S). split_and!; try done; [congruence|].
  by eapply sends_weaken; [..|exact S].
Qed.

Lemma winv_open w a cl cap cw target :
  winv w -> w_cl w !! a = Some cl -> str_len target <= maxString -> cl_nextID cl + 1 < 2 ^ 64 ->
  winv (let '(cl', id) := OpenSession (MkSock [] cap false false) cw target cl in
        set_up (a, id) (MkUp [] []) (set_client a cl' w)).
Proof using Type*.
  intros Wi Ea Ht Hlt. pose proof (wi_ok _ Wi) as W. pose proof (wo_cl _ W a cl Ea) as [Kn Kc Ks Kt].
  unfold OpenSession. rewrite u64_small by lia. set (id := cl_nextID cl + 1).
  set (s := newClientSession _ id target _ cw).
  set (cl1 := MkClient _ id _ _ _ _). destruct (send_frame (OpenF id target) cl1) as (C1 & C2 & C3 & C4 & Sn).
  set (cl' := send (OpenF id target) cl1) in *. simpl in C1, C2, C3, C4, Sn.
  assert (is_u64 id) as Hid by (unfold is_u64, id; lia).
  assert (wf_frame (OpenF id target)) as Hwf by (by constructor).
  assert (cwf s) as Ws by (split; simpl; done).
  eapply (winv_client w a cl cl' id (MkUp [] [])); [done|done| |lia| | |].
  - split; rewrite ?C1, ?C2, ?C3; [lia|done| |].
    + intros i s'. rewrite lookup_insert_Some. intros [[<- <-]|[_ E]]; [split_and!; [done|done|lia..]|].
      destruct (Ks i s' E) as (? & ? & ?). split_and!; [done|done|lia..].
    + eapply sends_net_ok; [|exact Sn|].
      * intros f ->. apply wf_post; [done|]. split_and!; [done|simpl; lia|done|simpl; lia].
      * eapply net_ok_impl; [|exact Kt]. intros f. apply up_frame_mono. lia.
  - intros sid Hsid Hne. rewrite C2 in Hsid. rewrite C3. split; [lia|by rewrite lookup_insert_ne].
  - intros sid A dl H1 Hne N. eapply sends_net_ok; [|exact Sn|exact N]. intros f ->. apply wf_post; [done|].
    by apply gu_other; [apply pb_wf|].
  - intros _ _. exists cl', (MkSys (MkCst s (cl_conn cl') (cl_net cl') [])
      (MkSst (newSession (bc_SessionBufferBytes (withDefaults bcfg)) a id "") (bk_net (w_bk w)) []) false false RStopped [] [] []), [], [].
    split_and!; [apply lookup_insert_eq| | |].
    + split_and!; [done|done|by rewrite up_set, decide_True|]. left. by rewrite C3, lookup_insert_eq.
    + split; [done|]. right. split_and!; try done; [|by eexists]. intros l s' Hs [= Hsa Hsi].
      destruct (wo_cell _ W l s' Hs) as [_ _ (cl0 & E0 & Hle)]. rewrite Hsa in E0. simplify_eq. lia.
    + split; cbn [y_c y_b y_created y_dialed y_reader y_upwait y_agent y_dest reader_wait ss s_upstreamWritten newSession]; try done.
      * split; simpl; try done; [|apply sink_ok_new|].
        { exists 0. split; [by apply rep_new|done]. }
        eapply sends_net_ok; [|exact Sn|].
        { intros f ->. apply wf_post; [done|]. by constructor. }
        eapply net_ok_impl; [|exact Kt]. intros f (? & ? & _). apply gu_other; [by apply pb_wf|lia].
      * revert Hbuf. generalize (bc_SessionBufferBytes (withDefaults bcfg)). intros bb Hbb.
        split; simpl; try done; [exists 0; split; [by apply rep_new|done]|].
        eapply onet_ok_impl; [|apply (wo_down _ W a cl Ea)]. intros f (? & ? & _). apply gd_other; [by apply pb_wf|lia].
Qed.

(** The session that acts is related to the model before the step. *)
Lemma good_session w a cl id s :
  winv w -> w_cl w !! a = Some cl -> cl_sessions cl !! id = Some s -> fine (a, id) w ->
  exists y A D, csim id cl (up (a, id) w) y /\ cs (y_c y) = s /\ cs_sessionID s = id /\ is_u64 id /\
    bsim a id (w_bk w) (fun l => down l w) y /\ yinv (Own := own a w) id y A D.
Proof.
  intros [W G] Ea Es F. destruct (ko_sess _ _ (wo_cl _ W a cl Ea) id s Es) as (Ws & Ei & Hi).
  destruct (G a cl id Ea Hi F) as (cl0 & y & A & D & E0 & Cs & Bs & I).
  assert (cl0 = cl) as -> by congruence. destruct Cs as (S1 & S2 & S3 & S4).
  assert (cs (y_c y) = s) as Ey by (destruct S4 as [S4|[S4 _]]; congruence).
  exists y, A, D. split_and!; auto; [by split_and!|]. rewrite <- Ei. apply Ws.
Qed.

Lemma winv_pump w a cl id p (fresh : bool) :
  winv w -> w_cl w !! a = Some cl ->
  (if fresh then ul_wait (up (a, id) w) = [] else p = ul_wait (up (a, id) w)) -> winv (pump a cl id p fresh w).
Proof using Type*.
  intros Wi Ea Hp. unfold pump. pose proof (wi_ok _ Wi) as W. pose proof (wo_cl _ W a cl Ea) as Ko.
  destruct (cl_sessions cl !! id) as [s|] eqn:Es; [|unfold run_session; by rewrite Es].
  destruct (run_session_ok a cl id (writeUp p) s Ko Es (cop_writeUp p)) as (K' & En & Eo & Sn).
  { intros st _. apply ctalks_write. }
  assert (forall u y, csim id cl u y -> cs (y_c y) = s -> cs_sessionID s = id ->
    csim id (fst (run_session id (writeUp p) cl)) u (with_c (fst (writeUp p (y_c y))) y) /\
    snd (run_session id (writeUp p) cl) = Some (snd (writeUp p (y_c y)))) as Hrun.
  { intros u y Cs Ey Ei. apply csim_run; [apply cop_writeUp|done|by rewrite Ey|by rewrite Ey]. }
  destruct (run_session id (writeUp p) cl) as [cl' [r|]] eqn:Er.
  2: { exfalso. unfold run_session in Er. rewrite Es in Er. by destruct (writeUp p _). }
  simpl in K', En, Eo, Sn, Hrun. eapply winv_client; [done|done|done|lia| | |].
  - intros sid Hsid Hne. split; [lia|by apply Eo].
  - intros sid A dl Hsid Hne N. eapply sends_net_ok; [|exact Sn|exact N]. intros f. by apply of_session_other.
  - intros _ F. set (sent := ul_sent (up (a, id) w) ++ _) in *.
    assert (len sent < 2 ^ 64) as Hlen.
    { destruct F as [_ F _]. by rewrite up_set, decide_True in F by done. }
    assert (fine (a, id) w) as F0.
    { destruct F as [F1 _ F3]. split; [exact F1| |exact F3]. unfold sent in Hlen. rewrite len_app in Hlen.
      pose proof (len_nonneg (if fresh then p else [])). lia. }
    destruct (good_session w a cl id s Wi Ea Es F0) as (y & A & D & Cs & Ey & Ei & Hu & Bs & I).
    destruct (Hrun _ y Cs Ey Ei) as [(S1 & S2 & _ & S4) [= ->]].
    destruct (writeUp p (y_c y)) as [c r] eqn:Ew. simpl in S1, S2, S4 |- *.
    destruct Cs as (_ & _ & Eu & _). unfold sent in *. rewrite Eu in *. simpl in Hp, Hlen |- *.
    pose proof (yi_A _ _ _ _ I) as P. pose proof (yi_A' _ _ _ _ I) as P'.
    destruct (yinv_write id Hu y A D p c r (y_agent y ++ if fresh then p else []) I Ew) as [A' I'].
    { apply prefix_app_r. etrans; [|exact P]. by apply prefix_app_r. }
    { done. }
    { intros Hd. rewrite (P' Hd). destruct fresh; [by rewrite Hp, app_nil_r|]. by rewrite app_nil_r, Hp. }
    eexists cl', _, A', D. split_and!; [apply lookup_insert_eq| | |exact I'].
    + split_and!; [done|done|by rewrite up_set, decide_True|done].
    + destruct Bs as [B1 B2]. split; [exact B1|exact B2].
Qed.

Lemma set_up_same w k : winv (set_up k (up k w) w) -> winv w.
Proof.
  intros [W G]. assert (forall k', up k' (set_up k (up k w) w) = up k' w) as E.
  { intros k'. rewrite up_set. by case_decide; subst. }
  split.
  - destruct W as [B N Ce T K Dn Lg Ow]. split; auto. intros l s Hs. by destruct (Ce l s Hs).
  - intros a cl sid Ea Hsid [F1 F2 F3]. destruct (G a cl sid Ea Hsid) as (cl0 & y & A & D & E0 & Cs & Bs & I).
    { split; [exact F1|by rewrite E|exact F3]. }
    exists cl0, y, A, D. split_and!; auto. by rewrite E in Cs.
Qed.

(** A method of a session that moves no bytes between it and the agent's pump. *)
Lemma winv_session w a cl id {T} (op : cst C -> cst C * T) :
  winv w -> w_cl w !! a = Some cl -> cop_ok op -> (forall st, cwf (cs st) -> ctalks st (fst (op st))) ->
  (forall y A D, is_u64 id -> yinv (Own := own a w) id y A D -> csim id cl (up (a, id) w) y ->
     bsim a id (w_bk w) (fun l => down l w) y -> yinv (Own := own a w) id (with_c (fst (op (y_c y))) y) A D) ->
  winv (set_client a (fst (run_session id op cl)) w).
Proof.
  intros Wi Ea Ok Tk Hy. pose proof (wi_ok _ Wi) as W. pose proof (wo_cl _ W a cl Ea) as Ko.
  destruct (cl_sessions cl !! id) as [s|] eqn:Es.
  2: { replace (fst (run_session id op cl)) with cl by (unfold run_session; by rewrite Es).
       eapply winv_client_quiet; try done. }
  destruct (run_session_ok a cl id op s Ko Es Ok Tk) as (K' & En & Eo & Sn).
  apply (set_up_same _ (a, id)). change (up (a, id) (set_client a _ w)) with (up (a, id) w).
  eapply winv_client; [done|done|done|lia| | |].
  - intros sid Hsid Hne. split; [lia|by apply Eo].
  - intros sid A dl Hsid Hne N. eapply sends_net_ok; [|exact Sn|exact N]. intros f. by apply of_session_other.
  - intros _ [F1 F2 F3]. rewrite up_set, decide_True in F2 by done.
    destruct (good_session w a cl id s Wi Ea Es) as (y & A & D & Cs & Ey & Ei & Hu & Bs & I); [by split|].
    destruct (csim_run id cl _ y op Ok Cs) as [Cs' _]; [by rewrite Ey|by rewrite Ey|].
    eexists _, (with_c (fst (op (y_c y))) y), A, D. split_and!; [apply lookup_insert_eq| |done|by apply Hy].
    by rewrite up_set, decide_True.
Qed.

Lemma winv_closeUp w a cl id reason :
  winv w -> w_cl w !! a = Some cl -> str_len reason <= maxString ->
  winv (set_client a (fst (run_session id (fun st => (closeUp reason st, tt)) cl)) w).
Proof.
  intros Wi Ea Hr. apply winv_session; [done|done|apply cop_closeUp|intros st _; by apply ctalks_closeUp|].
  intros y A D Hu I _ _. apply yinv_client; [done|apply cinv_closeUp; [done|done|apply I]|..]; simpl.
  - unfold closeUp. case_match; [done|]. by rewrite csend_cs.
  - apply not_dead, dead_closeUp.
Qed.

(** A frame written by the sidecar outside its sessions. *)
Lemma winv_client_write w a cl cl' f :
  winv w -> w_cl w !! a = Some cl -> cl_cfg cl' = cl_cfg cl -> cl_nextID cl' = cl_nextID cl ->
  cl_sessions cl' = cl_sessions cl -> sends (fun _ => True) (fun g => g = f) (cl_net cl) (cl_net cl') ->
  up_frame a (cl_nextID cl) f -> (forall sid A dl, 1 <= sid -> good_up sid A dl f) -> winv (set_client a cl' w).
Proof.
  intros Wi Ea E1 E2 E3 Sn Hf Hg. pose proof (wo_cl _ (wi_ok _ Wi) a cl Ea) as [Kn Kc Ks Kt].
  eapply winv_client_quiet; try done.
  - split; rewrite ?E1, ?E2, ?E3; auto. eapply sends_net_ok; [|exact Sn|done]. intros g ->. apply wf_post; [apply Hf|done].
  - intros sid A dl Hsid N. eapply sends_net_ok; [|exact Sn|exact N]. intros g ->. apply wf_post; [apply Hf|auto].
Qed.

Lemma ping_good sid A dl n : is_u64 n -> good_up sid A dl (PingF n).
Proof. by constructor. Qed.

Lemma winv_ping w a cl tc now nonce :
  winv w -> w_cl w !! a = Some cl -> winv (set_client a (fst (ping_tick tc now nonce cl)) w).
Proof.
  intros Wi Ea. pose proof (wo_cl _ (wi_ok _ Wi) a cl Ea) as K. unfold ping_tick.
  destruct (_ >? _); [by eapply winv_client_quiet|].
  destruct (conn_write_frame tc (PingF (u64 (nonce + 1))) cl) as (E1 & E2 & E3 & E4 & Sn).
  destruct (conn_write tc _ cl) as [cl' ok]. simpl in *.
  assert (is_u64 (u64 (nonce + 1))) as Hn by apply u64_range.
  apply (winv_client_write w a cl cl' (PingF (u64 (nonce + 1)))); try done.
  - by eapply sends_weaken; [..|exact Sn].
  - split_and!; [by constructor|apply K|done|by intros [|]].
  - intros. by constructor.
Qed.

Lemma winv_disconnect w a cl tc :
  winv w -> w_cl w !! a = Some cl -> winv (set_client a (disconnect tc cl) w).
Proof.
  intros Wi Ea. pose proof (wo_cl _ (wi_ok _ Wi) a cl Ea) as K.
  eapply winv_client_quiet; try done. by destruct K.
Qed.

Lemma winv_closeGone w a cl id reason :
  winv w -> w_cl w !! a = Some cl -> 1 <= id <= cl_nextID cl -> str_len reason <= maxString ->
  winv (set_client a (send (CloseF id DirUp reason) cl) w).
Proof.
  intros Wi Ea Hid Hr. pose proof (ko_next _ _ (wo_cl _ (wi_ok _ Wi) a cl Ea)) as Kn.
  destruct (send_frame (CloseF id DirUp reason) cl) as (E1 & E2 & E3 & E4 & Sn).
  assert (wf_frame (CloseF id DirUp reason)) as Hwf by (constructor; [unfold is_u64; lia|done|done]).
  apply (winv_client_write w a cl _ (CloseF id DirUp reason)); try done.
  - split_and!; [done|simpl; lia|done|by intros [|]].
  - intros sid A dl _. destruct (decide (id = sid)) as [->|]; [by constructor|by apply gu_other; [apply pb_wf|]].
Qed.

Lemma broker_frame_wf w a cl from f :
  wok w -> w_cl w !! a = Some cl -> w_owner w !! from = Some a -> f ∈ sent_by_broker from w -> wf_frame f.
Proof.
  intros W Ea Ho. unfold sent_by_broker. destruct (bk_net (w_bk w) !! from) as [c|] eqn:E; [|by intros ?%elem_of_nil].
  intros Hf. destruct (wo_down _ W a cl Ea from c Ho E) as [_ HF]. rewrite Forall_forall in HF. by apply HF.
Qed.

Lemma winv_client_frame w a cl from tc now f :
  winv w -> w_cl w !! a = Some cl -> w_owner w !! from = Some a -> f ∈ sent_by_broker from w ->
  winv (set_client a (handle_frame tc now f cl) w).
Proof.
  intros Wi Ea Ho Hf. pose proof (wi_ok _ Wi) as W. pose proof (wo_cl _ W a cl Ea) as K.
  pose proof (broker_frame_wf w a cl from f W Ea Ho Hf) as Hwf. unfold handle_frame.
  destruct (_ =? _); [eapply winv_client_quiet; try done; by destruct K|].
  destruct (Z.eqb_spec (fType f) TypePing) as [Et|_].
  - destruct (conn_write_frame tc (PongF (fNonce f)) cl) as (E1 & E2 & E3 & E4 & Sn).
    assert (wf_frame (PongF (fNonce f))) as Hp by (constructor; by destruct Hwf).
    apply (winv_client_write w a cl _ (PongF (fNonce f))); try done.
    + by eapply sends_weaken; [..|exact Sn].
    + split_and!; [done|apply K|done|by intros [|]].
    + intros sid A dl Hsid. apply gu_other; [by apply pb_wf|simpl; lia].
  - apply winv_session; [done|done|apply cop_dispatch|intros st _; by apply ctalks_dispatch|].
    intros y A D Hu I Cs [Eb _]. simpl. apply (yinv_client_recv (fSessionID f)); [done|done| |done].
    eapply (sent_down_good (fSessionID f)); [exact I|exact Ho|]. unfold sent_down. by rewrite <- Eb.
Qed.

(** ** A new tunnel connection *)

Lemma attach_all tc (ss : list clientSession) (cl : Client C) :
  let cl' := foldl (fun cl s => fst (conn_write tc (attachFrame s) cl)) cl ss in
  cl_cfg cl' = cl_cfg cl /\ cl_nextID cl' = cl_nextID cl /\ cl_sessions cl' = cl_sessions cl /\
  sends (fun _ => True) (fun g => exists s, s ∈ ss /\ g = attachFrame s) (cl_net cl) (cl_net cl').
Proof.
  revert cl. induction ss as [|s ss IH]; intros cl; [split_and!; try done; reflexivity|]. simpl.
  destruct (conn_write_frame tc (attachFrame s) cl) as (E1 & E2 & E3 & _ & Sn).
  destruct (IH (fst (conn_write tc (attachFrame s) cl))) as (I1 & I2 & I3 & I4).
  split_and!; [congruence..|]. etrans.
  - eapply sends_weaken; [..|exact Sn]; [done|]. intros g ->. exists s. split; [by apply list_elem_of_here|done].
  - eapply sends_weaken; [..|exact I4]; [done|]. intros g (s' & Hs & ->). exists s'. split; [by apply list_elem_of_further|done].
Qed.

(** The frames a reconnect writes. *)
Definition connect_frame (a : string) (cl : Client C) (f : Frame) : Prop :=
  f = HelloF a \/ exists id s, cl_sessions cl !! id = Some s /\ f = attachFrame s.

Lemma connect_frames a tc cu now cl P :
  str_len a <= maxString -> fw_clean cu -> fw_sent cu = [] ->
  (forall f, connect_frame a cl f -> postable f /\ (wf_frame f -> P f)) ->
  let cl' := fst (connect a tc cu now cl) in
  cl_cfg cl' = cl_cfg cl /\ cl_nextID cl' = cl_nextID cl /\ cl_sessions cl' = cl_sessions cl /\
  (net_ok P (cl_net cl) -> net_ok P (cl_net cl')).
Proof.
  intros Ha Hc Hs HP. unfold connect. destruct (fw_write (HelloF a) cu) as [c ok] eqn:W.
  destruct (HP (HelloF a)) as [Hwf HPa]; [by left|]. destruct (fw_write_spec _ _ _ _ Hc Hwf W) as [Hc' Hs'].
  assert (Forall P (fw_sent c)) as HF by (rewrite Hs in Hs'; destruct Hs' as [->|(_ & Hw & ->)]; [constructor|repeat constructor; auto]).
  destruct ok; simpl; [|split_and!; try done; intros N; by apply net_ok_insert].
  set (cl1 := MkClient _ _ _ _ _ _).
  destruct (attach_all tc (map snd (map_to_list (cl_sessions cl))) cl1) as (E1 & E2 & E3 & Sn).
  split_and!; try done. intros N. eapply sends_net_ok; [|exact Sn|by apply net_ok_insert].
  intros f (s & Hin & ->). apply list_elem_of_fmap in Hin as ([i s'] & -> & Hin).
  apply elem_of_map_to_list in Hin. apply HP. right. by exists i, s'.
Qed.

Lemma connect_next a tc cu now (cl : Client C) : cl_nextID (fst (connect a tc cu now cl)) = cl_nextID cl.
Proof.
  unfold connect. destruct (fw_write _ cu) as [c []]; simpl; [|done].
  match goal with |- cl_nextID (foldl _ ?c0 ?l) = _ => destruct (attach_all tc l c0) as (_ & E & _) end. exact E.
Qed.

Lemma wok_dial w a cl tc cu cd now :
  wok w -> w_cl w !! a = Some cl -> w_owner w !! tc = None -> str_len a <= maxString ->
  fw_clean cu -> fw_sent cu = [] -> fw_clean cd -> fw_sent cd = [] -> wok (dial_tunnel a cl tc cu cd now w).
Proof.
  intros W Ea Et Ha Hcu Hsu Hcd Hsd. pose proof (wo_cl _ W a cl Ea) as K.
  assert (client_ok a (fst (connect a tc cu now cl))) as K'.
  { destruct K as [Kn Kc Ks Kt].
    destruct (connect_frames a tc cu now cl (up_frame a (cl_nextID cl))) as (E1 & E2 & E3 & En); try done.
    { intros f [->|(i & s & Hs & ->)].
      - assert (wf_frame (HelloF a)) by (by constructor). apply wf_post; [done|]. split_and!; [done|simpl; lia|done|by intros [|]].
      - destruct (Ks i s Hs) as (Ws & Ei & Hi). apply (of_session_up a (cs_sessionID s)); [lia|by apply attachFrame_of_session]. }
    split; rewrite ?E1, ?E2, ?E3; auto. }
  pose proof (connect_next a tc cu now cl) as En.
  pose proof (wok_client w a cl _ W Ea K' ltac:(lia)) as [B N Ce T Kl Dn Lg Ow]. unfold dial_tunnel.
  set (w1 := set_client a _ w) in *. assert (w_owner w1 !! tc = None) as Et1 by done.
  assert (bk_net (w_bk w1) !! tc = None) as Ebn.
  { destruct (bk_net (w_bk w1) !! tc) eqn:E; [|done]. destruct (N tc) as [x Hx]; [by rewrite E|]. congruence. }
  split; simpl.
  - eapply rtc_r; [exact B|]. by apply BAccept.
  - intros tc' Hin. destruct (decide (tc' = tc)) as [->|]; [rewrite lookup_insert_eq; eauto|].
    rewrite lookup_insert_ne in Hin by done. rewrite lookup_insert_ne by done. by apply N.
  - intros l s Hs. destruct (Ce l s Hs) as [Ws Bd Op]. split; [done| |done]. simpl. intros tc' Hb.
    rewrite lookup_insert_ne; [by apply Bd|]. intros <-. rewrite (Bd tc Hb) in Et1. done.
  - intros tc' t Ht. rewrite lookup_insert_ne; [by apply T|]. intros <-. rewrite (T tc t Ht) in Et1. done.
  - exact Kl.
  - intros a1 cl1 E1 tc' c Ho. unfold owns, own in Ho. simpl in Ho. rewrite lookup_insert_Some in Ho. rewrite lookup_insert_Some.
    intros [[<- <-]|[Hne Hc]]; [by rewrite Hsd|]. destruct Ho as [[? _]|[_ Ho]]; [done|]. by apply (Dn a1 cl1 E1 tc').
  - exact Lg.
  - intros tc' a1. rewrite lookup_insert_Some. intros [[_ <-]|[_ E]]; [rewrite lookup_insert_eq; eauto|by apply (Ow tc')].
Qed.

Lemma winv_dial w a cl tc cu cd now :
  winv w -> w_cl w !! a = Some cl -> w_owner w !! tc = None -> str_len a <= maxString ->
  fw_clean cu -> fw_sent cu = [] -> fw_clean cd -> fw_sent cd = [] -> winv (dial_tunnel a cl tc cu cd now w).
Proof.
  intros [W G] Ea Et Ha Hcu Hsu Hcd Hsd. pose proof (wo_cl _ W a cl Ea) as [Kn Kc Ks Kt].
  split; [by apply wok_dial|]. intros a1 cl1 sid E1 Hsid F. simpl in E1. rewrite lookup_insert_Some in E1.
  assert (fine (a1, sid) w) as F0 by (by destruct F).
  set (w' := dial_tunnel a cl tc cu cd now w).
  assert (forall y A D, bk_net (w_bk w) = net (y_b y) -> yinv (Own := own a1 w) sid y A D ->
    yinv (Own := own a1 w') sid (with_b (MkSst (ss (y_b y)) (<[tc:=cd]> (bk_net (w_bk w))) []) y) A D) as Hb.
  { intros y A D Eb I. replace (ss (y_b y)) with (set_tconn (s_tconn (ss (y_b y))) (ss (y_b y))) at 1 by (by destruct (ss (y_b y))).
    eapply yinv_bnet; [exact I|]. intros tc' c Ho. unfold owns, own, w', dial_tunnel in Ho. simpl in Ho.
    rewrite lookup_insert_Some in Ho. rewrite lookup_insert_Some. intros [[<- <-]|[Hne Hc]]; [by rewrite Hsd|].
    destruct Ho as [[? _]|[_ Ho]]; [done|]. rewrite Eb in Hc. by apply (bi_net _ _ _ _ _ (yi_b _ _ _ _ I) tc'). }
  destruct E1 as [[<- <-]|[Hna E1]].
  - pose proof (connect_next a tc cu now cl) as En.
    destruct (G a cl sid Ea ltac:(lia) F0) as (cl0 & y & A & D & E0 & (S1 & S2 & S3 & S4) & [B1 B2] & I).
    assert (cl0 = cl) as -> by congruence. pose proof (yi_c _ _ _ _ I) as Cc.
    destruct (connect_frames a tc cu now cl (good_up sid A (cs_downDelivered (cs (y_c y))))) as (C1 & C2 & C3 & Cn); try done.
    { intros f [->|(i & s & Hs & ->)].
      - assert (wf_frame (HelloF a)) by (by constructor). apply wf_post; [done|]. by constructor.
      - destruct (Ks i s Hs) as (Ws & Ei & Hi). destruct (decide (sid = i)) as [->|].
        + assert (s = cs (y_c y)) as -> by (destruct S4 as [S4|[S4 _]]; congruence).
          split; [by apply attachFrame_of_session|]. intros _. unfold attachFrame. rewrite Ei.
          pose proof (ci_range _ _ _ _ _ Cc). constructor; [lia|by eapply cinv_dl|apply Cc].
        + apply (of_session_other sid (cs_sessionID s)); [congruence|by apply attachFrame_of_session]. }
    set (cl' := fst (connect a tc cu now cl)) in *. set (y1 := with_c (MkCst (cs (y_c y)) (cl_conn cl') (cl_net cl') []) y).
    assert (yinv (Own := own a w) sid y1 A D) as I1.
    { apply yinv_cnet; [done|]. apply Cn. rewrite S2. apply (ci_net _ _ _ _ _ Cc). }
    exists cl', (with_b (MkSst (ss (y_b y)) (<[tc:=cd]> (bk_net (w_bk w))) []) y1), A, D.
    split_and!; [apply lookup_insert_eq| | |by apply (Hb y1)].
    + split_and!; [done|done|done|]. simpl. by rewrite C3.
    + split; [done|exact B2].
  - destruct (G a1 cl1 sid E1 Hsid F0) as (cl0 & y & A & D & E0 & Cs & [B1 B2] & I).
    exists cl0, (with_b (MkSst (ss (y_b y)) (<[tc:=cd]> (bk_net (w_bk w))) []) y), A, D.
    split_and!; [|exact Cs| |by apply Hb]; [simpl; by rewrite lookup_insert_ne|]. split; [done|exact B2].
Qed.

(** ** Steps of the broker *)

(** Only the broker and its logs have changed. *)
Record broker_step w w' : Prop := {
  bs_step : bstep os_error (w_bk w) (w_bk w');
  bs_cl : w_cl w' = w_cl w;
  bs_owner : w_owner w' = w_owner w;
  bs_up : w_up w' = w_up w;
  bs_log : forall l, is_Some (w_down w' !! l) -> is_Some (bk_heap (w_bk w') !! l);
  (** cells stay, with their keys, and destinations only send more *)
  bs_keep : forall l s, bk_heap (w_bk w) !! l = Some s ->
    (exists s', bk_heap (w_bk w') !! l = Some s' /\ skey s' = skey s) /\
    len (dl_sent (down l w)) <= len (dl_sent (down l w'));
  bs_dom : forall tc, bk_net (w_bk w') !! tc = None <-> bk_net (w_bk w) !! tc = None;
}.

Lemma wok_broker w w' :
  wok w -> broker_step w w' ->
  (forall l s, bk_heap (w_bk w') !! l = Some s -> cell_ok w s) ->
  (forall tc t, bk_tunnels (w_bk w') !! tc = Some t -> w_owner w !! tc = Some (t_actor t)) ->
  (forall a cl, w_cl w !! a = Some cl -> onet_ok (Own := own a w) (down_frame (cl_nextID cl)) (bk_net (w_bk w'))) ->
  wok w'.
Proof.
  intros [B N Ce T K Dn Lg Ow] [S1 S2 S3 S4 S5 S6 S7] Hc Ht Hd.
  split; rewrite ?S2, ?S3; auto.
  - by eapply rtc_r.
  - intros tc [c Hin]. apply N. rewrite <- not_eq_None_Some, <- S7. congruence.
  - intros l s Hs. destruct (Hc l s Hs) as [Ws Bd Op]. split; rewrite ?S2, ?S3; auto.
  - intros a cl Ea tc c. unfold owns, own. rewrite S3. by apply (Hd a cl Ea).
Qed.

Lemma fine_back w w' k : broker_step w w' -> fine k w' -> fine k w.
Proof.
  intros [S1 S2 S3 S4 S5 S6 S7] [F1 F2 F3]. split.
  - intros l l' s s' Hl Hl' Ek Ek'. destruct (S6 l s Hl) as [(x & Hx & Kx) _]. destruct (S6 l' s' Hl') as [(x' & Hx' & Kx') _].
    by eapply (F1 l l' x x'); [..|congruence|congruence].
  - unfold up in *. by rewrite S4 in F2.
  - intros l s Hl Ek. destruct (S6 l s Hl) as [(x & Hx & Kx) Hlen].
    assert (len (dl_sent (down l w')) < 2 ^ 64) by (apply (F3 l x); congruence). lia.
Qed.

(** What another session's step looks like to session [(a, sid)]. *)
Record unaffected (a : string) (sid : Z) w w' : Prop := {
  un_cell : forall l s, bk_heap (w_bk w) !! l = Some s -> skey s = (a, sid) ->
    (exists v, bk_heap (w_bk w') !! l = Some (set_tconn v s)) /\ down l w' = down l w;
  un_none : no_cell (a, sid) (w_bk w) -> no_cell (a, sid) (w_bk w');
  un_net : forall D u, onet_ok (Own := own a w) (good_down sid D u) (bk_net (w_bk w)) ->
    onet_ok (Own := own a w) (good_down sid D u) (bk_net (w_bk w'));
}.

Lemma good_unaffected a sid w w' : broker_step w w' -> unaffected a sid w w' -> good a sid w -> good a sid w'.
Proof.
  intros S [Uc Un Ut] (cl & y & A & D & Ea & Cs & [B1 B2] & I). destruct S as [S1 S2 S3 S4 S5 S6 S7].
  assert (exists v, (exists l, bk_heap (w_bk w') !! l = Some (set_tconn v (ss (y_b y))) /\
      skey (ss (y_b y)) = (a, sid) /\ y_created y = true /\ down l w' = MkDown (y_dialed y) (y_reader y) (y_dest y)) \/
    (v = s_tconn (ss (y_b y)) /\ no_cell (a, sid) (w_bk w') /\ y_created y = false /\ y_dialed y = false /\ y_reader y = RStopped /\
     y_dest y = [] /\ exists t, ss (y_b y) = newSession (bc_SessionBufferBytes (withDefaults bcfg)) a sid t)) as [v Hv].
  { destruct B2 as [(l & Hl & Ek & Ec & El)|(Hn & Ec & Ed & Er & Et & Es)].
    - destruct (Uc l _ Hl Ek) as [[v Hv] Edn]. exists v. left. exists l. rewrite Edn. by split_and!.
    - exists (s_tconn (ss (y_b y))). right. split_and!; auto. }
  exists cl, (with_b (MkSst (set_tconn v (ss (y_b y))) (bk_net (w_bk w')) []) y), A, D.
  split_and!; [by rewrite S2|unfold up; rewrite S4; exact Cs| |].
  - split; [done|]. destruct Hv as [(l & Hl & Ek & Ec & El)|(-> & Hn & Ec & Ed & Er & Et & t & Es)]; [left; by exists l|].
    right. split_and!; try done. exists t. simpl. rewrite Es. done.
  - assert (own a w' = own a w) as Eo by (unfold own; by rewrite S3).
    rewrite Eo. eapply yinv_bnet; [exact I|]. apply Ut. rewrite B1. apply (bi_net _ _ _ _ _ (yi_b _ _ _ _ I)).
Qed.

Lemma winv_broker w w' k :
  winv w -> broker_step w w' -> wok w' ->
  (forall a sid, 1 <= sid -> (a, sid) <> k -> unaffected a sid w w') ->
  (1 <= snd k -> fine k w' -> good (fst k) (snd k) w -> good (fst k) (snd k) w') -> winv w'.
Proof.
  intros [W G] S W' U A. split; [done|]. intros a cl sid Ea Hsid F.
  rewrite (bs_cl _ _ S) in Ea. pose proof (G a cl sid Ea Hsid (fine_back _ _ _ S F)) as Gd.
  destruct (decide ((a, sid) = k)) as [<-|Hne]; [apply A; [simpl; lia|done|done]|].
  eapply good_unaffected; [done|apply U; [lia|done]|done].
Qed.

(** A session's step changes one cell and writes frames of that session to
    connections of its actor. *)
Lemma cell_unaffected w w' l x T a sid :
  bk_heap (w_bk w') = <[l := x]> (bk_heap (w_bk w)) ->
  (forall s, bk_heap (w_bk w) !! l = Some s -> skey s = skey x) -> skey x <> (a, sid) ->
  sends T (of_session (s_sessionID x)) (bk_net (w_bk w)) (bk_net (w_bk w')) ->
  (forall tc, T tc -> w_owner w !! tc = Some (s_actorID x)) ->
  (forall l', l' <> l -> down l' w' = down l' w) -> unaffected a sid w w'.
Proof.
  intros Eh Ek Hne Sn Ho Hd. split.
  - intros l1 s Hs Es. assert (l1 <> l) as Hl by (intros ->; rewrite (Ek s Hs) in Es; congruence).
    split; [|by apply Hd]. exists (s_tconn s). rewrite Eh, lookup_insert_ne by done. rewrite Hs. by destruct s.
  - intros Hn l1 s. rewrite Eh, lookup_insert_Some. intros [[_ <-]|[_ Hs]]; [done|by apply (Hn l1)].
  - intros D u. apply sends_onet_ok with (T := T) (P := of_session (s_sessionID x)); [|done].
    intros tc f Hown Htc (Hw & Es & _). split; [done|]. intros _. apply gd_other; [done|]. rewrite Es. intros Ei.
    apply Hne. unfold skey. rewrite Ei. f_equal. unfold owns, own in Hown. rewrite (Ho tc Htc) in Hown. congruence.
Qed.

Lemma cell_wok w w' l x T :
  wok w -> broker_step w w' -> bk_heap (w_bk w') = <[l := x]> (bk_heap (w_bk w)) -> cell_ok w x ->
  (forall tc t, bk_tunnels (w_bk w') !! tc = Some t -> w_owner w !! tc = Some (t_actor t)) ->
  sends T (of_session (s_sessionID x)) (bk_net (w_bk w)) (bk_net (w_bk w')) ->
  (forall tc, T tc -> w_owner w !! tc = Some (s_actorID x)) -> wok w'.
Proof.
  intros W S Eh Cx Ht Sn Ho. apply (wok_broker w); [done|done| |done|].
  - intros l1 s. rewrite Eh, lookup_insert_Some. intros [[_ <-]|[_ Hs]]; [done|by eapply wo_cell].
  - intros a cl Ea. eapply sends_onet_ok; [|exact Sn|by apply (wo_down _ W)].
    intros tc f Hown Htc (Hw & Es & _). split; [done|]. intros ?. split; [done|]. rewrite Es.
    destruct Cx as [_ _ (cl0 & E0 & Hle)]. unfold owns, own in Hown. rewrite (Ho tc Htc) in Hown.
    simplify_eq. lia.
Qed.

(** *** Steps that leave the sessions and the connections alone *)

Lemma winv_broker_quiet w b :
  winv w -> bstep os_error (w_bk w) b -> bk_net b = bk_net (w_bk w) ->
  (forall l s, bk_heap (w_bk w) !! l = Some s -> exists v, bk_heap b !! l = Some (set_tconn v s) /\
     (v = s_tconn s \/ v = None)) ->
  (forall l, bk_heap (w_bk w) !! l = None -> bk_heap b !! l = None) ->
  (forall tc t, bk_tunnels b !! tc = Some t -> w_owner w !! tc = Some (t_actor t)) ->
  winv (set_broker b w).
Proof.
  intros Wi S En Hk Hn Ht. pose proof (wi_ok _ Wi) as W.
  assert (forall l x, bk_heap b !! l = Some x -> exists s v, bk_heap (w_bk w) !! l = Some s /\ x = set_tconn v s /\
    (v = s_tconn s \/ v = None)) as Hx.
  { intros l x Hl. destruct (bk_heap (w_bk w) !! l) as [s|] eqn:E; [|by rewrite Hn in Hl].
    destruct (Hk l s E) as (v & Hv & ?). exists s, v. split_and!; congruence. }
  assert (broker_step w (set_broker b w)) as Bs.
  { split; simpl; auto; [| |by rewrite En].
    - intros l Hl. destruct (wo_log _ W l Hl) as [s Hs]. destruct (Hk l s Hs) as (v & -> & _). eauto.
    - intros l s Hs. split; [|done]. destruct (Hk l s Hs) as (v & Hv & _). eauto. }
  apply (winv_broker w _ ("", 0)); [done|done| | |simpl; lia].
  - apply (wok_broker w); [done|done| |done|].
    + intros l x Hl. destruct (Hx l x Hl) as (s & v & Hs & -> & Hv). destruct (wo_cell _ W l s Hs) as [[? ?] Bd Op].
      split; simpl; [by split| |done]. destruct Hv as [-> | ->]; [exact Bd|done].
    + intros a cl Ea. simpl. rewrite En. by apply (wo_down _ W).
  - intros a sid _ _. split; simpl.
    + intros l s Hs _. split; [|done]. destruct (Hk l s Hs) as (v & Hv & _). eauto.
    + intros Hno l x Hl. destruct (Hx l x Hl) as (s & v & Hs & -> & _). apply (Hno l s Hs).
    + intros D u. by rewrite En.
Qed.

Lemma same_cell (s : session) : set_tconn (s_tconn s) s = s.
Proof. by destruct s. Qed.

Lemma client_frame_ok w a tc f :
  wok w -> f ∈ sent_by_client a tc w -> exists cl, w_cl w !! a = Some cl /\ up_frame a (cl_nextID cl) f.
Proof.
  intros W. unfold sent_by_client. destruct (w_cl w !! a) as [cl|] eqn:Ea; [|by intros ?%elem_of_nil].
  destruct (cl_net cl !! tc) as [c|] eqn:E; [|by intros ?%elem_of_nil]. intros Hf. exists cl. split; [done|].
  destruct (ko_net _ _ (wo_cl _ W a cl Ea) tc c E) as [_ HF]. rewrite Forall_forall in HF. by apply HF.
Qed.

Lemma winv_hello w a tc f :
  winv w -> w_owner w !! tc = Some a -> bk_tunnels (w_bk w) !! tc = None -> f ∈ sent_by_client a tc w ->
  winv (set_broker (fst (hello tc f (w_bk w))) w).
Proof.
  intros Wi Ho Et Hf. pose proof (wi_ok _ Wi) as W. destruct (client_frame_ok w a tc f W Hf) as (cl & Ea & _ & _ & Hh & _).
  apply winv_broker_quiet; [done|by apply BHello|unfold hello; by destruct (_ || _)| | |].
  - intros l s Hs. exists (s_tconn s). rewrite same_cell. split; [|by left]. unfold hello. by destruct (_ || _).
  - intros l Hl. unfold hello. by destruct (_ || _).
  - intros tc' t. unfold hello. destruct (Z.eqb_spec (fType f) TypeHello) as [E|]; simpl; [|by apply (wo_tun _ W)].
    destruct (bool_decide _); simpl; [by apply (wo_tun _ W)|].
    rewrite lookup_insert_Some. intros [[<- <-]|[_ Ht]]; [simpl; by rewrite (Hh E)|by apply (wo_tun _ W)].
Qed.

Lemma detachAll_none tc (b : Broker C) l : bk_heap b !! l = None -> bk_heap (detachAll tc b) !! l = None.
Proof.
  unfold detachAll. destruct (bk_tunnels b !! tc) as [t|]; [|done]. intros E.
  assert (bk_heap (set_tunnels (delete tc (bk_tunnels b)) b) !! l = None) as E1 by done. clear E. revert E1.
  generalize (set_tunnels (delete tc (bk_tunnels b)) b). induction (map_to_list (t_sessions t)) as [|[i l'] ls IH];
    intros b0 E; simpl; [done|]. apply IH. destruct (decide (l = l')) as [->|].
  - unfold run. by rewrite E.
  - destruct (run_frame l' (detach tc) b0) as (_ & _ & _ & ->); [done|done].
Qed.

Lemma detachAll_sub tc (b : Broker C) tc' t :
  bk_tunnels (detachAll tc b) !! tc' = Some t -> bk_tunnels b !! tc' = Some t.
Proof.
  unfold detachAll. destruct (bk_tunnels b !! tc) as [t0|]; [|done].
  assert (bk_tunnels (set_tunnels (delete tc (bk_tunnels b)) b) !! tc' = Some t -> bk_tunnels b !! tc' = Some t) as Hb
    by (simpl; rewrite lookup_delete_Some; tauto).
  intros E. apply Hb. clear Hb. revert E. generalize (set_tunnels (delete tc (bk_tunnels b)) b).
  induction (map_to_list (t_sessions t0)) as [|[i l'] ls IH]; intros b0; simpl; [done|].
  intros E%IH. by destruct (run_frame l' (detach tc) b0) as (_ & _ & <- & _).
Qed.

Lemma winv_closed w tc : winv w -> winv (set_broker (detachAll tc (w_bk w)) w).
Proof.
  intros Wi. pose proof (wi_ok _ Wi) as W. destruct (detachAll_frame tc (w_bk w)) as (F1 & _ & F3).
  apply winv_broker_quiet; [done|apply BClosed|done| | |].
  - intros l s Hs. destruct (F3 l s Hs) as [E|[_ E]]; [exists (s_tconn s); rewrite same_cell; auto|exists None; auto].
  - intros l. apply detachAll_none.
  - intros tc' t Ht%detachAll_sub. by apply (wo_tun _ W).
Qed.

Lemma winv_resumed w a : winv w -> winv (set_broker (set_resumer (resume_done a (bk_resumer (w_bk w))) (w_bk w)) w).
Proof.
  intros Wi. apply winv_broker_quiet; [done|apply BResumed|done| |done|].
  - intros l s Hs. exists (s_tconn s). rewrite same_cell. auto.
  - apply (wo_tun _ (wi_ok _ Wi)).
Qed.

(** *** A session method in the broker *)

(** The acting session's cell is the one its model stands for. *)
Lemma good_cell w a sid l s :
  good a sid w -> once (a, sid) w -> bk_heap (w_bk w) !! l = Some s -> skey s = (a, sid) ->
  exists cl y A D, w_cl w !! a = Some cl /\ csim sid cl (up (a, sid) w) y /\ bk_net (w_bk w) = net (y_b y) /\
    ss (y_b y) = s /\ y_created y = true /\ down l w = MkDown (y_dialed y) (y_reader y) (y_dest y) /\
    yinv (Own := own a w) sid y A D.
Proof.
  intros (cl & y & A & D & Ea & Cs & [B1 B2] & I) O Hl Ek. destruct B2 as [(l' & Hl' & Ek' & Ec & El)|(Hn & _)].
  - assert (l' = l) as -> by (by eapply O). exists cl, y, A, D. split_and!; auto. congruence.
  - by destruct (Hn l s Hl).
Qed.

Lemma good_intro w w' a sid l cl y y' A D :
  broker_step w w' -> w_cl w !! a = Some cl -> csim sid cl (up (a, sid) w) y ->
  y_c y' = y_c y -> y_agent y' = y_agent y -> y_upwait y' = y_upwait y ->
  bk_net (w_bk w') = net (y_b y') -> bk_heap (w_bk w') !! l = Some (ss (y_b y')) -> skey (ss (y_b y')) = (a, sid) ->
  y_created y' = true -> down l w' = MkDown (y_dialed y') (y_reader y') (y_dest y') ->
  yinv (Own := own a w) sid y' A D -> good a sid w'.
Proof.
  intros S Ea (C1 & C2 & C3 & C4) E1 E2 E3 En Eh Ek Ec Ed I. exists cl, y', A, D.
  split_and!; [by rewrite (bs_cl _ _ S)| | |].
  - unfold up. rewrite (bs_up _ _ S). split_and!; rewrite ?E1, ?E2, ?E3; auto.
  - split; [done|]. left. exists l. by split_and!.
  - assert (own a w' = own a w) as -> by (unfold own; by rewrite (bs_owner _ _ S)). exact I.
Qed.

(** [op] is run on the session at [l]: the cell and the connections change as
    [op] says, and the model does the same. *)
Lemma winv_cell_op w w' l s (op : sst C -> sst C) T :
  let st := op (MkSst s (bk_net (w_bk w)) []) in
  winv w -> bk_heap (w_bk w) !! l = Some s ->
  bk_heap (w_bk w') = <[l := ss st]> (bk_heap (w_bk w)) -> bk_net (w_bk w') = net st ->
  bstep os_error (w_bk w) (w_bk w') -> w_cl w' = w_cl w -> w_owner w' = w_owner w -> w_up w' = w_up w ->
  (forall l', l' <> l -> w_down w' !! l' = w_down w !! l') -> len (dl_sent (down l w)) <= len (dl_sent (down l w')) ->
  (forall tc t, bk_tunnels (w_bk w') !! tc = Some t -> w_owner w !! tc = Some (t_actor t)) ->
  skey (ss st) = skey s -> cell_ok w (ss st) ->
  sends T (of_session (s_sessionID s)) (bk_net (w_bk w)) (net st) ->
  (forall tc, T tc -> w_owner w !! tc = Some (s_actorID s)) -> Proper (eqv ==> eqv) op ->
  (forall cl y A D, fine (skey s) w' -> w_cl w !! s_actorID s = Some cl -> csim (s_sessionID s) cl (up (skey s) w) y ->
     yinv (Own := own (s_actorID s) w) (s_sessionID s) y A D ->
     bk_net (w_bk w) = net (y_b y) -> ss (y_b y) = s -> y_created y = true ->
     down l w = MkDown (y_dialed y) (y_reader y) (y_dest y) ->
     exists y' A' D', y_c y' = y_c y /\ y_agent y' = y_agent y /\ y_upwait y' = y_upwait y /\ y_created y' = true /\
       y_b y' = op (y_b y) /\ down l w' = MkDown (y_dialed y') (y_reader y') (y_dest y') /\
       yinv (Own := own (s_actorID s) w) (s_sessionID s) y' A' D') ->
  winv w'.
Proof.
  intros st Wi Hs Eh En Stp E1 E2 E3 Ed El Ht Ek Cx Sn Ho Pr Act. pose proof (wi_ok _ Wi) as W.
  injection Ek as Ka Ki.
  assert (broker_step w w') as Bs.
  { split; auto.
    - intros l' Hl'. rewrite Eh. destruct (decide (l' = l)) as [->|]; [rewrite lookup_insert_eq; eauto|].
      rewrite lookup_insert_ne by done. rewrite Ed in Hl' by done. by apply (wo_log _ W).
    - intros l1 s1 Hs1. destruct (decide (l1 = l)) as [->|Hne].
      + split; [|done]. rewrite Eh, lookup_insert_eq. eexists. split; [done|]. unfold skey. congruence.
      + split; [|unfold down; by rewrite Ed]. rewrite Eh, lookup_insert_ne by done. eauto.
    - intros tc. rewrite En. by eapply sends_dom. }
  assert (skey (ss st) = skey s) as Ek by (unfold skey; congruence).
  rewrite <- En in Sn. rewrite <- Ki in Sn. rewrite <- Ka in Ho.
  apply (winv_broker w w' (skey s)); [done|done| | |].
  - eapply cell_wok; eauto.
  - intros a sid _ Hne. eapply cell_unaffected; [exact Eh| |by rewrite Ek|exact Sn|exact Ho|].
    + intros s1 Hs1. congruence.
    + intros l' Hl'. unfold down. by rewrite Ed.
  - intros _ F G. destruct (good_cell w _ _ l s G (fi_once _ _ (fine_back _ _ _ Bs F)) Hs eq_refl)
      as (cl & y & A & D & Ea & Cs & B1 & Es & Ec & Edn & I).
    destruct (Act cl y A D F Ea Cs I B1 Es Ec Edn) as (y' & A' & D' & Y1 & Y2 & Y3 & Y4 & Y5 & Y6 & I').
    assert (eqv st (op (y_b y))) as [Q1 Q2] by (apply Pr; split; simpl; [congruence|done]).
    eapply (good_intro w w' _ _ l cl y y' A' D'); eauto.
    + by rewrite En, Y5.
    + rewrite Eh, lookup_insert_eq, Y5. by rewrite <- Q1.
    + rewrite Y5, <- Q1. exact Ek.
Qed.

(** A method that is run without binding the session first. *)
Lemma winv_run w w' l s (op : sst C -> sst C) :
  winv w -> bk_heap (w_bk w) !! l = Some s -> w_bk w' = run l op (w_bk w) ->
  (forall st, life st (op st)) -> (forall st, swf (ss st) -> talks st (op st)) -> Proper (eqv ==> eqv) op ->
  bstep os_error (w_bk w) (run l op (w_bk w)) -> w_cl w' = w_cl w -> w_owner w' = w_owner w -> w_up w' = w_up w ->
  (forall l', l' <> l -> w_down w' !! l' = w_down w !! l') -> len (dl_sent (down l w)) <= len (dl_sent (down l w')) ->
  (forall y A D, is_u64 (s_sessionID s) -> fine (skey s) w' -> yinv (Own := own (s_actorID s) w) (s_sessionID s) y A D ->
     bk_net (w_bk w) = net (y_b y) -> ss (y_b y) = s -> y_created y = true ->
     down l w = MkDown (y_dialed y) (y_reader y) (y_dest y) ->
     exists y' A' D', y_c y' = y_c y /\ y_agent y' = y_agent y /\ y_upwait y' = y_upwait y /\ y_created y' = true /\
       y_b y' = op (y_b y) /\ down l w' = MkDown (y_dialed y') (y_reader y') (y_dest y') /\
       yinv (Own := own (s_actorID s) w) (s_sessionID s) y' A' D') ->
  winv w'.
Proof.
  intros Wi Hs Ew Lf Tk Pr Stp E1 E2 E3 Ed El Act. pose proof (wi_ok _ Wi) as W.
  destruct (wo_cell _ W l s Hs) as [Ws Bd Op]. set (st0 := MkSst s (bk_net (w_bk w)) []).
  destruct (Tk st0 Ws) as [Tw Ti Tb Tsn]. destruct (Lf st0) as [Lk _ _ _ _]. injection Lk as La Li.
  simpl in Tw, Ti, Tb, Tsn, La, Li. unfold st0 in *.
  apply (winv_cell_op w w' l s op (fun tc => s_tconn s = Some tc)); auto.
  - by rewrite Ew, (run_heap l op _ s Hs).
  - by rewrite Ew, (run_net l op _ s Hs).
  - by rewrite Ew.
  - intros tc t. rewrite Ew. destruct (run_frame l op (w_bk w)) as (_ & _ & -> & _). apply (wo_tun _ W).
  - unfold skey. by rewrite La, Li.
  - split; [by apply Tw| |].
    + intros tc Htc. rewrite La. apply Bd. destruct Tb; congruence.
    + rewrite La, Li. exact Op.
  - intros cl y A D F _ _. by apply Act; [apply Ws|].
Qed.

Lemma run_absent l op (b : Broker C) : bk_heap b !! l = None -> run l op b = b.
Proof. intros E. unfold run. by rewrite E. Qed.

Lemma winv_watchdog w l : winv w -> winv (set_broker (run l watchdog_fire (w_bk w)) w).
Proof.
  intros Wi. destruct (bk_heap (w_bk w) !! l) as [s|] eqn:Hs; [|rewrite run_absent by done; by destruct w].
  apply (winv_run w _ l s watchdog_fire); auto with tunnel; [apply _|apply BWatchdog|done|].
  intros y A D Hu F I _ _ Hc Ed. exists (with_b (watchdog_fire (y_b y)) y), A, D. split_and!; auto.
  apply yinv_broker; [done|apply binv_watchdog; [done|apply I]|..]; unfold watchdog_fire; by case_match.
Qed.

Lemma down_set w l d : down l (set_down l d w) = d.
Proof. unfold down, set_down. simpl. by rewrite lookup_insert_eq. Qed.

Lemma winv_dial_turn w l s r :
  winv w -> bk_heap (w_bk w) !! l = Some s -> dl_dialed (down l w) = false ->
  (exists cap, r = Ok (MkSock [] cap false false)) \/ (exists e, r = Err e /\ str_len ("dial failed: " +:+ e) <= maxString) ->
  winv (dial_turn os_error l s r w).
Proof using Type*.
  intros Wi Hs Hd Hr. unfold dial_turn. set (op := fun st => fst (dialUpstream os_error r st)).
  assert (Proper (eqv ==> eqv) op) as Pr by (intros x x' E; apply (dial_eqv os_error r x x' E)).
  apply (winv_run w _ l s op); auto.
  - intros st. apply life_dial.
  - intros st _. apply talks_dial; [done|]. intros e ->. destruct Hr as [[cap [=]]|(e' & [= <-] & He)]. exact He.
  - apply BDial.
  - intros l' Hl. simpl. by rewrite lookup_insert_ne.
  - by rewrite down_set.
  - intros y A D Hu F I En Es Hc Ed. rewrite Ed in *. simpl in Hd. rewrite down_set.
    destruct (dial_eqv os_error r (MkSst s (bk_net (w_bk w)) []) (y_b y)) as [_ Eg]; [by split|].
    destruct (dialUpstream os_error r (y_b y)) as [b go] eqn:Ew. simpl in Eg. rewrite Eg. simpl.
    eexists _, A, D. split_and!; [..|eapply (yinv_dial _ Hu os_error Hos y A D r b go); eauto]; try done.
    simpl. unfold op. by rewrite Ew.
Qed.

Lemma winv_read_turn w l s p err (fresh : bool) :
  winv w -> bk_heap (w_bk w) !! l = Some s ->
  (if fresh then dl_reader (down l w) = RNext else dl_reader (down l w) = RWait p err) ->
  (forall e, err = Some (Some e) -> str_len e <= maxString) -> winv (read_turn l s p err fresh w).
Proof using Type*.
  intros Wi Hs Hd He. unfold read_turn. set (op := fun st => fst (readUpstream p err st)).
  assert (Proper (eqv ==> eqv) op) as Pr by (intros x x' E; apply (read_eqv p err x x' E)).
  apply (winv_run w _ l s op); auto.
  - intros st. apply life_read.
  - intros st _. by apply talks_read.
  - apply BRead.
  - intros l' Hl. simpl. by rewrite lookup_insert_ne.
  - rewrite down_set. simpl. rewrite len_app. pose proof (len_nonneg (if fresh then p else [])). lia.
  - intros y A D Hu F I En Es Hc Ed. rewrite Ed in *. simpl in Hd. rewrite down_set.
    assert (len (y_dest y ++ if fresh then p else []) < 2 ^ 64) as Hlen.
    { assert (len (dl_sent (down l (set_down l (MkDown (y_dialed y) (snd (readUpstream p err (MkSst s (bk_net (w_bk w)) [])))
        (y_dest y ++ if fresh then p else [])) (set_broker (run l op (w_bk w)) w)))) < 2 ^ 64) as Hf; [|by rewrite down_set in Hf].
      eapply (fi_down _ _ F l); [simpl; by rewrite (run_at l op _ s Hs)|].
      destruct (life_read p err (MkSst s (bk_net (w_bk w)) [])) as [Lk _ _ _ _]. exact Lk. }
    destruct (read_eqv p err (MkSst s (bk_net (w_bk w)) []) (y_b y)) as [_ Eg]; [by split|].
    destruct (readUpstream p err (y_b y)) as [b r] eqn:Ew. simpl in Eg. rewrite Eg. simpl.
    pose proof (yi_D _ _ _ _ I) as P. pose proof (yi_D' _ _ _ _ I) as P'.
    assert (y_reader y <> RStopped) as Hrd by (destruct fresh; rewrite Hd; done).
    destruct (yinv_dest _ Hu y A D p err b r (y_dest y ++ if fresh then p else []) I Ew) as [D' I'];
      [by eapply reader_dialed| |exact Hlen| |exact He|].
    { apply prefix_app_r. etrans; [|exact P]. by apply prefix_app_r. }
    { intros Hdd. rewrite (P' Hdd). destruct fresh; rewrite Hd; simpl; rewrite ?app_nil_r; done. }
    eexists _, A, D'. split_and!; [..|exact I']; try done. simpl. unfold op. by rewrite Ew.
Qed.

(** *** Frames from a sidecar *)

(** Tunnel connections keep the actor they belong to. *)
Definition tun_sub (b b' : Broker C) : Prop :=
  forall tc t', bk_tunnels b' !! tc = Some t' -> exists t, bk_tunnels b !! tc = Some t /\ t_actor t = t_actor t'.

Lemma tun_refl b b' : bk_tunnels b' = bk_tunnels b -> tun_sub b b'.
Proof. intros E tc t'. rewrite E. eauto. Qed.

Lemma tun_trans b1 b2 b3 : tun_sub b1 b2 -> tun_sub b2 b3 -> tun_sub b1 b3.
Proof.
  intros S1 S2 tc t3 E3. destruct (S2 tc t3 E3) as (t2 & E2 & A2). destruct (S1 tc t2 E2) as (t1 & E1 & A1).
  exists t1. split; congruence.
Qed.

Lemma tun_run l op b : tun_sub b (run l op b).
Proof. apply tun_refl. apply run_frame. Qed.

Lemma tun_write tc f b : tun_sub b (write_ignore tc f b).
Proof. apply tun_refl. unfold write_ignore. by case_match. Qed.

Lemma tun_bind tc l b : tun_sub b (bind_session tc l b).
Proof.
  unfold bind_session. destruct (bk_heap b !! l) as [s|]; [|by apply tun_refl].
  eapply tun_trans; [apply (tun_run l (bind tc))|]. unfold register.
  destruct (bk_tunnels _ !! tc) as [t|] eqn:E; [|by apply tun_refl].
  intros tc' t'. simpl. rewrite lookup_insert_Some. intros [[<- <-]|[_ ?]]; eauto.
Qed.

Lemma tun_open a tc f b : tun_sub b (openSession a tc f b).
Proof.
  unfold openSession, attach_found. destruct (match bc_AllowTarget _ with Some _ => _ | None => _ end); [apply tun_write|].
  destruct (lookup_session a _ b) as [l|]; simpl.
  - eapply tun_trans; [apply tun_bind|apply tun_run].
  - eapply tun_trans; [|apply tun_bind]. by apply tun_refl.
Qed.

Lemma tun_handleFrame a tc f b : tun_sub b (handleFrame os_error a tc f b).
Proof.
  assert (forall op, tun_sub b (on_session a (fSessionID f) op b)) as Hop.
  { intros op. unfold on_session. destruct (lookup_session _ _ b); [apply tun_run|by apply tun_refl]. }
  assert (tun_sub b (attachSession a tc f b)) as Ha.
  { unfold attachSession, attach_found. case_match; [eapply tun_trans; [apply tun_bind|apply tun_run]|].
    case_match; [|apply tun_write]. case_match; [|apply tun_open]. eapply tun_trans; [apply tun_open|apply tun_run]. }
  unfold handleFrame. repeat (case_match; [first [apply tun_write | apply tun_open | apply Ha | apply Hop]|]). by apply tun_refl.
Qed.

(** The method a frame runs on a session of the connection's own actor. *)
Lemma frame_op_ok w tc f s op :
  cell_ok w s -> w_owner w !! tc = Some (s_actorID s) -> wf_frame f -> frame_op os_error tc f = Some op ->
  let st := op (MkSst s (bk_net (w_bk w)) []) in
  skey (ss st) = skey s /\ cell_ok w (ss st) /\ Proper (eqv ==> eqv) op /\
  exists T, sends T (of_session (s_sessionID s)) (bk_net (w_bk w)) (net st) /\
    forall tc', T tc' -> w_owner w !! tc' = Some (s_actorID s).
Proof using Type*.
  intros [Ws Bd Opn] Ho Hwf Hop. set (st0 := MkSst s (bk_net (w_bk w)) []).
  assert (forall st op', ss st = s \/ ss st = set_tconn (Some tc) s -> net st = bk_net (w_bk w) ->
    (forall st, life st (op' st)) -> (swf (ss st) -> talks st (op' st)) -> Proper (eqv ==> eqv) op' ->
    skey (ss (op' st)) = skey s /\ cell_ok w (ss (op' st)) /\
    exists T, sends T (of_session (s_sessionID s)) (bk_net (w_bk w)) (net (op' st)) /\
      forall tc', T tc' -> w_owner w !! tc' = Some (s_actorID s)) as Main.
  { intros st op' Es En Lf Tk Pr. assert (swf (ss st)) as Ws' by (destruct Es as [-> | ->]; [done|by destruct Ws]).
    assert (skey (ss st) = skey s) as Ek by (destruct Es as [-> | ->]; done). injection Ek as Ka Ki.
    assert (forall tc', s_tconn (ss st) = Some tc' -> w_owner w !! tc' = Some (s_actorID s)) as Hb.
    { destruct Es as [-> | ->]; [done|]. simpl. intros tc' [= <-]. done. }
    destruct (Tk Ws') as [Tw Ti Tb Tsn]. destruct (Lf st) as [Lk _ _ _ _].
    assert (skey (ss (op' st)) = skey s) as Ek by (rewrite Lk; unfold skey; congruence). pose proof Ek as [= Ka' Ki'].
    split_and!; [done| |].
    - split; [by apply Tw| |by rewrite Ka', Ki']. intros tc' Htc. rewrite Ka'. apply Hb. destruct Tb; congruence.
    - exists (fun tc' => s_tconn (ss st) = Some tc'). split; [|done]. rewrite <- En, <- Ki. by apply Tsn. }
  unfold frame_op in Hop. destruct (fType f =? TypePing); [done|].
  destruct (fType f =? TypeOpen); [injection Hop as <-|].
  { destruct (Main (bind tc st0) (onSidecarAttach 0)) as (M1 & M2 & M3); [by right|done|apply life_attach|intros _; by apply talks_attach|apply _|].
    split_and!; auto. intros x x' E. by rewrite E. }
  destruct (Z.eqb_spec (fType f) TypeAttach) as [Et|]; [injection Hop as <-|].
  { assert (is_u64 (fOffset f)) by (by destruct Hwf).
    destruct (Main (bind tc st0) (onSidecarAttach (fOffset f))) as (M1 & M2 & M3); [by right|done|apply life_attach|intros _; by apply talks_attach|apply _|].
    split_and!; auto. intros x x' E. by rewrite E. }
  destruct (fType f =? TypeData); [injection Hop as <-|].
  { destruct (Main st0 (onData os_error (fOffset f) (fPayload f))) as (M1 & M2 & M3);
      [by left|done|apply life_onData|intros _; by apply talks_onData|apply _|]. split_and!; auto. apply _. }
  destruct (fType f =? TypeAck); [injection Hop as <-|].
  { destruct (Main st0 (onDownstreamAck (fOffset f))) as (M1 & M2 & M3);
      [by left|done|apply life_ack|intros _; apply talks_ack|apply _|]. split_and!; auto. apply _. }
  destruct (fType f =? TypeClose); [injection Hop as <-|done].
  destruct (Main st0 (onSidecarClose (fDir f) (fReason f))) as (M1 & M2 & M3);
    [by left|done|apply life_close|intros _; apply talks_close|apply _|]. split_and!; auto. apply _.
Qed.

Lemma recv_frame_op tc f (y : sys C) op :
  y_created y = true -> frame_op os_error tc f = Some op -> broker_recv os_error tc f y = with_b (op (y_b y)) y.
Proof.
  intros Hc. unfold frame_op, broker_recv. rewrite Hc. repeat (case_match; [intros [= <-]; done || done|]). done.
Qed.

(** A reply on the connection: any session may see it, none is changed. *)
Lemma winv_reply w a tc f g b' :
  winv w -> w_owner w !! tc = Some a -> (exists cl, w_cl w !! a = Some cl /\ up_frame a (cl_nextID cl) f) ->
  reply f g -> bstep os_error (w_bk w) b' -> bk_heap b' = bk_heap (w_bk w) ->
  bk_net b' = bk_net (write_ignore tc g (w_bk w)) -> tun_sub (w_bk w) b' -> winv (set_broker b' w).
Proof.
  intros Wi Ho (cl & Ea & Hwf & Hid & _) Hg Stp Eh En Tn. pose proof (wi_ok _ Wi) as W.
  pose proof (ko_next _ _ (wo_cl _ W a cl Ea)) as Kn.
  assert (wf_frame g /\ (fSessionID g = fSessionID f \/ fSessionID g = 0)) as [Hwg Hsg].
  { destruct Hg as [E|_|_].
    - split; [|by right]. constructor. by destruct Hwf.
    - split; [|by left]. constructor; [by destruct Hwf|done|done].
    - split; [|by left]. constructor; [by destruct Hwf|done|done]. }
  assert (forall sid D u, 1 <= sid -> good_down sid D u g) as Hgd.
  { intros sid D u Hsid. destruct Hg as [E|_|_]; [constructor; by destruct Hwf|..];
      (destruct (decide (fSessionID f = sid)) as [<-|]; [by constructor|by apply gd_other; [apply pb_wf|]]). }
  assert (sends (fun tc' => tc' = tc) (fun h => h = g) (bk_net (w_bk w)) (bk_net b')) as Sn.
  { rewrite En. unfold write_ignore. destruct (bk_net (w_bk w) !! tc) as [c|] eqn:E; [|reflexivity].
    apply rtc_once. by apply put_frame. }
  assert (broker_step w (set_broker b' w)) as Bs.
  { split; simpl; auto.
    - intros l Hl. rewrite Eh. by apply (wo_log _ W).
    - intros l s Hs. rewrite Eh. split; [eauto|done].
    - intros tc'. by eapply sends_dom. }
  apply (winv_broker w _ ("", 0)); [done|done| | |simpl; lia].
  - apply (wok_broker w); [done|done| | |].
    + simpl. rewrite Eh. apply (wo_cell _ W).
    + intros tc' t' Ht'. destruct (Tn tc' t' Ht') as (t & Ht & <-). by apply (wo_tun _ W).
    + intros a1 cl1 Ea1. eapply sends_onet_ok; [|exact Sn|by apply (wo_down _ W)].
      intros tc' h Hown -> ->. unfold owns, own in Hown. assert (a1 = a) as -> by congruence.
      assert (cl1 = cl) as -> by congruence. apply wf_post; [done|]. split_and!; [done|destruct Hsg; lia|]. by destruct Hg.
  - intros a1 sid Hsid _. split; simpl.
    + intros l s Hs _. split; [|done]. exists (s_tconn s). by rewrite same_cell, Eh.
    + intros Hn l s. rewrite Eh. apply Hn.
    + intros D u. eapply sends_onet_ok; [|exact Sn]. intros tc' h _ _ ->. apply wf_post; auto.
Qed.

(** What the sidecar has sent is what the model has sent. *)
Lemma sent_up_model w a sid cl u y from f :
  w_cl w !! a = Some cl -> csim sid cl u y -> f ∈ sent_by_client a from w -> f ∈ sent_up from y.
Proof. intros Ea (_ & En & _). unfold sent_by_client, sent_up. by rewrite Ea, En. Qed.

(** A session created by a frame of its own actor. *)
Lemma new_op_ok w a tc f cl :
  wok w -> w_owner w !! tc = Some a -> w_cl w !! a = Some cl -> up_frame a (cl_nextID cl) f -> creates f ->
  let st := new_op tc f (MkSst (fresh_session a f (w_bk w)) (bk_net (w_bk w)) []) in
  skey (ss st) = (a, fSessionID f) /\ cell_ok w (ss st) /\
  sends (fun tc' => Some tc = Some tc') (of_session (s_sessionID (ss st))) (bk_net (w_bk w)) (net st).
Proof using Type*.
  intros W Ho Ea (Hwf & Hid & _ & Hge) Hcr st. specialize (Hge ltac:(destruct Hcr as [?|[? _]]; auto)).
  set (st0 := MkSst (fresh_session a f (w_bk w)) (bk_net (w_bk w)) []) in *.
  assert (swf (ss (bind tc st0))) as Ws.
  { split; [destruct Hcr as [E|[E _]]; by destruct Hwf|done]. }
  assert (talks (bind tc st0) st) as Tk.
  { unfold st, new_op. destruct (Z.eqb_spec (fType f) TypeOpen) as [|Hno]; [apply talks_refl|].
    apply talks_attach. destruct Hcr as [|[E _]]; [done|]. by destruct Hwf. }
  destruct Tk as [Tw _ Tb Tsn]. specialize (Tw Ws). specialize (Tsn Ws). simpl in Tb, Tsn.
  assert (skey (ss st) = (a, fSessionID f)) as Ek.
  { unfold st, new_op. destruct (_ =? _); [done|].
    destruct (life_attach (fOffset f) (bind tc st0)) as [Lk _ _ _ _]. by rewrite Lk. }
  pose proof Ek as [= Ka Ki]. split_and!; [done| |by rewrite Ki].
  split; [done| |rewrite Ka, Ki; eauto]. intros tc' Htc. rewrite Ka. destruct Tb as [Tb|Tb]; [|congruence].
  rewrite Tb in Htc. injection Htc as <-. done.
Qed.

(** The model, still without a session, creates it on the same frame. *)
Lemma new_op_model w a tc f y A D :
  wok w -> creates f -> is_u64 (fSessionID f) -> bk_net (w_bk w) = net (y_b y) -> y_created y = false ->
  (exists t, ss (y_b y) = newSession (bc_SessionBufferBytes (withDefaults bcfg)) a (fSessionID f) t) ->
  yinv (Own := own a w) (fSessionID f) y A D -> good_up (fSessionID f) A (cs_downDelivered (cs (y_c y))) f ->
  yinv (Own := own a w) (fSessionID f)
    (with_created (with_b (new_op tc f (MkSst (fresh_session a f (w_bk w)) (bk_net (w_bk w)) [])) y)) A D.
Proof using Type*.
  intros W Hcr Hu B1 Ec [t Es] I Hf. pose proof (cfg_reachable os_error bcfg _ (wo_bk _ W)) as Ecfg.
  set (y0 := with_b (MkSst (fresh_session a f (w_bk w)) (net (y_b y)) []) y).
  assert (yinv (Own := own a w) (fSessionID f) y0 A D) as I0.
  { unfold y0, fresh_session. rewrite Ecfg. by eapply yinv_target. }
  replace (with_created _) with (broker_recv os_error tc f y0).
  - apply yinv_broker_recv; [done|done|done|done|by right].
  - unfold broker_recv, new_op. change (y_created y0) with (y_created y). rewrite Ec, B1.
    destruct Hcr as [E|[E Ef]]; rewrite E; simpl; [done|]. by rewrite Ef.
Qed.

(** A frame creates the session. *)
Lemma winv_create w a tc from f b' :
  winv w -> w_owner w !! tc = Some a -> f ∈ sent_by_client a from w ->
  creates f -> bstep os_error (w_bk w) b' -> tun_sub (w_bk w) b' ->
  let st := new_op tc f (MkSst (fresh_session a f (w_bk w)) (bk_net (w_bk w)) []) in
  bk_heap b' = <[bk_next (w_bk w) := ss st]> (bk_heap (w_bk w)) -> bk_net b' = net st -> winv (set_broker b' w).
Proof using Type*.
  intros Wi Ho Hf Hcr Stp Tn st Eh En. pose proof (wi_ok _ Wi) as W.
  destruct (client_frame_ok w a from f W Hf) as (cl & Ea & Hup).
  destruct (new_op_ok w a tc f cl W Ho Ea Hup Hcr) as (Ek & Cx & Sn). fold st in Ek, Cx, Sn. pose proof Ek as [= Ka Ki].
  assert (bk_heap (w_bk w) !! bk_next (w_bk w) = None) as Hfr by (apply (to_next _ _ (wo_table _ W)); lia).
  set (l := bk_next (w_bk w)) in *. rewrite <- En in Sn.
  assert (broker_step w (set_broker b' w)) as Bs.
  { split; simpl; auto; [..|intros tc'; by eapply sends_dom].
    - intros l' Hl'. rewrite Eh. destruct (wo_log _ W l' Hl') as [s Hs]. rewrite lookup_insert_ne; [eauto|congruence].
    - intros l' s Hs. rewrite Eh. split; [|done]. rewrite lookup_insert_ne; [eauto|congruence]. }
  assert (forall tc', Some tc = Some tc' -> w_owner w !! tc' = Some (s_actorID (ss st))) as HT
    by (rewrite Ka; by intros tc' [= <-]).
  apply (winv_broker w _ (a, fSessionID f)); [done|done| | |].
  - eapply (cell_wok w _ l (ss st)); [done|done|done|done| |exact Sn|exact HT].
    intros tc' t' Ht'. destruct (Tn tc' t' Ht') as (t & Ht & <-). by apply (wo_tun _ W).
  - intros a1 sid _ Hne. eapply (cell_unaffected w _ l (ss st)); [done|intros; congruence|congruence|exact Sn|exact HT|done].
  - intros _ F (cl0 & y & A & D & E0 & Cs & [B1 B2] & I). simpl in F, E0, Cs, B2, I.
    assert (bk_heap (w_bk (set_broker b' w)) !! l = Some (ss st)) as Hl by (simpl; by rewrite Eh, lookup_insert_eq).
    destruct B2 as [(l0 & Hl0 & Ek0 & _)|(Hn & Ec & Ed & Er & Et & Es)].
    { exfalso. assert (l0 = l) as ->; [|congruence].
      eapply (fi_once _ _ F l0 l); [simpl; rewrite Eh, lookup_insert_ne; [exact Hl0|congruence]|exact Hl|done|done]. }
    eapply (good_intro w _ a (fSessionID f) l cl0 y (with_created (with_b st y)) A D); try done.
    + simpl. rewrite Ed, Er, Et. unfold down. simpl. destruct (w_down w !! l) as [d|] eqn:E; [|done].
      destruct (wo_log _ W l) as [? ?]; [eauto|congruence].
    + apply new_op_model; auto; [destruct Hup as (Hwf & _); destruct Hcr as [E|[E _]]; by destruct Hwf|].
      eapply (sent_up_good _ _ _ _ from); [exact I|]. by eapply sent_up_model.
Qed.

Lemma winv_frame w a from tc t f :
  winv w -> w_owner w !! tc = Some a -> bk_tunnels (w_bk w) !! tc = Some t -> f ∈ sent_by_client a from w ->
  winv (set_broker (handleFrame os_error (t_actor t) tc f (w_bk w)) w).
Proof using Type*.
  intros Wi Ho Ht Hf. pose proof (wi_ok _ Wi) as W. pose proof (wo_table _ W) as Tb.
  assert (t_actor t = a) as Eta by (pose proof (wo_tun _ W tc t Ht); congruence).
  destruct (client_frame_ok w a from f W Hf) as (cl & Ea & Hup).
  pose proof (BFrame os_error (w_bk w) tc t f Ht) as Stp. rewrite Eta in Stp |- *.
  pose proof (handleFrame_effect os_error a tc f (w_bk w) t Tb Ht) as E.
  pose proof (tun_handleFrame a tc f (w_bk w)) as Tn. cbv zeta in E.
  set (b' := handleFrame os_error a tc f (w_bk w)) in *.
  remember (bk_heap b') as h eqn:Eh. remember (bk_net b') as n eqn:En. symmetry in Eh, En.
  destruct E as [|g Hg|l s op El Hs Hop st|Hnone Hcr st].
  - apply winv_broker_quiet; [done|done|done| |by rewrite Eh|].
    + intros l s Hs. exists (s_tconn s). rewrite same_cell, Eh. auto.
    + intros tc' t' Ht'. destruct (Tn tc' t' Ht') as (t0 & Ht0 & <-). by apply (wo_tun _ W).
  - eapply (winv_reply w a tc f g); eauto.
  - destruct (to_live _ _ Tb _ _ El) as (s0 & Hs0 & Ek & _). assert (s0 = s) as -> by congruence.
    injection Ek as Ka Ki. pose proof (wo_cell _ W l s Hs) as Co.
    destruct (frame_op_ok w tc f s op Co ltac:(congruence) (proj1 Hup) Hop) as (K1 & K2 & K3 & T & K4 & K5).
    apply (winv_cell_op w _ l s op T); auto.
    + done.
    + intros tc' t' Ht'. destruct (Tn tc' t' Ht') as (t0 & Ht0 & <-). by apply (wo_tun _ W).
    + intros cl0 y A D F E0 Cs I B1 Es Ec Ed. exists (broker_recv os_error tc f y), A, D.
      rewrite (recv_frame_op tc f y op Ec Hop). split_and!; auto.
      rewrite <- (recv_frame_op tc f y op Ec Hop). destruct Co as [[Hu _] _ _].
      apply yinv_broker_recv; [done|done|done| |right; congruence].
      eapply (sent_up_good _ _ _ _ from); [exact I|]. rewrite Ka in *. by eapply sent_up_model.
  - eapply (winv_create w a tc from f); eauto.
Qed.

(** ** Every step *)

Lemma winv_step w w' : winv w -> wstep os_error w w' -> winv w'.
Proof using Type*.
  intros I S. destruct S as [a cfg ? ?|a cl cap cw target ? ? ?|a cl id p ? ?|a cl id ?|a cl id r ? ?|a cl id r ? ? ? ?|
    a cl from tc now f ? ? ? ?|a cl tc now n ? ?|a cl tc cu cd now ? ? ? ? ? ? ?|a cl tc ?|a tc f ? ? ?|a from tc t f ? ? ? ?|
    tc|l s cap ? ?|l s e ? ? ?|l s p err ? ? ?|l s rest err ? ? ?|l|a].
  - by apply winv_boot.
  - by apply winv_open.
  - by apply winv_pump.
  - by apply winv_pump.
  - by apply winv_closeUp.
  - by apply winv_closeGone.
  - by apply (winv_client_frame w a cl from tc now f).
  - by apply winv_ping.
  - by apply winv_dial.
  - by apply winv_disconnect.
  - by apply (winv_hello w a tc f).
  - by apply (winv_frame w a from tc t f).
  - by apply winv_closed.
  - apply winv_dial_turn; eauto.
  - apply winv_dial_turn; eauto.
  - by apply winv_read_turn.
  - by apply winv_read_turn.
  - by apply winv_watchdog.
  - by apply winv_resumed.
Qed.

Lemma winv_initial : winv (boot bcfg).
Proof using Type*.
  split; [|intros a cl sid; simpl; by rewrite lookup_empty].
  split; simpl; try (intros; by rewrite lookup_empty in *).
  - apply rtc_refl.
  - intros tc [c E]. by rewrite lookup_empty in E.
  - intros l [d E]. by rewrite lookup_empty in E.
Qed.

Lemma winv_reachable w : rtc (wstep os_error) (boot bcfg) w -> winv w.
Proof using Type*.
  intros R. pose proof winv_initial as I. induction R as [|w0 w1 w S _ IH]; [done|]. apply IH. by eapply winv_step.
Qed.
End invariant.

(** ** Properties *)

Section properties.
Context {C : Type} `{FrameWriterLaws C} (os_error : string) (Hos : str_len os_error <= maxString).
Context (bcfg : Config) (Hbuf : 0 <= bc_SessionBufferBytes (withDefaults bcfg)).
(** Any reachable deployment. *)
Context (w : world C) (R : rtc (wstep os_error) (boot bcfg) w).

(** C8. End-to-end safety of a whole deployment.  One broker serves any number of
    actors; their sidecars multiplex any number of sessions over connections
    that come and go, all actors numbering their sessions from 1, with replay
    buffers of any size.  Whatever happens, for every session in a sidecar's table that the broker has created
    once: its destination has received a prefix of what its agent wrote, its
    agent a prefix of what its destination sent, and neither end has dropped
    bytes the other still needs.  No byte of another session, of this or any
    other actor, is ever among them. *)
Theorem every_session_exact (a : string) (cl : Client C) (sid : Z) (s : clientSession) (l : nat) (t : session)
    (Ea : w_cl w !! a = Some cl) (Es : cl_sessions cl !! sid = Some s)
    (Hl : bk_heap (w_bk w) !! l = Some t) (Hk : skey t = (a, sid)) (F : fine (a, sid) w) :
  (forall u, s_upstream t = Some u -> sk_out u `prefix_of` ul_sent (up (a, sid) w)) /\
  sk_out (cs_agent s) `prefix_of` dl_sent (down l w) /\
  Base (cs_upBuf s) <= s_upstreamWritten t /\ Base (s_downBuf t) <= cs_downDelivered s.
Proof using Type*.
  pose proof (winv_reachable os_error Hos bcfg Hbuf w R) as I. pose proof (wi_ok _ _ _ I) as W.
  destruct (ko_sess _ _ (wo_cl _ _ _ W a cl Ea) sid s Es) as (_ & _ & Hsid).
  pose proof (wi_good _ _ _ I a cl sid Ea Hsid F) as G.
  destruct (good_cell bcfg w a sid l t G (fi_once _ _ F) Hl Hk) as (cl0 & y & A & D & E0 & Cs & _ & Et & _ & Ed & [Hc Hb PA _ PD _ _]).
  assert (cl0 = cl) as -> by congruence. destruct Cs as (_ & _ & Eu & S4).
  assert (cs (y_c y) = s) as Ey by (destruct S4 as [S4|[S4 _]]; congruence).
  rewrite <- Ey, <- Et, Eu, Ed. simpl. split_and!.
  - intros u Hu. pose proof (bi_conn _ _ _ _ _ Hb) as Hk'. rewrite Hu in Hk'. destruct Hk' as (_ & _ & Hk').
    etrans; [by eapply sink_prefix|]. etrans; [|exact PA]. by apply prefix_app_r.
  - etrans; [eapply sink_prefix, Hc|]. etrans; [|exact PD]. by apply prefix_app_r.
  - destruct (ci_up _ _ _ _ _ Hc) as (x & Rx & ?). unfold Base. by rewrite (rep_base _ _ Rx).
  - destruct (bi_down _ _ _ _ _ Hb) as (x & Rx & ?). unfold Base. by rewrite (rep_base _ _ Rx).
Qed.

(** C9. Isolation of actors on the wire.  Take a DATA frame with a payload that the
    broker has put on a connection dialed by actor [a], of a session id under
    which the broker has created at most one session of [a], short of 2^64 bytes
    in either direction.  It carries bytes of a session that [a] itself opened:
    there is a session [(a, id)] at the broker and the payload is what its
    destination sent at that offset.  Another actor's session with the same id
    never shows up there. *)
Theorem data_goes_to_its_own_actor (a : string) (tc : nat) (f : Frame)
    (Ho : w_owner w !! tc = Some a) (Hf : f ∈ sent_by_broker tc w) (Ht : fType f = TypeData)
    (Hp : fPayload f <> []) (F : fine (a, fSessionID f) w) :
  exists l t, bk_heap (w_bk w) !! l = Some t /\ skey t = (a, fSessionID f) /\
    at_offset (dl_sent (down l w)) (fOffset f) (fPayload f).
Proof using Type*.
  pose proof (winv_reachable os_error Hos bcfg Hbuf w R) as I. pose proof (wi_ok _ _ _ I) as W.
  destruct (wo_owner _ _ _ W tc a Ho) as [cl Ea].
  assert (1 <= fSessionID f <= cl_nextID cl) as Hsid.
  { unfold sent_by_broker in Hf. destruct (bk_net (w_bk w) !! tc) as [c|] eqn:E; [|by apply elem_of_nil in Hf].
    destruct (wo_down _ _ _ W a cl Ea tc c Ho E) as [_ HF]. rewrite Forall_forall in HF.
    destruct (HF f Hf) as (_ & ? & ?). auto. }
  destruct (wi_good _ _ _ I a cl _ Ea Hsid F) as (cl0 & y & A & D & E0 & _ & [B1 B2] & Iy).
  assert (good_down (fSessionID f) D (s_upstreamWritten (ss (y_b y))) f) as Hg.
  { eapply (sent_down_good _ _ _ _ tc); [exact Iy|exact Ho|]. unfold sent_down. rewrite <- B1. exact Hf. }
  pose proof (good_down_data _ _ _ _ Hg Ht eq_refl) as Hat.
  assert (at_offset (y_dest y) (fOffset f) (fPayload f)) as Hd.
  { eapply at_offset_mono; [|exact Hat]. etrans; [|apply (yi_D _ _ _ _ Iy)]. by apply prefix_app_r. }
  destruct B2 as [(l & Hl & Ek & _ & Ed)|(_ & _ & _ & _ & Ed & _)].
  - exists l, (ss (y_b y)). by rewrite Ed.
  - exfalso. rewrite Ed in Hd. apply at_offset_bound in Hd as Hb. destruct Hd as [Ho' _]. rewrite len_nil in *.
    apply Hp, len_0_nil. pose proof (len_nonneg (fPayload f)). lia.
Qed.

(** C22. No frame lies.  Whatever happens in the deployment, take a session in a
    sidecar's table that the broker has created once and that is short of 2^64
    bytes in either direction.  Of all frames either end ever got onto a
    connection of the actor: a DATA frame of the sidecar carries what the agent
    wrote at that offset of this very session; an ACK or ATTACH of the sidecar
    never claims more than the bytes counted as delivered to the agent, all of
    which the agent's socket has been given; an ACK or ATTACH_OK of the broker
    never claims more than the bytes counted as written upstream, all of which
    the destination's socket has been given. *)
Theorem no_frame_lies (a : string) (cl : Client C) (sid : Z) (s : clientSession) (l : nat) (t : session)
    (tc : nat) (f : Frame)
    (Ea : w_cl w !! a = Some cl) (Es : cl_sessions cl !! sid = Some s)
    (Hl : bk_heap (w_bk w) !! l = Some t) (Hk : skey t = (a, sid)) (F : fine (a, sid) w) (Hf : fSessionID f = sid) :
  (f ∈ sent_by_client a tc w ->
     (fType f = TypeData -> at_offset (ul_sent (up (a, sid) w)) (fOffset f) (fPayload f)) /\
     (fType f = TypeAck \/ fType f = TypeAttach ->
        0 <= fOffset f <= cs_downDelivered s /\ cs_downDelivered s <= len (sk_out (cs_agent s)))) /\
  (w_owner w !! tc = Some a -> f ∈ sent_by_broker tc w -> fType f = TypeAck \/ fType f = TypeAttachOK ->
     0 <= fOffset f <= s_upstreamWritten t /\
     s_upstreamWritten t <= match s_upstream t with Some u => len (sk_out u) | None => 0 end).
Proof using Type*.
  pose proof (winv_reachable os_error Hos bcfg Hbuf w R) as I. pose proof (wi_ok _ _ _ I) as W.
  destruct (ko_sess _ _ (wo_cl _ _ _ W a cl Ea) sid s Es) as (_ & _ & Hsid).
  pose proof (wi_good _ _ _ I a cl sid Ea Hsid F) as G.
  destruct (good_cell bcfg w a sid l t G (fi_once _ _ F) Hl Hk) as (cl0 & y & A & D & E0 & Cs & B1 & Et & _ & _ & Iy).
  assert (cl0 = cl) as -> by congruence. destruct Cs as (_ & En & Eu & S4).
  assert (cs (y_c y) = s) as Ey by (destruct S4 as [S4|[S4 _]]; congruence).
  pose proof Iy as [Hc Hb PA _ _ _ _]. rewrite <- Ey, <- Et, Eu. simpl. split.
  - intros Hin. assert (good_up sid A (cs_downDelivered (cs (y_c y))) f) as Hg.
    { apply (sent_up_good _ _ _ _ tc f Iy). unfold sent_up. unfold sent_by_client in Hin. by rewrite Ea, En in Hin. }
    split; [intros Ht|intros Ht].
    + eapply at_offset_mono; [|by eapply good_up_data]. etrans; [|exact PA]. by apply prefix_app_r.
    + split; [by eapply good_up_count|]. eapply sink_counted; [|apply Hc]. apply Hc.
  - intros Ho Hin Ht. split.
    + eapply good_down_count; [|exact Ht|exact Hf].
      eapply (sent_down_good _ _ _ _ tc f Iy Ho). unfold sent_down. unfold sent_by_broker in Hin. by rewrite B1 in Hin.
    + pose proof (bi_conn _ _ _ _ _ Hb) as Hk'. destruct (s_upstream (ss (y_b y))) as [u|]; [|lia].
      eapply sink_counted; [|apply Hk']. destruct (binv_uw _ _ _ _ _ Hb). lia.
Qed.
End properties.

(** ** Witnesses *)

(** Two actors whose sidecars both have a session 1, to the same target, with
    the buffer sizes the programs default to. *)
Module Demo.
Definition os : string := "broken pipe".
Definition cfg : Config := MkConfig 0 0 0 0 None.
Definition ccfg : ClientConfig := MkClientConfig 0 0 0 0.
Definition client_of (a : string) (w : world Conn) : Client Conn := default (NewClient ccfg) (w_cl w !! a).
Definition cell (l : nat) (w : world Conn) : session := default (newSession 0 "" 0 "") (bk_heap (w_bk w) !! l).
Definition opened (a : string) (w : world Conn) : world Conn :=
  let '(cl, id) := OpenSession (MkSock [] None false false) true "mcp:80" (client_of a w) in
  set_up (a, id) (MkUp [] []) (set_client a cl w).
Definition frame (a : string) (tc : nat) (f : Frame) (w : world Conn) : world Conn :=
  set_broker (handleFrame os a tc f (w_bk w)) w.

Definition w0 : world Conn := boot cfg.
Definition w1 : world Conn := set_client "ns/b" (NewClient ccfg) (set_client "ns/a" (NewClient ccfg) w0).
Definition w2 : world Conn := opened "ns/b" (opened "ns/a" w1).
Definition w3 : world Conn := dial_tunnel "ns/a" (client_of "ns/a" w2) 0 (NewConn new_sock) (NewConn new_sock) 0 w2.
Definition w4 : world Conn := dial_tunnel "ns/b" (client_of "ns/b" w3) 1 (NewConn new_sock) (NewConn new_sock) 0 w3.
Definition w5 : world Conn := set_broker (fst (hello 0 (HelloF "ns/a") (w_bk w4))) w4.
Definition w6 : world Conn := set_broker (fst (hello 1 (HelloF "ns/b") (w_bk w5))) w5.
Definition w7 : world Conn := frame "ns/b" 1 (AttachF 1 0 "mcp:80") (frame "ns/a" 0 (AttachF 1 0 "mcp:80") w6).
Definition w8 : world Conn := dial_turn os 0 (cell 0 w7) (Ok (MkSock [] None false false)) w7.
Definition w9 : world Conn := pump "ns/a" (client_of "ns/a" w8) 1 [x47] true w8.
Definition w10 : world Conn := frame "ns/a" 0 (DataF 1 0 [x47]) w9.
Definition w11 : world Conn := read_turn 0 (cell 0 w10) [x61; x62] None true w10.
Definition w12 : world Conn := set_client "ns/a" (handle_frame 0 1 (DataF 1 0 [x61; x62]) (client_of "ns/a" w11)) w11.

Ltac in_list := vm_compute; repeat (by apply list_elem_of_here) || apply list_elem_of_further.
Ltac by_vm := vm_compute; reflexivity.
Ltac fact := first [by_vm | vm_compute; split; discriminate | vm_compute; discriminate | in_list].

Lemma demo_deployed : rtc (wstep os) w0 w6.
Proof.
  destruct (fw_new_ok (C := Conn)) as (N1 & _ & N2).
  apply (rtc_l _ _ (set_client "ns/a" (NewClient ccfg) w0)); [apply WBoot; fact|].
  apply (rtc_l _ _ w1); [apply WBoot; fact|].
  apply (rtc_l _ _ (opened "ns/a" w1)); [apply (WOpen os w1 "ns/a" (client_of "ns/a" w1) None true "mcp:80"); fact|].
  apply (rtc_l _ _ w2);
    [apply (WOpen os (opened "ns/a" w1) "ns/b" (client_of "ns/b" (opened "ns/a" w1)) None true "mcp:80"); fact|].
  apply (rtc_l _ _ w3); [apply WConnect; done || fact|].
  apply (rtc_l _ _ w4); [apply WConnect; done || fact|].
  apply (rtc_l _ _ w5); [apply WHello with (a := "ns/a"); fact|].
  apply (rtc_l _ _ w6); [apply WHello with (a := "ns/b"); fact|]. apply rtc_refl.
Qed.

Lemma demo_exchanged : rtc (wstep os) w6 w12.
Proof.
  apply (rtc_l _ _ (frame "ns/a" 0 (AttachF 1 0 "mcp:80") w6));
    [apply (WFrame os w6 "ns/a" 0 0 (MkTunnelConn "ns/a" ∅) (AttachF 1 0 "mcp:80")); fact|].
  apply (rtc_l _ _ w7); [apply (WFrame os _ "ns/b" 1 1 (MkTunnelConn "ns/b" ∅) (AttachF 1 0 "mcp:80")); fact|].
  apply (rtc_l _ _ w8); [apply WDialOk; fact|].
  apply (rtc_l _ _ w9); [apply WWrite; fact|].
  apply (rtc_l _ _ w10); [refine (WFrame os w9 "ns/a" 0 0 (MkTunnelConn "ns/a" {[1 := 0%nat]}) (DataF 1 0 [x47]) _ _ _ _); fact|].
  apply (rtc_l _ _ w11); [apply WRead; [fact|fact|done]|].
  apply (rtc_l _ _ w12); [apply WClientFrame with (from := 0%nat); fact|]. apply rtc_refl.
Qed.

Lemma demo_reached : rtc (wstep os) (boot cfg) w12.
Proof. etrans; [apply demo_deployed|apply demo_exchanged]. Qed.

(** The cells and their keys. *)
Lemma demo_cells l t : bk_heap (w_bk w12) !! l = Some t -> skey t = ("ns/a", 1) -> l = 0%nat.
Proof.
  intros E%elem_of_map_to_list. revert E. vm_compute (map_to_list _). rewrite !elem_of_cons.
  intros [[= -> ->]|[[= -> ->]|E%elem_of_nil]] Hk; done.
Qed.

Lemma demo_fine : fine ("ns/a", 1) w12.
Proof.
  split; [|by_vm|].
  - intros l l' s s' E E' K K'. by rewrite (demo_cells l s E K), (demo_cells l' s' E' K').
  - intros l s E K. rewrite (demo_cells l s E K). by_vm.
Qed.
End Demo.

Lemma every_session_exact_witness :
  sk_out (cs_agent (default (newClientSession 0 0 "" new_sock true) (cl_sessions (Demo.client_of "ns/a" Demo.w12) !! 1)))
    `prefix_of` [x61; x62] /\
  (forall u, s_upstream (Demo.cell 0 Demo.w12) = Some u -> sk_out u `prefix_of` [x47]).
Proof.
  pose proof (every_session_exact Demo.os ltac:(vm_compute; discriminate) Demo.cfg ltac:(vm_compute; discriminate)
    Demo.w12 Demo.demo_reached "ns/a" (Demo.client_of "ns/a" Demo.w12) 1
    (default (newClientSession 0 0 "" new_sock true) (cl_sessions (Demo.client_of "ns/a" Demo.w12) !! 1)) 0 (Demo.cell 0 Demo.w12)
    ltac:(Demo.by_vm) ltac:(Demo.by_vm) ltac:(Demo.by_vm) ltac:(Demo.by_vm) Demo.demo_fine) as (P1 & P2 & _).
  assert (ul_sent (up ("ns/a", 1) Demo.w12) = [x47]) as E1 by (Demo.by_vm).
  assert (dl_sent (down 0 Demo.w12) = [x61; x62]) as E2 by (Demo.by_vm).
  rewrite E1 in P1. rewrite E2 in P2. exact (conj P2 P1).
Defined.

Lemma data_goes_to_its_own_actor_witness :
  exists l t, bk_heap (w_bk Demo.w12) !! l = Some t /\ skey t = ("ns/a", 1) /\
    at_offset (dl_sent (down l Demo.w12)) 0 [x61; x62].
Proof.
  exact (data_goes_to_its_own_actor Demo.os ltac:(vm_compute; discriminate) Demo.cfg ltac:(vm_compute; discriminate)
    Demo.w12 Demo.demo_reached "ns/a" 0 (DataF 1 0 [x61; x62]) ltac:(Demo.by_vm) ltac:(Demo.in_list) eq_refl
    ltac:(discriminate) Demo.demo_fine).
Defined.

(** The sidecar's ACK for the two bytes its agent has received. *)
Lemma no_frame_lies_witness :
  AckF 1 2 ∈ sent_by_client "ns/a" 0 Demo.w12 /\
  let s := default (newClientSession 0 0 "" new_sock true) (cl_sessions (Demo.client_of "ns/a" Demo.w12) !! 1) in
  0 <= 2 <= cs_downDelivered s /\ cs_downDelivered s <= len (sk_out (cs_agent s)).
Proof.
  assert (AckF 1 2 ∈ sent_by_client "ns/a" 0 Demo.w12) as Hin by Demo.in_list.
  split; [exact Hin|].
  pose proof (no_frame_lies Demo.os ltac:(vm_compute; discriminate) Demo.cfg ltac:(vm_compute; discriminate)
    Demo.w12 Demo.demo_reached "ns/a" (Demo.client_of "ns/a" Demo.w12) 1
    (default (newClientSession 0 0 "" new_sock true) (cl_sessions (Demo.client_of "ns/a" Demo.w12) !! 1)) 0 (Demo.cell 0 Demo.w12)
    0 (AckF 1 2) ltac:(Demo.by_vm) ltac:(Demo.by_vm) ltac:(Demo.by_vm) ltac:(Demo.by_vm) Demo.demo_fine eq_refl) as [K _].
  exact (proj2 (K Hin) (or_introl eq_refl)).
Defined.
