(* ===== verification/Reconnect.v ===== *)
(** * Reconnect: an actor comes back with all of its sessions

    [System.reconnect_heals] is about one session.  Here the sidecar of an actor
    reconnects in a deployment: HELLO, an ATTACH for every session it has, and
    two round trips in which the broker's frame loop and the sidecar's read loop
    handle everything on the connection in order, the frames of all sessions mixed.
    [sync] relates the deployment to a run of [System.heal] for one of the
    sessions: the frames of that session on the shared connection are the frames
    of [heal], and the others pass by, whatever state their sessions are in. *)
From S2P Require Import Prelude ReplayBuffer Socket Wire Link BrokerSession Sidecar.
From S2P Require Import BrokerStream SidecarStream System Resumer Broker Refinement Traffic Answers Deployment DeploymentInv.

(** ** The reconnect *)

Section reconnect.
Context {C : Type} `{FrameWriter C} (os_error : string).
Implicit Types (w : world C).

(** The broker's frame loop on the frames [fs] of [a]'s connection [tc]. *)
Definition broker_turn (a : string) (tc : nat) (fs : list Frame) w : world C :=
  foldl (fun w f => set_broker (handleFrame os_error a tc f (w_bk w)) w) w fs.

(** The read loop of [a]'s sidecar. *)
Definition client_turn (a : string) (tc : nat) (now : Z) (fs : list Frame) w : world C :=
  foldl (fun w f => match w_cl w !! a with
                    | Some cl => set_client a (handle_frame tc now f cl) w
                    | None => w
                    end) w fs.

(** A round trip: first the broker handles what it has not seen yet ([ku] frames
    were handled before), then the sidecar does ([kd]). *)
Definition round_trip (a : string) (tc : nat) (now : Z) (s : world C * nat * nat) : world C * nat * nat :=
  let '(w, ku, kd) := s in
  let ups := drop ku (sent_by_client a tc w) in
  let w := broker_turn a tc ups w in
  let downs := drop kd (sent_by_broker tc w) in
  let w := client_turn a tc now downs w in
  (w, ku + length ups, kd + length downs)%nat.

(** The sidecar of [a] dials, is greeted, and two round trips follow. *)
Definition reconnect (a : string) (cl : Client C) (tc : nat) (cu cd : C) (now : Z) w : world C * nat * nat :=
  let w := dial_tunnel a cl tc cu cd now w in
  let w := set_broker (fst (hello tc (HelloF a) (w_bk w))) w in
  round_trip a tc now (round_trip a tc now (w, 1%nat, 0%nat)).
End reconnect.

(** The frames of session [sid]. *)
Definition mine (sid : Z) (fs : list Frame) : list Frame := filter (fun f => fSessionID f = sid) fs.

Lemma mine_app sid fs gs : mine sid (fs ++ gs) = mine sid fs ++ mine sid gs.
Proof. apply filter_app. Qed.

Lemma mine_cons sid f fs : fSessionID f = sid -> mine sid (f :: fs) = f :: mine sid fs.
Proof. intros E. unfold mine. by rewrite filter_cons_True. Qed.

Lemma mine_skip sid f fs : fSessionID f <> sid -> mine sid (f :: fs) = mine sid fs.
Proof. intros E. unfold mine. by rewrite filter_cons_False. Qed.

Lemma mine_all sid fs : Forall (wf_of sid) fs -> mine sid fs = fs.
Proof.
  intros HF. induction HF as [|f fs [_ E] _ IH]; [done|]. by rewrite mine_cons, IH.
Qed.

Lemma mine_none sid id fs : id <> sid -> Forall (fun f => fSessionID f = id) fs -> mine sid fs = [].
Proof.
  intros Hi HF. induction HF as [|f fs E _ IH]; [done|]. rewrite mine_skip by congruence. done.
Qed.

Lemma Forall_drop_in {T} (l : list T) k : Forall (fun x => x ∈ l) (drop k l).
Proof. apply Forall_forall. intros x Hx. rewrite <- (take_drop k l). apply elem_of_app. by right. Qed.

(** ** What a frame does to the session it names *)

Section frames.
Context {C : Type} `{FrameWriterLaws C} (os_error : string) (Hos : str_len os_error <= maxString).
Implicit Types (b : Broker C) (st : sst C).

(** Only confirmations touch the download buffer, and they shrink it. *)
Definition shrinks st st' : Prop := Len (s_downBuf (ss st')) <= Len (s_downBuf (ss st)).

#[local] Instance shrinks_preorder : PreOrder shrinks.
Proof. split; [intros st; unfold shrinks; lia|]. intros x y z. unfold shrinks. lia. Qed.

Lemma shrinks_send f st : shrinks st (sendToSidecar f st).
Proof. unfold shrinks, sendToSidecar, tc_write, detach. repeat (case_match; simplify_eq/=); done. Qed.

Lemma shrinks_destroy st : shrinks st (maybeDestroy st).
Proof. unfold shrinks, maybeDestroy, destroy. by repeat case_match. Qed.

Lemma shrinks_closeUpstream c st : shrinks st (closeUpstream c st).
Proof.
  unfold closeUpstream. destruct (s_downClosed (ss st)); [reflexivity|]. etrans; [|apply shrinks_destroy].
  transitivity (upd (set_downClosed true) st); [unfold shrinks; simpl; lia|].
  destruct (bool_decide _); [apply shrinks_send|]. destruct (s_requestOutstanding _); unfold shrinks; simpl; lia.
Qed.

Lemma shrinks_onData o p st : shrinks st (onData os_error o p st).
Proof.
  unfold onData. destruct (onData_check o p (ss st)) as [s w] eqn:E.
  assert (shrinks st (upd (fun _ => s) st)) as S1.
  { revert E. unfold shrinks, onData_check. simpl. repeat (case_match; try (intros [= <- <-]; simpl; lia)). }
  destruct w as [q|]; [|done]. etrans; [exact S1|]. unfold onData_write, up_write.
  destruct (s_upstream _) as [u|]; [|apply shrinks_closeUpstream].
  destruct (sock_write q u) as [u' []]; [|etrans; [|apply shrinks_closeUpstream]; unfold shrinks; simpl; lia].
  unfold commit_upstream. etrans; [|apply shrinks_send]. unfold shrinks. simpl. lia.
Qed.

Lemma shrinks_attach o st : shrinks st (onSidecarAttach o st).
Proof.
  unfold onSidecarAttach. repeat case_match; repeat (etrans; [|apply shrinks_send]); reflexivity.
Qed.

Lemma frame_op_shrinks tc f op st : frame_op os_error tc f = Some op -> shrinks st (op st).
Proof.
  unfold frame_op. repeat (case_match; [intros [= <-]|]); try done.
  - transitivity (bind tc st); [unfold shrinks; simpl; lia|apply shrinks_attach].
  - transitivity (bind tc st); [unfold shrinks; simpl; lia|apply shrinks_attach].
  - apply shrinks_onData.
  - unfold shrinks, onDownstreamAck. simpl. pose proof (TrimTo_len (s_downBuf (ss st)) (fOffset f)). case_match; simpl; lia.
  - unfold onSidecarClose. case_match; [reflexivity|]. etrans; [|apply shrinks_destroy]. unfold shrinks. simpl. lia.
Qed.

(** A session that the frame binds, or that is bound already, answers on the
    connection; any other leaves the connection alone. *)
Lemma frame_op_voice tc f s op :
  wf_frame f -> swf s -> fits (s_downBuf s) -> frame_op os_error tc f = Some op ->
  s_tconn s = Some tc \/ fType f = TypeOpen \/ fType f = TypeAttach -> vocal tc op s.
Proof using Type*.
  intros Wf Hw Hf. unfold frame_op. destruct (_ =? TypePing); [done|].
  destruct (Z.eqb_spec (fType f) TypeOpen) as [|N1]; [intros [= <-] _; eexists _, _; by apply voice_reattach|].
  destruct (Z.eqb_spec (fType f) TypeAttach) as [E|N2];
    [intros [= <-] _; eexists _, _; apply voice_reattach; [by destruct Wf|done|done]|].
  repeat (case_match; [intros [= <-] [Hb|[|]]; [|done|done]|]); try done.
  - by apply vocal_onData.
  - eexists _, _. by apply voice_ack.
  - by apply vocal_close.
Qed.

Lemma frame_op_elsewhere tc f s op (n : gmap nat C) :
  swf s -> frame_op os_error tc f = Some op -> s_tconn s <> Some tc -> fType f <> TypeOpen -> fType f <> TypeAttach ->
  net (op (MkSst s n [])) !! tc = n !! tc.
Proof using Type*.
  intros Hw Hop Hb N1 N2. assert (talks (MkSst s n []) (op (MkSst s n []))) as T.
  { revert Hop. unfold frame_op. destruct (_ =? TypePing); [done|].
    destruct (Z.eqb_spec (fType f) TypeOpen); [done|]. destruct (Z.eqb_spec (fType f) TypeAttach); [done|].
    repeat (case_match; [intros [= <-]|]); try done; auto with tunnel. }
  apply (sends_elsewhere _ _ _ _ tc Hb (tk_sends _ _ T Hw)).
Qed.

(** What a frame does to a session in the table. *)
Lemma handleFrame_own a tc f b l s t op :
  bk_sessions b !! (a, fSessionID f) = Some l -> bk_heap b !! l = Some s -> bk_tunnels b !! tc = Some t ->
  fType f <> TypeOpen -> frame_op os_error tc f = Some op ->
  let st := op (MkSst s (bk_net b) []) in
  bk_heap (handleFrame os_error a tc f b) = <[l := ss st]> (bk_heap b) /\ bk_net (handleFrame os_error a tc f b) = net st.
Proof.
  intros El Hs Ht Ho. unfold frame_op, handleFrame. destruct (_ =? TypePing); [done|].
  destruct (Z.eqb_spec (fType f) TypeOpen); [done|].
  destruct (_ =? TypeAttach).
  { intros [= <-]. unfold attachSession, lookup_session. rewrite El. by eapply attach_found_effect. }
  unfold on_session, lookup_session. rewrite El.
  repeat (case_match; [intros [= <-]; by rewrite (run_heap _ _ _ _ Hs), (run_net _ _ _ _ Hs)|]). done.
Qed.

(** The connection stays registered for its actor. *)
Definition tun_keeps (tc : nat) b b' : Prop :=
  forall t, bk_tunnels b !! tc = Some t -> exists t', bk_tunnels b' !! tc = Some t' /\ t_actor t' = t_actor t.

#[local] Instance tun_keeps_preorder tc : PreOrder (tun_keeps tc).
Proof.
  split; [intros b t; eauto|]. intros b1 b2 b3 K1 K2 t Ht. destruct (K1 t Ht) as (t' & Ht' & <-). by apply K2.
Qed.

Lemma keeps_run tc l op b : tun_keeps tc b (run l op b).
Proof. intros t Ht. destruct (run_frame l op b) as (_ & _ & -> & _). eauto. Qed.

Lemma keeps_write tc tc' f b : tun_keeps tc b (write_ignore tc' f b).
Proof. intros t Ht. unfold write_ignore. case_match; eauto. Qed.

Lemma keeps_bind tc l b : tun_keeps tc b (bind_session tc l b).
Proof.
  intros t Ht. destruct (bk_heap b !! l) as [s|] eqn:E; [|unfold bind_session; rewrite E; eauto].
  rewrite (bind_session_eq tc l b s t E Ht). simpl. rewrite lookup_insert_eq. by eexists.
Qed.

Lemma keeps_open a tc f b : tun_keeps tc b (openSession a tc f b).
Proof.
  unfold openSession, attach_found. destruct (match bc_AllowTarget _ with Some _ => _ | None => _ end); [apply keeps_write|].
  destruct (lookup_session a _ b) as [l|]; simpl; [etrans; [apply keeps_bind|apply keeps_run]|].
  etrans; [|apply keeps_bind]. intros t Ht. simpl. eauto.
Qed.

Lemma keeps_handleFrame a tc f b : tun_keeps tc b (handleFrame os_error a tc f b).
Proof.
  assert (forall op, tun_keeps tc b (on_session a (fSessionID f) op b)) as Hop.
  { intros op. unfold on_session. destruct (lookup_session _ _ b); [apply keeps_run|reflexivity]. }
  assert (tun_keeps tc b (attachSession a tc f b)) as Ha.
  { unfold attachSession, attach_found. case_match; [etrans; [apply keeps_bind|apply keeps_run]|].
    case_match; [|apply keeps_write]. case_match; [|apply keeps_open]. etrans; [apply keeps_open|apply keeps_run]. }
  unfold handleFrame. repeat (case_match; [first [apply keeps_write | apply keeps_open | apply Ha | apply Hop]|]). reflexivity.
Qed.
End frames.

(** ** In step with one session's own recovery *)

Section sync.
Context {C : Type} `{FrameWriterLaws C} (os_error : string) (Hos : str_len os_error <= maxString).
Context (bcfg : Config) (Hbuf : 0 <= bc_SessionBufferBytes (withDefaults bcfg)).
(** Session [sid] of actor [a], the broker's cell of it, and the connection. *)
Context (a : string) (sid : Z) (l tc : nat).
Implicit Types (w : world C) (y : sys C) (fu gu fd gd : list Frame).

(** [w] has sent [fu] up and [fd] down the connection, the session's model [y]
    has sent [gu] and [gd], and both ends of the session are those of the model. *)
Record sync w y fu gu fd gd : Prop := {
  sy_winv : winv os_error bcfg w;
  sy_own : w_owner w !! tc = Some a;
  sy_cl : exists cl, w_cl w !! a = Some cl /\ cl_conn cl = Some tc /\ carries tc fu (cl_net cl) /\
            cl_sessions cl !! sid = Some (cs (y_c y)) /\
            (forall id s, cl_sessions cl !! id = Some s -> fits (cs_upBuf s));
  sy_up : link_up tc gu (y_c y);
  sy_calive : c_alive (y_c y);
  sy_tun : exists t, bk_tunnels (w_bk w) !! tc = Some t /\ t_actor t = a;
  sy_cell : bk_heap (w_bk w) !! l = Some (ss (y_b y));
  sy_key : skey (ss (y_b y)) = (a, sid);
  sy_alive : b_alive (ss (y_b y));
  sy_fits : forall l s, bk_heap (w_bk w) !! l = Some s -> s_actorID s = a -> fits (s_downBuf s);
  sy_down : carries tc fd (bk_net (w_bk w));
  sy_gdown : carries tc gd (net (y_b y));
  sy_created : y_created y = true;
}.

Lemma sync_sent_up w y fu gu fd gd : sync w y fu gu fd gd -> sent_by_client a tc w = fu.
Proof.
  intros S. destruct (sy_cl _ _ _ _ _ _ S) as (cl & Ea & _ & (c & Ec & _ & _ & Hs) & _). unfold sent_by_client. by rewrite Ea, Ec.
Qed.

Lemma sync_sent_down w y fu gu fd gd : sync w y fu gu fd gd -> sent_by_broker tc w = fd.
Proof. intros S. destruct (sy_down _ _ _ _ _ _ S) as (c & Ec & _ & _ & Hs). unfold sent_by_broker. by rewrite Ec. Qed.

Lemma sync_sid w y fu gu fd gd : sync w y fu gu fd gd -> 1 <= sid < 2 ^ 64.
Proof.
  intros S. destruct (sy_cl _ _ _ _ _ _ S) as (cl & Ea & _ & _ & Es & _).
  pose proof (wo_cl _ _ _ (wi_ok _ _ _ (sy_winv _ _ _ _ _ _ S)) a cl Ea) as K.
  destruct (ko_sess _ _ K sid _ Es) as (_ & _ & Hi). pose proof (ko_next _ _ K). lia.
Qed.

(** The broker handles a frame: what remains to be shown of the new state. *)
Lemma sync_broker w y y' fu gu fd gd fd' gd' f :
  sync w y fu gu fd gd -> f ∈ fu -> y_c y' = y_c y -> y_created y' = true ->
  let b' := handleFrame os_error a tc f (w_bk w) in
  bk_heap b' !! l = Some (ss (y_b y')) -> skey (ss (y_b y')) = (a, sid) -> b_alive (ss (y_b y')) ->
  (forall l s, bk_heap b' !! l = Some s -> s_actorID s = a -> fits (s_downBuf s)) ->
  carries tc fd' (bk_net b') -> carries tc gd' (net (y_b y')) -> sync (set_broker b' w) y' fu gu fd' gd'.
Proof using Type*.
  intros S Hf Ec Hcr b' Hl Hk Ha Hfi Hfd Hgd. pose proof (sync_sent_up _ _ _ _ _ _ S) as Eu.
  destruct S as [Wi Ow Cl Lu Al (t & Ht & Eta) Ce Ke Ab Fi Dn Gd Cr].
  destruct (keeps_handleFrame os_error a tc f (w_bk w) t Ht) as (t' & Ht' & Et').
  split; auto; rewrite ?Ec; auto.
  - unfold b'. rewrite <- Eta. eapply (winv_frame os_error Hos bcfg Hbuf w a tc tc t); try done. by rewrite Eu.
  - exists t'. simpl. split; [done|congruence].
Qed.

(** A frame of the session itself. *)
Lemma own_voice f s :
  wf_frame f -> swf s -> fits (s_downBuf s) -> b_alive s -> upward f -> s_tconn s = Some tc \/ fType f = TypeAttach ->
  exists op s' out, frame_op (C := C) os_error tc f = Some op /\ voice tc op s s' out /\ b_alive s' /\ Forall downward out /\
    skey s' = skey s.
Proof.
  intros Wf Hw Hf Ha Hst Hb.
  destruct (decide (fType f = TypeAttach)) as [E|Na].
  { unfold frame_op. rewrite E. destruct (own_attach tc (fOffset f) s Ha) as [Ha' Hs].
    eexists _, _, _. split_and!; [reflexivity|apply voice_reattach; [by destruct Wf|done|done]|done|done|done]. }
  destruct Hb as [Hb|]; [|done]. destruct Hst as [|[E|E]]; [done|..]; unfold frame_op; rewrite E.
  - destruct (own_data tc os_error (fOffset f) (fPayload f) s Ha Hb Hw) as (s' & out & V & Ha' & Hs).
    eexists _, s', out. split_and!; [reflexivity|done|done|done|].
    destruct (vo_answers _ _ _ _ _ V (MkSst s (<[tc := fw_new]> ∅) []) []) as [<- _];
      [done| |exact (lf_key _ _ (life_onData os_error (fOffset f) (fPayload f) (MkSst s (<[tc := fw_new]> ∅) [])))].
    exists fw_new. cbn [net]. rewrite lookup_insert_eq. split; [done|]. destruct fw_new_ok as (? & ? & ?). done.
  - eexists _, _, _. split_and!; [reflexivity|by apply voice_ack|by apply own_ack|by constructor|].
    unfold acked, skey. simpl. by destruct (_ =? 0).
Qed.

Lemma broker_own w y fu gu fd gd f :
  sync w y fu gu fd gd -> f ∈ fu -> fSessionID f = sid -> upward f ->
  s_tconn (ss (y_b y)) = Some tc \/ fType f = TypeAttach ->
  let y' := broker_recv os_error tc f y in
  exists out, Forall (wf_of sid) out /\ Forall downward out /\ s_tconn (ss (y_b y')) = Some tc /\
    sync (set_broker (handleFrame os_error a tc f (w_bk w)) w) y' fu gu (fd ++ out) (gd ++ out).
Proof using Type*.
  intros S Hf Hid Hst Hb y'. pose proof S as [Wi Ow Cl Lu Al (t & Ht & Eta) Ce Ke Ab Fi Dn Gd Cr].
  pose proof (wi_ok _ _ _ Wi) as W. pose proof (wo_table _ _ _ W) as Tb.
  destruct (client_frame_ok os_error bcfg w a tc f W) as (cl & Ea & (Wf & _)); [by rewrite (sync_sent_up _ _ _ _ _ _ S)|].
  set (s := ss (y_b y)) in *. pose proof (eo_swf _ _ (wo_cell _ _ _ W l s Ce)) as Hw.
  assert (bk_sessions (w_bk w) !! (a, fSessionID f) = Some l) as El.
  { rewrite Hid, <- Ke. apply (to_all _ _ Tb l s Ce). by destruct Ab. }
  destruct (own_voice f s) as (op & s' & out & Hop & V & Ab' & Hso & Ke'); [done|done|by eapply Fi; [|injection Ke]|done..|].
  exists out. pose proof V as [Va Vf Vb Vi Vw].
  destruct (handleFrame_own os_error a tc f (w_bk w) l s t op El Ce Ht) as [Eh En]; [by destruct Hst as [->|[->| ->]]|done|].
  destruct (Va (MkSst s (bk_net (w_bk w)) []) fd eq_refl Dn) as [E1 N1].
  destruct (Va (y_b y) gd eq_refl Gd) as [E2 N2]. rewrite E1 in Eh.
  assert (y' = with_b (op (y_b y)) y) as Ey by (by apply recv_frame_op).
  assert (s_sessionID s = sid) as Es by (by injection Ke). rewrite Es in Vf.
  clearbody y'. subst y'. split_and!; [done|done|by simpl; rewrite E2|].
  eapply sync_broker; [exact S|done|done|done|cbn [y_b with_b]; rewrite E2|cbn [y_b with_b]; rewrite E2|cbn [y_b with_b]; rewrite E2| | |]; [|congruence|done| |by rewrite En|done].
  - rewrite Eh. apply lookup_insert_eq.
  - intros l0 s0. rewrite Eh, lookup_insert_Some. intros [[_ <-]|[_ E0]]; [|by eapply Fi].
    pose proof (frame_op_shrinks os_error tc f op (y_b y) Hop) as Sh. unfold shrinks in Sh. rewrite E2 in Sh.
    unfold fits. pose proof (Fi l s Ce ltac:(by injection Ke)) as F. unfold fits in F. fold s in Sh. intros _. lia.
Qed.

Lemma carries_ext fs (n n' : gmap nat C) : n' !! tc = n !! tc -> carries tc fs n -> carries tc fs n'.
Proof. intros E (c & Ec & W). exists c. by rewrite E. Qed.

Lemma voice_net op s s' out fs (n : gmap nat C) :
  voice tc op s s' out -> carries tc fs n -> carries tc (fs ++ out) (net (op (MkSst s n []))).
Proof. intros V L. by apply (vo_answers _ _ _ _ _ V). Qed.

Lemma mine_wf id out : id <> sid -> Forall (wf_of id) out -> mine sid out = [].
Proof. intros Hi HF. apply (mine_none sid id); [done|]. eapply Forall_impl; [exact HF|]. by intros f []. Qed.

Lemma reply_other f g : wf_frame f -> 1 <= sid -> fSessionID f <> sid -> reply f g -> wf_frame g /\ fSessionID g <> sid.
Proof.
  intros Wf Hs Hne [Ht|Ht|Ht].
  - split; [constructor; by destruct Wf|simpl; lia].
  - split; [constructor; [by destruct Wf|done|done]|done].
  - split; [constructor; [by destruct Wf|done|done]|done].
Qed.

(** What a frame of another session does to the heap and the connection. *)
Lemma frame_other w y fu gu fd gd f :
  sync w y fu gu fd gd -> f ∈ fu -> fSessionID f <> sid ->
  let b' := handleFrame os_error a tc f (w_bk w) in
  bk_heap b' !! l = Some (ss (y_b y)) /\
  (forall l s, bk_heap b' !! l = Some s -> s_actorID s = a -> fits (s_downBuf s)) /\
  exists out, mine sid out = [] /\ carries tc (fd ++ out) (bk_net b').
Proof using Type*.
  intros S Hf Hid. pose proof (sync_sid _ _ _ _ _ _ S) as Hs1. pose proof S as [Wi Ow Cl Lu Al (t & Ht & Eta) Ce Ke Ab Fi Dn Gd Cr].
  pose proof (wi_ok _ _ _ Wi) as W. pose proof (wo_table _ _ _ W) as Tb.
  destruct (client_frame_ok os_error bcfg w a tc f W) as (cl & Ea & (Wf & _)); [by rewrite (sync_sent_up _ _ _ _ _ _ S)|].
  pose proof (handleFrame_effect os_error a tc f (w_bk w) t Tb Ht) as E. cbv zeta in E |- *.
  set (b' := handleFrame os_error a tc f (w_bk w)) in *.
  remember (bk_heap b') as h eqn:Eh. remember (bk_net b') as n eqn:En.
  destruct E as [|g Hg|l' s op El Hs Hop st|Hnone Hcr st].
  - split_and!; [done|done|]. exists []. by rewrite app_nil_r.
  - split_and!; [done|done|]. destruct (reply_other f g Wf ltac:(lia) Hid Hg) as [Wg Ng]. exists [g].
    split; [by rewrite mine_skip|]. unfold write_ignore. destruct Dn as (c & Ec & Wc). rewrite Ec.
    eapply carries_write; [by exists c|done|done].
  - destruct (to_live _ _ Tb _ _ El) as (s0 & Hs0 & Ek & _). assert (s0 = s) as -> by congruence. injection Ek as Ka Ki.
    pose proof (eo_swf _ _ (wo_cell _ _ _ W l' s Hs)) as Hw. pose proof (Fi l' s Hs Ka) as Hfi.
    assert (l' <> l) as Hl by (intros ->; injection Ke as K1 K2; congruence).
    split_and!.
    + by rewrite lookup_insert_ne.
    + intros l0 s1. rewrite lookup_insert_Some. intros [[_ <-]|[_ E0]]; [|by eapply Fi].
      pose proof (frame_op_shrinks os_error tc f op (MkSst s (bk_net (w_bk w)) []) Hop) as Sh. unfold shrinks, fits in *.
      simpl in Sh. fold st in Sh. intros _. lia.
    + destruct (decide (s_tconn s = Some tc \/ fType f = TypeOpen \/ fType f = TypeAttach)) as [Hb|Hb].
      * destruct (frame_op_voice os_error Hos tc f s op Wf Hw Hfi Hop Hb) as (s' & out & V). exists out.
        split; [|by apply (voice_net op s s')]. apply (mine_wf (s_sessionID s)); [congruence|apply V].
      * exists []. split; [done|]. rewrite app_nil_r. eapply carries_ext; [|exact Dn].
        apply (frame_op_elsewhere os_error Hos tc f s op); tauto.
  - assert (bk_next (w_bk w) <> l) as Hl by (intros <-; by rewrite (to_next _ _ Tb) in Ce).
    assert (swf (fresh_session a f (w_bk w))) as Hw by (split; simpl; [by destruct Wf|done]).
    assert (fits (s_downBuf (fresh_session a f (w_bk w)))) as Hfi by done.
    split_and!.
    + by rewrite lookup_insert_ne.
    + intros l0 s1. rewrite lookup_insert_Some. intros [[_ <-]|[_ E0]]; [|by eapply Fi]. unfold st, new_op.
      destruct (_ =? _); [done|].
      pose proof (shrinks_attach (fOffset f) (bind tc (MkSst (fresh_session a f (w_bk w)) (bk_net (w_bk w)) []))) as Sh.
      unfold shrinks in Sh. unfold fits in *. simpl in Sh, Hfi. intros _. lia.
    + unfold st, new_op. destruct (Z.eqb_spec (fType f) TypeOpen) as [|Hno]; [exists []; by rewrite app_nil_r|].
      assert (is_u64 (fOffset f)) as Ho by (destruct Hcr as [|[Et _]]; [done|by destruct Wf]).
      pose proof (voice_reattach (C := C) tc (fOffset f) _ Ho Hw Hfi) as V.
      eexists. split; [|exact (voice_net _ _ _ _ _ _ V Dn)].
      apply (mine_wf (fSessionID f)); [done|apply (vo_frames _ _ _ _ _ V)].
Qed.

Lemma broker_other w y fu gu fd gd f :
  sync w y fu gu fd gd -> f ∈ fu -> fSessionID f <> sid ->
  exists out, mine sid out = [] /\
    sync (set_broker (handleFrame os_error a tc f (w_bk w)) w) y fu gu (fd ++ out) gd.
Proof using Type*.
  intros S Hf Hid. destruct (frame_other w y fu gu fd gd f S Hf Hid) as (Hl & Hfi & out & Hm & Hc).
  exists out. split; [done|]. pose proof S as [Wi Ow Cl Lu Al Tu Ce Ke Ab Fi Dn Gd Cr].
  by eapply sync_broker.
Qed.

(** The sidecar handles a frame: what remains to be shown of the new state. *)
Lemma sync_client w y y' fu gu fd gd fu' gu' f now cl :
  sync w y fu gu fd gd -> f ∈ fd -> w_cl w !! a = Some cl -> y_b y' = y_b y -> y_created y' = true ->
  let cl' := handle_frame tc now f cl in
  cl_conn cl' = Some tc -> carries tc fu' (cl_net cl') -> cl_sessions cl' !! sid = Some (cs (y_c y')) ->
  (forall id s, cl_sessions cl' !! id = Some s -> fits (cs_upBuf s)) ->
  link_up tc gu' (y_c y') -> c_alive (y_c y') -> sync (set_client a cl' w) y' fu' gu' fd gd.
Proof.
  intros S Hf Ea Eb Hcr cl' Hc Hn Hs Hfi Lu Al. pose proof (sync_sent_down _ _ _ _ _ _ S) as Ed.
  destruct S as [Wi Ow _ _ _ Tu Ce Ke Ab Fi Dn Gd Cr].
  split; auto; rewrite ?Eb; auto.
  - eapply (winv_client_frame os_error bcfg w a cl tc tc now f); try done. by rewrite Ed.
  - exists cl'. simpl. rewrite lookup_insert_eq. by split_and!.
Qed.

Lemma downward_dispatch f now (cl : Client C) :
  downward f -> handle_frame tc now f cl = fst (run_session (fSessionID f) (fun st => (session_dispatch f st, tt)) cl).
Proof. intros Hst. unfold handle_frame. by destruct Hst as [->|[->| ->]]. Qed.

Lemma client_own w y fu gu fd gd f now cl :
  sync w y fu gu fd gd -> f ∈ fd -> w_cl w !! a = Some cl -> fSessionID f = sid -> downward f ->
  exists out, Forall (fun f => wf_of sid f /\ upward f) out /\
    sync (set_client a (handle_frame tc now f cl) w) (client_recv f y) (fu ++ out) (gu ++ out) fd gd.
Proof.
  intros S Hf Ea Hid Hst. pose proof (sync_sent_down _ _ _ _ _ _ S) as Ed.
  pose proof S as [Wi Ow (cl0 & Ea0 & Hc & Hn & Hs & Hfi) Lu Al Tu Ce Ke Ab Fi Dn Gd Cr].
  assert (cl0 = cl) as -> by congruence. pose proof (wi_ok _ _ _ Wi) as W.
  assert (wf_frame f) as Wf by (eapply (broker_frame_wf os_error bcfg w a cl tc); [done|done|done|by rewrite Ed]).
  destruct (ko_sess _ _ (wo_cl _ _ _ W a cl Ea) sid _ Hs) as (Hw & Hi & _).
  set (s := cs (y_c y)) in *. destruct (cvocal_dispatch (C := C) tc f s Wf Hw (Hfi sid s Hs)) as (s' & out & [Va Vf Vt Vi]).
  exists out. rewrite Hi in Vf. split; [done|].
  destruct (Va (MkCst s (cl_conn cl) (cl_net cl) []) fu eq_refl) as [E1 (_ & L1)]; [by split|].
  destruct (Va (y_c y) gu eq_refl Lu) as [E2 L2].
  assert (c_alive (session_dispatch f (y_c y))) as Al' by (apply dispatch_alive; [by destruct Hst as [->|[->| ->]]|done]).
  set (st := session_dispatch f (MkCst s (cl_conn cl) (cl_net cl) [])) in *.
  assert (cremoved st = []) as Er.
  { destruct (co_removed _ (cop_dispatch f) (MkCst s (cl_conn cl) (cl_net cl) []) eq_refl) as [[E _]|[_ Hd]]; [exact E|].
    cbn [fst] in Hd. fold st in Hd. destruct Al' as [Ha _]. congruence. }
  assert (handle_frame tc now f cl = MkClient (cl_cfg cl) (cl_nextID cl) (cl_conn cl) (<[sid := s']> (cl_sessions cl)) (cnet st) (cl_lastPong cl)) as Eh.
  { rewrite downward_dispatch by done. unfold run_session. rewrite Hid, Hs. fold s. cbn [fst]. fold st. by rewrite Er, E1. }
  eapply sync_client; [exact S|done|done|done|done|rewrite Eh; simpl..| |]; auto.
  - rewrite lookup_insert_eq. by rewrite E2.
  - intros id s0. rewrite lookup_insert_Some. intros [[_ <-]|[_ E0]]; [apply Vt; by eapply Hfi|by eapply Hfi].
Qed.

Lemma client_other w y fu gu fd gd f now cl :
  sync w y fu gu fd gd -> f ∈ fd -> w_cl w !! a = Some cl -> fSessionID f <> sid ->
  exists out, mine sid out = [] /\ sync (set_client a (handle_frame tc now f cl) w) y (fu ++ out) gu fd gd.
Proof.
  intros S Hf Ea Hid. pose proof (sync_sent_down _ _ _ _ _ _ S) as Ed. pose proof (sync_sid _ _ _ _ _ _ S) as Hs1.
  pose proof S as [Wi Ow (cl0 & Ea0 & Hc & Hn & Hs & Hfi) Lu Al Tu Ce Ke Ab Fi Dn Gd Cr].
  assert (cl0 = cl) as -> by congruence. pose proof (wi_ok _ _ _ Wi) as W.
  assert (wf_frame f) as Wf by (eapply (broker_frame_wf os_error bcfg w a cl tc); [done|done|done|by rewrite Ed]).
  assert (exists out, mine sid out = [] /\ let cl' := handle_frame tc now f cl in
    cl_conn cl' = Some tc /\ carries tc (fu ++ out) (cl_net cl') /\ cl_sessions cl' !! sid = Some (cs (y_c y)) /\
    (forall id s, cl_sessions cl' !! id = Some s -> fits (cs_upBuf s))) as (out & Hm & K1 & K2 & K3 & K4).
  2: { exists out. split; [done|]. by eapply sync_client. }
  cbv zeta. unfold handle_frame. destruct (_ =? TypePong); [exists []; by rewrite app_nil_r|].
  destruct (Z.eqb_spec (fType f) TypePing) as [Et|_].
  { exists [PongF (fNonce f)]. split; [rewrite mine_skip; [done|simpl; lia]|].
    unfold conn_write. destruct Hn as (c & Ec & Wc). rewrite Ec.
    destruct (works_write c fu (PongF (fNonce f)) Wc) as (c' & -> & W'); [constructor; by destruct Wf|].
    simpl. split_and!; try done. exists c'. by rewrite lookup_insert_eq. }
  destruct (cl_sessions cl !! fSessionID f) as [s|] eqn:Es.
  2: { exists []. unfold run_session. rewrite Es. by rewrite app_nil_r. }
  pose proof (wo_cl _ _ _ W a cl Ea) as K. destruct (ko_sess _ _ K _ _ Es) as (Hw & Hi & _).
  destruct (cvocal_dispatch (C := C) tc f s Wf Hw (Hfi _ s Es)) as (s' & out & [Va Vf Vt Vi]).
  destruct (Va (MkCst s (cl_conn cl) (cl_net cl) []) fu eq_refl) as [E1 (L0 & L1)]; [by split|].
  exists out. split.
  { apply (mine_none sid (fSessionID f)); [done|]. eapply Forall_impl; [exact Vf|]. intros g [[_ E] _]. congruence. }
  destruct (run_session_ok a cl (fSessionID f) (fun st => (session_dispatch f st, tt)) s K Es (cop_dispatch f)) as (_ & _ & Ko & _);
    [intros st _; by apply ctalks_dispatch|].
  split_and!; [..|by rewrite Ko|].
  - unfold run_session. by rewrite Es.
  - unfold run_session. by rewrite Es.
  - intros id s0 E0. destruct (decide (id = fSessionID f)) as [->|Hne]; [|rewrite Ko in E0 by done; by eapply Hfi].
    revert E0. unfold run_session. rewrite Es. cbn [fst cl_sessions]. 
    destruct (co_removed _ (cop_dispatch f) (MkCst s (cl_conn cl) (cl_net cl) []) eq_refl) as [[E _]|[E _]]; cbn [fst] in E;
      rewrite E; cbn [foldr cs]; rewrite ?Hi, ?lookup_delete_eq; [|done]. rewrite lookup_insert_eq, E1. intros [= <-]. apply Vt. by eapply Hfi.
Qed.

(** ** Whole turns *)

Definition speaks (P : Frame -> Prop) (fs : list Frame) : Prop := Forall (fun f => fSessionID f = sid -> P f) fs.

Lemma speaks_none P fs : mine sid fs = [] -> speaks P fs.
Proof.
  intros E. apply Forall_forall. intros f Hf Hi. assert (f ∈ mine sid fs) as Hm by (by apply list_elem_of_filter).
  rewrite E in Hm. by apply elem_of_nil in Hm.
Qed.

Lemma turn_broker fs w y fu gu fd gd :
  sync w y fu gu fd gd -> Forall (fun f => f ∈ fu) fs -> speaks upward fs ->
  s_tconn (ss (y_b y)) = Some tc \/ speaks (fun f => fType f = TypeAttach) fs ->
  let y' := foldl (fun y f => broker_recv os_error tc f y) y (mine sid fs) in
  exists out, speaks downward out /\ sync (broker_turn os_error a tc fs w) y' fu gu (fd ++ out) (gd ++ mine sid out) /\
    (s_tconn (ss (y_b y)) = Some tc \/ mine sid fs <> [] -> s_tconn (ss (y_b y')) = Some tc).
Proof using Type*.
  revert w y fd gd. induction fs as [|f fs IH]; intros w y fd gd S Hin Hup Hb.
  { exists []. split; [by constructor|]. simpl. rewrite !app_nil_r. split; [done|]. by intros [|]. }
  apply Forall_cons in Hin as [Hf Hin]. apply Forall_cons in Hup as [Hu Hup].
  destruct (decide (fSessionID f = sid)) as [E|E].
  - destruct (broker_own w y fu gu fd gd f S Hf E (Hu E)) as (o1 & W1 & P1 & B1 & S1).
    { destruct Hb as [|Hb]; [by left|right]. apply Forall_cons in Hb as [Hb _]. by apply Hb. }
    destruct (IH _ _ _ _ S1 Hin Hup (or_introl B1)) as (o2 & P2 & S2 & B2).
    exists (o1 ++ o2). cbv zeta. rewrite mine_cons by done. cbn [foldl].
    split; [apply Forall_app; split; [eapply Forall_impl; [exact P1|done]|done]|].
    rewrite mine_app, (mine_all _ _ W1), !app_assoc. split; [exact S2|]. intros _. apply B2. by left.
  - destruct (broker_other w y fu gu fd gd f S Hf E) as (o1 & M1 & S1).
    destruct (IH _ _ _ _ S1 Hin Hup) as (o2 & P2 & S2 & B2).
    { destruct Hb as [|Hb]; [by left|right]. by apply Forall_cons in Hb as [_ Hb]. }
    exists (o1 ++ o2). cbv zeta. rewrite mine_skip by done.
    split; [apply Forall_app; split; [by apply speaks_none|done]|].
    rewrite mine_app, M1, app_assoc. split; [exact S2|]. done.
Qed.

Lemma turn_client fs now w y fu gu fd gd :
  sync w y fu gu fd gd -> Forall (fun f => f ∈ fd) fs -> speaks downward fs ->
  exists out, speaks upward out /\
    sync (client_turn a tc now fs w) (foldl (fun y f => client_recv f y) y (mine sid fs)) (fu ++ out) (gu ++ mine sid out) fd gd.
Proof using Type*.
  revert w y fu gu. induction fs as [|f fs IH]; intros w y fu gu S Hin Hdn.
  { exists []. split; [by constructor|]. simpl. by rewrite !app_nil_r. }
  apply Forall_cons in Hin as [Hf Hin]. apply Forall_cons in Hdn as [Hd Hdn].
  pose proof (sy_cl _ _ _ _ _ _ S) as (cl & Ea & _). unfold client_turn. cbn [foldl]. rewrite Ea.
  destruct (decide (fSessionID f = sid)) as [E|E].
  - destruct (client_own w y fu gu fd gd f now cl S Hf Ea E (Hd E)) as (o1 & P1 & S1).
    destruct (IH _ _ _ _ S1 Hin Hdn) as (o2 & P2 & S2). exists (o1 ++ o2).
    cbv zeta. rewrite mine_cons by done. cbn [foldl].
    assert (Forall (wf_of sid) o1) as W1 by (eapply Forall_impl; [exact P1|by intros ? []]).
    split; [apply Forall_app; split; [eapply Forall_impl; [exact P1|by intros ? [] ?]|done]|].
    rewrite mine_app, (mine_all _ _ W1), !app_assoc. exact S2.
  - destruct (client_other w y fu gu fd gd f now cl S Hf Ea E) as (o1 & M1 & S1).
    destruct (IH _ _ _ _ S1 Hin Hdn) as (o2 & P2 & S2). exists (o1 ++ o2).
    rewrite mine_skip by done.
    split; [apply Forall_app; split; [by apply speaks_none|done]|]. rewrite mine_app, M1, app_assoc. exact S2.
Qed.

(** ** A round trip *)

Lemma carries_sent_down fs y : carries tc fs (net (y_b y)) -> sent_down tc y = fs.
Proof. intros (c & Ec & _ & _ & Hs). unfold sent_down. by rewrite Ec. Qed.

Lemma sync_round now w y fu gu fd gd ku ku' :
  sync w y fu gu fd gd -> (ku <= length fu)%nat -> (ku' <= length gu)%nat -> mine sid (drop ku fu) = drop ku' gu ->
  speaks upward (drop ku fu) ->
  s_tconn (ss (y_b y)) = Some tc \/ speaks (fun f => fType f = TypeAttach) (drop ku fu) /\ drop ku' gu <> [] ->
  exists w' y' X Y, round_trip os_error a tc now (w, ku, length fd) = (w', length fu, length (fd ++ Y)) /\
    exchange os_error tc (y, ku', length gd) = (y', length gu, length (gd ++ mine sid Y)) /\
    sync w' y' (fu ++ X) (gu ++ mine sid X) (fd ++ Y) (gd ++ mine sid Y) /\
    speaks upward X /\ s_tconn (ss (y_b y')) = Some tc.
Proof using Type*.
  intros S Hku Hku' Em Hup Hb.
  destruct (turn_broker (drop ku fu) w y fu gu fd gd S) as (Y & Hdn & S1 & B1).
  { apply Forall_drop_in. }
  { done. }
  { destruct Hb as [|[]]; auto. }
  assert (s_tconn (ss (y_b y)) = Some tc \/ mine sid (drop ku fu) <> []) as Hb1
    by (destruct Hb as [|[_ Hb]]; [by left|right; by rewrite Em]).
  specialize (B1 Hb1). rewrite Em in S1, B1.
  set (w1 := broker_turn os_error a tc (drop ku fu) w) in *. set (y1 := foldl _ y (drop ku' gu)) in *.
  destruct (turn_client Y now w1 y1 fu gu _ _ S1) as (X & HX & S2); [|done|].
  { apply Forall_forall. intros f Hf. apply elem_of_app. by right. }
  eexists _, _, X, Y. split_and!; [..|exact S2|exact HX|].
  - unfold round_trip. rewrite (sync_sent_up _ _ _ _ _ _ S). fold w1.
    rewrite (sync_sent_down _ _ _ _ _ _ S1), drop_app_length, length_app, length_drop. do 2 f_equal. lia.
  - unfold exchange. rewrite (link_up_sent tc gu y (sy_up _ _ _ _ _ _ S)). fold y1.
    rewrite (carries_sent_down _ y1 (sy_gdown _ _ _ _ _ _ S1)), drop_app_length, length_app, length_drop. do 2 f_equal. lia.
  - by rewrite foldl_client_recv.
Qed.
End sync.

(** ** The dial *)

Section dial.
Context {C : Type} `{FrameWriterLaws C}.
Implicit Types (cl : Client C) (y : sys C).

(** ATTACH for every session, after HELLO. *)
Lemma attach_all_carried tc fs (ss : list clientSession) cl :
  carries tc fs (cl_net cl) -> Forall cwf ss ->
  let cl' := foldl (fun cl s => fst (conn_write tc (attachFrame s) cl)) cl ss in
  carries tc (fs ++ map attachFrame ss) (cl_net cl') /\ cl_sessions cl' = cl_sessions cl /\ cl_conn cl' = cl_conn cl.
Proof.
  intros L HF. revert fs cl L. induction HF as [|s ss Hs _ IH]; intros fs cl L; simpl; [by rewrite app_nil_r|].
  destruct L as (c & Ec & W). destruct (works_write c fs (attachFrame s) W) as (c' & Ew & W').
  { destruct Hs. by constructor. }
  set (cl1 := fst (conn_write tc (attachFrame s) cl)).
  assert (cl1 = MkClient (cl_cfg cl) (cl_nextID cl) (cl_conn cl) (cl_sessions cl) (<[tc := c']> (cl_net cl)) (cl_lastPong cl)) as E1
    by (unfold cl1, conn_write; by rewrite Ec, Ew).
  destruct (IH (fs ++ [attachFrame s]) cl1) as (L1 & L2 & L3); [exists c'; rewrite E1; simpl; by rewrite lookup_insert_eq|].
  rewrite <- app_assoc in L1. split_and!; [done|by rewrite L2, E1|by rewrite L3, E1].
Qed.

Definition greeting (a : string) cl : list Frame :=
  HelloF a :: map attachFrame (map snd (map_to_list (cl_sessions cl))).

Lemma connect_carried a tc cu now cl :
  client_ok a cl -> str_len a <= maxString -> works cu [] ->
  let cl' := fst (connect a tc cu now cl) in
  carries tc (greeting a cl) (cl_net cl') /\ cl_sessions cl' = cl_sessions cl /\ cl_conn cl' = Some tc.
Proof.
  intros K Ha W. unfold connect. destruct (works_write cu [] (HelloF a) W) as (c' & -> & W'); [by constructor|]. simpl.
  apply (attach_all_carried tc [HelloF a] (map snd (map_to_list (cl_sessions cl)))
    (MkClient (cl_cfg cl) (cl_nextID cl) (Some tc) (cl_sessions cl) (<[tc := c']> (cl_net cl)) now)).
  - exists c'. simpl. by rewrite lookup_insert_eq.
  - apply Forall_forall. intros s ([id s0] & -> & Hin)%list_elem_of_fmap. apply elem_of_map_to_list in Hin.
    by apply (ko_sess _ _ K id s0).
Qed.

(** Exactly one of the announcements is this session's. *)
Lemma mine_greeting sid cl a s :
  client_ok a cl -> cl_sessions cl !! sid = Some s -> mine sid (drop 1 (greeting a cl)) = [attachFrame s].
Proof.
  intros K Es. simpl. destruct (ko_sess _ _ K sid s Es) as (_ & Ei & _). apply Permutation_singleton_r.
  pose proof (map_to_list_delete (cl_sessions cl) sid s Es) as P.
  apply (Permutation_map snd), (Permutation_map attachFrame) in P. rewrite drop_0. unfold mine at 1. rewrite <- P. simpl.
  rewrite filter_cons_True by done. apply perm_skip.
  replace (filter _ _) with (@nil Frame); [done|]. symmetry. apply elem_of_nil_inv. intros f [E Hf]%list_elem_of_filter.
  apply list_elem_of_fmap in Hf as (s' & -> & ([id s0] & -> & Hin)%list_elem_of_fmap).
  apply elem_of_map_to_list, lookup_delete_Some in Hin as [Hne Hin]. destruct (ko_sess _ _ K id s0 Hin) as (_ & E0 & _).
  simpl in E. congruence.
Qed.

(** The session's model on its own, before the dial. *)
Definition alone y : sys C :=
  MkSys (MkCst (cs (y_c y)) None ∅ []) (MkSst (ss (y_b y)) ∅ []) (y_created y) (y_dialed y) (y_reader y)
    (y_upwait y) (y_agent y) (y_dest y).

Lemma yinv_alone (O : Ownership) sid y A D :
  yinv (Own := O) sid y A D -> yinv (Own := all_owned) sid (alone y) A D.
Proof. intros [[? ? ? ? ? ? _] [? ? ? ? ? _] ? ? ? ? ?]. by split. Qed.

(** A peer is never behind what a buffer still holds. *)
Lemma fits_replays (O : Ownership) sid y A D :
  yinv (Own := O) sid y A D -> fits (cs_upBuf (cs (y_c y))) -> fits (s_downBuf (ss (y_b y))) -> replays_fit y.
Proof.
  intros [I J _ _ _ _ _]. destruct (ci_up _ _ _ _ _ I) as (a & Ra & ?), (bi_down _ _ _ _ _ J) as (b & Rb & ?).
  unfold fits, replays_fit, Len. rewrite (rep_len Ra), (rep_len Rb), (rep_End Ra), (rep_End Rb). simpl. lia.
Qed.
End dial.

(** ** The turns are runs of the deployment *)

Section runs.
Context {C : Type} `{FrameWriterLaws C} (os_error : string).
Implicit Types (w : world C).

(** The connection is [a]'s, and past HELLO. *)
Definition served (a : string) (tc : nat) w : Prop :=
  w_owner w !! tc = Some a /\ is_Some (w_cl w !! a) /\ exists t, bk_tunnels (w_bk w) !! tc = Some t /\ t_actor t = a.

Lemma broker_turn_run a tc fs w :
  served a tc w -> Forall (fun f => f ∈ sent_by_client a tc w) fs ->
  rtc (wstep os_error) w (broker_turn os_error a tc fs w) /\ served a tc (broker_turn os_error a tc fs w).
Proof.
  intros Sv HF. revert w Sv HF. induction fs as [|f fs IH]; intros w Sv HF; [by split|].
  apply Forall_cons in HF as [Hf HF]. pose proof Sv as (Ho & Hc & t & Ht & <-).
  destruct (keeps_handleFrame os_error (t_actor t) tc f (w_bk w) t Ht) as (t' & Ht' & Et').
  destruct (IH (set_broker (handleFrame os_error (t_actor t) tc f (w_bk w)) w)) as [R S]; [by split_and!; eauto|done|].
  split; [|done]. eapply rtc_l; [|exact R]. by eapply (WFrame os_error w (t_actor t) tc tc t f).
Qed.

Lemma client_turn_run a tc now fs w :
  served a tc w -> Forall (fun f => f ∈ sent_by_broker tc w) fs ->
  rtc (wstep os_error) w (client_turn a tc now fs w) /\ served a tc (client_turn a tc now fs w).
Proof.
  intros Sv HF. revert w Sv HF. induction fs as [|f fs IH]; intros w Sv HF; [by split|].
  apply Forall_cons in HF as [Hf HF]. pose proof Sv as (Ho & (cl & Ec) & Ht). unfold client_turn. cbn [foldl]. rewrite Ec.
  destruct (IH (set_client a (handle_frame tc now f cl) w)) as [R S]; [|done|].
  { split_and!; [done| |done]. simpl. rewrite lookup_insert_eq. eauto. }
  split; [|done]. eapply rtc_l; [|exact R]. by eapply (WClientFrame os_error w a cl tc tc now f).
Qed.

Lemma round_trip_run a tc now w ku kd :
  served a tc w -> let '(w', _, _) := round_trip os_error a tc now (w, ku, kd) in
  rtc (wstep os_error) w w' /\ served a tc w'.
Proof.
  intros Sv. simpl. destruct (broker_turn_run a tc (drop ku (sent_by_client a tc w)) w Sv (Forall_drop_in _ _)) as [R1 S1].
  set (w1 := broker_turn os_error a tc _ w) in *.
  destruct (client_turn_run a tc now (drop kd (sent_by_broker tc w1)) w1 S1 (Forall_drop_in _ _)) as [R2 S2].
  split; [by etrans|done].
Qed.

Lemma reconnect_run bcfg w a cl tc cu cd now :
  wok os_error bcfg w -> a <> "" -> str_len a <= maxString -> w_cl w !! a = Some cl -> w_owner w !! tc = None ->
  works cu [] -> works cd [] ->
  let '(w', _, _) := reconnect os_error a cl tc cu cd now w in rtc (wstep os_error) w w'.
Proof.
  intros W Ha Hal Ea Ho Wu (D1 & D2 & D3). unfold reconnect. set (w1 := dial_tunnel a cl tc cu cd now w).
  destruct (connect_carried a tc cu now cl (wo_cl _ _ _ W a cl Ea) Hal Wu) as (L1 & _). destruct Wu as (U1 & U2 & U3).
  assert (wstep os_error w w1) as R1 by (by apply WConnect).
  assert (w_owner w1 !! tc = Some a) as O1 by apply lookup_insert_eq.
  assert (w_cl w1 !! a = Some (fst (connect a tc cu now cl))) as C1 by apply lookup_insert_eq.
  set (w2 := set_broker (fst (hello tc (HelloF a) (w_bk w1))) w1).
  assert (wstep os_error w1 w2) as R2.
  { apply (WHello os_error w1 a); [done| |].
    - destruct (bk_tunnels (w_bk w1) !! tc) as [t|] eqn:E; [|done]. pose proof (wo_tun _ _ _ W tc t E). congruence.
    - unfold sent_by_client. rewrite C1. destruct L1 as (c & -> & _ & _ & ->). apply list_elem_of_here. }
  assert (served a tc w2) as S2.
  { split_and!; [done|by eexists|]. exists (MkTunnelConn a ∅). split; [|done]. unfold w2, hello. simpl.
    rewrite bool_decide_eq_false_2 by done. apply lookup_insert_eq. }
  pose proof (round_trip_run a tc now w2 1 0 S2) as R3. destruct (round_trip os_error a tc now (w2, 1%nat, 0%nat)) as [[w3 ku] kd].
  destruct R3 as [R3 S3]. pose proof (round_trip_run a tc now w3 ku kd S3) as R4.
  destruct (round_trip os_error a tc now (w3, ku, kd)) as [[w4 ku'] kd']. destruct R4 as [R4 _].
  eapply rtc_l; [exact R1|]. eapply rtc_l; [exact R2|]. by etrans.
Qed.
End runs.

(** ** Every session of the actor *)

Section recovery.
Context {C : Type} `{FrameWriterLaws C} (os_error : string) (Hos : str_len os_error <= maxString).
Context (bcfg : Config) (Hbuf : 0 <= bc_SessionBufferBytes (withDefaults bcfg)).
Context (w : world C) (Wi : winv os_error bcfg w).
(** Actor [a] dials a new connection that works in both directions. *)
Context (a : string) (cl : Client C) (tc : nat) (cu cd : C) (now : Z).
Context (Ha : a <> "") (Hal : str_len a <= maxString) (Ea : w_cl w !! a = Some cl) (Ho : w_owner w !! tc = None).
Context (Wu : works cu []) (Wd : works cd []).
(** None of its sessions has more to replay than fits in a frame. *)
Context (Hcs : forall id s, cl_sessions cl !! id = Some s -> fits (cs_upBuf s)).
Context (Hbs : forall l s, bk_heap (w_bk w) !! l = Some s -> s_actorID s = a -> fits (s_downBuf s)).

(** A session of [a] that is in order at both ends. *)
Record in_order (sid : Z) (s : clientSession) (l : nat) (t : session) : Prop := {
  io_client : cl_sessions cl !! sid = Some s;
  io_cell : bk_heap (w_bk w) !! l = Some t;
  io_key : skey t = (a, sid);
  io_fine : fine (a, sid) w;
  io_agent : cs_dead s = false /\ sock_healthy (cs_agent s);
  io_alive : b_alive t;
}.

Definition dialed : world C :=
  let w := dial_tunnel a cl tc cu cd now w in set_broker (fst (hello tc (HelloF a) (w_bk w))) w.

(** The dial puts the deployment in step with the session's own handshake. *)
Lemma sync_dialed sid s l t y :
  in_order sid s l t -> cs (y_c y) = s -> ss (y_b y) = t -> y_created y = true ->
  sync os_error bcfg a sid l tc dialed (connect_step a tc cu cd (alone y))
    (greeting a cl) [HelloF a; attachFrame s] [] [].
Proof using Type*.
  intros [Es El Ek Ef [Hd Hh] Hal'] <- <- Hcr.
  pose proof (wi_ok _ _ _ Wi) as W. pose proof (wo_cl _ _ _ W a cl Ea) as K.
  destruct (connect_carried a tc cu now cl K Hal Wu) as (L1 & L2 & L3).
  destruct (ko_sess _ _ K sid _ Es) as (Hw & _). pose proof Wu as (U1 & U2 & U3). pose proof Wd as (D1 & D2 & D3).
  assert (winv os_error bcfg (dial_tunnel a cl tc cu cd now w)) as W1 by (by apply winv_dial).
  set (w1 := dial_tunnel a cl tc cu cd now w) in *.
  assert (w_owner w1 !! tc = Some a) as O1 by apply lookup_insert_eq.
  assert (w_cl w1 !! a = Some (fst (connect a tc cu now cl))) as C1 by apply lookup_insert_eq.
  assert (sent_by_client a tc w1 = greeting a cl) as S1.
  { unfold sent_by_client. rewrite C1. destruct L1 as (c & -> & _ & _ & ->). done. }
  assert (bk_tunnels (w_bk w1) !! tc = None) as T1.
  { destruct (bk_tunnels (w_bk w1) !! tc) as [t|] eqn:E; [|done]. pose proof (wo_tun _ _ _ W tc t E). congruence. }
  assert (fst (hello tc (HelloF a) (w_bk w1)) = set_tunnels (<[tc := MkTunnelConn a ∅]> (bk_tunnels (w_bk w1))) (w_bk w1)) as Eh.
  { unfold hello. simpl. by rewrite bool_decide_eq_false_2. }
  destruct (works_write cu [] (HelloF a) Wu) as (c1 & Ew1 & Wc1); [by constructor|].
  split.
  - unfold dialed. fold w1. apply (winv_hello os_error bcfg w1 a); [done|done|done|]. rewrite S1. apply list_elem_of_here.
  - done.
  - exists (fst (connect a tc cu now cl)). rewrite L2. split_and!; try done.
    unfold connect_step. simpl. by rewrite connect_cs.
  - unfold connect_step, session_connect. simpl. rewrite Ew1. simpl. apply (link_up_send tc [HelloF a]).
    + split; [done|]. exists c1. simpl. by rewrite lookup_insert_eq.
    + destruct Hw. by constructor.
  - unfold connect_step, c_alive. simpl. by rewrite connect_cs.
  - exists (MkTunnelConn a ∅). split; [|done]. unfold dialed. fold w1. rewrite Eh. apply lookup_insert_eq.
  - unfold dialed. fold w1. by rewrite Eh.
  - done.
  - done.
  - unfold dialed. fold w1. by rewrite Eh.
  - unfold dialed. fold w1. rewrite Eh. exists cd. simpl. by rewrite lookup_insert_eq.
  - exists cd. simpl. by rewrite lookup_insert_eq.
  - done.
Qed.

Lemma greeting_speaks sid : speaks sid (fun f => fType f = TypeAttach) (drop 1 (greeting a cl)).
Proof.
  apply Forall_forall. intros f Hf _. simpl in Hf. rewrite drop_0 in Hf. by apply list_elem_of_fmap in Hf as (s & -> & _).
Qed.

(** The two round trips stay in step with [heal]. *)
Lemma reconnect_in_step sid s l t y :
  in_order sid s l t -> cs (y_c y) = s -> ss (y_b y) = t -> y_created y = true ->
  exists w' y' fu X fd Y gu gd,
    reconnect os_error a cl tc cu cd now w = (w', length fu, length (fd ++ Y)) /\
    heal os_error a tc cu cd (alone y) = (y', length gu, length (gd ++ mine sid Y)) /\
    sync os_error bcfg a sid l tc w' y' (fu ++ X) (gu ++ mine sid X) (fd ++ Y) (gd ++ mine sid Y).
Proof using Type*.
  intros Io Ec Eb Hcr. pose proof (sync_dialed sid s l t y Io Ec Eb Hcr) as S0.
  pose proof (wo_cl _ _ _ (wi_ok _ _ _ Wi) a cl Ea) as K.
  pose proof (mine_greeting sid cl a s K (io_client _ _ _ _ Io)) as Em.
  pose proof (greeting_speaks sid) as Hsp.
  destruct (sync_round os_error Hos bcfg Hbuf a sid l tc now _ _ _ _ _ _ 1 1 S0) as (w1 & y1 & X & Y & R1 & E1 & S1 & HX & B1);
    [simpl; lia|simpl; lia|exact Em|eapply Forall_impl; [exact Hsp|intros f Hf Hi; left; by apply Hf]|by right|].
  destruct (sync_round os_error Hos bcfg Hbuf a sid l tc now _ _ _ _ _ _ (length (greeting a cl)) 2 S1)
    as (w2 & y2 & X2 & Y2 & R2 & E2 & S2 & _ & _);
    [rewrite length_app; lia|simpl; lia|by rewrite drop_app_length|by rewrite drop_app_length|by left|].
  eexists w2, y2, _, X2, _, Y2, _, _. split_and!; [| |exact S2].
  - change (reconnect os_error a cl tc cu cd now w)
      with (round_trip os_error a tc now (round_trip os_error a tc now (dialed, 1%nat, length (@nil Frame)))).
    rewrite R1. exact R2.
  - unfold heal. simpl length in E1. rewrite E1. exact E2.
Qed.

Lemma in_order_model sid s l t :
  in_order sid s l t -> exists y A D, cs (y_c y) = s /\ ss (y_b y) = t /\ y_created y = true /\
    yinv (Own := all_owned) sid (alone y) A D /\
    up (a, sid) w = MkUp (y_agent y) (y_upwait y) /\ down l w = MkDown (y_dialed y) (y_reader y) (y_dest y).
Proof using Wi Ea.
  intros [Es El Ek Ef _ _]. pose proof (wo_cl _ _ _ (wi_ok _ _ _ Wi) a cl Ea) as K.
  destruct (ko_sess _ _ K sid s Es) as (_ & _ & Hsid).
  pose proof (wi_good _ _ _ Wi a cl sid Ea Hsid Ef) as G.
  destruct (good_cell bcfg w a sid l t G (fi_once _ _ Ef) El Ek) as (cl0 & y & A & D & E0 & Cs & _ & Et & Hcr & Ed & I).
  assert (cl0 = cl) as -> by congruence. destruct Cs as (_ & _ & Eu & S4).
  assert (cs (y_c y) = s) as Ey by (destruct S4 as [S4|[S4 _]]; congruence).
  exists y, A, D. split_and!; try done. by eapply yinv_alone.
Qed.
End recovery.

(** ** Property *)

Section properties.
Context {C : Type} `{FrameWriterLaws C} (os_error : string) (Hos : str_len os_error <= maxString).
Context (bcfg : Config) (Hbuf : 0 <= bc_SessionBufferBytes (withDefaults bcfg)).
Context (w : world C) (R : rtc (wstep os_error) (boot bcfg) w).

(** C5. Recovery of a whole actor.  In any reachable deployment the sidecar of an
    actor dials the broker again over a connection that works, announces all its
    sessions and the two frame loops handle two round trips of everything that
    arrives, the frames of all sessions mixed; this is a run of the deployment.
    Assume that no replay buffer of any session of the actor, at either end,
    holds more than one frame ([MaxPayload]); their capacities do not matter.
    Then for every session of the actor that is in order at both ends (created
    once, short of 2^64 bytes, alive, sockets taking writes, the destination still
    open) the destination has received every byte its agent's pump had handed
    over, the agent every byte the broker had read, the sidecar has nothing left
    to replay and no frame of the session is in flight.  The actor's other
    sessions need not be in order: the broker may have lost or refused them, they
    may be half-closed, their agent or destination may be gone. *)
Theorem reconnect_heals_every_session (a : string) (cl : Client C) (tc : nat) (cu cd : C) (now : Z)
    (Ha : a <> "") (Hal : str_len a <= maxString) (Ea : w_cl w !! a = Some cl) (Ho : w_owner w !! tc = None)
    (Wu : works cu []) (Wd : works cd [])
    (Hcs : forall id s, cl_sessions cl !! id = Some s -> fits (cs_upBuf s))
    (Hbs : forall l s, bk_heap (w_bk w) !! l = Some s -> s_actorID s = a -> fits (s_downBuf s)) :
  let '(w', ku, kd) := reconnect os_error a cl tc cu cd now w in
  rtc (wstep os_error) w w' /\
  forall sid s l t, in_order w a cl sid s l t ->
  exists cl' s' t' u', w_cl w' !! a = Some cl' /\ cl_sessions cl' !! sid = Some s' /\
    bk_heap (w_bk w') !! l = Some t' /\ s_upstream t' = Some u' /\
    ul_sent (up (a, sid) w) = sk_out u' ++ ul_wait (up (a, sid) w) /\
    dl_sent (down l w) = sk_out (cs_agent s') ++ reader_wait (dl_reader (down l w)) /\
    Len (cs_upBuf s') = 0 /\
    mine sid (drop ku (sent_by_client a tc w')) = [] /\ mine sid (drop kd (sent_by_broker tc w')) = [].
Proof using Type*.
  pose proof (winv_reachable os_error Hos bcfg Hbuf w R) as Wi.
  pose proof (reconnect_run os_error bcfg w a cl tc cu cd now (wi_ok _ _ _ Wi) Ha Hal Ea Ho Wu Wd) as Rn.
  destruct (reconnect os_error a cl tc cu cd now w) as [[w' ku] kd] eqn:Er. split; [exact Rn|]. intros sid s l t Io.
  destruct (in_order_model os_error bcfg w Wi a cl Ea sid s l t Io) as (y & A & D & Ec & Eb & Hcr & I & Eup & Edn).
  destruct (reconnect_in_step os_error Hos bcfg Hbuf w Wi a cl tc cu cd now Ha Hal Ea Ho Wu Wd Hcs Hbs sid s l t y Io Ec Eb Hcr)
    as (w1 & y' & fu & X & fd & Y & gu & gd & R1 & E1 & S). rewrite Er in R1. injection R1 as -> -> ->.
  pose proof (sync_sid _ _ _ _ _ _ _ _ _ _ _ _ S) as Hsid. pose proof Io as [Es El Ek Ef [Hd Hh] (Bd & Bc & u & Bu & Bh)].
  assert (replays_fit (alone y)) as Hfit.
  { apply (fits_replays _ sid (alone y) A D I); simpl; rewrite ?Ec, ?Eb; [by eapply Hcs|]. apply (Hbs l); [done|]. by injection Ek. }
  destruct (heal_spec sid ltac:(unfold is_u64; lia) os_error Hos (alone y) A D a tc cu cd u I)
    as (y2 & ku & kd & E2 & Q1 & Q2 & (u' & Hu' & Ou) & Oa & Lu & _); try done; simpl; rewrite ?Ec, ?Eb; try done.
  rewrite E1 in E2. injection E2 as <- <- <-.
  pose proof (sy_cl _ _ _ _ _ _ _ _ _ _ _ _ S) as (cl' & Ecl & _ & _ & Es' & _).
  exists cl', (cs (y_c y')), (ss (y_b y')), u'. rewrite Eup, Edn. simpl.
  split_and!; try done; [apply (sy_cell _ _ _ _ _ _ _ _ _ _ _ _ S)|..].
  - rewrite Ou. apply (yi_A' _ _ _ _ I). simpl. by rewrite Ec.
  - rewrite Oa. apply (yi_D' _ _ _ _ I). simpl. by rewrite Eb.
  - rewrite (sync_sent_up _ _ _ _ _ _ _ _ _ _ _ _ S), drop_app_length.
    by rewrite (link_up_sent _ _ _ (sy_up _ _ _ _ _ _ _ _ _ _ _ _ S)), drop_app_length in Q1.
  - rewrite (sync_sent_down _ _ _ _ _ _ _ _ _ _ _ _ S), drop_all. done.
Qed.
End properties.

(** ** Witness *)

(** An actor with two sessions is suspended: one with bytes under way in both
    directions, one whose OPEN the broker has not seen. *)
Module Crowd.
Import DeploymentInv.Demo.
Definition bcfg : Config := MkConfig 4 0 0 0 None.
Definition kcfg : ClientConfig := MkClientConfig 8 0 0 0.

Definition v0 : world Conn := boot bcfg.
Definition v1 : world Conn := set_client "ns/a" (NewClient kcfg) v0.
Definition v2 : world Conn := opened "ns/a" v1.
Definition v3 : world Conn := dial_tunnel "ns/a" (client_of "ns/a" v2) 0 (NewConn new_sock) (NewConn new_sock) 0 v2.
Definition v4 : world Conn := set_broker (fst (hello 0 (HelloF "ns/a") (w_bk v3))) v3.
Definition v5 : world Conn := frame "ns/a" 0 (AttachF 1 0 "mcp:80") v4.
Definition v6 : world Conn := dial_turn os 0 (cell 0 v5) (Ok (MkSock [] None false false)) v5.
Definition v7 : world Conn := opened "ns/a" v6.
Definition v8 : world Conn := pump "ns/a" (client_of "ns/a" v7) 1 [x47; x45] true v7.
Definition v9 : world Conn := read_turn 0 (cell 0 v8) [x61; x62; x63] None true v8.

Lemma crowd_reached : rtc (wstep os) (boot bcfg) v9.
Proof.
  destruct (fw_new_ok (C := Conn)) as (N1 & _ & N2).
  apply (rtc_l _ _ v1); [apply WBoot; fact|].
  apply (rtc_l _ _ v2); [apply (WOpen os v1 "ns/a" (client_of "ns/a" v1) None true "mcp:80"); fact|].
  apply (rtc_l _ _ v3); [apply WConnect; done || fact|].
  apply (rtc_l _ _ v4); [apply WHello with (a := "ns/a"); fact|].
  apply (rtc_l _ _ v5); [apply (WFrame os v4 "ns/a" 0 0 (MkTunnelConn "ns/a" ∅) (AttachF 1 0 "mcp:80")); fact|].
  apply (rtc_l _ _ v6); [apply WDialOk; fact|].
  apply (rtc_l _ _ v7); [apply (WOpen os v6 "ns/a" (client_of "ns/a" v6) None true "mcp:80"); fact|].
  apply (rtc_l _ _ v8); [apply WWrite; fact|].
  apply (rtc_l _ _ v9); [apply WRead; [fact|fact|done]|]. apply rtc_refl.
Qed.

Lemma crowd_cells l t : bk_heap (w_bk v9) !! l = Some t -> l = 0%nat /\ t = cell 0 v9.
Proof.
  intros E%elem_of_map_to_list. revert E. vm_compute (map_to_list _). rewrite !elem_of_cons.
  intros [[= -> ->]|E%elem_of_nil]; [|done]. split; [done|by_vm].
Qed.

Lemma crowd_clients id s : cl_sessions (client_of "ns/a" v9) !! id = Some s -> fits (cs_upBuf s).
Proof.
  intros E%elem_of_map_to_list. revert E. vm_compute (map_to_list _). rewrite !elem_of_cons.
  intros [[= -> ->]|[[= -> ->]|E%elem_of_nil]]; [vm_compute; discriminate..|done].
Qed.

Definition session1 : clientSession := default (newClientSession 0 0 "" new_sock true) (cl_sessions (client_of "ns/a" v9) !! 1).

Lemma crowd_in_order : in_order v9 "ns/a" (client_of "ns/a" v9) 1 session1 0 (cell 0 v9).
Proof.
  split; try by_vm; try (vm_compute; discriminate).
  - split; [|by_vm|].
    + intros l l' s s' E E' _ _. by destruct (crowd_cells l s E) as [-> _], (crowd_cells l' s' E') as [-> _].
    + intros l s E _. destruct (crowd_cells l s E) as [-> _]. by_vm.
  - by split.
  - split_and!; [by_vm|by_vm|]. exists new_sock. by split.
Qed.
End Crowd.

Lemma reconnect_heals_every_session_witness :
  let '(w', ku, kd) := reconnect Demo.os "ns/a" (Demo.client_of "ns/a" Crowd.v9) 1 (NewConn new_sock) (NewConn new_sock) 0 Crowd.v9 in
  exists cl' s' t' u', w_cl w' !! "ns/a" = Some cl' /\ cl_sessions cl' !! 1 = Some s' /\
    bk_heap (w_bk w') !! 0%nat = Some t' /\ s_upstream t' = Some u' /\
    [x47; x45] = sk_out u' ++ [] /\ [x61; x62; x63] = sk_out (cs_agent s') ++ [] /\ Len (cs_upBuf s') = 0.
Proof.
  pose proof (reconnect_heals_every_session Demo.os ltac:(vm_compute; discriminate) Crowd.bcfg ltac:(vm_compute; discriminate)
    Crowd.v9 Crowd.crowd_reached "ns/a" (Demo.client_of "ns/a" Crowd.v9) 1 (NewConn new_sock) (NewConn new_sock) 0
    ltac:(discriminate) ltac:(vm_compute; discriminate) ltac:(Demo.by_vm) ltac:(Demo.by_vm)
    System.Demo.new_conn_works System.Demo.new_conn_works Crowd.crowd_clients
    ltac:(intros l s E _; destruct (Crowd.crowd_cells l s E) as [_ ->]; vm_compute; discriminate)) as K.
  destruct (reconnect _ _ _ _ _ _ _ _) as [[w' ku] kd].
  destruct (proj2 K 1 _ _ _ Crowd.crowd_in_order) as (cl' & s' & t' & u' & K1 & K2 & K3 & K4 & K5 & K6 & K7 & _).
  exists cl', s', t', u'. split_and!; [exact K1|exact K2|exact K3|exact K4| | |exact K7].
  - exact K5.
  - exact K6.
Defined.
