(* ===== verification/Ateapi.v ===== *)
(** * Ateapi: the platform's control API

    Models [internal/ateapi/ateapi.go]: [Dial] and the four calls of [Client].
    The control service behind them is not in the repository: [ControlClient] is
    the generated stub, a function from the request message and the platform's
    state to a new state and an error; [Platform] states what the comments in
    the sources rely on about it.  [Registry] is a small service that satisfies
    it.  [Lifecycle] is the interface the broker and the sidecar use. *)
From S2P Require Import Prelude Resumer.

(** ** Messages *)

Record ObjectRef : Type := MkObjectRef { or_Atespace : string; or_Name : string }.

Inductive control_request : Type :=
| SuspendActorRequest (actor : ObjectRef)
| ResumeActorRequest (actor : ObjectRef)
| CreateActorRequest (metadata : ObjectRef) (templateNamespace templateName : string)
| DeleteActorRequest (actor : ObjectRef).

(** The generated client: a unary call returns an error or nothing of interest. *)
Class ControlClient (S : Type) : Type :=
  control_call : control_request -> S -> S * option string.

(** ** Dialing *)

Record ApiConfig : Type := MkApiConfig { api_Addr : string; api_Insecure : bool }.

Inductive transport_credentials : Type := InsecureCredentials | TLSCredentials (skipVerify : bool).

(** The connection a [Client] holds. *)
Record api_client : Type := MkApiClient { ac_addr : string; ac_creds : transport_credentials }.

(** [Dial]; [newClient] is [grpc.NewClient]'s error for a target. *)
Definition Dial (newClient : string -> option string) (cfg : ApiConfig) : res string api_client :=
  if bool_decide (api_Addr cfg = "") then Err "ateapi: Addr is required"
  else
    let creds := if api_Insecure cfg then InsecureCredentials else TLSCredentials true in
    match newClient (api_Addr cfg) with
    | Some e => Err ("ateapi: dial " +:+ api_Addr cfg +:+ ": " +:+ e)
    | None => Ok (MkApiClient (api_Addr cfg) creds)
    end.

(** ** Calls *)

Definition object_ref (actor : Ref) : ObjectRef := MkObjectRef (ref_Atespace actor) (ref_Name actor).

Section calls.
Context {S : Type} `{ControlClient S}.

Definition SuspendActor (actor : Ref) (s : S) : S * option string :=
  control_call (SuspendActorRequest (object_ref actor)) s.

Definition ResumeActor (actor : Ref) (s : S) : S * option string :=
  control_call (ResumeActorRequest (object_ref actor)) s.

Definition CreateActor (actor : Ref) (templateNamespace templateName : string) (s : S) : S * option string :=
  control_call (CreateActorRequest (object_ref actor) templateNamespace templateName) s.

Definition DeleteActor (actor : Ref) (s : S) : S * option string :=
  control_call (DeleteActorRequest (object_ref actor)) s.
End calls.

(** The interface [Lifecycle]: the two calls the tunnel's components make. *)
Class Lifecycle (S : Type) : Type := {
  lc_suspend : Ref -> S -> S * option string;
  lc_resume : Ref -> S -> S * option string;
}.

#[export] Instance client_lifecycle {S} `{ControlClient S} : Lifecycle S :=
  {| lc_suspend := SuspendActor; lc_resume := ResumeActor |}.

(** ** What the platform promises *)

Inductive actor_state : Type := Running | Suspended.

#[export] Instance actor_state_eq_dec : EqDecision actor_state.
Proof. solve_decision. Defined.

(** The documented behaviour: a call that reports success has had its effect,
    and only the named actor is affected. *)
Class Platform (S : Type) `{ControlClient S} (actor_of : S -> Ref -> option actor_state) : Prop := {
  pf_suspend r s : snd (SuspendActor r s) = None -> actor_of (fst (SuspendActor r s)) r = Some Suspended;
  pf_resume r s : snd (ResumeActor r s) = None -> actor_of (fst (ResumeActor r s)) r = Some Running;
  pf_create r ns t s : snd (CreateActor r ns t s) = None -> actor_of (fst (CreateActor r ns t s)) r <> None;
  pf_delete r s : snd (DeleteActor r s) = None -> actor_of (fst (DeleteActor r s)) r = None;
  pf_other r r' s : r' <> r ->
    actor_of (fst (SuspendActor r s)) r' = actor_of s r' /\
    actor_of (fst (ResumeActor r s)) r' = actor_of s r' /\
    actor_of (fst (DeleteActor r s)) r' = actor_of s r' /\
    forall ns t, actor_of (fst (CreateActor r ns t s)) r' = actor_of s r';
}.

(** ** A registry of actors *)

Module Registry.
#[export] Instance ObjectRef_eq_dec : EqDecision ObjectRef.
Proof. solve_decision. Defined.
#[export] Instance ObjectRef_countable : Countable ObjectRef.
Proof.
  refine (inj_countable' (fun o => (or_Atespace o, or_Name o)) (fun p => MkObjectRef (fst p) (snd p)) _).
  by intros [].
Defined.

Abbreviation registry := (gmap ObjectRef actor_state).

(** Actors are created suspended; an actor must be suspended to be deleted. *)
#[export] Instance registry_client : ControlClient registry := fun q s =>
  match q with
  | SuspendActorRequest o =>
      match s !! o with Some _ => (<[o := Suspended]> s, None) | None => (s, Some "not found") end
  | ResumeActorRequest o =>
      match s !! o with Some _ => (<[o := Running]> s, None) | None => (s, Some "not found") end
  | CreateActorRequest o _ _ =>
      match s !! o with Some _ => (s, Some "already exists") | None => (<[o := Suspended]> s, None) end
  | DeleteActorRequest o =>
      match s !! o with
      | Some Suspended => (delete o s, None)
      | Some Running => (s, Some "not suspended")
      | None => (s, Some "not found")
      end
  end.

Definition actor_of (s : registry) (r : Ref) : option actor_state := s !! object_ref r.

Lemma object_ref_inj r r' : object_ref r = object_ref r' -> r = r'.
Proof. destruct r, r'. by intros [= -> ->]. Qed.

#[export] Instance registry_platform : Platform registry actor_of.
Proof.
  split; unfold SuspendActor, ResumeActor, CreateActor, DeleteActor, control_call, registry_client, actor_of; intros.
  1-4: repeat case_match; simpl in *; simplify_eq; by rewrite ?lookup_insert_eq, ?lookup_delete_eq.
  - assert (object_ref r <> object_ref r') by (by intros E%object_ref_inj).
    split_and!; intros; repeat case_match; simpl; by rewrite ?lookup_insert_ne, ?lookup_delete_ne.
Qed.
End Registry.
