(* ===== verification/Lifecycle.v ===== *)
(** * Lifecycle: a call that outlives its actor

    The whole loop the repository exists for, put together from its parts.  An
    actor is suspended while the destination is still working on its request.
    The response arrives at the broker's session ([System]), whose callback wakes
    the actor through the resumer ([Resumer]), whose goroutine calls the platform
    ([Ateapi]), which brings the actor back; the thawed sidecar redials and the
    handshake delivers the response to the agent.  The sidecar's half does
    nothing unless the platform says that its actor is running. *)
From S2P Require Import Prelude ReplayBuffer Socket Wire Link BrokerSession Sidecar BrokerStream SidecarStream.
From S2P Require Import System Resumer Ateapi.

#[local] Existing Instance all_owned.

(** ** The resumer's goroutine, against the platform *)

Section goroutine.
Context {S : Type} `{ControlClient S}.
(** [status.Code(err) == codes.Aborted], and how long the calls take. *)
Context (aborted : string -> bool) (took : nat -> Z).

(** The platform after [n] calls. *)
Fixpoint after_calls (ref : Ref) (n : nat) (s : S) : S :=
  match n with O => s | Datatypes.S n => fst (lc_resume ref (after_calls ref n s)) end.

Definition classify (e : option string) : outcome :=
  match e with None => CallOk | Some e => if aborted e then CallAborted else CallFailed end.

Definition resume_call (ref : Ref) (s : S) (n : nat) : outcome * Z :=
  (classify (snd (lc_resume ref (after_calls ref n s))), took n).

(** The goroutine from its start to its end: how it ended, and the platform. *)
Definition resume_goroutine (actorID : string) (s : S) : resume_result * S :=
  let '(r, n, _) := run_resume (resume_call (parseRef actorID) s) in (r, after_calls (parseRef actorID) n s).

(** A goroutine that reports success has had its effect. *)
Lemma goroutine_resumes actor_of `{!Platform S actor_of} actorID s s' :
  (forall n, 0 <= took n) -> resume_goroutine actorID s = (Resumed, s') -> actor_of s' (parseRef actorID) = Some Running.
Proof.
  intros Ht. unfold resume_goroutine, run_resume. set (ref := parseRef actorID).
  pose proof (resume_loop_terminates (resume_call ref s) Ht resume_fuel 0 backoff0 0) as HT.
  pose proof (resume_loop_result (resume_call ref s) Ht resume_fuel 0 backoff0 0) as HR.
  destruct (resume_loop _ resume_fuel 0 backoff0 0) as [[r n] t]. intros [= -> <-].
  destruct HT as [_ Hn]; [unfold backoff0, deadline, resume_fuel; lia..|].
  destruct HR as [_ HR]; [unfold backoff0, deadline; lia..|]. destruct n as [|n]; [lia|]. simpl in *.
  apply pf_resume. unfold classify in HR. change (lc_resume ref) with (ResumeActor (S := S) ref) in HR.
  destruct (snd _); [by destruct (aborted s0)|done].
Qed.
End goroutine.

(** ** Wakes *)

(** [Broker.wake] for every callback of the session. *)
Definition dispatch_wakes (es : list event) (r : resumer) : resumer :=
  foldl (fun r e => match e with EvWake a _ => resume a r | EvRemove _ _ => r end) r es.

(** However many wakes one turn of the session asks for, one goroutine starts. *)
Lemma dispatch_started es a r :
  a ∉ r_inflight r -> (exists reason, EvWake a reason ∈ es) -> (forall b reason, EvWake b reason ∈ es -> b = a) ->
  r_started (dispatch_wakes es r) = r_started r ++ [a].
Proof.
  assert (forall es r, a ∈ r_inflight r -> (forall b reason, EvWake b reason ∈ es -> b = a) -> dispatch_wakes es r = r) as Hbusy.
  { clear. induction es as [|e es IH]; intros r Hr Ha; [done|]. unfold dispatch_wakes. cbn [foldl].
    assert (match e with EvWake a _ => resume a r | EvRemove _ _ => r end = r) as ->.
    { destruct e as [b x|b x]; [|done]. rewrite (Ha b x) by apply list_elem_of_here. unfold resume. by rewrite decide_True. }
    apply IH; [done|]. intros b x Hx. apply (Ha b x). by apply list_elem_of_further. }
  intros Hr (reason & Hin) Ha. induction es as [|e es IH]; [by apply elem_of_nil in Hin|].
  assert (forall b x, EvWake b x ∈ es -> b = a) as Ha' by (intros b x Hx; apply (Ha b x); by apply list_elem_of_further).
  destruct e as [b x|b x].
  - rewrite (Ha b x) by apply list_elem_of_here.
    change (r_started (dispatch_wakes es (resume a r)) = r_started r ++ [a]). unfold resume. rewrite decide_False by done.
    rewrite Hbusy; [done|simpl; apply elem_of_union_l, elem_of_singleton_2; done|done].
  - change (r_started (dispatch_wakes es r) = r_started r ++ [a]). apply IH; [|done]. by apply elem_of_cons in Hin as [?|?].
Qed.

Section wakes.
Context {C : Type} `{FrameWriter C}.

(** The response to a pending, detached session wakes its actor, and only it. *)
Lemma read_wakes p (st : sst C) :
  p <> [] -> pend_det (ss st) -> s_dead (ss st) = false -> 0 < Free (s_downBuf (ss st)) ->
  (exists b, Append (s_downBuf (ss st)) (ztake (Z.min (len p) (Free (s_downBuf (ss st)))) p) = Ok b) ->
  exists es, evs (fst (readUpstream p None st)) = evs st ++ es /\
    (exists r, EvWake (s_actorID (ss st)) r ∈ es) /\ (forall a r, EvWake a r ∈ es -> a = s_actorID (ss st)).
Proof.
  intros Hp [Hd Hr] Ha Hf (b & Hb).
  destruct (sexec_events "" False (ORead p None) st) as (es & E & W & _); [done|]. simpl in E. exists es.
  split; [done|]. split; [|intros a r Hw; by apply W in Hw as [? _]].
  assert (exists es', evs (fst (readUpstream p None st)) = (evs st ++ [EvWake (s_actorID (ss st)) "downstream data on pending session"]) ++ es') as (es' & E').
  2: { rewrite E', <- app_assoc in E. apply app_inv_head in E as <-. eexists. apply list_elem_of_here. }
  unfold readUpstream. destruct p as [|x p']; [done|]. set (p := x :: p') in *.
  assert (exists es', evs (fst (produceDownstream p st)) = (evs st ++ [EvWake (s_actorID (ss st)) "downstream data on pending session"]) ++ es') as (es1 & E1).
  { unfold produceDownstream, p at 1. cbn [length produce_loop]. unfold p at 1. cbn [produce_loop]. fold p. rewrite Ha.
    destruct (Z.eqb_spec (Free (s_downBuf (ss st))) 0); [lia|].
    replace (if len p >? Free (s_downBuf (ss st)) then Free (s_downBuf (ss st)) else len p)
      with (Z.min (len p) (Free (s_downBuf (ss st)))) by (destruct (Z.gtb_spec (len p) (Free (s_downBuf (ss st)))); lia).
    rewrite Hb. unfold try_forward. cbn [upd ss s_tconn set_downBuf]. rewrite Hd. unfold wake_if_detached. simpl. rewrite Hd, Hr. simpl.
    match goal with |- context [produce_loop ?f ?q ?s] => destruct (step_ok_produce False f q s) as [(es2 & E2 & _) _ _] end.
    exists es2. exact E2. }
  destruct (produceDownstream p st) as [st1 r1]. simpl in E1.
  destruct r1; simpl; try (by exists es1); unfold destroy; destruct (s_dead (ss st1)); simpl; try (by exists es1);
    rewrite E1, <- app_assoc; by eexists.
Qed.
End wakes.

(** ** The loop *)

Section life.
Context {C : Type} `{FrameWriterLaws C}.
Context {S : Type} `{ControlClient S} (actor_of : S -> Ref -> option actor_state) `{!Platform S actor_of}.
Context (aborted : string -> bool) (took : nat -> Z) (Htook : forall n, 0 <= took n).
Context (os_error : string).

Record life : Type := MkLife {
  lf_y : sys C;            (* the session, both halves *)
  lf_r : resumer;          (* the broker's resumer *)
  lf_p : S;                (* the platform *)
}.

(** The destination sends [p]: the session's turn, and its callbacks. *)
Definition respond (p : list byte) (l : life) : life :=
  let y := dest_read p None (lf_y l) in
  MkLife y (dispatch_wakes (drop (length (evs (y_b (lf_y l)))) (evs (y_b y))) (lf_r l)) (lf_p l).

(** The resumer's goroutine for [a] runs to its end. *)
Definition run_goroutine (a : string) (l : life) : life :=
  MkLife (lf_y l) (resume_done a (lf_r l)) (snd (resume_goroutine aborted took a (lf_p l))).

(** Every goroutine that was started since [l0]. *)
Definition run_started (l0 l : life) : life :=
  foldl (fun l a => run_goroutine a l) l (drop (length (r_started (lf_r l0))) (r_started (lf_r l))).

(** A running actor's sidecar redials. *)
Definition reconnect (a : string) (tc : nat) (cu cd : C) (l : life) : option life :=
  if decide (actor_of (lf_p l) (parseRef a) = Some Running)
  then Some (MkLife (fst (fst (heal os_error a tc cu cd (lf_y l)))) (lf_r l) (lf_p l))
  else None.

(** Reading a response touches the binding and the buffer only. *)
Lemma produce_ss fuel p (st : sst C) :
  exists v d, ss (fst (produce_loop fuel p st)) = set_tconn v (set_downBuf d (ss st)).
Proof.
  revert p st. induction fuel as [|fuel IH]; intros p st; destruct p as [|x p];
    try (exists (s_tconn (ss st)), (s_downBuf (ss st)); by destruct st as [[]]). cbn [produce_loop].
  assert (exists v d, ss st = set_tconn v (set_downBuf d (ss st))) as Hid
    by (exists (s_tconn (ss st)), (s_downBuf (ss st)); by destruct st as [[]]).
  destruct (s_dead (ss st)); [done|]. destruct (_ =? 0); [done|]. destruct (Append _ _) as [d|]; [|done].
  set (n := if _ >? _ then _ else _). destruct (try_forward_ss (End_ (s_downBuf (ss st))) (ztake n (x :: p)) (upd (set_downBuf d) st))
    as (_ & _ & _ & (v & Ev) & _).
  destruct (IH (zdrop n (x :: p)) (wake_if_detached (try_forward (End_ (s_downBuf (ss st))) (ztake n (x :: p)) (upd (set_downBuf d) st))))
    as (v' & d' & E).
  exists v', d'. rewrite E. unfold wake_if_detached. destruct (bool_decide _ && _); simpl; by rewrite Ev.
Qed.

(** A response is read, however much of it fits. *)
Lemma dest_read_keeps p (y : sys C) sid A D :
  is_u64 sid -> yinv sid y A D -> y_reader y = RNext -> len (y_dest y ++ p) < 2 ^ 64 -> s_dead (ss (y_b y)) = false ->
  let y1 := dest_read p None y in
  s_dead (ss (y_b y1)) = false /\ s_upstream (ss (y_b y1)) = s_upstream (ss (y_b y)) /\
  s_upstreamWritten (ss (y_b y1)) = s_upstreamWritten (ss (y_b y)) /\
  y_c y1 = y_c y /\ y_created y1 = y_created y /\ y_dest y1 = y_dest y ++ p /\ y_agent y1 = y_agent y /\ y_upwait y1 = y_upwait y.
Proof.
  intros Hsid I Hrd HL Hd. pose proof (yi_D' _ _ _ _ I Hd) as ED. rewrite Hrd, app_nil_r in ED. rewrite ED, len_app in HL.
  unfold dest_read, readUpstream.
  assert (exists st1 r1, match p with [] => (y_b y, PDone) | _ => produceDownstream p (y_b y) end = (st1, r1) /\
    (exists v d, ss st1 = set_tconn v (set_downBuf d (ss (y_b y)))) /\ (r1 = PDone \/ exists k, r1 = PBlocked k)) as (st1 & r1 & -> & (v & d & E) & Hr).
  { destruct (produceDownstream p (y_b y)) as [st1 r1] eqn:E. exists st1, r1.
    split; [destruct p; [|done]; unfold produceDownstream in E; simpl in E; by simplify_eq|].
    pose proof (produce_ss (length p) p (y_b y)) as Hs. unfold produceDownstream in E. rewrite E in Hs. split; [done|].
    apply (binv_produce sid Hsid _ p A D _ _ _ _ (le_n _) (yi_b _ _ _ _ I) HL) in E as (q & rest & _ & _ & Hr).
    destruct Hs as (v & d & Hs). simpl in Hs. destruct r1; simpl in Hr; try done; [by left|right; eauto|]. by rewrite Hs in Hr; simpl in Hr; rewrite Hd in Hr. }
  destruct Hr as [->|[k ->]]; simpl; rewrite E; simpl; by rewrite Hd.
Qed.
End life.

(** ** Properties *)

Section properties.
Context {C : Type} `{FrameWriterLaws C}.
Context {S : Type} `{ControlClient S} (actor_of : S -> Ref -> option actor_state) `{!Platform S actor_of}.
Context (aborted : string -> bool) (took : nat -> Z) (Htook : forall n, 0 <= took n).
Context (sid cbuf bbuf : Z) (target actorID os_error : string) (cap : option nat) (cw : bool).
Context (Hsid : is_u64 sid) (Ht : str_len target <= maxString) (Hos : str_len os_error <= maxString).
Context (Ha : str_len actorID <= maxString) (Hcb : 0 <= cbuf) (Hbb : 0 <= bbuf).

(** A response that fits is taken in one turn. *)
Lemma read_fits p (y : sys C) A D :
  yinv sid y A D -> y_reader y = RNext -> 0 < len p <= Free (s_downBuf (ss (y_b y))) -> len (y_dest y ++ p) < 2 ^ 64 ->
  s_dead (ss (y_b y)) = false ->
  y_reader (dest_read p None y) = RNext /\
  exists b, Append (s_downBuf (ss (y_b y))) (ztake (Z.min (len p) (Free (s_downBuf (ss (y_b y))))) p) = Ok b.
Proof.
  intros I Hrd Hp HL Hd. pose proof (yi_D' _ _ _ _ I Hd) as ED. rewrite Hrd, app_nil_r in ED. rewrite ED, len_app in HL.
  destruct (bi_down _ _ _ _ _ (yi_b _ _ _ _ I)) as (a & Rp & _).
  destruct (rep_append Rp p) as (b & Hb & _); [lia|done|].
  assert (ztake (len p) p = p /\ zdrop (len p) p = []) as [Et Ed].
  { unfold ztake, zdrop, len. rewrite Nat2Z.id. by rewrite firstn_all, drop_all. }
  rewrite Z.min_l, Et by lia. split; [|by exists b].
  unfold dest_read, readUpstream. destruct p as [|x p']; [done|]. set (p := x :: p') in *.
  unfold produceDownstream, p at 1. cbn [length produce_loop]. unfold p at 1. cbn [produce_loop]. fold p. rewrite Hd.
  destruct (Z.eqb_spec (Free (s_downBuf (ss (y_b y)))) 0); [lia|].
  destruct (Z.gtb_spec (len p) (Free (s_downBuf (ss (y_b y))))); [lia|]. rewrite Et, Hb, Ed. by destruct p'.
Qed.

(** C4. A suspended call completes.  Take any reachable state (short of 2^64 bytes in
    either direction) of a session that is alive at both ends with both sockets taking writes, whose request is
    outstanding and whose actor is away (no tunnel bound), with no resume in
    flight for it and its reader waiting for the destination.  Let the destination
    answer with bytes that fit in the room left in the download buffer, such that
    what either side then has to send again is at most one frame ([MaxPayload]),
    and let the platform accept a resume within the resumer's retries.  Then the
    actor is running again without anything else having asked for it, its sidecar
    redials over a connection that works, and the agent has received everything
    the destination ever sent, the answer included, while the destination has
    received everything the agent's pump has handed over. *)
Theorem suspended_call_completes (l : life (C := C) (S := S)) (p : list byte) (tc : nat) (cu cd : C) (u : sock)
    (R : rtc (ystep os_error) (initial sid target cbuf bbuf actorID cap cw) (lf_y l))
    (HA : len (y_agent (lf_y l)) < 2 ^ 64) (HD : len (y_dest (lf_y l) ++ p) < 2 ^ 64)
    (Hcr : y_created (lf_y l) = true) (Hrd : y_reader (lf_y l) = RNext)
    (Hcd : cs_dead (cs (y_c (lf_y l))) = false) (Hbd : s_dead (ss (y_b (lf_y l))) = false)
    (Hag : sock_healthy (cs_agent (cs (y_c (lf_y l)))))
    (Hu : s_upstream (ss (y_b (lf_y l))) = Some u) (Huh : sock_healthy u)
    (Hpd : pend_det (ss (y_b (lf_y l)))) (Hp : 0 < len p <= Free (s_downBuf (ss (y_b (lf_y l)))))
    (Hfu : End_ (cs_upBuf (cs (y_c (lf_y l)))) - s_upstreamWritten (ss (y_b (lf_y l))) <= MaxPayload)
    (Hfd : End_ (s_downBuf (ss (y_b (lf_y l)))) + len p - cs_downDelivered (cs (y_c (lf_y l))) <= MaxPayload)
    (Hal : str_len (s_actorID (ss (y_b (lf_y l)))) <= maxString)
    (Hfl : s_actorID (ss (y_b (lf_y l))) ∉ r_inflight (lf_r l))
    (Hok : fst (resume_goroutine aborted took (s_actorID (ss (y_b (lf_y l)))) (lf_p l)) = Resumed)
    (Wu : works cu []) (Wd : works cd []) :
  let a := s_actorID (ss (y_b (lf_y l))) in
  exists l' u', reconnect actor_of os_error a tc cu cd (run_started aborted took l (respond p l)) = Some l' /\
    actor_of (lf_p l') (parseRef a) = Some Running /\
    sk_out (cs_agent (cs (y_c (lf_y l')))) = y_dest (lf_y l) ++ p /\
    s_upstream (ss (y_b (lf_y l'))) = Some u' /\ y_agent (lf_y l) = sk_out u' ++ y_upwait (lf_y l).
Proof using Type*.
  intros a. set (y := lf_y l) in *. set (y1 := dest_read p None y).
  assert (len (y_dest y) < 2 ^ 64) as HD' by (rewrite len_app in HD; pose proof (len_nonneg p); lia).
  destruct (reachable_inv sid cbuf bbuf target actorID os_error cap cw Hsid Ht Hos Ha Hcb Hbb y R HA HD')
    as (A0 & D0 & I0).
  destruct (read_fits p y A0 D0 I0 Hrd Hp HD Hbd) as [Erd Happ].
  destruct (dest_read_keeps p y sid A0 D0 Hsid I0 Hrd HD Hbd) as (Hbd1 & Eu1 & Ew1' & Ec1 & Ecr1 & ED1 & EA1 & Ew1).
  fold y1 in Erd, Hbd1, Eu1, Ew1', Ec1, Ecr1, ED1, EA1, Ew1.
  assert (rtc (ystep os_error) (initial sid target cbuf bbuf actorID cap cw) y1) as R1
    by (eapply rtc_r; [exact R|by apply YDestRead]).
  destruct (reachable_inv sid cbuf bbuf target actorID os_error cap cw Hsid Ht Hos Ha Hcb Hbb y1 R1
    ltac:(by rewrite EA1) ltac:(by rewrite ED1)) as (A & D & I).
  pose proof (yi_D' _ _ _ _ I Hbd1) as PD. rewrite Erd, app_nil_r in PD.
  assert (replays_fit y1) as Hfit.
  { split; [by rewrite Ec1, Ew1'|]. destruct (bi_down _ _ _ _ _ (yi_b _ _ _ _ I)) as (b & Rb & _).
    destruct (bi_down _ _ _ _ _ (yi_b _ _ _ _ I0)) as (b0 & Rb0 & _). pose proof (yi_D' _ _ _ _ I0 Hbd) as PD0.
    rewrite Hrd, app_nil_r in PD0. rewrite (rep_End Rb0) in Hfd. rewrite (rep_End Rb), Ec1. simpl in Hfd |- *.
    by rewrite <- PD, ED1, len_app, PD0. }
  destruct (heal_spec sid Hsid os_error Hos y1 A D a tc cu cd u I)
    as (y' & ku & kd & E & _ & _ & (u' & Hu' & Ho) & Oa & _ & _); try done; try congruence.
  (* one goroutine, for this actor *)
  destruct (read_wakes p (y_b y)) as (es & Ees & Hw & Hwa); [intros Ep; rewrite Ep in Hp; by destruct Hp|done|done|lia|done|].
  assert (evs (y_b y1) = evs (y_b y) ++ es) as Ev1.
  { rewrite <- Ees. unfold y1, dest_read. by destruct (readUpstream p None (y_b y)). }
  pose proof (dispatch_started es a (lf_r l) Hfl Hw Hwa) as Est.
  assert (run_started aborted took l (respond p l) = run_goroutine aborted took a (respond p l)) as ->.
  { unfold run_started. replace (drop _ _) with [a]; [done|]. unfold respond. simpl. fold y y1.
    rewrite Ev1, drop_app_length, Est, drop_app_length. done. }
  (* its call had its effect *)
  change (fst (resume_goroutine aborted took a (lf_p l)) = Resumed) in Hok.
  destruct (resume_goroutine aborted took a (lf_p l)) as [res s'] eqn:Eg. simpl in Hok. subst res.
  pose proof (goroutine_resumes aborted took actor_of a (lf_p l) s' Htook Eg) as Hrun.
  exists (MkLife y' (lf_r (run_goroutine aborted took a (respond p l))) s'), u'.
  unfold reconnect, run_goroutine. cbn [lf_p lf_y lf_r]. change (lf_p (respond p l)) with (lf_p l). change (lf_y (respond p l)) with y1.
  rewrite Eg. cbn [snd]. rewrite decide_True by done. rewrite E. cbn [fst].
  pose proof (yi_A' _ _ _ _ I ltac:(by rewrite Ec1)) as PA.
  split_and!; try done; [by rewrite Oa, <- PD|by rewrite Ho, <- EA1, <- Ew1].
Qed.
End properties.

(** ** Witness *)

#[local] Existing Instances Registry.ObjectRef_eq_dec Registry.ObjectRef_countable Registry.registry_client Registry.registry_platform.

(** A request has been written, the actor is suspended, the answer comes. *)
Definition demo_away : sys Conn := with_b (detach 0 (y_b Demo.y5)) Demo.y5.

Lemma demo_away_reached : rtc (ystep Demo.os) Demo.y0 demo_away.
Proof.
  destruct Demo.new_conn_works as (W1 & _ & W2).
  apply (rtc_l _ _ Demo.y1); [by apply YConnect|].
  apply (rtc_l _ _ Demo.y2); [apply YBrokerRecv with (from := 0%nat); [done|Demo.in_list]|].
  apply (rtc_l _ _ Demo.y3); [by apply YDialOk|].
  apply (rtc_l _ _ Demo.y4); [by apply YAgentWrite|].
  apply (rtc_l _ _ Demo.y5); [apply YBrokerRecv with (from := 0%nat); [done|Demo.in_list]|].
  apply rtc_once, YDetach.
Qed.

Definition demo_life : life (C := Conn) (S := Registry.registry) :=
  MkLife demo_away newResumer {[MkObjectRef "ns" "a" := Suspended]}.

Lemma suspended_call_completes_witness :
  exists l' u', reconnect Registry.actor_of Demo.os "ns/a" 1 (NewConn new_sock) (NewConn new_sock)
      (run_started (fun _ => false) (fun _ => 0) demo_life (respond [x61; x62] demo_life)) = Some l' /\
    Registry.actor_of (lf_p l') (MkRef "ns" "a") = Some Running /\
    sk_out (cs_agent (cs (y_c (lf_y l')))) = [x61; x62] /\
    s_upstream (ss (y_b (lf_y l'))) = Some u' /\ [x47; x45; x54] = sk_out u'.
Proof.
  destruct (suspended_call_completes Registry.actor_of (fun _ => false) (fun _ => 0) ltac:(by intros) 1 8 4 "mcp:80" "ns/a" Demo.os None true
    ltac:(by_compute) ltac:(by_compute) ltac:(by_compute) ltac:(by_compute) ltac:(by_compute) ltac:(by_compute)
    demo_life [x61; x62] 1 (NewConn new_sock) (NewConn new_sock) (MkSock [x47; x45; x54] None false false) demo_away_reached)
    as (l' & u' & E1 & E2 & E3 & E4 & E5); [by_compute..|apply not_elem_of_empty|by_compute|exact Demo.new_conn_works|exact Demo.new_conn_works|].
  exists l', u'. rewrite app_nil_r in E5. split_and!; [exact E1|exact E2|exact E3|exact E4|exact E5].
Defined.
