(* ===== verification/Activity.v ===== *)
(** * Activity: the agent's activity tracker

    Models [internal/activityz/activityz.go] and the status record of
    [internal/activitystatus/status.go]: the counters the plugin callbacks
    maintain and the snapshot served at /statusz.  Times are nanoseconds; Go's
    zero [time.Time] is [None].  The tool and the model half of the tracker run
    the same code on different fields; [half] is that code. *)
From S2P Require Import Prelude.

(** [Status], the wire contract. *)
Record Status : Type := MkStatus {
  InvocationsInFlight : Z;
  ToolCallsInFlight : Z;
  ToolCallsStarted : Z;        (* uint64 *)
  ModelCallsInFlight : Z;
  ModelCallsStarted : Z;       (* uint64 *)
  ToolBlockedMillis : Z;
  ModelBlockedMillis : Z;
  IdleMillis : Z;
}.

(** [Duration.Milliseconds]. *)
Definition Milliseconds (d : Z) : Z := Z.quot d 1000000.

(** One half: calls in flight, calls ever started, since when it is busy. *)
Record half : Type := MkHalf {
  h_calls : Z;
  h_total : Z;                 (* uint64 *)
  h_since : option Z;
}.

Record Tracker : Type := MkTracker {
  tk_invocations : Z;
  tk_tool : half;
  tk_model : half;
  tk_lastActivity : Z;
}.

Definition New (now : Z) : Tracker := MkTracker 0 (MkHalf 0 0 None) (MkHalf 0 0 None) now.

Definition beforeRun (now : Z) (t : Tracker) : Tracker :=
  MkTracker (tk_invocations t + 1) (tk_tool t) (tk_model t) now.

Definition afterRun (now : Z) (t : Tracker) : Tracker :=
  MkTracker (if tk_invocations t >? 0 then tk_invocations t - 1 else tk_invocations t)
    (tk_tool t) (tk_model t) now.

Definition half_before (now : Z) (h : half) : half :=
  MkHalf (h_calls h + 1) (u64 (h_total h + 1)) (if h_calls h =? 0 then Some now else h_since h).

Definition half_after (h : half) : half :=
  let calls := if h_calls h >? 0 then h_calls h - 1 else h_calls h in
  MkHalf calls (h_total h) (if calls =? 0 then None else h_since h).

Definition beforeTool (now : Z) (t : Tracker) : Tracker :=
  MkTracker (tk_invocations t) (half_before now (tk_tool t)) (tk_model t) now.
Definition afterTool (now : Z) (t : Tracker) : Tracker :=
  MkTracker (tk_invocations t) (half_after (tk_tool t)) (tk_model t) now.
Definition beforeModel (now : Z) (t : Tracker) : Tracker :=
  MkTracker (tk_invocations t) (tk_tool t) (half_before now (tk_model t)) now.
Definition afterModel (now : Z) (t : Tracker) : Tracker :=
  MkTracker (tk_invocations t) (tk_tool t) (half_after (tk_model t)) now.

Definition blocked_millis (now : Z) (h : half) : Z :=
  match h_since h with Some s => Milliseconds (now - s) | None => 0 end.

Definition Snapshot (now : Z) (t : Tracker) : Status :=
  MkStatus (tk_invocations t) (h_calls (tk_tool t)) (h_total (tk_tool t))
    (h_calls (tk_model t)) (h_total (tk_model t))
    (blocked_millis now (tk_tool t)) (blocked_millis now (tk_model t))
    (if (tk_invocations t =? 0) && (h_calls (tk_tool t) + h_calls (tk_model t) =? 0)
     then Milliseconds (now - tk_lastActivity t) else 0).

(** ** Runs of the agent *)

(** What the agent framework does, with the calls identified. *)
Inductive activity : Type :=
| RunStart (now : Z)
| RunEnd (now : Z)
| ToolStart (id : nat) (now : Z)
| ToolEnd (id : nat) (now : Z)
| ModelStart (id : nat) (now : Z)
| ModelEnd (id : nat) (now : Z).

Definition act_time (a : activity) : Z :=
  match a with
  | RunStart t | RunEnd t | ToolStart _ t | ToolEnd _ t | ModelStart _ t | ModelEnd _ t => t
  end.

Definition act_exec (t : Tracker) (a : activity) : Tracker :=
  match a with
  | RunStart now => beforeRun now t
  | RunEnd now => afterRun now t
  | ToolStart _ now => beforeTool now t
  | ToolEnd _ now => afterTool now t
  | ModelStart _ now => beforeModel now t
  | ModelEnd _ now => afterModel now t
  end.

(** The tool calls really in flight, with their start times. *)
Definition flight_exec (m : gmap nat Z) (a : activity) : gmap nat Z :=
  match a with
  | ToolStart id now => <[id := now]> m
  | ToolEnd id _ => delete id m
  | _ => m
  end.

(** Well-formed histories: time does not run backwards, a call starts once and
    ends only while in flight. *)
Fixpoint wf_run (now : Z) (m : gmap nat Z) (acts : list activity) : Prop :=
  match acts with
  | [] => True
  | a :: acts =>
      now <= act_time a /\
      match a with
      | ToolStart id _ => m !! id = None
      | ToolEnd id _ => m !! id <> None
      | _ => True
      end /\ wf_run (act_time a) (flight_exec m a) acts
  end.

(** ** Invariants *)

(** Count and busy-since agree. *)
Definition half_ok (h : half) : Prop := 0 <= h_calls h /\ (h_since h = None <-> h_calls h = 0).

Lemma half_ok_before now h : half_ok h -> half_ok (half_before now h).
Proof.
  intros [H1 H2]. unfold half_ok, half_before. simpl. split; [lia|].
  destruct (Z.eqb_spec (h_calls h) 0) as [E|E]; [split; [done|lia]|].
  rewrite H2. split; lia.
Qed.

Lemma half_ok_after h : half_ok h -> half_ok (half_after h).
Proof.
  intros [H1 H2]. unfold half_ok, half_after. cbn zeta. rewrite Z.gtb_ltb.
  destruct (Z.ltb_spec 0 (h_calls h)); simpl.
  - destruct (Z.eqb_spec (h_calls h - 1) 0); [split; [lia|done]|]. rewrite H2. lia.
  - destruct (Z.eqb_spec (h_calls h) 0); [split; [lia|done]|]. lia.
Qed.

Definition tracker_ok (t : Tracker) : Prop :=
  0 <= tk_invocations t /\ half_ok (tk_tool t) /\ half_ok (tk_model t).

Lemma tracker_ok_exec t a : tracker_ok t -> tracker_ok (act_exec t a).
Proof.
  intros (H1 & H2 & H3).
  destruct a; simpl; split_and!; simpl;
    auto using half_ok_before, half_ok_after; [lia|]. zcases; lia.
Qed.

Lemma tracker_ok_run acts t : tracker_ok t -> tracker_ok (foldl act_exec t acts).
Proof.
  revert t. induction acts as [|a acts IH]; intros t Ht; [done|]. apply IH. by apply tracker_ok_exec.
Qed.

Lemma half_ok_new : half_ok (MkHalf 0 0 None).
Proof. done. Qed.

(** The tool half against the calls really in flight: the count is right and
    the busy mark is not later than any of their starts. *)
Record tool_inv (now : Z) (m : gmap nat Z) (h : half) : Prop := {
  ti_ok : half_ok h;
  ti_count : h_calls h = Z.of_nat (size m);
  ti_since : forall s id start, h_since h = Some s -> m !! id = Some start -> s <= start;
  ti_past : forall s, h_since h = Some s -> s <= now;
}.

Lemma tool_inv_start now m h id t :
  tool_inv now m h -> now <= t -> m !! id = None -> tool_inv t (<[id := t]> m) (half_before t h).
Proof.
  intros [Hok Hc Hs Hp] Ht Hm. split; [by apply half_ok_before| | |]; simpl.
  - rewrite map_size_insert_None by done. lia.
  - intros s id' start. destruct (Z.eqb_spec (h_calls h) 0) as [E|E].
    + intros [= <-]. assert (m = ∅) as -> by (apply map_size_empty_inv; lia).
      destruct (decide (id' = id)) as [->|]; [rewrite lookup_insert_eq; by intros [= <-]|].
      by rewrite lookup_insert_ne, lookup_empty.
    + intros E1. destruct (decide (id' = id)) as [->|]; [|rewrite lookup_insert_ne by done; by apply Hs].
      rewrite lookup_insert_eq. intros [= <-]. specialize (Hp s E1). lia.
  - intros s. destruct (_ =? 0); [by intros [= <-]|]. intros E. specialize (Hp s E). lia.
Qed.

Lemma tool_inv_end now m h id t :
  tool_inv now m h -> now <= t -> m !! id <> None -> tool_inv t (delete id m) (half_after h).
Proof.
  intros [Hok Hc Hs Hp] Ht Hm. destruct (m !! id) as [x|] eqn:E; [|done].
  assert (Z.of_nat (size (delete id m)) = Z.of_nat (size m) - 1 /\ 0 < Z.of_nat (size m)) as [Hsz Hpos].
  { assert (size m <> 0%nat) by (intros Hz; apply map_size_empty_inv in Hz as ->; by rewrite lookup_empty in E).
    rewrite (map_size_delete_Some id m) by eauto. lia. }
  split; [by apply half_ok_after| | |].
  - unfold half_after. simpl. rewrite Z.gtb_ltb. zcases; lia.
  - intros s id' start. unfold half_after. simpl. destruct (Z.eqb _ 0); [done|]. intros E1 Hd.
    apply lookup_delete_Some in Hd as [_ Hd]. by eapply Hs.
  - intros s. unfold half_after. simpl. destruct (Z.eqb _ 0); [done|]. intros E1. specialize (Hp s E1). lia.
Qed.

Lemma tool_inv_later now m h t : tool_inv now m h -> now <= t -> tool_inv t m h.
Proof. intros [? ? ? Hp] Ht. split; try done. intros s E. specialize (Hp s E). lia. Qed.

Lemma tool_inv_run acts now m t :
  tool_inv now m (tk_tool t) -> wf_run now m acts ->
  exists now', tool_inv now' (foldl flight_exec m acts) (tk_tool (foldl act_exec t acts)).
Proof.
  revert now m t. induction acts as [|a acts IH]; intros now m t Hi Hw; [by exists now|].
  simpl in Hw. destruct Hw as (Ht & Hg & Hw). simpl. apply (IH (act_time a)); [|done].
  destruct a; simpl in *; try (by eapply tool_inv_later);
    [by eapply tool_inv_start|by eapply tool_inv_end].
Qed.

(** ** Properties *)

(** Whatever the framework does, balanced or not, the counters never go
    negative, a half reports a blocked time only while it has calls in flight,
    and idle time is reported only when nothing at all is in flight. *)
Theorem tracker_snapshot_consistent (acts : list activity) (t0 now : Z) :
  let st := Snapshot now (foldl act_exec (New t0) acts) in
  0 <= InvocationsInFlight st /\ 0 <= ToolCallsInFlight st /\ 0 <= ModelCallsInFlight st /\
  (ToolCallsInFlight st = 0 -> ToolBlockedMillis st = 0) /\
  (ModelCallsInFlight st = 0 -> ModelBlockedMillis st = 0) /\
  (IdleMillis st <> 0 -> InvocationsInFlight st = 0 /\ ToolCallsInFlight st = 0 /\ ModelCallsInFlight st = 0).
Proof.
  intros st.
  destruct (tracker_ok_run acts (New t0)) as (H1 & [H2 H2'] & [H3 H3']).
  { repeat split; simpl; done || lia. }
  unfold st, Snapshot, blocked_millis. simpl.
  split_and!; [done|done|done| | |].
  - intros E. apply H2' in E. by rewrite E.
  - intros E. apply H3' in E. by rewrite E.
  - destruct (Z.eqb_spec (tk_invocations (foldl act_exec (New t0) acts)) 0); simpl; [|done].
    destruct (Z.eqb_spec (h_calls (tk_tool (foldl act_exec (New t0) acts)) +
                          h_calls (tk_model (foldl act_exec (New t0) acts))) 0); [lia|done].
Qed.

(** Nothing blocked is ever missed: on a well-formed history the reported count
    is the number of tool calls really in flight, and the reported blocked time
    is at least the age of every one of them; so once any call has been in
    flight for the threshold, the report says so. *)
Theorem tool_block_never_missed (acts : list activity) (t0 now : Z) (id : nat) (start : Z)
    (Hw : wf_run t0 ∅ acts) (Hid : foldl flight_exec ∅ acts !! id = Some start) :
  let st := Snapshot now (foldl act_exec (New t0) acts) in
  ToolCallsInFlight st = Z.of_nat (size (foldl flight_exec ∅ acts)) /\
  Milliseconds (now - start) <= ToolBlockedMillis st.
Proof.
  intros st. destruct (tool_inv_run acts t0 ∅ (New t0)) as (now' & [[Hn Hb] Hc Hs _]).
  { split; [done|done|done|done]. }
  { done. }
  unfold st, Snapshot, blocked_millis. simpl. split; [done|].
  destruct (h_since _) as [s|] eqn:E.
  - specialize (Hs s id start eq_refl Hid). unfold Milliseconds. apply Z.quot_le_mono; lia.
  - exfalso. assert (Z.of_nat (size (foldl flight_exec ∅ acts)) = 0) as Hz by (rewrite <- Hc; by apply Hb).
    assert (foldl flight_exec ∅ acts = ∅) as E0 by (apply map_size_empty_inv; lia).
    by rewrite E0, lookup_empty in Hid.
Qed.

(** Call 1 runs from 0 s to 9 s, call 2 starts at 8 s. *)
Definition overlapping : list activity :=
  [ToolStart 1 0; ToolStart 2 8000000000; ToolEnd 1 9000000000].

Lemma tool_block_never_missed_witness :
  Milliseconds (10000000000 - 8000000000) <= ToolBlockedMillis (Snapshot 10000000000 (foldl act_exec (New 0) overlapping)).
Proof.
  apply (tool_block_never_missed overlapping 0 10000000000 2 8000000000); [|reflexivity].
  simpl. repeat split; try lia; try done.
Defined.

(** The report can be far off in the other direction: with overlapping calls it
    is the time since the half became busy, not, as the field's comment says,
    the age of the oldest call in flight.  Here the only call in flight is 2 s
    old and the report says 10 s. *)
Theorem blocked_time_is_not_oldest_age :
  wf_run 0 ∅ overlapping /\ foldl flight_exec ∅ overlapping = {[2%nat := 8000000000]} /\
  ToolBlockedMillis (Snapshot 10000000000 (foldl act_exec (New 0) overlapping)) = 10000.
Proof. split_and!; [simpl; repeat split; try lia; done|by vm_compute|by vm_compute]. Qed.
