(* ===== verification/Suspender.v ===== *)
(** * Suspender: when the sidecar suspends the actor

    Models [internal/sidecar/suspender.go]: the configuration defaults, the
    block policy and the poll loop of [Run].  One turn of the loop is [tick];
    the agent's status (or the failure to fetch it), the ingress idle time and
    the clock are its inputs, the suspend it decides on, if any, its output;
    [fetch] and [suspend] are the calls around it, [poll] the whole turn.
    Times are nanoseconds; Go's zero [time.Time] is [None].  A Go time carries a
    wall and a monotonic reading: the resume detection compares wall clocks
    ([ti_wall]), everything else monotonic ones ([ti_now], [ti_now2]). *)
From Stdlib Require Import Sorted.
From S2P Require Import Prelude Resumer Ateapi Activity.

Inductive reason : Type := reasonToolBlocked | reasonModelBlocked | reasonIdle.

#[export] Instance reason_eq_dec : EqDecision reason.
Proof. solve_decision. Defined.

Record SuspenderConfig : Type := MkSuspenderConfig {
  PollInterval : Z;
  BlockedAfter : Z;
  IncludeModelCalls : bool;
  IdleAfter : Z;
  Cooldown : Z;
  HasIngressIdle : bool;         (* cfg.IngressIdle != nil *)
}.

Definition ms (n : Z) : Z := n * 1000000.

(** The defaulting and the resume gap of [NewSuspender]. *)
Definition suspender_defaults (c : SuspenderConfig) : SuspenderConfig :=
  let dflt v d := if v =? 0 then d else v in
  MkSuspenderConfig (dflt (PollInterval c) (ms 500)) (dflt (BlockedAfter c) (ms 1000))
    (IncludeModelCalls c) (IdleAfter c) (dflt (Cooldown c) (ms 2000)) (HasIngressIdle c).

Definition resumeGap (c : SuspenderConfig) : Z :=
  if PollInterval c * 3 >? ms 2000 then PollInterval c * 3 else ms 2000.

Record Suspender : Type := MkSuspender {
  sp_cfg : SuspenderConfig;
  sp_lastToolGen : Z;            (* uint64 *)
  sp_lastModelGen : Z;           (* uint64 *)
  (* local variables of Run *)
  sp_lastSuspend : option Z;
  sp_prevTick : Z;               (* wall clock *)
  sp_idleGraceUntil : option Z;
}.

Definition NewSuspender (c : SuspenderConfig) (now : Z) : Suspender :=
  MkSuspender (suspender_defaults c) 0 0 None now None.

Definition decideBlocked (c : SuspenderConfig) (st : Status) : option reason :=
  if (ToolCallsInFlight st >? 0) && (ToolBlockedMillis st >=? Milliseconds (BlockedAfter c))
  then Some reasonToolBlocked
  else if IncludeModelCalls c && (ModelCallsInFlight st >? 0) &&
          (ModelBlockedMillis st >=? Milliseconds (BlockedAfter c))
  then Some reasonModelBlocked
  else None.

(** What one turn of the loop sees: the wall clock and the monotonic clock at
    the tick, the fetched status, the ingress idle time, and the monotonic clock
    after the fetch. *)
Record tick_in : Type := MkTickIn {
  ti_wall : Z;
  ti_now : Z;
  ti_status : option Status;
  ti_idle : Z;
  ti_now2 : Z;
}.

Definition after (now : Z) (t : option Z) : bool :=
  match t with Some t => now >? t | None => true end.

(** [time.Since(t) < d]; the zero time is further back than any duration. *)
Definition since_lt (now : Z) (t : option Z) (d : Z) : bool :=
  match t with Some t => now - t <? d | None => false end.

Definition tick_reason (s : Suspender) (grace : option Z) (i : tick_in) : option reason :=
  let r := match ti_status i with Some st => decideBlocked (sp_cfg s) st | None => None end in
  match r with
  | Some r => Some r
  | None =>
      if HasIngressIdle (sp_cfg s) && (IdleAfter (sp_cfg s) >? 0) && after (ti_now i) grace &&
         (ti_idle i >=? IdleAfter (sp_cfg s))
      then Some reasonIdle else None
  end.

(** The call was already suspended once and awaits its response. *)
Definition already_suspended (s : Suspender) (r : reason) (i : tick_in) : bool :=
  match r, ti_status i with
  | reasonToolBlocked, Some st => ToolCallsStarted st <=? sp_lastToolGen s
  | reasonModelBlocked, Some st => ModelCallsStarted st <=? sp_lastModelGen s
  | _, _ => false
  end.

Definition tick (i : tick_in) (s : Suspender) : Suspender * option reason :=
  let c := sp_cfg s in
  let grace := if ti_wall i - sp_prevTick s >? resumeGap c then Some (ti_now i + IdleAfter c)
               else sp_idleGraceUntil s in
  let s := MkSuspender c (sp_lastToolGen s) (sp_lastModelGen s) (sp_lastSuspend s) (ti_wall i) grace in
  match tick_reason s grace i with
  | None => (s, None)
  | Some r =>
      if already_suspended s r i then (s, None)
      else if since_lt (ti_now2 i) (sp_lastSuspend s) (Cooldown c) then (s, None)
      else
        let toolGen := match r, ti_status i with
                       | reasonToolBlocked, Some st => ToolCallsStarted st
                       | _, _ => sp_lastToolGen s end in
        let modelGen := match r, ti_status i with
                        | reasonModelBlocked, Some st => ModelCallsStarted st
                        | _, _ => sp_lastModelGen s end in
        (MkSuspender c toolGen modelGen (Some (ti_now2 i)) (ti_wall i) grace, Some r)
  end.

(** A run of the loop: the suspends it makes, each with the inputs of its turn. *)
Fixpoint Run (ks : list tick_in) (s : Suspender) : list (reason * tick_in) :=
  match ks with
  | [] => []
  | i :: ks =>
      let '(s, r) := tick i s in
      match r with Some r => (r, i) :: Run ks s | None => Run ks s end
  end.

(** ** The calls of a turn *)

(** [fetch]: building the request, sending it and decoding the body may fail; the
    status code of the answer is not looked at. *)
Definition fetch (buildable : bool) (answer : res string (list byte))
    (decode : list byte -> res string Status) : res string Status :=
  if negb buildable then Err "request"
  else match answer with Err e => Err e | Ok body => decode body end.

(** What a turn sees when the status comes from [fetch]. *)
Definition fetched (i : tick_in) (r : res string Status) : tick_in :=
  MkTickIn (ti_wall i) (ti_now i) (match r with Ok st => Some st | Err _ => None end) (ti_idle i) (ti_now2 i).

Section lifecycle.
Context {P : Type} `{Lifecycle P}.

(** [suspend]: the actor's identity is resolved at the time of the call, and the
    outcome is only logged. *)
Definition suspend (actor : Ref) (p : P) : P := fst (lc_suspend actor p).

(** A turn with its effect on the platform. *)
Definition poll (actor : Ref) (i : tick_in) (st : Suspender * P) : Suspender * P :=
  let '(s, r) := tick i (fst st) in
  (s, match r with Some _ => suspend actor (snd st) | None => snd st end).
End lifecycle.

(** ** Lemmas *)

Definition started (r : reason) (i : tick_in) : Z :=
  match r, ti_status i with
  | reasonToolBlocked, Some st => ToolCallsStarted st
  | reasonModelBlocked, Some st => ModelCallsStarted st
  | _, _ => 0
  end.

Definition last_gen (r : reason) (s : Suspender) : Z :=
  match r with
  | reasonToolBlocked => sp_lastToolGen s
  | reasonModelBlocked => sp_lastModelGen s
  | reasonIdle => 0
  end.

Lemma decideBlocked_not_idle c st : decideBlocked c st <> Some reasonIdle.
Proof. unfold decideBlocked. by repeat case_match. Qed.

(** A blocked reason comes from a status. *)
Lemma tick_reason_status s g i r :
  tick_reason s g i = Some r -> r <> reasonIdle ->
  exists st, ti_status i = Some st /\ decideBlocked (sp_cfg s) st = Some r.
Proof.
  unfold tick_reason. destruct (ti_status i) as [st|].
  - destruct (decideBlocked _ st) eqn:E; [intros [= <-] _; eauto|].
    destruct (_ && _); intros [= <-]; done.
  - destruct (_ && _); intros [= <-]; done.
Qed.

(** The effect of one turn. *)
Lemma tick_spec i s s' r :
  tick i s = (s', r) ->
  sp_cfg s' = sp_cfg s /\ sp_prevTick s' = ti_wall i /\
  sp_idleGraceUntil s' = (if ti_wall i - sp_prevTick s >? resumeGap (sp_cfg s)
                          then Some (ti_now i + IdleAfter (sp_cfg s)) else sp_idleGraceUntil s) /\
  match r with
  | None => sp_lastToolGen s' = sp_lastToolGen s /\ sp_lastModelGen s' = sp_lastModelGen s /\
            sp_lastSuspend s' = sp_lastSuspend s
  | Some r =>
      tick_reason s (sp_idleGraceUntil s') i = Some r /\
      sp_lastSuspend s' = Some (ti_now2 i) /\
      since_lt (ti_now2 i) (sp_lastSuspend s) (Cooldown (sp_cfg s)) = false /\
      (forall r', r' <> reasonIdle -> last_gen r' s' = if decide (r' = r) then started r i else last_gen r' s) /\
      (r <> reasonIdle -> last_gen r s < started r i)
  end.
Proof.
  unfold tick. set (grace := if _ >? _ then _ else _).
  set (s1 := MkSuspender _ _ _ _ _ _).
  change (tick_reason s1 grace i) with (tick_reason s grace i).
  destruct (tick_reason s grace i) as [q|] eqn:Eq; [|intros [= <- <-]; done].
  destruct (already_suspended s1 q i) eqn:Ea; [intros [= <- <-]; done|].
  destruct (since_lt _ _ _) eqn:Ec; [intros [= <- <-]; done|].
  intros [= <- <-]. split_and!; simpl; try done.
  - intros r' Hr'. destruct q, r'; try done; simpl;
      try (destruct (tick_reason_status s grace i _ Eq) as (st & E & _); [done|]; unfold started; by rewrite E).
  - intros Hq. destruct (tick_reason_status s grace i q Eq Hq) as (st & E & _).
    unfold already_suspended in Ea. rewrite E in Ea. unfold started, last_gen. rewrite E.
    destruct q; simpl in Ea; try done; apply Z.leb_gt in Ea; done.
Qed.

(** Generations only grow along a run. *)
Lemma run_gens ks s r j :
  r <> reasonIdle -> (r, j) ∈ Run ks s -> last_gen r s < started r j.
Proof.
  intros Hr. revert s. induction ks as [|k ks IH]; intros s; simpl; [by intros ?%elem_of_nil|].
  destruct (tick k s) as [s' q] eqn:T. apply tick_spec in T as (_ & _ & _ & Hq).
  destruct q as [q|].
  - destruct Hq as (_ & _ & _ & Hg & Hlt). intros [[= -> ->]|Hin]%elem_of_cons; [by apply Hlt|].
    specialize (IH s' Hin). rewrite Hg in IH by done. case_decide; [|done]. subst q.
    specialize (Hlt Hr). lia.
  - intros Hin. specialize (IH s' Hin). destruct Hq as (E1 & E2 & _).
    unfold last_gen in *. destruct r; by rewrite <- ?E1, <- ?E2.
Qed.

Lemma run_cfg_in ks s r j :
  (r, j) ∈ Run ks s -> exists g, tick_reason s g j = Some r.
Proof.
  revert s. induction ks as [|k ks IH]; intros s; simpl; [by intros ?%elem_of_nil|].
  destruct (tick k s) as [s' q] eqn:T. apply tick_spec in T as (Ec & _ & _ & Hq).
  assert ((r, j) ∈ Run ks s' -> exists g, tick_reason s g j = Some r) as K.
  { intros Hin. destruct (IH s' Hin) as [g Hg]. exists g. revert Hg. unfold tick_reason. by rewrite Ec. }
  destruct q as [q|]; [|auto]. destruct Hq as (Ht & _).
  intros [[= -> ->]|Hin]%elem_of_cons; [eauto|auto].
Qed.

Lemma run_inputs ks s r j : (r, j) ∈ Run ks s -> j ∈ ks.
Proof.
  revert s. induction ks as [|k ks IH]; intros s; simpl; [by intros ?%elem_of_nil|].
  destruct (tick k s) as [s' [q|]]; [|intros ?%IH; by apply list_elem_of_further].
  intros [[= -> ->]|Hin]%elem_of_cons; [apply list_elem_of_here|apply IH in Hin; by apply list_elem_of_further].
Qed.

(** The first suspend of a run respects the cooldown of the one before it. *)
Lemma run_cooldown_first ks s r j l t :
  Run ks s = (r, j) :: l -> sp_lastSuspend s = Some t -> t + Cooldown (sp_cfg s) <= ti_now2 j.
Proof.
  revert s. induction ks as [|k ks IH]; intros s; simpl; [done|].
  destruct (tick k s) as [s' q] eqn:T. apply tick_spec in T as (Ec & _ & _ & Hq). destruct q as [q|].
  - intros [= -> -> _] Et. destruct Hq as (_ & _ & Hs & _). rewrite Et in Hs. simpl in Hs.
    apply Z.ltb_ge in Hs. lia.
  - destruct Hq as (_ & _ & Es). intros E Et. rewrite <- Ec. apply IH; [done|congruence].
Qed.

Lemma run_adjacent ks s r i q j l1 l2 :
  Run ks s = l1 ++ (r, i) :: (q, j) :: l2 -> ti_now2 i + Cooldown (sp_cfg s) <= ti_now2 j.
Proof.
  revert s l1. induction ks as [|k ks IH]; intros s l1; simpl; [by destruct l1|].
  destruct (tick k s) as [s' p] eqn:T. apply tick_spec in T as (Ec & _ & _ & Hq). rewrite <- Ec.
  destruct p as [p|]; [|apply IH]. destruct l1 as [|x l1]; simpl.
  - intros [= -> -> E]. destruct Hq as (_ & Es & _). by eapply run_cooldown_first.
  - intros [= _ E]. by eapply IH.
Qed.

(** While the grace window is open no idle suspend fires. *)
Lemma run_grace ks s P G j :
  (exists g, sp_idleGraceUntil s = Some g /\ G <= g) -> G <= P + IdleAfter (sp_cfg s) ->
  Sorted Z.le (P :: map ti_now ks) ->
  (reasonIdle, j) ∈ Run ks s -> G < ti_now j.
Proof.
  revert s P. induction ks as [|k ks IH]; intros s P (g & Eg & Hg) Hp Hs; simpl; [by intros ?%elem_of_nil|].
  simpl in Hs. apply Sorted_inv in Hs as [Hs Hd]. inversion Hd as [|? ? Hle]; subst.
  destruct (tick k s) as [s' q] eqn:T. apply tick_spec in T as (Ec & Et & Egr & Hq).
  assert (exists g', sp_idleGraceUntil s' = Some g' /\ G <= g') as Hg'.
  { rewrite Egr. destruct (_ >? _); [exists (ti_now k + IdleAfter (sp_cfg s)); split; [done|lia]|eauto]. }
  assert ((reasonIdle, j) ∈ Run ks s' -> G < ti_now j) as K.
  { apply (IH s' (ti_now k)); [done|rewrite Ec; lia|done]. }
  destruct q as [q|]; [|done]. destruct Hq as (Hr & _).
  intros [[= <- ->]|Hin]%elem_of_cons; [|auto]. clear K IH.
  destruct Hg' as (g' & E' & Hg'). rewrite E' in Hr. revert Hr. unfold tick_reason.
  assert (after (ti_now k) (Some g') = true -> G < ti_now k) as K.
  { simpl. rewrite Z.gtb_ltb. intros ?%Z.ltb_lt. lia. }
  destruct (after (ti_now k) (Some g')) eqn:Ea; [intros _; apply K; reflexivity|]. rewrite andb_false_r. simpl.
  destruct (ti_status k) as [st|]; [|done].
  destruct (decideBlocked _ st) as [q|] eqn:Ed; [|done]. intros [= ->]. by apply decideBlocked_not_idle in Ed.
Qed.

Lemma run_justified (ks : list tick_in) (s : Suspender) (r : reason) (i : tick_in)
    (Hin : (r, i) ∈ Run ks s) :
  match r with
  | reasonToolBlocked => exists st, ti_status i = Some st /\ 0 < ToolCallsInFlight st /\
      Milliseconds (BlockedAfter (sp_cfg s)) <= ToolBlockedMillis st
  | reasonModelBlocked => exists st, ti_status i = Some st /\ IncludeModelCalls (sp_cfg s) = true /\
      0 < ModelCallsInFlight st /\ Milliseconds (BlockedAfter (sp_cfg s)) <= ModelBlockedMillis st
  | reasonIdle => HasIngressIdle (sp_cfg s) = true /\ 0 < IdleAfter (sp_cfg s) <= ti_idle i /\
      (forall st, ti_status i = Some st -> decideBlocked (sp_cfg s) st = None)
  end.
Proof.
  destruct (run_cfg_in _ _ _ _ Hin) as [g Hg]. destruct (decide (r = reasonIdle)) as [->|Hne].
  - revert Hg. unfold tick_reason.
    destruct (ti_status i) as [st|]; [destruct (decideBlocked _ st) as [q|] eqn:Ed|].
    { intros [= ->]. by apply decideBlocked_not_idle in Ed. }
    all: destruct (HasIngressIdle _); simpl; [|done]; rewrite Z.gtb_ltb, Z.geb_leb;
      destruct (Z.ltb_spec 0 (IdleAfter (sp_cfg s))); simpl; [|done];
      destruct (after _ _); simpl; [|done]; destruct (Z.leb_spec (IdleAfter (sp_cfg s)) (ti_idle i)); [|done];
      intros _; split_and!; naive_solver.
  - destruct (tick_reason_status s g i r Hg Hne) as (st & Est & Ed). revert Ed.
    unfold decideBlocked. rewrite !Z.gtb_ltb, !Z.geb_leb.
    destruct (Z.ltb_spec 0 (ToolCallsInFlight st)), (Z.leb_spec (Milliseconds (BlockedAfter (sp_cfg s))) (ToolBlockedMillis st)),
      (IncludeModelCalls (sp_cfg s)) eqn:Em, (Z.ltb_spec 0 (ModelCallsInFlight st)),
      (Z.leb_spec (Milliseconds (BlockedAfter (sp_cfg s))) (ModelBlockedMillis st)); simpl;
      intros [= <-]; eauto.
Qed.

(** ** Properties *)

(** C16. Each call is suspended at most once.  In any run of the poller, two
    suspends for a blocked tool call (or two for a blocked model call) have
    strictly increasing started-counts: between them a new call was started.
    A call that is still waiting for its response after a resume is therefore
    never suspended again for itself, whatever the clock and the status
    endpoint report. *)
Theorem each_call_suspended_once (ks : list tick_in) (s : Suspender) (r : reason) (i j : tick_in)
    (l1 l2 l3 : list (reason * tick_in)) (Hr : r <> reasonIdle)
    (E : Run ks s = l1 ++ (r, i) :: l2 ++ (r, j) :: l3) :
  started r i < started r j.
Proof.
  revert s l1 E. induction ks as [|k ks IH]; intros s l1; simpl; [by destruct l1|].
  destruct (tick k s) as [s' p] eqn:T. destruct p as [p|]; [|apply IH].
  destruct l1 as [|x l1]; simpl; [|intros [= _ E]; by eapply IH].
  intros [= -> -> E]. apply tick_spec in T as (_ & _ & _ & _ & _ & _ & Hg & _).
  assert (last_gen r s' < started r j) as K.
  { apply (run_gens ks s' r j Hr). rewrite E. apply elem_of_app. right. by apply list_elem_of_here. }
  rewrite Hg in K by done. by rewrite decide_True in K.
Qed.

(** Suspends are debounced: consecutive suspend calls are at least the cooldown
    apart. *)
Theorem suspends_respect_cooldown (ks : list tick_in) (s : Suspender) (r q : reason) (i j : tick_in)
    (l1 l2 : list (reason * tick_in)) (E : Run ks s = l1 ++ (r, i) :: (q, j) :: l2) :
  Cooldown (sp_cfg s) <= ti_now2 j - ti_now2 i.
Proof. pose proof (run_adjacent _ _ _ _ _ _ _ _ E). lia. Qed.

(** Every suspend is justified by what the poller saw in that very turn: a tool
    (or, if enabled, model) call in flight that has been blocked for the
    threshold, or no ingress request for the idle time while nothing was
    blocked.  A failed status fetch never causes a block suspend. *)
Theorem suspends_are_justified (ks : list tick_in) (s : Suspender) (r : reason) (i : tick_in)
    (Hin : (r, i) ∈ Run ks s) :
  match r with
  | reasonToolBlocked => exists st, ti_status i = Some st /\ 0 < ToolCallsInFlight st /\
      Milliseconds (BlockedAfter (sp_cfg s)) <= ToolBlockedMillis st
  | reasonModelBlocked => exists st, ti_status i = Some st /\ IncludeModelCalls (sp_cfg s) = true /\
      0 < ModelCallsInFlight st /\ Milliseconds (BlockedAfter (sp_cfg s)) <= ModelBlockedMillis st
  | reasonIdle => HasIngressIdle (sp_cfg s) = true /\ 0 < IdleAfter (sp_cfg s) <= ti_idle i /\
      (forall st, ti_status i = Some st -> decideBlocked (sp_cfg s) st = None)
  end.
Proof. exact (run_justified ks s r i Hin). Qed.

(** After a resume (a wall-clock gap between ticks above the resume gap) the stale
    idle timer is ignored: no idle suspend fires until the idle time has passed
    again, so the request that woke the actor can register. *)
Theorem resume_grants_idle_grace (k : tick_in) (ks : list tick_in) (s : Suspender) (j : tick_in)
    (Hgap : resumeGap (sp_cfg s) < ti_wall k - sp_prevTick s)
    (Htime : Sorted Z.le (map ti_now (k :: ks)))
    (Hj : (reasonIdle, j) ∈ Run (k :: ks) s) :
  ti_now k + IdleAfter (sp_cfg s) < ti_now j.
Proof.
  simpl in Hj. destruct (tick k s) as [s' q] eqn:T. apply tick_spec in T as (Ec & Et & Eg & Hq).
  rewrite Z.gtb_ltb, (proj2 (Z.ltb_lt _ _) Hgap) in Eg.
  assert ((reasonIdle, j) ∈ Run ks s' -> ti_now k + IdleAfter (sp_cfg s) < ti_now j) as K.
  { apply (run_grace ks s' (ti_now k)); [eexists; split; [done|lia]|rewrite Ec; lia|done]. }
  destruct q as [q|]; [|auto]. destruct Hq as (Hr & _).
  apply elem_of_cons in Hj as [[= <- ->]|Hin]; [|auto]. exfalso. revert Hr. rewrite Eg. unfold tick_reason.
  assert (after (ti_now k) (Some (ti_now k + IdleAfter (sp_cfg s))) = true -> IdleAfter (sp_cfg s) <= 0) as Ha.
  { simpl. rewrite Z.gtb_ltb. intros ?%Z.ltb_lt. lia. }
  destruct (ti_status k) as [st|]; [destruct (decideBlocked _ st) as [q|] eqn:Ed|].
  { intros [= ->]. by apply decideBlocked_not_idle in Ed. }
  all: rewrite Z.gtb_ltb; destruct (Z.ltb_spec 0 (IdleAfter (sp_cfg s)));
    [|by rewrite !andb_false_r]; destruct (after (ti_now k) _) eqn:Ea; [specialize (Ha eq_refl); lia|];
    by rewrite !andb_false_r.
Qed.

(** ** Witnesses *)

Module Demo.
Definition cfg : SuspenderConfig := MkSuspenderConfig 0 0 false (ms 5000) 0 true.
Definition blocked (n : Z) : Status := MkStatus 1 1 n 0 0 1500 0 0.
Definition at_ (sec : Z) (st : option Status) (idle : Z) : tick_in :=
  MkTickIn (ms (1000 * sec)) (ms (1000 * sec)) st (ms (1000 * idle)) (ms (1000 * sec)).
Definition ticks : list tick_in :=
  [at_ 1 (Some (blocked 1)) 0; at_ 2 (Some (blocked 1)) 0; at_ 60 (Some (blocked 1)) 0;
   at_ 61 (Some (blocked 2)) 0; at_ 120 None 99; at_ 122 None 99; at_ 124 None 99; at_ 126 None 99].
Definition s0 : Suspender := NewSuspender cfg 0.
End Demo.

Lemma each_call_suspended_once_witness : started reasonToolBlocked (Demo.at_ 1 (Some (Demo.blocked 1)) 0) <
  started reasonToolBlocked (Demo.at_ 61 (Some (Demo.blocked 2)) 0).
Proof.
  apply (each_call_suspended_once Demo.ticks Demo.s0 reasonToolBlocked _ _ [] []
    [(reasonIdle, Demo.at_ 126 None 99)]); [discriminate|by vm_compute].
Defined.

Lemma suspends_respect_cooldown_witness :
  Cooldown (sp_cfg Demo.s0) <= ms (61 * 1000) - ms 1000.
Proof.
  apply (suspends_respect_cooldown Demo.ticks Demo.s0 reasonToolBlocked reasonToolBlocked
    (Demo.at_ 1 (Some (Demo.blocked 1)) 0) (Demo.at_ 61 (Some (Demo.blocked 2)) 0) []
    [(reasonIdle, Demo.at_ 126 None 99)]). by vm_compute.
Defined.

Lemma suspends_are_justified_witness :
  HasIngressIdle Demo.cfg = true /\ 0 < IdleAfter Demo.cfg <= ms (99 * 1000).
Proof.
  assert ((reasonIdle, Demo.at_ 126 None 99) ∈ Run Demo.ticks Demo.s0) as Hin
    by (vm_compute; apply list_elem_of_further, list_elem_of_further, list_elem_of_here).
  pose proof (suspends_are_justified Demo.ticks Demo.s0 reasonIdle _ Hin) as (H1 & H2 & _). done.
Defined.

Lemma resume_grants_idle_grace_witness :
  ms (120 * 1000) + IdleAfter Demo.cfg < ms (126 * 1000).
Proof.
  apply (resume_grants_idle_grace (Demo.at_ 120 None 99)
    [Demo.at_ 122 None 99; Demo.at_ 124 None 99; Demo.at_ 126 None 99]
    (NewSuspender Demo.cfg 0) (Demo.at_ 126 None 99)).
  - by vm_compute.
  - simpl. repeat constructor; by vm_compute.
  - vm_compute. apply list_elem_of_here.
Defined.
