(* ===== verification/Ingress.v ===== *)
(** * Ingress: the sidecar's half of the reply-to path

    Models [internal/sidecar/ingress.go]: handling of a client request routed to
    the actor, the in-flight counter that is the suspender's idle signal, the
    call to the agent and the delivery of its response with retries.  The HTTP
    transport is an environment, the record [http_env]: whether a request can be
    built from a method and a URL, what the agent returned for the request it
    was sent, and what each delivery attempt came to.  [http.ReadRequest]'s
    result is an argument of [handle].  Times are nanoseconds; Go's zero
    [time.Time] is [None].  The status code travels as a decimal header
    ([strconv.Itoa]). *)
From Stdlib Require Import Ascii.
From S2P Require Import Prelude GoStd.

(** ** In-flight tracking *)

Record Ingress : Type := MkIngress {
  in_agentBaseURL : string;
  in_inFlight : Z;
  in_idleSince : option Z;
}.

Definition NewIngress (agentAddr : string) (now : Z) : Ingress :=
  MkIngress ("http://" +:+ agentAddr) 0 (Some now).

Definition IdleDuration (now : Z) (i : Ingress) : Z :=
  if in_inFlight i >? 0 then 0
  else match in_idleSince i with None => 0 | Some s => now - s end.

Definition enterRequest (i : Ingress) : Ingress :=
  MkIngress (in_agentBaseURL i) (in_inFlight i + 1) None.

Definition exitRequest (now : Z) (i : Ingress) : Ingress :=
  let n := if in_inFlight i >? 0 then in_inFlight i - 1 else in_inFlight i in
  MkIngress (in_agentBaseURL i) n (if n =? 0 then Some now else in_idleSince i).

(** ** Requests and responses *)

Record request : Type := MkRequest {
  rq_method : string;
  rq_uri : string;              (* URL.RequestURI() *)
  rq_replyTo : string;          (* headerReplyTo *)
  rq_reqID : string;            (* headerRequestID *)
  rq_ct : string;               (* Content-Type *)
  rq_body : option (list byte); (* None: reading the body failed *)
}.

Record response : Type := MkResponse {
  rs_status : Z;
  rs_ct : string;
  rs_body : list byte;
}.

(** The request to the agent; [ar_ct] is [None] when the header is not set. *)
Record agent_request : Type := MkAgentRequest {
  ar_method : string;
  ar_url : string;
  ar_ct : option string;
  ar_body : list byte;
}.

(** The request to the ingress-broker's [/reply]. *)
Record reply_request : Type := MkReplyRequest {
  rp_method : string;
  rp_url : string;
  rp_reqID : string;            (* headerRequestID *)
  rp_status : string;           (* headerStatus *)
  rp_ct : string;               (* headerCT *)
  rp_body : list byte;
}.

(** The HTTP client: [http.NewRequest]'s check of method and URL, [Do] on the
    agent (an error text or a response), and whether attempt [n] of a delivery
    was answered. *)
Record http_env : Type := MkHttpEnv {
  he_buildable : string -> string -> bool;
  he_agent : agent_request -> string + response;
  he_post : Z -> reply_request -> bool;
}.

Definition bytes_of (s : string) : list byte := String.list_byte_of_string s.

(** [http.Error]. *)
Definition http_error (text : string) (code : Z) : response :=
  MkResponse code "text/plain; charset=utf-8" (bytes_of (text +:+ String (ascii_of_nat 10) EmptyString)).

Definition crlf : string := String (ascii_of_nat 13) (String (ascii_of_nat 10) EmptyString).
Definition accepted202 : string := "HTTP/1.1 202 Accepted" +:+ crlf +:+ "Content-Length: 0" +:+ crlf +:+ crlf.
Definition badGateway502 : string := "HTTP/1.1 502 Bad Gateway" +:+ crlf +:+ "Content-Length: 0" +:+ crlf +:+ crlf.

(** ** Handling a request *)

(** What [handle] does with the connection, before any asynchronous work. *)
Inductive handled : Type :=
| HClosed                                     (* closed without an answer *)
| HInline (q : request)                       (* proxied on the same connection *)
| HAccepted (answer : string) (q : request) (body : list byte). (* answered and closed; then processed *)

(** The handler up to the answer: the connection is closed by the time it is given. *)
Definition handle_conn (parsed : option request) : handled :=
  match parsed with
  | None => HClosed
  | Some q =>
      if bool_decide (rq_replyTo q = "") || bool_decide (rq_reqID q = "") then HInline q
      else match rq_body q with
      | None => HClosed
      | Some body => HAccepted accepted202 q body
      end
  end.

(** The whole handler: a request is counted only after it has been answered and
    its connection closed; other goroutines may run in between ([IngAnswer] and
    [IngEnter] below are two steps). *)
Definition handle (parsed : option request) (i : Ingress) : Ingress * handled :=
  let h := handle_conn parsed in
  (match h with HAccepted _ _ _ => enterRequest i | _ => i end, h).

(** [Serve] on the requests its connections carry; what each handler did is kept
    for the asynchronous work that follows. *)
Definition ingress_Serve (evs : list (accept_event (option request))) (i : Ingress)
    : (Ingress * list handled) * option (res string unit) :=
  accept_loop (fun q '(i, hs) => let '(i, h) := handle q i in (i, hs ++ [h])) evs (i, []).

Inductive deliver_result : Type := Delivered | DeliverAbandoned | DeliverGaveUp.

(** The retry loop of [deliver], with the number of attempts made and the time
    slept (ms). *)
Fixpoint deliver_loop (env : http_env) (m : reply_request) (fuel : nat) (attempt slept : Z)
    : deliver_result * Z * Z :=
  match fuel with
  | O => (DeliverGaveUp, attempt - 1, slept)
  | S fuel =>
      if negb (he_buildable env (rp_method m) (rp_url m)) then (DeliverAbandoned, attempt - 1, slept)
      else if he_post env attempt m then (Delivered, attempt, slept)
      else deliver_loop env m fuel (attempt + 1) (slept + attempt * 300)
  end.

Definition reply_of (replyTo reqID : string) (status : Z) (contentType : string) (body : list byte) : reply_request :=
  MkReplyRequest "POST" ("http://" +:+ replyTo +:+ "/reply") reqID (Itoa status) contentType body.

(** [attempt] runs from 1 to 5. *)
Definition deliver (env : http_env) (replyTo reqID : string) (status : Z) (contentType : string) (body : list byte)
    : deliver_result * Z * Z :=
  deliver_loop env (reply_of replyTo reqID status contentType body) 5 1 0.

Definition agent_request_of (q : request) (body : list byte) (i : Ingress) : agent_request :=
  MkAgentRequest (rq_method q) (in_agentBaseURL i +:+ rq_uri q)
    (if bool_decide (rq_ct q = "") then None else Some (rq_ct q)) body.

(** [process]: the agent call, the delivery, and the deferred [exitRequest] at
    [now]; the result is what was handed to [deliver] and how that went. *)
Definition process (env : http_env) (q : request) (body : list byte) (now : Z) (i : Ingress)
    : Ingress * option (response * (deliver_result * Z * Z)) :=
  let a := agent_request_of q body i in
  let send r := Some (r, deliver env (rq_replyTo q) (rq_reqID q) (rs_status r) (rs_ct r) (rs_body r)) in
  (exitRequest now i,
   if negb (he_buildable env (ar_method a) (ar_url a)) then None
   else match he_agent env a with
   | inl text => send (MkResponse 502 "text/plain" (bytes_of ("agent call failed: " +:+ text)))
   | inr r => send r
   end).

(** [proxyInline]'s answer on the connection: the agent's response written
    through, or the fixed 502.  A body that cannot be read counts as empty, and
    the Content-Type is not forwarded. *)
Definition proxyInline (env : http_env) (q : request) (i : Ingress) : response + string :=
  let a := MkAgentRequest (rq_method q) (in_agentBaseURL i +:+ rq_uri q) None (default [] (rq_body q)) in
  if negb (he_buildable env (ar_method a) (ar_url a)) then inr badGateway502
  else match he_agent env a with inl _ => inr badGateway502 | inr r => inl r end.

(** ** Lemmas *)

Lemma deliver_loop_spec env m fuel a slept :
  he_buildable env (rp_method m) (rp_url m) = true -> 1 <= a ->
  let '(r, n, t) := deliver_loop env m fuel a slept in
  n < a + Z.of_nat fuel /\ (forall k, a <= k < n -> he_post env k m = false) /\
  match r with
  | Delivered => a <= n /\ he_post env n m = true
  | DeliverAbandoned => False
  | DeliverGaveUp => n = a + Z.of_nat fuel - 1 /\ (forall k, a <= k <= n -> he_post env k m = false)
  end.
Proof.
  intros Hb. revert a slept. induction fuel as [|fuel IH]; intros a slept Ha; cbn [deliver_loop].
  { split_and!; [lia|lia|lia|intros k Hk; lia]. }
  rewrite Hb. simpl. destruct (he_post env a m) eqn:E; [split_and!; [lia|lia|lia|done]|].
  specialize (IH (a + 1) (slept + a * 300) ltac:(lia)).
  destruct (deliver_loop _ _ _ _ _) as [[r n] t]. destruct IH as (H1 & H2 & H3).
  assert (forall k, a <= k < n -> he_post env k m = false) as K.
  { intros k Hk. destruct (Z.eq_dec k a) as [->|]; [done|]. apply H2. lia. }
  split_and!; [lia|done|]. destruct r; [destruct H3; split; [lia|done]|done|]. destruct H3 as [H3 H4].
  split; [lia|]. intros k Hk. destruct (Z.eq_dec k a) as [->|]; [done|]. apply H4. lia.
Qed.

(** One attempt that is answered is enough. *)
Lemma deliver_answered env replyTo reqID status ct body :
  let m := reply_of replyTo reqID status ct body in
  he_buildable env "POST" (rp_url m) = true -> (exists n, 1 <= n <= 5 /\ he_post env n m = true) ->
  exists n t, deliver env replyTo reqID status ct body = (Delivered, n, t).
Proof.
  intros m Hb (n & Hn & Hp). pose proof (deliver_loop_spec env m 5 1 0 Hb ltac:(lia)) as S.
  unfold deliver. fold m. destruct (deliver_loop env m 5 1 0) as [[r k] t]. destruct S as (_ & _ & S).
  destruct r; [eauto|done|]. destruct S as [-> S]. rewrite S in Hp by lia. done.
Qed.

(** The pauses are 300, 600, 900, 1200 and 1500 ms. *)
Lemma deliver_slept env replyTo reqID status ct body :
  let '(r, n, t) := deliver env replyTo reqID status ct body in
  t = match r with DeliverGaveUp => 4500 | DeliverAbandoned => 0 | Delivered => 150 * n * (n - 1) end.
Proof.
  unfold deliver. cbn [deliver_loop]. destruct (he_buildable _ _ _); [|done]. simpl.
  repeat (destruct (he_post _ _ _); [done|]). done.
Qed.

(** In-flight accounting over a run of the sidecar: handlers answering, handlers
    counting what they have answered, [process] goroutines ending. *)
Inductive ing_op : Type := IngAnswer (parsed : option request) | IngEnter | IngExit (now : Z).

Definition ing_exec (i : Ingress) (o : ing_op) : Ingress :=
  match o with IngAnswer _ => i | IngEnter => enterRequest i | IngExit now => exitRequest now i end.

Definition weight (o : ing_op) : Z := match o with IngAnswer _ => 0 | IngEnter => 1 | IngExit _ => -1 end.
Definition outstanding (ops : list ing_op) : Z := foldr (fun o n => n + weight o) 0 ops.

(** When the last request left; the start if none has. *)
Definition last_exit (now0 : Z) (ops : list ing_op) : Z :=
  foldl (fun t o => match o with IngExit now => now | _ => t end) now0 ops.

(** Every exit belongs to a request that entered. *)
Definition balanced (ops : list ing_op) : Prop := forall k, 0 <= outstanding (take k ops).

(** What the two fields are after [ops]. *)
Definition ing_ok (now0 : Z) (ops : list ing_op) (i : Ingress) : Prop :=
  in_inFlight i = outstanding ops /\
  in_idleSince i = if 0 <? outstanding ops then None else Some (last_exit now0 ops).

Lemma outstanding_snoc ops o : outstanding (ops ++ [o]) = outstanding ops + weight o.
Proof. induction ops as [|x ops IH]; simpl; [lia|]. rewrite IH. lia. Qed.

Lemma balanced_snoc ops o : balanced (ops ++ [o]) -> balanced ops /\ 0 <= outstanding ops + weight o.
Proof.
  intros Hb. split.
  - intros k. destruct (decide (k <= length ops)%nat).
    + specialize (Hb k). by rewrite take_app_le in Hb.
    + rewrite take_ge by lia. specialize (Hb (length ops)). by rewrite take_app_length in Hb.
  - specialize (Hb (length (ops ++ [o]))). by rewrite take_ge, outstanding_snoc in Hb by done.
Qed.

Lemma ing_run ops addr now0 :
  balanced ops -> 0 <= outstanding ops /\ ing_ok now0 ops (foldl ing_exec (NewIngress addr now0) ops).
Proof.
  induction ops as [|o ops IH] using rev_ind; intros Hb; [done|].
  destruct (balanced_snoc ops o Hb) as [Hb' Ho]. destruct (IH Hb') as (Hn & Hi & Hs).
  unfold ing_ok, last_exit in *. rewrite !foldl_app, outstanding_snoc. split; [done|].
  destruct o as [q| |now]; simpl in Ho |- *.
  - by rewrite Z.add_0_r.
  - rewrite Hi. by rewrite (proj2 (Z.ltb_lt _ _)) by lia.
  - rewrite Z.gtb_ltb, Hi, (proj2 (Z.ltb_lt _ _)) by lia. split; [lia|].
    destruct (Z.eqb_spec (outstanding ops - 1) 0); [rewrite (proj2 (Z.ltb_ge _ _)) by lia; done|].
    rewrite (proj2 (Z.ltb_lt 0 (outstanding ops + -1))) by lia. by rewrite Hs, (proj2 (Z.ltb_lt _ _)) by lia.
Qed.

(** ** Properties *)

(** Delivery of the response tries at most five times and stops at the first
    attempt that is answered; it gives up only when all five failed, and after
    4.5 s of pauses.  When the reply URL cannot be parsed at all, nothing is sent
    and nothing is waited for. *)
Theorem deliver_bounded_retry (env : http_env) (replyTo reqID : string) (status : Z) (ct : string) (body : list byte) :
  let m := reply_of replyTo reqID status ct body in
  let '(r, n, slept) := deliver env replyTo reqID status ct body in
  match r with
  | Delivered => 1 <= n <= 5 /\ he_post env n m = true /\ (forall k, 1 <= k < n -> he_post env k m = false) /\
                 slept = 150 * n * (n - 1)
  | DeliverGaveUp => n = 5 /\ (forall k, 1 <= k <= 5 -> he_post env k m = false) /\ slept = 4500
  | DeliverAbandoned => n = 0 /\ slept = 0 /\ he_buildable env "POST" (rp_url m) = false
  end.
Proof.
  intros m. pose proof (deliver_slept env replyTo reqID status ct body) as Ht.
  destruct (he_buildable env "POST" (rp_url m)) eqn:Hb.
  - pose proof (deliver_loop_spec env m 5 1 0 Hb ltac:(lia)) as H. unfold deliver in *. fold m in Ht |- *.
    destruct (deliver_loop env m 5 1 0) as [[r n] t]. destruct H as (H1 & H2 & H3).
    destruct r; [destruct H3; split_and!; [lia|lia|done|done|done]|done|]. destruct H3 as [-> H3].
    split_and!; [lia| |done]. intros k Hk. apply H3. lia.
  - clear Ht. unfold deliver. fold m. cbn [deliver_loop]. change (rp_method m) with "POST". by rewrite Hb.
Qed.

(** One request through the sidecar: it is answered 202 and counted as in flight
    before the agent is called, so the actor does not look idle meanwhile;
    whatever the agent does, the count then returns to what it was; the agent
    got the client's method, URI and body; and what is handed to delivery is the
    agent's response unchanged, or a 502 naming the failure. *)
Theorem request_cycle (env : http_env) (q : request) (body : list byte) (i : Ingress) (now : Z)
    (Hr : rq_replyTo q <> "") (Hid : rq_reqID q <> "") (Hb : rq_body q = Some body) (Hi : 0 <= in_inFlight i)
    (Hu : he_buildable env (rq_method q) (in_agentBaseURL i +:+ rq_uri q) = true) :
  let '(i1, h) := handle (Some q) i in
  let '(i2, r) := process env q body now i1 in
  h = HAccepted accepted202 q body /\ IdleDuration now i1 = 0 /\ in_inFlight i2 = in_inFlight i /\
  exists resp, r = Some (resp, deliver env (rq_replyTo q) (rq_reqID q) (rs_status resp) (rs_ct resp) (rs_body resp)) /\
  match he_agent env (agent_request_of q body i) with
  | inr a => resp = a
  | inl text => rs_status resp = 502 /\ rs_body resp = bytes_of ("agent call failed: " +:+ text)
  end.
Proof.
  unfold handle, handle_conn. rewrite !bool_decide_eq_false_2 by done. rewrite Hb. simpl.
  unfold IdleDuration. simpl. rewrite Z.gtb_ltb, (proj2 (Z.ltb_lt 0 (in_inFlight i + 1))) by lia. rewrite Hu. simpl.
  split_and!; [done|done|lia|]. unfold agent_request_of; simpl.
  destruct (he_agent _ _) as [text|a]; [|by exists a].
  by exists (MkResponse 502 "text/plain" (bytes_of ("agent call failed: " +:+ text))).
Qed.

(** C29. The idle signal, exactly: in any run in which every exit belongs to a
    request that entered, with handlers answering, counting and finishing in any
    order, the counter is the number of requests that have entered and not left;
    the reported idle time is zero while there is one, and otherwise the time
    since the last one left (since the start, if there was none).  A request
    counts from [enterRequest] on, which the handler calls after it has answered
    202 and closed the connection: the answer alone does not end idleness. *)
Theorem idle_signal_exact (ops : list ing_op) (addr : string) (now0 now : Z) (Hb : balanced ops) :
  let i := foldl ing_exec (NewIngress addr now0) ops in
  in_inFlight i = outstanding ops /\
  IdleDuration now i = (if 0 <? outstanding ops then 0 else now - last_exit now0 ops).
Proof.
  intros i. destruct (ing_run ops addr now0 Hb) as (_ & Hi & Hs). fold i in Hi, Hs.
  split; [done|]. unfold IdleDuration. rewrite Hi, Hs, Z.gtb_ltb. by destruct (0 <? outstanding ops).
Qed.

(** ** Witnesses *)

Definition echo_env : http_env :=
  MkHttpEnv (fun _ _ => true) (fun a => inr (MkResponse 200 "text/plain" (ar_body a))) (fun n _ => n =? 2).

Lemma request_cycle_witness :
  in_inFlight (fst (process echo_env (MkRequest "POST" "/run" "10.0.0.1:9090" "r1" "" (Some [x61])) [x61] 9
    (fst (handle (Some (MkRequest "POST" "/run" "10.0.0.1:9090" "r1" "" (Some [x61]))) (NewIngress "127.0.0.1:8080" 0))))) = 0.
Proof.
  pose proof (request_cycle echo_env (MkRequest "POST" "/run" "10.0.0.1:9090" "r1" "" (Some [x61])) [x61]
    (NewIngress "127.0.0.1:8080" 0) 9 ltac:(discriminate) ltac:(discriminate) eq_refl ltac:(discriminate) eq_refl)
    as (_ & _ & E & _). exact E.
Defined.

Lemma idle_signal_exact_witness :
  let busy := [IngAnswer None; IngEnter; IngEnter; IngExit 10] in
  IdleDuration 50 (foldl ing_exec (NewIngress "127.0.0.1:8080" 0) busy) = 0 /\
  IdleDuration 50 (foldl ing_exec (NewIngress "127.0.0.1:8080" 0) (busy ++ [IngExit 30; IngAnswer None])) = 20.
Proof.
  split.
  - refine (proj2 (idle_signal_exact [IngAnswer None; IngEnter; IngEnter; IngExit 10] "127.0.0.1:8080" 0 50 _)).
    intros k. do 5 (destruct k as [|k]; [simpl; lia|]). simpl. lia.
  - refine (proj2 (idle_signal_exact ([IngAnswer None; IngEnter; IngEnter; IngExit 10] ++ [IngExit 30; IngAnswer None]) "127.0.0.1:8080" 0 50 _)).
    intros k. do 7 (destruct k as [|k]; [simpl; lia|]). simpl. lia.
Defined.
