(* ===== verification/IngressBroker.v ===== *)
(** * IngressBroker: the client-facing half of the reply-to path

    Models [demos/adk-calc/internal/ingressbroker/broker.go]: parked requests and
    their mailboxes, forwarding to the actor with retries, matching of replies.
    The JSON decoding of the body and the uuid are arguments of [run_open]; what
    each forward attempt came to, and whether the client left during the pause
    after it, are arguments of [forwardToActor].  The error of [strconv.Atoi] is
    dropped, as in the source, and the text [http.Error] writes is written out.  The
    last section puts this half and the sidecar's ([Ingress]) together. *)
From Stdlib Require Import Ascii.
From S2P Require Import Prelude GoStd Ingress.

(** ** The broker *)

Record IngressConfig : Type := MkIngressConfig {
  ic_AtenetAddr : string;
  ic_Atespace : string;
  ic_ReplyAddr : string;
  ic_RequestTimeout : Z;         (* ns *)
}.

(** Parked requests by id; each has a channel of capacity one, whose content is
    the option. *)
Record IngressBroker : Type := MkIngressBroker {
  ib_cfg : IngressConfig;
  ib_pending : gmap string (option response);
}.

(** [New]: ten minutes when no timeout is given. *)
Definition New (cfg : IngressConfig) : IngressBroker :=
  MkIngressBroker
    (if ic_RequestTimeout cfg =? 0
     then MkIngressConfig (ic_AtenetAddr cfg) (ic_Atespace cfg) (ic_ReplyAddr cfg) 600000000000
     else cfg) ∅.

Definition register (reqID : string) (b : IngressBroker) : IngressBroker :=
  MkIngressBroker (ib_cfg b) (<[reqID := None]> (ib_pending b)).

Definition unregister (reqID : string) (b : IngressBroker) : IngressBroker :=
  MkIngressBroker (ib_cfg b) (delete reqID (ib_pending b)).

(** The reply that a [/reply] request carries. *)
Definition reply_msg (m : reply_request) : response :=
  let status := fst (Atoi (rp_status m)) in
  MkResponse (if status =? 0 then 200 else status) (rp_ct m) (rp_body m).

(** [HandleReply]: a non-blocking send to the mailbox, if there is one.  The
    answer is 204 in every case. *)
Definition HandleReply (m : reply_request) (b : IngressBroker) : IngressBroker * Z :=
  (match ib_pending b !! rp_reqID m with
   | Some None => MkIngressBroker (ib_cfg b) (<[rp_reqID m := Some (reply_msg m)]> (ib_pending b))
   | _ => b
   end, 204).

(** ** Forwarding to the actor *)

Definition actorHostSuffix : string := ".actors.resources.substrate.ate.dev".

(** The request that every attempt sends. *)
Record forward_request : Type := MkForwardRequest {
  fr_url : string;
  fr_host : string;
  fr_request : request;          (* what the receiving server parses *)
}.

Definition forward_req (cfg : IngressConfig) (sessionID : string) (body : list byte) (reqID : string) : forward_request :=
  MkForwardRequest ("http://" +:+ ic_AtenetAddr cfg +:+ "/run")
    (sessionID +:+ "." +:+ ic_Atespace cfg +:+ actorHostSuffix)
    (MkRequest "POST" "/run" (ic_ReplyAddr cfg) reqID "application/json" (Some body)).

(** What one forward attempt returned. *)
Inductive attempt_result : Type := BuildErr (text : string) | TransportErr (text : string) | StatusCode (code : Z).
Inductive forward_error : Type :=
| FwdBuild (text : string) | FwdTransport (text : string) | FwdStatus (code : Z) | FwdCancelled.

Definition forward_error_text (e : forward_error) : string :=
  match e with
  | FwdBuild t | FwdTransport t => t
  | FwdStatus c => "atenet status " +:+ Itoa c
  | FwdCancelled => "context canceled"
  end.

(** The retry loop of [forwardToActor]: [out n] is attempt [n]'s result for the
    request, [cancelled n] whether the client went away during the pause after
    it.  The result is the error, the number of attempts and the time waited in
    completed pauses (ms). *)
Fixpoint forward_loop (fuel : nat) (attempt waited : Z) (out : Z -> attempt_result) (cancelled : Z -> bool)
    (lastErr : option forward_error) : option forward_error * Z * Z :=
  match fuel with
  | O => (lastErr, attempt - 1, waited)
  | S fuel =>
      let next e := if cancelled attempt then (Some FwdCancelled, attempt, waited)
                    else forward_loop fuel (attempt + 1) (waited + attempt * 500) out cancelled (Some e) in
      match out attempt with
      | BuildErr t => (Some (FwdBuild t), attempt, waited)
      | TransportErr t => next (FwdTransport t)
      | StatusCode c =>
          if c <? 300 then (None, attempt, waited)
          else if c <? 500 then (Some (FwdStatus c), attempt, waited)
          else next (FwdStatus c)
      end
  end.

Definition forwardToActor (cfg : IngressConfig) (sessionID : string) (body : list byte) (reqID : string)
    (out : forward_request -> Z -> attempt_result) (cancelled : Z -> bool) : option forward_error * Z * Z :=
  forward_loop 5 1 0 (out (forward_req cfg sessionID body reqID)) cancelled None.

(** ** The client's request *)

(** What reading and decoding the body gave. *)
Inductive run_body : Type := BodyUnreadable (text : string) | BodyNotJSON | BodyOk (sessionID : string) (body : list byte).

(** [HandleRun] up to the forwarding: either an answer, or the request [reqID]
    (a fresh uuid) is parked and to be forwarded. *)
Definition run_open (rb : run_body) (reqID : string) (b : IngressBroker)
    : IngressBroker * (response + string * list byte) :=
  match rb with
  | BodyUnreadable text => (b, inl (http_error ("read body: " +:+ text) 400))
  | BodyNotJSON => (b, inl (http_error "invalid JSON or missing sessionId" 400))
  | BodyOk sessionID body =>
      if bool_decide (sessionID = "") then (b, inl (http_error "invalid JSON or missing sessionId" 400))
      else (register reqID b, inr (sessionID, body))
  end.

(** The case of the [select] that fires; receiving needs a full mailbox. *)
Inductive wait_event : Type := WaitReply (m : response) | WaitCancelled | WaitTimeout.

Definition wait_enabled (reqID : string) (w : wait_event) (b : IngressBroker) : Prop :=
  match w with WaitReply m => ib_pending b !! reqID = Some (Some m) | _ => True end.

(** The rest of [HandleRun], with the deferred [unregister]: what it hands to the
    response writer, none when the client is gone.  An empty content type is one
    the handler does not set; what [net/http] makes of it, and of a status outside
    100 to 999, is not modelled. *)
Definition run_close (reqID : string) (fwd : option forward_error) (w : wait_event) (b : IngressBroker)
    : IngressBroker * option response :=
  (unregister reqID b,
   match fwd with
   | Some e => Some (http_error ("forward to actor failed: " +:+ forward_error_text e) 502)
   | None =>
       match w with
       | WaitReply m => Some m
       | WaitCancelled => None
       | WaitTimeout => Some (http_error "timed out waiting for actor response" 504)
       end
   end).

(** ** Histories *)

(** The critical sections of concurrent [HandleRun]s and [HandleReply]s. *)
Inductive ib_op : Type :=
| IbRun (rb : run_body) (reqID : string)
| IbReply (m : reply_request)
| IbLeave (reqID : string) (fwd : option forward_error) (w : wait_event).

Definition ib_exec (b : IngressBroker) (o : ib_op) : IngressBroker :=
  match o with
  | IbRun rb r => fst (run_open rb r b)
  | IbReply m => fst (HandleReply m b)
  | IbLeave r fwd w => fst (run_close r fwd w b)
  end.

Definition parks (rb : run_body) : bool :=
  match rb with BodyOk s _ => negb (bool_decide (s = "")) | _ => false end.

(** The specification of a mailbox: the first reply after the registration. *)
Definition mailbox_step (reqID : string) (st : option (option response)) (o : ib_op) : option (option response) :=
  match o with
  | IbRun rb r => if decide (r = reqID) then if parks rb then Some None else st else st
  | IbLeave r _ _ => if decide (r = reqID) then None else st
  | IbReply m =>
      if decide (rp_reqID m = reqID) then
        match st with Some None => Some (Some (reply_msg m)) | _ => st end
      else st
  end.
Definition mailbox (reqID : string) : option (option response) -> list ib_op -> option (option response) :=
  foldl (mailbox_step reqID).

(** Operations under a request id, and those that open or close it. *)
Definition about (reqID : string) (o : ib_op) : bool :=
  match o with IbRun _ r | IbLeave r _ _ => bool_decide (r = reqID) | IbReply m => bool_decide (rp_reqID m = reqID) end.
Definition lifecycle (reqID : string) (o : ib_op) : bool :=
  match o with IbRun _ r | IbLeave r _ _ => bool_decide (r = reqID) | IbReply _ => false end.

(** ** Lemmas *)

Lemma ib_mailbox reqID ops b :
  ib_pending (foldl ib_exec b ops) !! reqID = mailbox reqID (ib_pending b !! reqID) ops.
Proof.
  revert b. induction ops as [|o ops IH]; intros b; [done|]. simpl. rewrite IH. f_equal.
  destruct o as [rb r|m|r fwd w]; simpl.
  - destruct rb as [t| |sid body]; simpl; [by case_decide|by case_decide|].
    case_bool_decide; simpl; [by case_decide|].
    destruct (decide (r = reqID)) as [->|]; [apply lookup_insert_eq|by apply lookup_insert_ne].
  - unfold HandleReply. destruct (decide (rp_reqID m = reqID)) as [<-|]; simpl.
    + destruct (ib_pending b !! rp_reqID m) as [[x|]|] eqn:E; simpl; [done|apply lookup_insert_eq|done].
    + destruct (ib_pending b !! rp_reqID m) as [[x|]|]; simpl; [done|by rewrite lookup_insert_ne|done].
  - destruct (decide (r = reqID)) as [->|]; [apply lookup_delete_eq|by apply lookup_delete_ne].
Qed.

Lemma mailbox_others reqID st ops :
  Forall (fun o => about reqID o = false) ops -> mailbox reqID st ops = st.
Proof.
  revert st. induction ops as [|o ops IH]; intros st HF; [done|].
  apply Forall_cons in HF as [Ho HF]. unfold mailbox in *. simpl. rewrite IH by done.
  destruct o; simpl in *; apply bool_decide_eq_false in Ho; by rewrite decide_False.
Qed.

Lemma mailbox_full reqID m ops :
  Forall (fun o => lifecycle reqID o = false) ops -> mailbox reqID (Some (Some m)) ops = Some (Some m).
Proof.
  induction ops as [|o ops IH]; intros HF; [done|].
  apply Forall_cons in HF as [Ho HF]. specialize (IH HF). unfold mailbox in *. simpl.
  destruct o; simpl in Ho |- *; try (apply bool_decide_eq_false in Ho; by rewrite decide_False).
  by case_decide.
Qed.

(** A parked client's mailbox, whatever the others do. *)
Lemma mailbox_after_reply b reqID sid body m mid post :
  sid <> "" -> rp_reqID m = reqID ->
  Forall (fun o => about reqID o = false) mid -> Forall (fun o => lifecycle reqID o = false) post ->
  ib_pending (foldl ib_exec b (IbRun (BodyOk sid body) reqID :: mid ++ IbReply m :: post)) !! reqID =
    Some (Some (reply_msg m)).
Proof.
  intros Hs Hm Hmid Hpost. rewrite ib_mailbox. unfold mailbox. simpl. rewrite decide_True by done.
  rewrite bool_decide_eq_false_2 by done. simpl. rewrite foldl_app.
  change (foldl (mailbox_step reqID) (Some None) mid) with (mailbox reqID (Some None) mid).
  rewrite mailbox_others by done. simpl. rewrite decide_True by done. by apply mailbox_full.
Qed.

(** The contract of the forwarding loop. *)
Definition retryable (out : Z -> attempt_result) (k : Z) : bool :=
  match out k with BuildErr _ => false | TransportErr _ => true | StatusCode c => 500 <=? c end.

Section forward.
Context (out : Z -> attempt_result) (cancelled : Z -> bool).

Definition forward_post (r : option forward_error * Z * Z) : Prop :=
  let '(e, n, waited) := r in
  1 <= n <= 5 /\ (forall k, 1 <= k < n -> retryable out k = true /\ cancelled k = false) /\
  match e with
  | None => exists c, out n = StatusCode c /\ c < 300
  | Some (FwdBuild t) => out n = BuildErr t
  | Some (FwdTransport t) => n = 5 /\ out n = TransportErr t
  | Some (FwdStatus c) => out n = StatusCode c /\ 300 <= c /\ (500 <= c -> n = 5)
  | Some FwdCancelled => retryable out n = true /\ cancelled n = true
  end.

(** The error that attempt [k] leaves behind when it is retried. *)
Definition leaves (k : Z) (e : option forward_error) : Prop :=
  match e with
  | Some (FwdTransport t) => out k = TransportErr t
  | Some (FwdStatus c) => out k = StatusCode c /\ 500 <= c
  | _ => False
  end.

Lemma leaves_retryable k e : leaves k (Some e) -> retryable out k = true.
Proof.
  unfold retryable. destruct e; simpl; [done|by intros ->|intros [-> ?]; by apply Z.leb_le|done].
Qed.

Lemma forward_loop_post fuel a w e :
  1 <= a -> (fuel = 0%nat -> leaves 5 e) -> a + Z.of_nat fuel = 6 ->
  (forall k, 1 <= k < a -> retryable out k = true /\ cancelled k = false) ->
  forward_post (forward_loop fuel a w out cancelled e).
Proof.
  revert a w e. induction fuel as [|fuel IH]; intros a w e Ha H0 Hf Hk; cbn [forward_loop].
  { specialize (H0 eq_refl). split_and!; [lia|lia|intros k Hk'; apply Hk; lia|].
    replace (a - 1) with 5 by lia. destruct e as [[t|t|c|]|]; simpl in H0; try done.
    destruct H0. split_and!; [done|lia|done]. }
  assert (forall e', leaves a (Some e') -> forward_post (if cancelled a then (Some FwdCancelled, a, w)
      else forward_loop fuel (a + 1) (w + a * 500) out cancelled (Some e'))) as Next.
  { intros e' He'. pose proof (leaves_retryable _ _ He') as Hr.
    destruct (cancelled a) eqn:Ec; [split_and!; [lia|lia|done|done|done]|].
    apply IH; [lia| |lia|].
    - intros ->. by replace 5 with a by lia.
    - intros k Hk'. destruct (Z.eq_dec k a) as [->|]; [done|]. apply Hk. lia. }
  destruct (out a) as [t|t|c] eqn:Eo; [split_and!; [lia|lia|done|done]|by apply Next|].
  destruct (Z.ltb_spec c 300); [split_and!; [lia|lia|done|eauto]|].
  destruct (Z.ltb_spec c 500); [split_and!; [lia|lia|done|done|done|lia]|].
  by apply Next.
Qed.
End forward.

(** ** Both halves together *)

(** What the sidecar's server does with a forwarded request, from acceptance to
    the end of [process]; the sidecar parses what the broker sent. *)
Definition sidecar_serve (env : http_env) (f : forward_request) (now : Z) (i : Ingress)
    : Ingress * option (response * (deliver_result * Z * Z)) :=
  match handle (Some (fr_request f)) i with
  | (i', HAccepted _ q body) => process env q body now i'
  | (i', _) => (i', None)
  end.

Lemma reply_msg_reply_of replyTo reqID r :
  0 < rs_status r < 2 ^ 63 ->
  reply_msg (reply_of replyTo reqID (rs_status r) (rs_ct r) (rs_body r)) = r.
Proof.
  intros Hs. unfold reply_msg, reply_of. simpl. rewrite Atoi_Itoa by lia. cbn [fst].
  rewrite (proj2 (Z.eqb_neq _ 0)) by lia. by destruct r.
Qed.

(** ** Properties *)

(** C26. Each parked client gets its own answer: in any history of the ingress-broker,
    with any number of other clients coming, going and being answered in
    between, the only reply a waiting client can be handed is the first one
    posted under its request id; retried deliveries change nothing. *)
Theorem client_gets_first_reply (b : IngressBroker) (reqID sid : string) (body : list byte) (mid post : list ib_op)
    (m : reply_request) (got : response)
    (hist := IbRun (BodyOk sid body) reqID :: mid ++ IbReply m :: post)
    (Hs : sid <> "") (Hm : rp_reqID m = reqID)
    (Hmid : Forall (fun o => about reqID o = false) mid)
    (Hpost : Forall (fun o => lifecycle reqID o = false) post)
    (Hw : wait_enabled reqID (WaitReply got) (foldl ib_exec b hist)) :
  snd (run_close reqID None (WaitReply got) (foldl ib_exec b hist)) =
    Some (MkResponse (if fst (Atoi (rp_status m)) =? 0 then 200 else fst (Atoi (rp_status m))) (rp_ct m) (rp_body m)).
Proof.
  unfold wait_enabled, hist in Hw. rewrite (mailbox_after_reply b reqID sid body m mid post) in Hw by done.
  by injection Hw as <-.
Qed.

(** A reply that comes too late, or for an id nobody waits for, is dropped: it
    changes no other client's mailbox and leaves nothing behind. *)
Theorem late_reply_is_dropped (b : IngressBroker) (m : reply_request) (fwd : option forward_error) (w : wait_event)
    (ops : list ib_op) (Hops : Forall (fun o => about (rp_reqID m) o = false) ops) :
  ib_pending (foldl ib_exec b (IbLeave (rp_reqID m) fwd w :: ops ++ [IbReply m])) =
  ib_pending (foldl ib_exec b (IbLeave (rp_reqID m) fwd w :: ops)).
Proof.
  apply map_eq. intros r. rewrite !ib_mailbox. unfold mailbox. simpl. rewrite foldl_app. simpl.
  destruct (decide (rp_reqID m = r)) as [<-|Hne]; [|done].
  change (foldl (mailbox_step (rp_reqID m)) None ops) with (mailbox (rp_reqID m) None ops).
  by rewrite mailbox_others.
Qed.

Lemma reply_path (env : http_env) (b : IngressBroker) (i : Ingress) (reqID sid : string)
    (body : list byte) (mid post : list ib_op) (now : Z) (a : response)
    (f := forward_req (ib_cfg b) sid body reqID)
    (reply := reply_of (ic_ReplyAddr (ib_cfg b)) reqID (rs_status a) (rs_ct a) (rs_body a))
    (hist := IbRun (BodyOk sid body) reqID :: mid ++ IbReply reply :: post)
    (Hs : sid <> "") (Hr : ic_ReplyAddr (ib_cfg b) <> "") (Hid : reqID <> "")
    (Hbuild : he_buildable env "POST" (in_agentBaseURL i +:+ "/run") = true)
    (Hagent : he_agent env (MkAgentRequest "POST" (in_agentBaseURL i +:+ "/run") (Some "application/json") body) = inr a)
    (Hstatus : 0 < rs_status a < 2 ^ 63) (Hi : 0 <= in_inFlight i)
    (Hmid : Forall (fun o => about reqID o = false) mid)
    (Hpost : Forall (fun o => lifecycle reqID o = false) post) :
  (exists i', sidecar_serve env f now i = (i', Some (a, deliver env (ic_ReplyAddr (ib_cfg b)) reqID
                 (rs_status a) (rs_ct a) (rs_body a))) /\ in_inFlight i' = in_inFlight i) /\
  wait_enabled reqID (WaitReply a) (foldl ib_exec b hist) /\
  snd (run_close reqID None (WaitReply a) (foldl ib_exec b hist)) = Some a /\
  ib_pending (fst (run_close reqID None (WaitReply a) (foldl ib_exec b hist))) !! reqID = None.
Proof.
  split; [|split; [|split]].
  - unfold sidecar_serve, f, forward_req, handle, handle_conn. simpl. rewrite !bool_decide_eq_false_2 by done. simpl.
    unfold process, agent_request_of. simpl. rewrite Hbuild. simpl. rewrite Hagent.
    eexists. split; [done|]. simpl. rewrite Z.gtb_ltb, (proj2 (Z.ltb_lt _ _)) by lia. lia.
  - unfold wait_enabled, hist. rewrite (mailbox_after_reply b reqID sid body reply mid post) by done.
    unfold reply. by rewrite reply_msg_reply_of.
  - done.
  - simpl. apply lookup_delete_eq.
Qed.

(** The whole reply-to path: a client request that the broker parks and
    forwards, and that the sidecar then serves, reaches the agent with the
    client's body; if the agent answers and one of the five delivery attempts
    gets through, the waiting client is handed exactly the agent's status,
    content type and body, however many copies of the reply arrive and whatever
    other clients do; and the sidecar is back to its previous idle state. *)
Theorem reply_path_end_to_end (env : http_env) (b : IngressBroker) (i : Ingress) (reqID sid : string)
    (body : list byte) (mid post : list ib_op) (now : Z) (a : response)
    (f := forward_req (ib_cfg b) sid body reqID)
    (reply := reply_of (ic_ReplyAddr (ib_cfg b)) reqID (rs_status a) (rs_ct a) (rs_body a))
    (hist := IbRun (BodyOk sid body) reqID :: mid ++ IbReply reply :: post)
    (Hs : sid <> "") (Hr : ic_ReplyAddr (ib_cfg b) <> "") (Hid : reqID <> "")
    (Hbuild : he_buildable env "POST" (in_agentBaseURL i +:+ "/run") = true)
    (Hagent : he_agent env (MkAgentRequest "POST" (in_agentBaseURL i +:+ "/run") (Some "application/json") body) = inr a)
    (Hstatus : 0 < rs_status a < 2 ^ 63) (Hi : 0 <= in_inFlight i)
    (Hmid : Forall (fun o => about reqID o = false) mid)
    (Hpost : Forall (fun o => lifecycle reqID o = false) post) :
  (exists i', sidecar_serve env f now i = (i', Some (a, deliver env (ic_ReplyAddr (ib_cfg b)) reqID
                 (rs_status a) (rs_ct a) (rs_body a))) /\ in_inFlight i' = in_inFlight i) /\
  wait_enabled reqID (WaitReply a) (foldl ib_exec b hist) /\
  snd (run_close reqID None (WaitReply a) (foldl ib_exec b hist)) = Some a /\
  ib_pending (fst (run_close reqID None (WaitReply a) (foldl ib_exec b hist))) !! reqID = None.
Proof. by apply reply_path. Qed.

(** Forwarding to the actor: success exactly when some attempt is answered below
    300 before anything stops the loop; a status from 300 to 499 stops it at
    once; only transport errors and 5xx are retried, at most five times. *)
Theorem forward_retries_only_transient (cfg : IngressConfig) (sid : string) (body : list byte) (reqID : string)
    (out : forward_request -> Z -> attempt_result) (cancelled : Z -> bool) :
  let o := out (forward_req cfg sid body reqID) in
  let '(e, n, _) := forwardToActor cfg sid body reqID out cancelled in
  1 <= n <= 5 /\ (forall k, 1 <= k < n -> retryable o k = true /\ cancelled k = false) /\
  match e with
  | None => exists c, o n = StatusCode c /\ c < 300
  | Some (FwdBuild t) => o n = BuildErr t
  | Some (FwdTransport t) => n = 5 /\ o n = TransportErr t
  | Some (FwdStatus c) => o n = StatusCode c /\ 300 <= c /\ (500 <= c -> n = 5)
  | Some FwdCancelled => retryable o n = true /\ cancelled n = true
  end.
Proof.
  apply (forward_loop_post (out (forward_req cfg sid body reqID)) cancelled 5%nat 1 0 None); [lia|done|done|lia].
Qed.

(** ** Witnesses *)

Definition demo_cfg : IngressConfig := MkIngressConfig "atenet:80" "default" "10.1.2.3:9090" 0.
Definition demo_reply (reqID status : string) (body : list byte) : reply_request :=
  MkReplyRequest "POST" "http://10.1.2.3:9090/reply" reqID status "text/plain" body.
Definition demo_mid : list ib_op := [IbRun (BodyOk "s2" []) "r2"; IbReply (demo_reply "r2" "500" [])].
Definition demo_post : list ib_op :=
  [IbReply (demo_reply "r1" "200" [x62]); IbLeave "r2" None WaitTimeout].

Lemma client_gets_first_reply_witness :
  snd (run_close "r1" None (WaitReply (MkResponse 200 "text/plain" [x61]))
    (foldl ib_exec (New demo_cfg) (IbRun (BodyOk "s1" []) "r1" :: demo_mid ++ IbReply (demo_reply "r1" "junk" [x61]) :: demo_post))) =
  Some (MkResponse 200 "text/plain" [x61]).
Proof.
  apply (client_gets_first_reply (New demo_cfg) "r1" "s1" [] demo_mid demo_post (demo_reply "r1" "junk" [x61])
    (MkResponse 200 "text/plain" [x61])); [discriminate|reflexivity|repeat constructor|repeat constructor|].
  vm_compute. reflexivity.
Defined.

Lemma late_reply_is_dropped_witness :
  ib_pending (foldl ib_exec (register "r1" (New demo_cfg))
    (IbLeave "r1" None WaitTimeout :: demo_mid ++ [IbReply (demo_reply "r1" "200" [])])) =
  ib_pending (foldl ib_exec (register "r1" (New demo_cfg)) (IbLeave "r1" None WaitTimeout :: demo_mid)).
Proof.
  apply (late_reply_is_dropped (register "r1" (New demo_cfg)) (demo_reply "r1" "200" []) None WaitTimeout demo_mid).
  repeat constructor.
Defined.

Lemma reply_path_end_to_end_witness :
  snd (run_close "r1" None (WaitReply (MkResponse 200 "text/plain" [x61; x62]))
    (foldl ib_exec (New demo_cfg) (IbRun (BodyOk "s1" [x61; x62]) "r1" :: demo_mid ++
      IbReply (reply_of "10.1.2.3:9090" "r1" 200 "text/plain" [x61; x62]) :: demo_post))) =
  Some (MkResponse 200 "text/plain" [x61; x62]).
Proof.
  apply (reply_path_end_to_end echo_env (New demo_cfg) (NewIngress "127.0.0.1:8080" 0) "r1" "s1" [x61; x62]
    demo_mid demo_post 9 (MkResponse 200 "text/plain" [x61; x62]));
    [discriminate|discriminate|discriminate|reflexivity|reflexivity|simpl; lia|simpl; lia|repeat constructor|repeat constructor].
Defined.
