(* ===== verification/Proxy.v ===== *)
(** * Proxy: the agent-facing forward proxy

    Models [internal/sidecar/proxy.go]: the target of a connection ([hostPort]
    over [net.SplitHostPort] and [net.JoinHostPort]), the CONNECT splice and the
    plain-HTTP request loop, both on top of the session operations [writeUp] and
    [closeUp] of [Sidecar].  The two loops block inside [writeUp] when the replay
    buffer is full, so each is a state machine that the arrival of an
    acknowledgement lets continue.  [http.ReadRequest]'s results are inputs; the
    bytes [Request.Write] produces for a request are the parameter [wire_of]. *)
From Stdlib Require Import Ascii.
From S2P Require Import Prelude GoStd ReplayBuffer Socket Wire Link Sidecar SidecarStream SidecarClient.

(** ** Strings *)

#[local] Arguments String.append !_ _ /.

(** [LastIndexByte], as the parts around the byte. *)
Fixpoint cut_last (c : ascii) (s : string) : option (string * string) :=
  match s with
  | EmptyString => None
  | String a s' =>
      match cut_last c s' with
      | Some (x, y) => Some (String a x, y)
      | None => if Ascii.eqb a c then Some (EmptyString, s') else None
      end
  end.

(** [strings.Contains]. *)
Fixpoint contains (sub s : string) : bool :=
  String.prefix sub s || match s with EmptyString => false | String _ s' => contains sub s' end.

(** ** Addresses *)

Inductive addr_error : Type :=
| MissingPort | TooManyColons | MissingBracket | UnexpectedOpen | UnexpectedClose.

(** The checks for stray brackets at the end of [net.SplitHostPort]. *)
Definition split_checked (host port inner outer : string) : res addr_error (string * string) :=
  if has "[" inner then Err UnexpectedOpen
  else if has "]" outer then Err UnexpectedClose
  else Ok (host, port).

(** [net.SplitHostPort]. *)
Definition SplitHostPort (hostport : string) : res addr_error (string * string) :=
  match cut_last ":" hostport with
  | None => Err MissingPort
  | Some (before, port) =>
      match hostport with
      | String "[" rest =>
          match cut_at "]" rest with
          | None => Err MissingBracket
          | Some (host, after) =>
              (* the closing bracket is at [end = 1 + length host] *)
              if bool_decide (after = "") then Err MissingPort
              else if (String.length host + 2 =? String.length before)%nat then split_checked host port rest after
              else match after with String ":" _ => Err TooManyColons | _ => Err MissingPort end
          end
      | _ =>
          if has ":" before then Err TooManyColons else split_checked before port hostport hostport
      end
  end.

(** [net.JoinHostPort]. *)
Definition JoinHostPort (host port : string) : string :=
  if has ":" host then "[" +:+ host +:+ "]:" +:+ port else host +:+ ":" +:+ port.

Definition hostPort (host defaultPort : string) : string :=
  if bool_decide (host = "") then ""
  else match SplitHostPort host with
  | Ok _ => host
  | Err _ => JoinHostPort host defaultPort
  end.

(** ** Errors *)

Inductive go_error : Type := EOF | GoErr (text : string).

Definition closeReason (err : option go_error) : string :=
  match err with
  | None | Some EOF => "eof"
  | Some (GoErr text) => if contains "closed" text then "closed" else "err: " +:+ text
  end.

(** The error values [writeUp] returns. *)
Definition write_error (r : write_result) : option go_error :=
  match r with
  | WClosed => Some (GoErr "use of closed network connection")
  | WErr _ => Some (GoErr "tunnel: replay buffer full")
  | WDone | WBlocked _ | WFuel => None
  end.

(** ** Requests *)

Record http_request : Type := MkHttpRequest {
  hq_Method : string;
  hq_Host : string;
  hq_RequestURI : string;
  hq_Scheme : string;            (* URL.Scheme *)
  hq_URLHost : string;           (* URL.Host *)
  hq_Path : string;              (* the rest of the URL *)
  hq_Body : list byte;
}.

(** The rewriting at the top of [writeOriginForm]. *)
Definition origin_form (r : http_request) : http_request :=
  MkHttpRequest (hq_Method r) (hq_Host r) "" "" "" (hq_Path r) (hq_Body r).

Section ops.
Context {C : Type} `{FrameWriter C}.
Implicit Types (st : cst C).

(** ** The CONNECT splice *)

(** One turn of the pump: [Read] returned [p] and [err].  A write error breaks
    out of the loop without a CLOSE. *)
Inductive pump_state : Type := PumpRead | PumpWait (rest : list byte) (err : option go_error) | PumpStopped.

Definition pump_turn (p : list byte) (err : option go_error) (st : cst C) : cst C * pump_state :=
  let '(st, r) := match p with [] => (st, WDone) | _ => writeUp p st end in
  match r with
  | WBlocked rest => (st, PumpWait rest err)
  | WDone => match err with
             | Some e => (closeUp (closeReason (Some e)) st, PumpStopped)
             | None => (st, PumpRead)
             end
  | _ => (st, PumpStopped)
  end.

(** What happens to a spliced session: a read completes, the broker confirms
    bytes (which lets a blocked write go on), the session dies. *)
Inductive pump_event : Type :=
| PvRead (p : list byte) (err : option go_error)
| PvAck (offset : Z)
| PvDead.

Definition pump_step (s : cst C * pump_state) (e : pump_event) : cst C * pump_state :=
  let '(st, ps) := s in
  match e, ps with
  | PvRead p err, PumpRead => pump_turn p err st
  | PvRead _ _, _ => (st, ps)
  | PvAck o, PumpWait rest err => pump_turn rest err (onUpstreamAck o st)
  | PvAck o, _ => (onUpstreamAck o st, ps)
  | PvDead, PumpWait rest err => pump_turn rest err (closeAll st)
  | PvDead, _ => (closeAll st, ps)
  end.

(** The agent's side of the connection: bytes that the [bufio.Reader] used for
    the CONNECT request already holds, and bytes still on the socket.  The pump
    calls [Read] on the connection, not on the reader. *)
Record agent_reader : Type := MkAgentReader { rd_buffered : list byte; rd_socket : list byte }.

Inductive connect_event : Type := CvRead (n : nat) | CvAck (offset : Z) | CvDead.

Definition connect_step (s : (cst C * pump_state) * agent_reader) (e : connect_event)
    : (cst C * pump_state) * agent_reader :=
  let '((st, ps), r) := s in
  match e, ps with
  | CvRead n, PumpRead =>
      (pump_turn (take n (rd_socket r)) (if bool_decide (rd_socket r = []) then Some EOF else None) st,
       MkAgentReader (rd_buffered r) (drop n (rd_socket r)))
  | CvRead _, _ => s
  | CvAck o, _ => (pump_step (st, ps) (PvAck o), r)
  | CvDead, _ => (pump_step (st, ps) PvDead, r)
  end.

Definition established : string :=
  "HTTP/1.1 200 Connection Established" +:+
  String (ascii_of_nat 13) (String (ascii_of_nat 10) (String (ascii_of_nat 13) (String (ascii_of_nat 10) EmptyString))).

(** [handleConnect]: answer 200 on the agent connection, then open the session;
    [None] when the answer cannot be written.  The pump then reads from the
    connection itself. *)
Definition handleConnect (req : http_request) (agent : sock) (canCloseWrite : bool) (cl : Client C)
    : option (Client C * Z) :=
  let '(agent, ok) := sock_write (String.list_byte_of_string established) agent in
  if ok then Some (OpenSession agent canCloseWrite (hostPort (hq_Host req) "443") cl) else None.

(** ** The HTTP loop *)

Section http.
(** [Request.Write]: the chunks the pipe yields, and the error it ends with. *)
Context (wire_of : http_request -> list (list byte) * option go_error).

Inductive http_state : Type :=
| HRead                                                    (* in ReadRequest *)
| HWriting (chunks : list (list byte)) (err : option go_error) (* in writeOriginForm, blocked *)
| HStopped.

(** The loop of [writeOriginForm] and what [handleHTTP] does with its result. *)
Fixpoint write_chunks (chunks : list (list byte)) (err : option go_error) (st : cst C) : cst C * http_state :=
  match chunks with
  | [] => match err with
          | None => (st, HRead)
          | Some e => (closeUp (closeReason (Some e)) st, HStopped)
          end
  | c :: cs =>
      let '(st, r) := writeUp c st in
      match r with
      | WDone => write_chunks cs err st
      | WBlocked rest => (st, HWriting (rest :: cs) err)
      | _ => (closeUp (closeReason (write_error r)) st, HStopped)
      end
  end.

Definition writeOriginForm (r : http_request) (st : cst C) : cst C * http_state :=
  write_chunks (fst (wire_of (origin_form r))) (snd (wire_of (origin_form r))) st.

(** The body of [handleHTTP]'s loop for request [r]. *)
Definition http_turn (target : string) (r : http_request) (st : cst C) : cst C * http_state :=
  if bool_decide (hostPort (hq_Host r) "80" <> target) then (closeUp "host change" st, HStopped)
  else writeOriginForm r st.

Inductive http_event : Type :=
| HvRequest (r : http_request)       (* ReadRequest returned *)
| HvReadError (e : go_error)
| HvAck (offset : Z)
| HvDead.

Definition http_step (target : string) (s : cst C * http_state) (e : http_event) : cst C * http_state :=
  let '(st, hs) := s in
  match e, hs with
  | HvRequest r, HRead => http_turn target r st
  | HvReadError e, HRead => (closeUp (closeReason (Some e)) st, HStopped)
  | HvRequest _, _ | HvReadError _, _ => (st, hs)
  | HvAck o, HWriting cs err => write_chunks cs err (onUpstreamAck o st)
  | HvAck o, _ => (onUpstreamAck o st, hs)
  | HvDead, HWriting cs err => write_chunks cs err (closeAll st)
  | HvDead, _ => (closeAll st, hs)
  end.

(** [handleHTTP]: the session is opened for the first request's host, which is
    then the loop's first request. *)
Definition http_target (first : http_request) : string := hostPort (hq_Host first) "80".

Definition handleHTTP (first : http_request) (evs : list http_event) (st : cst C) : cst C * http_state :=
  foldl (http_step (http_target first)) (st, HRead) (HvRequest first :: evs).
End http.

(** ** A connection of the agent *)

(** What [handle] makes of a connection: closed, or a session with its pump. *)
Inductive proxied : Type :=
| ProxyClosed
| ProxySplice (id : Z)
| ProxyHTTP (id : Z) (first : http_request).

(** [handle]; [parsed] is what [http.ReadRequest] made of the first request. *)
Definition proxy_handle (parsed : res go_error http_request) (agent : sock) (canCloseWrite : bool) (cl : Client C)
    : Client C * proxied :=
  match parsed with
  | Err _ => (cl, ProxyClosed)
  | Ok req =>
      if bool_decide (hq_Method req = "CONNECT") then
        match handleConnect req agent canCloseWrite cl with
        | None => (cl, ProxyClosed)
        | Some (cl, id) => (cl, ProxySplice id)
        end
      else let '(cl, id) := OpenSession agent canCloseWrite (http_target req) cl in (cl, ProxyHTTP id req)
  end.

(** [Serve]. *)
Definition proxy_Serve (evs : list (accept_event (res go_error http_request * sock * bool))) (cl : Client C)
    : (Client C * list proxied) * option (res string unit) :=
  accept_loop (fun '(parsed, agent, cw) '(cl, ps) => let '(cl, r) := proxy_handle parsed agent cw cl in (cl, ps ++ [r]))
    evs (cl, []).
End ops.

(** ** Lemmas: addresses *)

Lemma cut_last_none c s : has c s = false -> cut_last c s = None.
Proof.
  induction s as [|a s IH]; simpl; [done|]. intros [Ha Hs]%orb_false_iff. rewrite IH by done. by rewrite Ha.
Qed.

Lemma cut_last_app c s t : has c t = false -> cut_last c (s +:+ String c t) = Some (s, t).
Proof.
  intros Ht. induction s as [|a s IH]; simpl; [|by rewrite IH].
  by rewrite cut_last_none, Ascii.eqb_refl.
Qed.

(** A name or an address without brackets. *)
Definition plain (s : string) : Prop := has "[" s = false /\ has "]" s = false.
Definition plain_port (s : string) : Prop := has ":" s = false /\ plain s.

(** [SplitHostPort] away from a leading bracket. *)
Lemma split_no_bracket hp before port :
  cut_last ":" hp = Some (before, port) -> has "[" hp = false ->
  SplitHostPort hp = if has ":" before then Err TooManyColons else split_checked before port hp hp.
Proof.
  intros E Hb. unfold SplitHostPort. rewrite E. destruct hp as [|a hp]; [done|].
  simpl in Hb. apply orb_false_iff in Hb as [Ha _]. destruct a as [[] [] [] [] [] [] [] []]; done.
Qed.

Lemma split_plain h p :
  has ":" h = false -> plain h -> plain_port p -> SplitHostPort (h +:+ ":" +:+ p) = Ok (h, p).
Proof.
  intros Hh [H1 H2] (Hp & P1 & P2). change (":" +:+ p) with (String ":" p).
  rewrite (split_no_bracket _ h p), Hh; [|by apply cut_last_app|rewrite has_app; simpl; by rewrite H1, P1].
  unfold split_checked. rewrite !has_app. simpl. by rewrite H1, H2, P1, P2.
Qed.

Lemma split_bracketed h p :
  plain h -> plain_port p -> SplitHostPort ("[" +:+ h +:+ "]:" +:+ p) = Ok (h, p).
Proof.
  intros [H1 H2] (Hp & P1 & P2). unfold SplitHostPort.
  assert ("[" +:+ h +:+ "]:" +:+ p = (String "[" (h +:+ "]")) +:+ String ":" p) as ->
    by (simpl; by rewrite string_app_assoc).
  rewrite cut_last_app by done. cbn [String.append].
  rewrite string_app_assoc. simpl String.append at 2. change ("]" +:+ String ":" p) with (String "]" (String ":" p)).
  rewrite cut_at_app by done. cbn [bool_decide]. rewrite bool_decide_eq_false_2 by done.
  cbn [String.length]. rewrite string_length_app. simpl String.length.
  replace (String.length h + 2 =? S (String.length h + 1))%nat with true by (symmetry; apply Nat.eqb_eq; lia).
  unfold split_checked. rewrite has_app. simpl. by rewrite H1, P1, P2.
Qed.

Lemma join_split h d : plain h -> plain_port d -> SplitHostPort (JoinHostPort h d) = Ok (h, d).
Proof.
  intros Hh Hd. unfold JoinHostPort. destruct (has ":" h) eqn:E; [by apply split_bracketed|by apply split_plain].
Qed.

Lemma cut_last_some c s : has c s = true -> exists x y, cut_last c s = Some (x, y).
Proof.
  induction s as [|a s IH]; [done|]. simpl. destruct (cut_last c s) as [[x y]|]; [eauto|].
  destruct (Ascii.eqb a c); [eauto|]. simpl. intros Hs. destruct (IH Hs) as (x & y & ?). done.
Qed.

(** ** Lemmas: the loops *)

Section loops.
Context {C : Type} {FW : FrameWriter C}.
Implicit Types (st : cst C).

(** The session's replay buffer has taken exactly [H] from the agent. *)
Definition taken (H : list byte) st : Prop := exists a, rb_rep (cs_upBuf (cs st)) (MkStream H a).

Lemma taken_same H st st' : cs_upBuf (cs st') = cs_upBuf (cs st) -> taken H st -> taken H st'.
Proof. intros E [a R]. exists a. by rewrite E. Qed.

Lemma taken_ack H st o : taken H st -> taken H (onUpstreamAck o st).
Proof. intros [a R]. eexists. apply (rep_trim R o). Qed.

Lemma taken_closeAll H st : taken H st -> taken H (closeAll st).
Proof. apply taken_same. unfold closeAll. by destruct (cs_dead (cs st)). Qed.

Lemma taken_closeUp H st reason : taken H st -> taken H (closeUp reason st).
Proof. apply taken_same. unfold closeUp. destruct (cs_upClosed (cs st)); [done|]. by rewrite csend_cs. Qed.

Lemma taken_write fuel p H st st' r :
  (length p <= fuel)%nat -> taken H st -> len H + len p < 2 ^ 64 -> write_loop fuel p st = (st', r) ->
  exists q rest, p = q ++ rest /\ taken (H ++ q) st' /\ write_rest r rest st'.
Proof.
  revert p H st. induction fuel as [|fuel IH]; intros p H0 st Hf T HA; destruct p as [|b0 p'];
    try (simpl; intros [= <- <-]; exists [], []; by rewrite (app_nil_r H0)); [simpl in Hf; lia|].
  set (p := b0 :: p') in *. simpl write_loop. fold p.
  destruct (cs_dead (cs st)) eqn:Hd.
  { intros [= <- <-]. exists [], p. by rewrite (app_nil_r H0). }
  destruct (Z.eqb_spec (Free (cs_upBuf (cs st))) 0) as [E|E].
  { intros [= <- <-]. exists [], p. by rewrite (app_nil_r H0). }
  destruct T as [a R]. set (n := if _ >? _ then _ else _).
  assert (0 < n <= len p /\ n <= Free (cs_upBuf (cs st))) as [Hn Hnf].
  { assert (0 < len p) by (unfold p; len_solve). pose proof (rep_cap _ _ R). unfold n, Free in *. zcases; lia. }
  assert (len (ztake n p) = n) as Lq by (apply len_ztake; lia).
  destruct (rep_append R (ztake n p)) as (b & -> & R' & _); [lia|simpl; lia|].
  intros Hl. apply (IH _ (H0 ++ ztake n p)) in Hl as (q2 & rest & Hp & T2 & Hr).
  - exists (ztake n p ++ q2), rest. rewrite <- app_assoc, <- Hp, ztake_zdrop. by rewrite <- app_assoc in T2.
  - simpl in Hf. unfold zdrop. rewrite length_drop. unfold p in *. simpl length in *. lia.
  - exists a. rewrite csend_cs. exact R'.
  - rewrite len_app, len_zdrop by lia. lia.
Qed.

(** What the pump has read so far. *)
Fixpoint pump_reads (s : cst C * pump_state) (evs : list pump_event) : list byte :=
  match evs with
  | [] => []
  | e :: evs =>
      match e, snd s with PvRead p _, PumpRead => p | _, _ => [] end ++ pump_reads (pump_step s e) evs
  end.

(** The bytes in [writeUp]'s hands. *)
Definition pump_held (ps : pump_state) : list byte := match ps with PumpWait rest _ => rest | _ => [] end.

(** Of [T] read, all but what is held has been taken; a stopped pump may have
    lost its last read to a dead session. *)
Definition pump_ok (T : list byte) (s : cst C * pump_state) : Prop :=
  exists h rest, T = h ++ rest /\ taken h (fst s) /\
    (rest = pump_held (snd s) \/ snd s = PumpStopped /\ cs_dead (cs (fst s)) = true).

Lemma pump_turn_ok h p err st : taken h st -> len h + len p < 2 ^ 64 -> pump_ok (h ++ p) (pump_turn p err st).
Proof.
  intros T Hl. unfold pump_turn. destruct p as [|b0 p'].
  { destruct err; exists h, []; (split; [done|]; split; [|by left]); [by apply taken_closeUp|done]. }
  set (p := b0 :: p') in *. destruct (writeUp p st) as [st' r] eqn:E.
  apply (taken_write (length p) p h) in E as (q & rest & Hp & T' & Hr); [|lia|done|done].
  assert (h ++ p = (h ++ q) ++ rest) as Ep by (rewrite Hp; by rewrite <- app_assoc).
  destruct r; simpl in Hr; try done.
  - subst rest. destruct err; exists (h ++ q), []; (split; [done|]; split; [|by left]);
      [by apply taken_closeUp|done].
  - destruct Hr as (-> & _). exists (h ++ q), rest. split; [done|]. split; [done|by left].
  - exists (h ++ q), rest. split; [done|]. split; [done|by right].
Qed.

Lemma pump_step_ok T s e :
  pump_ok T s -> let T' := T ++ pump_reads s [e] in len T' < 2 ^ 64 -> pump_ok T' (pump_step s e).
Proof.
  destruct s as [st ps]. intros (h & rest & -> & Th & Hr) T'. unfold T'. simpl. simpl in Th, Hr.
  destruct e as [p err|o|]; destruct ps as [|w err'|]; simpl in *; rewrite ?(app_nil_r (h ++ rest)); intros Hl;
    (destruct Hr as [->|[? Hdead]]; [|try done]); rewrite ?app_nil_r in *.
  - rewrite len_app in Hl. by apply pump_turn_ok.
  - exists h, w. split; [done|]. split; [done|by left].
  - exists h, []. rewrite (app_nil_r h). split; [done|]. split; [done|by left].
  - exists h, rest. split; [done|]. split; [done|by right].
  - exists h, []. rewrite (app_nil_r h). split; [done|]. split; [by apply taken_ack|by left].
  - rewrite len_app in Hl. apply pump_turn_ok; [by apply taken_ack|done].
  - exists h, []. rewrite (app_nil_r h). split; [done|]. split; [by apply taken_ack|by left].
  - exists h, rest. split; [done|]. split; [by apply taken_ack|by right].
  - exists h, []. rewrite (app_nil_r h). split; [done|]. split; [by apply taken_closeAll|by left].
  - rewrite len_app in Hl. apply pump_turn_ok; [by apply taken_closeAll|done].
  - exists h, []. rewrite (app_nil_r h). split; [done|]. split; [by apply taken_closeAll|by left].
  - exists h, rest. split; [done|]. split; [by apply taken_closeAll|]. right. split; [done|]. apply closeAll_dead.
Qed.

Lemma pump_run_ok evs T s :
  pump_ok T s -> len (T ++ pump_reads s evs) < 2 ^ 64 -> pump_ok (T ++ pump_reads s evs) (foldl pump_step s evs).
Proof.
  revert T s. induction evs as [|e evs IH]; intros T s Ho Hl; [by rewrite app_nil_r|].
  assert (T ++ pump_reads s (e :: evs) = (T ++ pump_reads s [e]) ++ pump_reads (pump_step s e) evs) as Ee
    by (simpl; by rewrite app_nil_r, app_assoc).
  rewrite Ee in Hl |- *. simpl. apply IH; [|done]. apply pump_step_ok; [done|].
  rewrite len_app in Hl. pose proof (len_nonneg (pump_reads (pump_step s e) evs)). lia.
Qed.

Lemma connect_run_ok evs T s :
  pump_ok T (fst s) -> len T + len (rd_socket (snd s)) < 2 ^ 64 ->
  exists T', pump_ok (T ++ T') (fst (foldl connect_step s evs)) /\
    rd_socket (snd s) = T' ++ rd_socket (snd (foldl connect_step s evs)).
Proof.
  revert T s. induction evs as [|e evs IH]; intros T s Ho Hl; [exists []; by rewrite app_nil_r|].
  assert (exists t, pump_ok (T ++ t) (fst (connect_step s e)) /\
            rd_socket (snd s) = t ++ rd_socket (snd (connect_step s e))) as (t & Ht & Es).
  { destruct s as [[st ps] r]. unfold connect_step. simpl in *.
    destruct e as [n|o|].
    - destruct ps as [|w err|]; [|exists []; by rewrite app_nil_r..].
      exists (take n (rd_socket r)). cbn [fst snd rd_socket]. rewrite take_drop. split; [|done].
      rewrite <- (take_drop n (rd_socket r)), len_app in Hl. pose proof (len_nonneg (drop n (rd_socket r))).
      match goal with |- context [pump_turn ?p ?err _] =>
        pose proof (pump_step_ok T (st, PumpRead) (PvRead p err) Ho) as K end.
      simpl in K. rewrite (app_nil_r (take n (rd_socket r))) in K. apply K. rewrite len_app. lia.
    - exists []. split; [|done]. apply (pump_step_ok T (st, ps) (PvAck o) Ho). simpl. rewrite !app_nil_r.
      pose proof (len_nonneg (rd_socket r)). lia.
    - exists []. split; [|done]. apply (pump_step_ok T (st, ps) PvDead Ho). simpl. rewrite !app_nil_r.
      pose proof (len_nonneg (rd_socket r)). lia. }
  destruct (IH (T ++ t) (connect_step s e) Ht) as (T' & HT & Er).
  { rewrite Es, len_app in Hl. rewrite len_app. lia. }
  exists (t ++ T'). rewrite app_assoc. split; [done|]. simpl. by rewrite Es, Er at 1; rewrite <- app_assoc.
Qed.

Lemma connect_run_buffered evs s : rd_buffered (snd (foldl connect_step s evs)) = rd_buffered (snd s).
Proof.
  revert s. induction evs as [|e evs IH]; intros s; [done|]. simpl. rewrite IH.
  destruct s as [[st ps] r]. by destruct e, ps.
Qed.

Section http_loop.
Context (wire_of : http_request -> list (list byte) * option go_error) (target : string).

(** The bytes of the requests that went to the session. *)
Definition wire_bytes (rs : list http_request) : list byte :=
  concat (map (fun r => concat (fst (wire_of (origin_form r)))) rs).

Definition http_held (hs : http_state) : list byte := match hs with HWriting cs _ => concat cs | _ => [] end.

(** The requests the loop has taken up, in order. *)
Fixpoint http_taken (s : cst C * http_state) (evs : list http_event) : list http_request :=
  match evs with
  | [] => []
  | e :: evs =>
      match e, snd s with
      | HvRequest r, HRead => if bool_decide (hostPort (hq_Host r) "80" = target) then [r] else []
      | _, _ => []
      end ++ http_taken (http_step wire_of target s e) evs
  end.

Definition http_ok (T : list byte) (s : cst C * http_state) : Prop :=
  exists h rest, T = h ++ rest /\ taken h (fst s) /\
    (rest = http_held (snd s) \/ snd s = HStopped /\ cs_dead (cs (fst s)) = true).

Lemma closeUp_dead reason st : cs_dead (cs (closeUp reason st)) = cs_dead (cs st).
Proof. unfold closeUp. destruct (cs_upClosed (cs st)); [done|]. by rewrite csend_cs. Qed.

Lemma write_chunks_ok cs err h st :
  taken h st -> len h + len (concat cs) < 2 ^ 64 -> http_ok (h ++ concat cs) (write_chunks cs err st).
Proof.
  revert h st. induction cs as [|c cs IH]; intros h st T Hl; simpl.
  { destruct err; exists h, []; (split; [done|]; split; [|by left]); [by apply taken_closeUp|done]. }
  destruct (writeUp c st) as [st' r] eqn:E. simpl in Hl. rewrite len_app in Hl.
  pose proof (len_nonneg (concat cs)).
  apply (taken_write (length c) c h) in E as (q & rest & Hc & T' & Hr); [|lia|done|lia].
  assert (h ++ c ++ concat cs = (h ++ q) ++ rest ++ concat cs) as Ec by (rewrite Hc; by rewrite <- !app_assoc).
  rewrite Ec. destruct r; simpl in Hr; try done.
  - subst rest. simpl. apply IH; [done|]. rewrite Hc, app_nil_r in Hl. rewrite len_app. lia.
  - destruct Hr as (-> & _). exists (h ++ q), (rest ++ concat cs). split; [done|]. split; [done|by left].
  - exists (h ++ q), (rest ++ concat cs). split; [done|]. split; [by apply taken_closeUp|].
    right. split; [done|]. simpl. by rewrite closeUp_dead.
Qed.

Lemma http_step_ok T s e :
  http_ok T s -> let T' := T ++ wire_bytes (http_taken s [e]) in len T' < 2 ^ 64 ->
  http_ok T' (http_step wire_of target s e).
Proof.
  destruct s as [st hs]. intros (h & rest & -> & Th & Hr) T'. unfold T'. cbn [fst snd] in Th, Hr.
  destruct Hr as [->|[-> Hdead]].
  - destruct e as [r|er|o|]; destruct hs as [|cs err|]; simpl; unfold wire_bytes; simpl;
      rewrite ?app_nil_r; intros Hl; try rewrite len_app in Hl.
    2, 5: exists h, (concat cs); split; [done|]; split; [done|by left].
    2, 4: exists h, []; rewrite app_nil_r; split; [done|]; split; [done|by left].
    + unfold http_turn. destruct (decide (hostPort (hq_Host r) "80" = target)) as [Heq|Hne].
      2: { rewrite (bool_decide_eq_true_2 (_ <> _)), bool_decide_eq_false_2 by done. exists h, []. simpl. split; [done|].
           split; [by apply taken_closeUp|by left]. }
      rewrite (bool_decide_eq_false_2 (_ <> _)) by tauto. rewrite (bool_decide_eq_true_2 (_ = _)) in Hl |- * by done.
      simpl in *. rewrite app_nil_r in *. by apply write_chunks_ok.
    + exists h, []. rewrite app_nil_r. split; [done|]. split; [by apply taken_closeUp|by left].
    + exists h, []. rewrite app_nil_r. split; [done|]. split; [by apply taken_ack|by left].
    + apply write_chunks_ok; [by apply taken_ack|done].
    + exists h, []. rewrite app_nil_r. split; [done|]. split; [by apply taken_ack|by left].
    + exists h, []. rewrite app_nil_r. split; [done|]. split; [by apply taken_closeAll|by left].
    + apply write_chunks_ok; [by apply taken_closeAll|done].
    + exists h, []. rewrite app_nil_r. split; [done|]. split; [by apply taken_closeAll|by left].
  - destruct e as [r|er|o|]; simpl; unfold wire_bytes; simpl; rewrite ?app_nil_r; intros Hl;
      exists h, rest; (split; [done|]); (split; [|right; split; [done|]]); simpl; try done.
    + by apply taken_ack.
    + by apply taken_closeAll.
    + apply closeAll_dead.
Qed.

Lemma http_run_ok evs T s :
  http_ok T s -> len (T ++ wire_bytes (http_taken s evs)) < 2 ^ 64 ->
  http_ok (T ++ wire_bytes (http_taken s evs)) (foldl (http_step wire_of target) s evs).
Proof.
  revert T s. induction evs as [|e evs IH]; intros T s Ho Hl; [by rewrite app_nil_r|].
  assert (T ++ wire_bytes (http_taken s (e :: evs)) =
          (T ++ wire_bytes (http_taken s [e])) ++ wire_bytes (http_taken (http_step wire_of target s e) evs)) as Ee.
  { unfold wire_bytes. cbn [http_taken]. rewrite app_nil_r, map_app, concat_app. by rewrite app_assoc. }
  rewrite Ee in Hl |- *. simpl. apply IH; [|done]. apply http_step_ok; [done|].
  rewrite len_app in Hl. match type of Hl with _ + len ?x < _ => pose proof (len_nonneg x) end. lia.
Qed.

Lemma http_taken_hosts evs s : Forall (fun r => hostPort (hq_Host r) "80" = target) (http_taken s evs).
Proof.
  revert s. induction evs as [|e evs IH]; intros s; [constructor|]. cbn [http_taken].
  apply Forall_app. split; [|apply IH].
  destruct e; try constructor. destruct (snd s); try constructor. case_bool_decide; repeat constructor. done.
Qed.

(** The requests that arrived, in order. *)
Definition requests (evs : list http_event) : list http_request :=
  omap (fun e => match e with HvRequest r => Some r | _ => None end) evs.

Lemma http_taken_arrived evs s : http_taken s evs `sublist_of` requests evs.
Proof.
  revert s. induction evs as [|e evs IH]; intros s; [done|]. cbn [http_taken].
  assert (forall l, (match e, snd s with
      | HvRequest r, HRead => if bool_decide (hostPort (hq_Host r) "80" = target) then [r] else []
      | _, _ => [] end) ++ l `sublist_of` (match e with HvRequest r => [r] | _ => [] end) ++ l) as K.
  { intros l. apply sublist_app; [|done]. destruct e as [r| | |]; try done.
    destruct (snd s); try apply sublist_nil_l. case_bool_decide; [done|apply sublist_nil_l]. }
  etrans; [apply K|]. destruct e; simpl; [constructor|..]; apply IH.
Qed.
End http_loop.
End loops.

(** ** Properties *)

(** Every target is an address the broker can dial: a host that already carries
    a port is kept, any other name, IPv4 or bare IPv6 address gets the default
    port, and splitting the result gives back the host and the port meant. *)
Theorem hostPort_splits (host d : string) (Hne : host <> "") (Hh : plain host) (Hd : plain_port d) :
  SplitHostPort (hostPort host d) =
    match SplitHostPort host with Ok hp => Ok hp | Err _ => Ok (host, d) end.
Proof.
  unfold hostPort. rewrite bool_decide_eq_false_2 by done.
  destruct (SplitHostPort host) as [[h p]|] eqn:E; [done|]. by apply join_split.
Qed.

(** A bracketed IPv6 literal without a port, the form of an HTTP Host header for
    such an address, is bracketed a second time; the result cannot be split, so
    the dial to it fails. *)
Theorem bracketed_v6_is_undialable (v6 d : string) (H6 : has ":" v6 = true) (Hp : plain v6) (Hd : plain_port d) :
  hostPort ("[" +:+ v6 +:+ "]") d = "[[" +:+ v6 +:+ "]]:" +:+ d /\
  SplitHostPort (hostPort ("[" +:+ v6 +:+ "]") d) = Err MissingPort.
Proof.
  destruct Hp as [P1 P2], Hd as (D1 & D2 & D3).
  assert (has ":" ("[" +:+ v6 +:+ "]") = true) as Hc by (simpl; rewrite has_app, H6; done).
  assert (SplitHostPort ("[" +:+ v6 +:+ "]") = Err MissingPort) as E.
  { unfold SplitHostPort. destruct (cut_last_some _ _ Hc) as (x & y & ->). cbn [String.append].
    change "]" with (String "]" ""). by rewrite (cut_at_app "]" v6 ""). }
  assert (hostPort ("[" +:+ v6 +:+ "]") d = "[[" +:+ v6 +:+ "]]:" +:+ d) as Eh.
  { unfold hostPort. rewrite bool_decide_eq_false_2 by done. rewrite E. unfold JoinHostPort. rewrite Hc.
    simpl. by rewrite !string_app_assoc. }
  split; [done|]. rewrite Eh. unfold SplitHostPort.
  assert ("[[" +:+ v6 +:+ "]]:" +:+ d = ("[[" +:+ v6 +:+ "]]") +:+ String ":" d) as Es
    by (simpl; by rewrite !string_app_assoc).
  rewrite Es, cut_last_app by done. cbn [String.append].
  assert ((v6 +:+ "]]") +:+ String ":" d = v6 +:+ String "]" ("]:" +:+ d)) as -> by (by rewrite string_app_assoc).
  change (String "[" (v6 +:+ String "]" ("]:" +:+ d))) with (String "[" v6 +:+ String "]" ("]:" +:+ d)).
  rewrite cut_at_app by (simpl; by rewrite P2). rewrite bool_decide_eq_false_2 by done.
  cbn [String.length]. rewrite string_length_app. simpl String.length.
  replace (S (String.length v6) + 2 =? S (S (String.length v6 + 2)))%nat with false; [done|].
  symmetry. apply Nat.eqb_neq. lia.
Qed.

(** Every request the proxy accepts gets a session of its own: a fresh id, whose
    target is the request's host with the port of its scheme; the client's other
    sessions stay as they are; a request that cannot be read, or whose CONNECT
    cannot be answered, opens none. *)
Theorem proxy_request_gets_its_own_session {C} `{FrameWriter C} (parsed : res go_error http_request) (agent : sock)
    (cw : bool) (cl : Client C)
    (Hn : 0 <= cl_nextID cl < 2 ^ 64 - 1)
    (Hids : map_Forall (fun i _ => 0 < i <= cl_nextID cl) (cl_sessions cl)) :
  let '(cl', r) := proxy_handle parsed agent cw cl in
  match r with
  | ProxyClosed => cl' = cl
  | ProxySplice id | ProxyHTTP id _ =>
      lookup_session id cl = None /\
      (exists req s, parsed = Ok req /\ lookup_session id cl' = Some s /\
         cs_target s = hostPort (hq_Host req) (if bool_decide (hq_Method req = "CONNECT") then "443" else "80")) /\
      (forall i s, lookup_session i cl = Some s -> lookup_session i cl' = Some s)
  end.
Proof.
  unfold proxy_handle. destruct parsed as [req|e]; [|done].
  assert (forall a t, let '(cl', id) := OpenSession a cw t cl in
    lookup_session id cl = None /\ (exists s, lookup_session id cl' = Some s /\ cs_target s = t) /\
    (forall i s, lookup_session i cl = Some s -> lookup_session i cl' = Some s)) as K.
  { intros a t. pose proof (session_ids_are_fresh cl a cw t Hn Hids) as F. pose proof (opened_session cl a cw t) as O.
    destruct (OpenSession a cw t cl) as [cl' id]. destruct F as (F1 & _ & _ & _ & F2). by split_and!. }
  destruct (bool_decide (hq_Method req = "CONNECT")) eqn:Em.
  - unfold handleConnect. destruct (sock_write _ agent) as [a ok]. destruct ok; [|done].
    specialize (K a (hostPort (hq_Host req) "443")). destruct (OpenSession a cw _ cl) as [cl' id].
    destruct K as (K1 & (s & K2 & K3) & K4). split_and!; [done| |done]. exists req, s. by rewrite Em.
  - specialize (K agent (http_target req)). destruct (OpenSession agent cw _ cl) as [cl' id].
    destruct K as (K1 & (s & K2 & K3) & K4). split_and!; [done| |done]. exists req, s. by rewrite Em.
Qed.

Section properties.
Context {C : Type} {FW : FrameWriter C}.
Implicit Types (st : cst C).

(** C32. The CONNECT splice is transparent to what it reads: whatever the sizes of
    the reads, the acknowledgements and the back-pressure in between, the
    session has taken exactly what was read from the agent's socket, in order,
    except for the part a blocked write still holds; only a session that died
    may have dropped the last read. *)
Theorem splice_in_order (max : Z) (r : agent_reader) (evs : list connect_event) st
    (Hmax : 0 <= max) (Hst : cs_upBuf (cs st) = NewReplayBuffer max) (Hr : len (rd_socket r) < 2 ^ 64) :
  let '((st', ps), r') := foldl connect_step ((st, PumpRead), r) evs in
  exists h rest a, rb_rep (cs_upBuf (cs st')) (MkStream h a) /\
    rd_socket r = h ++ rest ++ rd_socket r' /\
    (rest = pump_held ps \/ ps = PumpStopped /\ cs_dead (cs st') = true).
Proof.
  destruct (connect_run_ok evs [] ((st, PumpRead), r)) as (T & (h & rest & ET & [a Ra] & Hor) & Er).
  - exists [], []. split; [done|]. split; [|by left]. exists 0. simpl. rewrite Hst. by apply rep_new.
  - simpl. rewrite len_nil. lia.
  - destruct (foldl connect_step _ evs) as [[st' ps] r']. simpl in *. subst T.
    exists h, rest, a. rewrite Er, <- app_assoc. done.
Qed.

(** Bytes that the agent sent right behind its CONNECT request, without waiting
    for the answer, and that the request's [bufio.Reader] has already picked up,
    never reach the session: everything it takes is a prefix of what was left
    on the socket. *)
Theorem connect_pipelined_bytes_are_lost (max : Z) (early later : list byte) (evs : list connect_event) st
    (Hmax : 0 <= max) (Hst : cs_upBuf (cs st) = NewReplayBuffer max) (Hr : len later < 2 ^ 64) :
  let s := foldl connect_step ((st, PumpRead), MkAgentReader early later) evs in
  rd_buffered (snd s) = early /\
  exists h a, rb_rep (cs_upBuf (cs (fst (fst s)))) (MkStream h a) /\ h `prefix_of` later.
Proof.
  intros s. split.
  - unfold s. by rewrite connect_run_buffered.
  - destruct (connect_run_ok evs [] ((st, PumpRead), MkAgentReader early later)) as (T & (h & rest & ET & [a Ra] & _) & Er).
    + exists [], []. split; [done|]. split; [|by left]. exists 0. simpl. rewrite Hst. by apply rep_new.
    + simpl. rewrite len_nil. lia.
    + exists h, a. split; [done|]. simpl in *. subst T. rewrite Er, <- app_assoc. by apply prefix_app_r.
Qed.

(** C33. The HTTP loop: the session carries the origin-form bytes of the requests in
    the order they came, whole and with nothing in between, and only of requests
    for the host it was opened for: not a byte of a request for another host is
    forwarded.  What a blocked write still holds is the tail of the last one. *)
Theorem http_session_serves_one_host (wire_of : http_request -> list (list byte) * option go_error)
    (first : http_request) (evs : list http_event) (max : Z) st
    (Hmax : 0 <= max) (Hst : cs_upBuf (cs st) = NewReplayBuffer max)
    (Hl : len (wire_bytes wire_of (http_taken wire_of (http_target first) (st, HRead) (HvRequest first :: evs))) < 2 ^ 64) :
  let rs := http_taken wire_of (http_target first) (st, HRead) (HvRequest first :: evs) in
  let '(st', hs) := handleHTTP wire_of first evs st in
  rs `sublist_of` first :: requests evs /\
  Forall (fun r => hostPort (hq_Host r) "80" = http_target first) rs /\
  exists h rest a, rb_rep (cs_upBuf (cs st')) (MkStream h a) /\ wire_bytes wire_of rs = h ++ rest /\
    (rest = http_held hs \/ hs = HStopped /\ cs_dead (cs st') = true).
Proof.
  intros rs. pose proof (http_run_ok wire_of (http_target first) (HvRequest first :: evs) [] (st, HRead)) as K.
  destruct K as (h & rest & E & [a Ra] & Hor); [|exact Hl|].
  - exists [], []. split; [done|]. split; [|by left]. exists 0. simpl. rewrite Hst. by apply rep_new.
  - unfold handleHTTP. destruct (foldl _ _ _) as [st' hs]. simpl in Ra, Hor.
    split; [apply (http_taken_arrived wire_of (http_target first) (HvRequest first :: evs))|].
    split; [apply http_taken_hosts|]. by exists h, rest, a.
Qed.
End properties.

(** ** Witnesses *)

Lemma hostPort_splits_witness :
  SplitHostPort (hostPort "mcp.example" "443") = Ok ("mcp.example", "443") /\
  SplitHostPort (hostPort "::1" "80") = Ok ("::1", "80").
Proof.
  split; [apply (hostPort_splits "mcp.example" "443")|apply (hostPort_splits "::1" "80")];
    [discriminate|split; reflexivity|repeat split..|discriminate|split; reflexivity|repeat split].
Defined.

Lemma bracketed_v6_is_undialable_witness :
  hostPort "[::1]" "80" = "[[::1]]:80" /\ SplitHostPort (hostPort "[::1]" "80") = Err MissingPort.
Proof. apply (bracketed_v6_is_undialable "::1" "80"); repeat split. Defined.

(** A session with room for three bytes and no tunnel up. *)
Definition demo_cst : cst Conn := MkCst (newClientSession 3 1 "mcp:443" new_sock true) None ∅ [].
Definition demo_reads : list connect_event := [CvRead 2; CvRead 2; CvRead 1; CvAck 3].

Lemma splice_in_order_witness :
  exists h rest a, rb_rep (cs_upBuf (cs (fst (fst (foldl connect_step ((demo_cst, PumpRead),
      MkAgentReader [] [x61; x62; x63; x64]) demo_reads))))) (MkStream h a) /\
    [x61; x62; x63; x64] = h ++ rest ++ [].
Proof.
  destruct (splice_in_order 3 (MkAgentReader [] [x61; x62; x63; x64]) demo_reads demo_cst) as (h & rest & a & R & E & _);
    [discriminate|reflexivity|reflexivity|].
  exists h, rest, a. split; [exact R|exact E].
Defined.

Lemma connect_pipelined_bytes_are_lost_witness :
  rd_buffered (snd (foldl connect_step ((demo_cst, PumpRead), MkAgentReader [x16; x03] [x61]) demo_reads)) = [x16; x03].
Proof.
  apply (connect_pipelined_bytes_are_lost 3 [x16; x03] [x61] demo_reads demo_cst); [discriminate|reflexivity|reflexivity].
Defined.

Definition demo_wire (r : http_request) : list (list byte) * option go_error :=
  ([String.list_byte_of_string (hq_Path r)], None).
Definition demo_get (host path : string) : http_request :=
  MkHttpRequest "GET" host ("http://" +:+ host +:+ path) "http" host path [].

Lemma http_session_serves_one_host_witness :
  http_taken demo_wire "a:80" (demo_cst, HRead)
    [HvRequest (demo_get "a" "/1"); HvRequest (demo_get "b" "/2")] `sublist_of`
    [demo_get "a" "/1"; demo_get "b" "/2"].
Proof.
  pose proof (http_session_serves_one_host demo_wire (demo_get "a" "/1") [HvRequest (demo_get "b" "/2")] 3 demo_cst
    ltac:(discriminate) eq_refl eq_refl) as E.
  exact (proj1 E).
Defined.
