(* ===== verification/Loopback.v ===== *)
(** * Loopback: the loopback-survival experiment

    Models [demos/loopback-survival]: the checksummed wire format
    ([internal/wire/wire.go]), the server's verification of the stream
    ([server/main.go]), the client's bookkeeping of acknowledgements, its clock
    monitor and the verdict it publishes ([client/main.go]).  The two ends are
    put together over a byte stream in each direction.  [crc32] is the IEEE
    polynomial in its bit-serial form.  Counters wrap like the Go types. *)
From stdpp Require Import list_numbers.
From S2P Require Import Prelude Socket Wire.

(** ** CRC-32 *)

Definition crc_poly : Z := 0xEDB88320.

Definition crc_bit (s : Z) : Z :=
  if Z.odd s then Z.lxor (Z.shiftr s 1) crc_poly else Z.shiftr s 1.

Definition crc_byte (s : Z) (b : byte) : Z := Nat.iter 8 crc_bit (Z.lxor s (Z_of_byte b)).

(** [crc32.Update] with the IEEE table, and [crc32.ChecksumIEEE]. *)
Definition UpdateCRC (crc : Z) (payload : list byte) : Z :=
  Z.lxor (foldl crc_byte (Z.lxor crc 0xFFFFFFFF) payload) 0xFFFFFFFF.

Definition ChecksumIEEE (payload : list byte) : Z := UpdateCRC 0 payload.

(** ** The wire format *)

Definition loop_MaxPayload : Z := 2 ^ 20.

(** [WriteFrame] makes three writes; an error stops it. *)
Definition loop_WriteFrame (seq : Z) (payload : list byte) (w : sock) : sock * bool :=
  let '(w, ok) := sock_write (be_split 4 (u32 (len payload)) ++ be_split 8 seq) w in
  if negb ok then (w, false)
  else
    let '(w, ok) := sock_write payload w in
    if negb ok then (w, false)
    else sock_write (be_split 4 (ChecksumIEEE payload)) w.

(** [io.ReadFull]: [EOF] when nothing could be read, otherwise
    [ErrUnexpectedEOF]. *)
Inductive loop_error : Type := LEof | LUnexpectedEOF | LTooBig (n : Z).

Definition loop_ReadFull (n : Z) (bs : list byte) : res loop_error (list byte * list byte) :=
  if n <=? len bs then Ok (ztake n bs, zdrop n bs)
  else match bs with [] => Err LEof | _ => Err LUnexpectedEOF end.

(** What [ReadFrame] returned: a frame, a frame whose checksum does not match
    ([ErrCorrupt]), or another error; with what is left of the stream. *)
Inductive loop_read : Type :=
| LFrame (seq : Z) (payload rest : list byte)
| LCorrupt (seq : Z) (payload rest : list byte)
| LError (e : loop_error).

Definition loop_ReadFrame (bs : list byte) : loop_read :=
  match loop_ReadFull 12 bs with
  | Err e => LError e
  | Ok (hdr, bs) =>
      let n := be_combine (ztake 4 hdr) in
      if n >? loop_MaxPayload then LError (LTooBig n)
      else
        let seq := be_combine (zdrop 4 hdr) in
        match loop_ReadFull n bs with
        | Err e => LError e
        | Ok (payload, bs) =>
            match loop_ReadFull 4 bs with
            | Err e => LError e
            | Ok (tail, bs) =>
                if be_combine tail =? ChecksumIEEE payload then LFrame seq payload bs
                else LCorrupt seq payload bs
            end
        end
  end.

Record ack : Type := MkAck { a_seq : Z; a_totalBytes : Z; a_runningCRC : Z }.

Definition ack_bytes (a : ack) : list byte :=
  be_split 8 (a_seq a) ++ be_split 8 (a_totalBytes a) ++ be_split 4 (a_runningCRC a).

Definition WriteAck (a : ack) (w : sock) : sock * bool := sock_write (ack_bytes a) w.

Definition ReadAck (bs : list byte) : res loop_error (ack * list byte) :=
  match loop_ReadFull 20 bs with
  | Err e => Err e
  | Ok (buf, bs) =>
      Ok (MkAck (be_combine (ztake 8 buf)) (be_combine (ztake 8 (zdrop 8 buf))) (be_combine (zdrop 16 buf)), bs)
  end.

(** One turn of [FillPayload]'s generator, and the payload of frame [seq]. *)
Definition xorshift (x : Z) : Z :=
  let x := Z.lxor x (u64 (Z.shiftl x 13)) in
  let x := Z.lxor x (Z.shiftr x 7) in
  Z.lxor x (u64 (Z.shiftl x 17)).

Fixpoint fill (n : nat) (x : Z) : list byte :=
  match n with O => [] | S n => let x := xorshift x in byte_of_Z x :: fill n x end.

Definition FillPayload (size : nat) (seq : Z) : list byte :=
  fill size (u64 (u64 (seq * 0x9E3779B97F4A7C15) + 1)).

(** ** The server *)

Record sstats : Type := MkSStats {
  sv_ConnectionsAccepted : Z;
  sv_FramesReceived : Z;
  sv_BytesReceived : Z;
  sv_LastSeqReceived : Z;
  sv_RunningCRC : Z;
  sv_SeqViolations : Z;
  sv_CRCViolations : Z;
  sv_LastConnError : option loop_error;
}.

(** The connection handler: the queue of delayed acks, the one the ack writer
    holds back or is writing, and whether the reader loop is still running. *)
Record server : Type := MkServer {
  sv : sstats;
  sv_acks : list ack;
  sv_writing : option ack;
  sv_open : bool;
}.

(** A connection is accepted; the statistics go on from the previous one. *)
Definition accept_conn (t : sstats) : server :=
  MkServer (MkSStats (sv_ConnectionsAccepted t + 1) (sv_FramesReceived t) (sv_BytesReceived t) (sv_LastSeqReceived t)
    (sv_RunningCRC t) (sv_SeqViolations t) (sv_CRCViolations t) (sv_LastConnError t)) [] None true.

Definition newServer : server := accept_conn (MkSStats 0 0 0 0 0 0 0 None).

(** The capacity of the channel between reader and ack writer. *)
Definition ackQueue : Z := 1024.

(** The accounting of one verified frame. *)
Definition server_accept (seq : Z) (payload : list byte) (t : sstats) : sstats :=
  let violation := (sv_FramesReceived t >? 0) && negb (seq =? u64 (sv_LastSeqReceived t + 1)) in
  MkSStats (sv_ConnectionsAccepted t) (u64 (sv_FramesReceived t + 1)) (u64 (sv_BytesReceived t + len payload)) seq
    (UpdateCRC (sv_RunningCRC t) payload)
    (if violation then sv_SeqViolations t + 1 else sv_SeqViolations t)
    (sv_CRCViolations t) (sv_LastConnError t).

Definition set_conn_error (e : option loop_error) (t : sstats) : sstats :=
  MkSStats (sv_ConnectionsAccepted t) (sv_FramesReceived t) (sv_BytesReceived t) (sv_LastSeqReceived t) (sv_RunningCRC t)
    (sv_SeqViolations t) (sv_CRCViolations t) e.

Definition crc_violation (t : sstats) : sstats :=
  MkSStats (sv_ConnectionsAccepted t) (sv_FramesReceived t) (sv_BytesReceived t) (sv_LastSeqReceived t) (sv_RunningCRC t)
    (sv_SeqViolations t) (sv_CRCViolations t + 1) (sv_LastConnError t).

(** One turn of [handleConn]'s loop. *)
Definition server_turn (r : loop_read) (s : server) : server :=
  match r with
  | LCorrupt _ _ _ => MkServer (crc_violation (sv s)) (sv_acks s) (sv_writing s) (sv_open s)
  | LError LEof => MkServer (sv s) (sv_acks s) (sv_writing s) false
  | LError e => MkServer (set_conn_error (Some e) (sv s)) (sv_acks s) (sv_writing s) false
  | LFrame seq payload _ =>
      let t := server_accept seq payload (sv s) in
      let a := MkAck seq (sv_BytesReceived t) (sv_RunningCRC t) in
      if len (sv_acks s) <? ackQueue then MkServer t (sv_acks s ++ [a]) (sv_writing s) (sv_open s)
      else MkServer t (sv_acks s) (sv_writing s) false
  end.

(** The ack writer takes the oldest ack from the queue, holds it back, and
    writes it. *)
Definition ack_take (s : server) : server :=
  match sv_writing s, sv_acks s with
  | None, a :: acks => MkServer (sv s) acks (Some a) (sv_open s)
  | _, _ => s
  end.

Definition ack_write (w : sock) (s : server) : sock * server :=
  match sv_writing s with
  | None => (w, s)
  | Some a => (fst (WriteAck a w), MkServer (sv s) (sv_acks s) None (sv_open s))
  end.

(** ** The client *)

(** A clock reading: wall and monotonic time; the wall clock runs on while the
    actor is suspended. *)
Record reading : Type := MkReading { r_wall : Z; r_mono : Z }.

Record cstats : Type := MkCStats {
  lc_established : bool;
  lc_FramesSent : Z;
  lc_BytesSent : Z;
  lc_LastSeqSent : Z;
  lc_AcksReceived : Z;
  lc_LastSeqAcked : Z;
  lc_SendRunningCRC : Z;
  lc_AckOrderViolations : Z;
  lc_AckCRCMismatches : Z;
  lc_AckBytesMismatches : Z;
  lc_LoopbackError : option string;       (* LoopbackBroken and its text *)
  lc_pendingCRC : gmap Z (Z * Z);
  lc_ClockGaps : list (reading * (Z * Z)); (* when, wall gap, monotonic gap *)
}.

Definition newCStats : cstats := MkCStats false 0 0 0 0 0 0 0 0 0 None ∅ [].

Definition establish (t : cstats) : cstats :=
  MkCStats true (lc_FramesSent t) (lc_BytesSent t) (lc_LastSeqSent t) (lc_AcksReceived t) (lc_LastSeqAcked t)
    (lc_SendRunningCRC t) (lc_AckOrderViolations t) (lc_AckCRCMismatches t) (lc_AckBytesMismatches t)
    (lc_LoopbackError t) (lc_pendingCRC t) (lc_ClockGaps t).

(** The accounting before a frame is written; [seq] is the loop's counter, which
    [LastSeqSent] mirrors. *)
Definition client_record (seq : Z) (payload : list byte) (t : cstats) : cstats :=
  let crc := UpdateCRC (lc_SendRunningCRC t) payload in
  let bytes := u64 (lc_BytesSent t + len payload) in
  MkCStats (lc_established t) (u64 (lc_FramesSent t + 1)) bytes seq (lc_AcksReceived t) (lc_LastSeqAcked t)
    crc (lc_AckOrderViolations t) (lc_AckCRCMismatches t) (lc_AckBytesMismatches t)
    (lc_LoopbackError t) (<[seq := (crc, bytes)]> (lc_pendingCRC t)) (lc_ClockGaps t).

(** [failLoopback]: the first failure is kept. *)
Definition failLoopback (phase err : string) (t : cstats) : cstats :=
  MkCStats (lc_established t) (lc_FramesSent t) (lc_BytesSent t) (lc_LastSeqSent t) (lc_AcksReceived t) (lc_LastSeqAcked t)
    (lc_SendRunningCRC t) (lc_AckOrderViolations t) (lc_AckCRCMismatches t) (lc_AckBytesMismatches t)
    (match lc_LoopbackError t with None => Some (phase +:+ ": " +:+ err) | e => e end)
    (lc_pendingCRC t) (lc_ClockGaps t).

(** One tick of [runLoopbackStream]; [false] when the loop returns.  Writing to
    the buffered writer and flushing it are one write to the socket here;
    [phase] says in which of the two an error surfaced. *)
Definition send_tick (size : nat) (seq : Z) (phase os_error : string) (w : sock) (t : cstats) : cstats * sock * bool :=
  let payload := FillPayload size seq in
  let t := client_record seq payload t in
  let '(w, ok) := loop_WriteFrame seq payload w in
  if ok then (t, w, true) else (failLoopback phase os_error t, w, false).

(** One turn of [readAcks] for an ack that was read. *)
Definition on_ack (a : ack) (t : cstats) : cstats :=
  let order := negb (lc_LastSeqAcked t =? 0) && negb (a_seq a =? u64 (lc_LastSeqAcked t + 1)) in
  let want := lc_pendingCRC t !! a_seq a in
  let crcBad := match want with Some (c, _) => negb (u32 c =? a_runningCRC a) | None => false end in
  let bytesBad := match want with Some (_, n) => negb (n =? a_totalBytes a) | None => false end in
  MkCStats (lc_established t) (lc_FramesSent t) (lc_BytesSent t) (lc_LastSeqSent t) (u64 (lc_AcksReceived t + 1))
    (a_seq a) (lc_SendRunningCRC t)
    (if order then lc_AckOrderViolations t + 1 else lc_AckOrderViolations t)
    (if crcBad then lc_AckCRCMismatches t + 1 else lc_AckCRCMismatches t)
    (if bytesBad then lc_AckBytesMismatches t + 1 else lc_AckBytesMismatches t)
    (lc_LoopbackError t)
    (delete (a_seq a) (lc_pendingCRC t)) (lc_ClockGaps t).

(** One sample of [monitorClocks]. *)
Definition maxEvents : Z := 200.

Definition clock_sample (gapMin sampleInt : Z) (prev now : reading) (t : cstats) : cstats :=
  let monoGap := r_mono now - r_mono prev in
  let wallGap := r_wall now - r_wall prev in
  if ((wallGap - monoGap >? gapMin) || (monoGap >? gapMin + sampleInt)) && (len (lc_ClockGaps t) <? maxEvents)
  then MkCStats (lc_established t) (lc_FramesSent t) (lc_BytesSent t) (lc_LastSeqSent t) (lc_AcksReceived t)
    (lc_LastSeqAcked t) (lc_SendRunningCRC t) (lc_AckOrderViolations t) (lc_AckCRCMismatches t)
    (lc_AckBytesMismatches t) (lc_LoopbackError t) (lc_pendingCRC t)
    (lc_ClockGaps t ++ [(now, (wallGap, monoGap))])
  else t.

Inductive verdict : Type := PASS | FAIL | NO_SUSPEND_OBSERVED.

#[export] Instance verdict_eq_dec : EqDecision verdict.
Proof. solve_decision. Defined.

Record report : Type := MkReport {
  rep_Verdict : verdict;
  rep_VerdictDetail : list string;
  rep_RestoresObserved : Z;
}.

(** The reasons to fail, in the order they are checked; [srv] is the server's
    (sequence, CRC) violation counts, [None] when they could not be fetched or
    decoded. *)
Definition failures (srv : option (Z * Z)) (t : cstats) : list string :=
  let violations := lc_AckOrderViolations t + lc_AckCRCMismatches t + lc_AckBytesMismatches t in
  let '(srvSeq, srvCRC) := default (0, 0) srv in
  (if negb (lc_established t) then ["loopback connection never established"]
   else if bool_decide (lc_LoopbackError t <> None) then ["loopback connection broke after establishment"]
   else []) ++
  (if violations >? 0 then [Itoa violations +:+ " client-side ack/CRC/byte-count violations"] else []) ++
  (if srvSeq + srvCRC >? 0
   then ["server reported " +:+ Itoa srvSeq +:+ " seq and " +:+ Itoa srvCRC +:+ " CRC violations"] else []).

(** [buildReport], without the raw statistics it attaches. *)
Definition buildReport (srv : option (Z * Z)) (t : cstats) : report :=
  let restores := len (lc_ClockGaps t) in
  match failures srv t with
  | [] =>
      if restores =? 0 then
        MkReport NO_SUSPEND_OBSERVED
          ["stream healthy, but no suspend/resume boundary detected yet — suspend the actor and query again"] restores
      else
        MkReport PASS
          ["loopback stream intact across " +:+ Itoa restores +:+ " restore(s); " +:+ Itoa (lc_LastSeqSent t) +:+
           " frames sent, " +:+ Itoa (lc_LastSeqAcked t) +:+ " acked, zero violations"] restores
  | fs => MkReport FAIL fs restores
  end.

(** ** Both ends *)

(** The client with its frame counter, the server, and the bytes under way in
    each direction. *)
Record loop : Type := MkLoop {
  lp_client : cstats;
  lp_seq : Z;
  lp_server : server;
  lp_up : list byte;
  lp_down : list byte;
}.

Definition loop_start : loop := MkLoop (establish newCStats) 0 newServer [] [].

(** A working connection: what is written arrives, in order. *)
Definition wire (bs : list byte) : sock := MkSock bs None false false.

Definition loop_send (size : nat) (y : loop) : loop :=
  let seq := u64 (lp_seq y + 1) in
  let '(t, w, _) := send_tick size seq "write" "" (wire (lp_up y)) (lp_client y) in
  MkLoop t seq (lp_server y) (sk_out w) (lp_down y).

(** The server reads a frame; it waits for one that has not arrived completely. *)
Definition loop_serve (y : loop) : loop :=
  match loop_ReadFrame (lp_up y) with
  | (LFrame _ _ rest | LCorrupt _ _ rest) as r =>
      MkLoop (lp_client y) (lp_seq y) (server_turn r (lp_server y)) rest (lp_down y)
  | LError (LTooBig _) as r => MkLoop (lp_client y) (lp_seq y) (server_turn r (lp_server y)) (lp_up y) (lp_down y)
  | LError (LEof | LUnexpectedEOF) => y
  end.

Definition loop_take (y : loop) : loop :=
  MkLoop (lp_client y) (lp_seq y) (ack_take (lp_server y)) (lp_up y) (lp_down y).

Definition loop_ack (y : loop) : loop :=
  let '(w, s) := ack_write (wire (lp_down y)) (lp_server y) in
  MkLoop (lp_client y) (lp_seq y) s (lp_up y) (sk_out w).

(** The client reads an ack that has arrived completely. *)
Definition loop_read_ack (y : loop) : loop :=
  match ReadAck (lp_down y) with
  | Ok (a, rest) => MkLoop (on_ack a (lp_client y)) (lp_seq y) (lp_server y) (lp_up y) rest
  | Err _ => y
  end.

(** The experiment's steps, in any order, short of 2^64 bytes.  The client learns
    of a closed connection at some point after the server closed it. *)
Inductive lstep (size : nat) (y : loop) : loop -> Prop :=
| LpSend :
    (lp_seq y + 1) * (Z.of_nat size + 1) < 2 ^ 64 -> lstep size y (loop_send size y)
| LpServe : sv_open (lp_server y) = true -> lstep size y (loop_serve y)
| LpTake : lstep size y (loop_take y)
| LpAck : lstep size y (loop_ack y)
| LpReadAck : lstep size y (loop_read_ack y)
| LpClock gapMin sampleInt prev now :
    lstep size y (MkLoop (clock_sample gapMin sampleInt prev now (lp_client y)) (lp_seq y) (lp_server y)
      (lp_up y) (lp_down y))
| LpBroken phase err :
    sv_open (lp_server y) = false ->
    lstep size y (MkLoop (failLoopback phase err (lp_client y)) (lp_seq y) (lp_server y) (lp_up y) (lp_down y)).

(** ** Lemmas: CRC-32 *)

#[local] Arguments be_split : simpl never.
#[local] Arguments ack_bytes : simpl never.

Lemma lxor_range n a b : 0 <= n -> 0 <= a < 2 ^ n -> 0 <= b < 2 ^ n -> 0 <= Z.lxor a b < 2 ^ n.
Proof.
  intros Hn Ha Hb. split; [apply Z.lxor_nonneg; lia|].
  assert (Z.lxor a b = Z.lxor a b mod 2 ^ n) as ->; [|by apply Z.mod_pos_bound, Z.pow_pos_nonneg].
  rewrite <- (Z.mod_small a (2 ^ n)), <- (Z.mod_small b (2 ^ n)) at 1 by lia.
  apply Z.bits_inj'. intros i Hi. rewrite Z.lxor_spec. destruct (Z.lt_ge_cases i n).
  - rewrite !Z.mod_pow2_bits_low by lia. by rewrite Z.lxor_spec.
  - by rewrite !Z.mod_pow2_bits_high by lia.
Qed.

Definition is_u32 (z : Z) : Prop := 0 <= z < 2 ^ 32.

Lemma shiftr1_range s : is_u32 s -> 0 <= Z.shiftr s 1 < 2 ^ 31.
Proof.
  unfold is_u32. intros Hs. rewrite Z.shiftr_div_pow2 by lia. change (2 ^ 1) with 2.
  split; [apply Z.div_pos; lia|apply Z.div_lt_upper_bound; lia].
Qed.

Lemma crc_bit_range s : is_u32 s -> is_u32 (crc_bit s).
Proof.
  intros Hs. pose proof (shiftr1_range s Hs). unfold is_u32, crc_bit in *.
  destruct (Z.odd s); [|lia]. apply lxor_range; [lia|lia|unfold crc_poly; lia].
Qed.

(** The top bit tells which branch was taken. *)
Lemma crc_bit_top s : is_u32 s -> Z.testbit (crc_bit s) 31 = Z.odd s.
Proof.
  intros Hs. pose proof (shiftr1_range s Hs) as Hr. unfold crc_bit.
  assert (Z.testbit (Z.shiftr s 1) 31 = false) as E.
  { rewrite <- (Z.mod_small (Z.shiftr s 1) (2 ^ 31)) by lia. apply Z.mod_pow2_bits_high. lia. }
  destruct (Z.odd s); [rewrite Z.lxor_spec|]; rewrite E; reflexivity.
Qed.

Lemma crc_bit_inj s t : is_u32 s -> is_u32 t -> crc_bit s = crc_bit t -> s = t.
Proof.
  intros Hs Ht E. pose proof (crc_bit_top s Hs) as Es. rewrite E, crc_bit_top in Es by done.
  unfold crc_bit in E. rewrite Es in E.
  assert (Z.shiftr s 1 = Z.shiftr t 1) as Er.
  { destruct (Z.odd s); [|done]. apply (f_equal (fun x => Z.lxor x crc_poly)) in E.
    by rewrite !Z.lxor_assoc, Z.lxor_nilpotent, !Z.lxor_0_r in E. }
  rewrite <- !Z.div2_spec in Er. rewrite (Z.div2_odd s), (Z.div2_odd t), Er, Es. done.
Qed.

Lemma iter_crc_inj n s t :
  is_u32 s -> is_u32 t -> Nat.iter n crc_bit s = Nat.iter n crc_bit t -> s = t.
Proof.
  assert (forall n s, is_u32 s -> is_u32 (Nat.iter n crc_bit s)) as K.
  { clear. intros n s Hs. induction n as [|n IH]; [done|]. by apply crc_bit_range. }
  intros Hs Ht. induction n as [|n IH]; [done|]. simpl. intros E. apply IH. by apply crc_bit_inj; [apply K|apply K|].
Qed.

Lemma crc_byte_range s b : is_u32 s -> is_u32 (crc_byte s b).
Proof.
  intros Hs. unfold crc_byte. assert (is_u32 (Z.lxor s (Z_of_byte b))) as Hx.
  { apply lxor_range; [lia|done|]. pose proof (Z_of_byte_range b). unfold is_u32. lia. }
  revert Hx. generalize (Z.lxor s (Z_of_byte b)). intros x Hx. simpl. by repeat apply crc_bit_range.
Qed.

Lemma lxor_u32 s b : is_u32 s -> is_u32 (Z.lxor s (Z_of_byte b)).
Proof. intros Hs. apply lxor_range; [lia|done|]. pose proof (Z_of_byte_range b). unfold is_u32. lia. Qed.

Lemma crc_byte_inj_state s t b : is_u32 s -> is_u32 t -> crc_byte s b = crc_byte t b -> s = t.
Proof.
  intros Hs Ht E. apply iter_crc_inj in E; [|by apply lxor_u32..].
  apply (f_equal (fun x => Z.lxor x (Z_of_byte b))) in E.
  by rewrite !Z.lxor_assoc, Z.lxor_nilpotent, !Z.lxor_0_r in E.
Qed.

Lemma Z_of_byte_inj a b : Z_of_byte a = Z_of_byte b -> a = b.
Proof. intros E. rewrite <- (byte_of_Z_of_byte a), <- (byte_of_Z_of_byte b). by rewrite E. Qed.

Lemma crc_byte_inj_byte s a b : is_u32 s -> crc_byte s a = crc_byte s b -> a = b.
Proof.
  intros Hs E. apply iter_crc_inj in E; [|by apply lxor_u32..]. apply Z_of_byte_inj.
  apply (f_equal (fun x => Z.lxor s x)) in E. by rewrite <- !Z.lxor_assoc, Z.lxor_nilpotent, !Z.lxor_0_l in E.
Qed.

Lemma crc_bytes_range p s : is_u32 s -> is_u32 (foldl crc_byte s p).
Proof. revert s. induction p as [|b p IH]; intros s Hs; [done|]. apply IH. by apply crc_byte_range. Qed.

Lemma crc_bytes_inj p s t : is_u32 s -> is_u32 t -> foldl crc_byte s p = foldl crc_byte t p -> s = t.
Proof.
  revert s t. induction p as [|b p IH]; intros s t Hs Ht E; [done|].
  apply (crc_byte_inj_state s t b); [done|done|]. apply IH; [by apply crc_byte_range..|done].
Qed.

Lemma u32_max : is_u32 0xFFFFFFFF.
Proof. unfold is_u32. lia. Qed.

Lemma UpdateCRC_range c p : is_u32 c -> is_u32 (UpdateCRC c p).
Proof.
  intros Hc. apply lxor_range; [lia| |apply u32_max]. apply crc_bytes_range. apply lxor_range; [lia|done|apply u32_max].
Qed.

(** ** Lemmas: frames *)

Definition loop_frame (seq : Z) (payload : list byte) : list byte :=
  be_split 4 (u32 (len payload)) ++ be_split 8 seq ++ payload ++ be_split 4 (ChecksumIEEE payload).
#[local] Arguments loop_frame : simpl never.

Lemma loop_WriteFrame_wire seq p bs :
  loop_WriteFrame seq p (wire bs) = (wire (bs ++ loop_frame seq p), true).
Proof.
  unfold loop_WriteFrame, wire, loop_frame. repeat (rewrite sock_write_healthy by done; simpl). by rewrite <- !app_assoc.
Qed.

Lemma ReadFull_app p rest : loop_ReadFull (len p) (p ++ rest) = Ok (p, rest).
Proof.
  unfold loop_ReadFull. pose proof (len_nonneg rest). rewrite len_app.
  rewrite (proj2 (Z.leb_le _ _)) by lia. by rewrite ztake_app_len, zdrop_app_len.
Qed.

(** A frame with any four bytes in the place of its checksum. *)
Lemma ReadFrame_any seq p tail rest :
  is_u64 seq -> len p <= loop_MaxPayload -> len tail = 4 ->
  loop_ReadFrame ((be_split 4 (u32 (len p)) ++ be_split 8 seq) ++ p ++ tail ++ rest) =
    if be_combine tail =? ChecksumIEEE p then LFrame seq p rest else LCorrupt seq p rest.
Proof.
  intros Hs Hp Ht. unfold loop_MaxPayload, is_u64 in *. pose proof (len_nonneg p). unfold loop_ReadFrame.
  set (h := be_split 4 _ ++ be_split 8 seq).
  assert (len h = 12) as Lh by (unfold h; by rewrite len_app, !len_be_split).
  rewrite <- Lh, ReadFull_app. unfold h.
  assert (forall (a b : list byte), len a = 4 -> ztake 4 (a ++ b) = a /\ zdrop 4 (a ++ b) = b) as K
    by (intros a b <-; split; [apply ztake_app_len|apply zdrop_app_len]).
  destruct (K (be_split 4 (u32 (len p))) (be_split 8 seq)) as [-> ->]; [by rewrite len_be_split|].
  unfold u32. rewrite Z.mod_small, !be_combine_split_small by lia.
  rewrite Z.gtb_ltb, (proj2 (Z.ltb_ge _ _)) by (unfold loop_MaxPayload; lia).
  rewrite ReadFull_app. rewrite <- Ht, ReadFull_app. by destruct (_ =? _).
Qed.

Lemma ReadFrame_too_big seq p :
  loop_MaxPayload < len p < 2 ^ 32 -> loop_ReadFrame (loop_frame seq p) = LError (LTooBig (len p)).
Proof.
  intros Hp. unfold loop_ReadFrame, loop_frame. rewrite app_assoc. set (h := be_split 4 _ ++ be_split 8 seq).
  assert (len h = 12) as Lh by (unfold h; by rewrite len_app, !len_be_split).
  rewrite <- Lh, ReadFull_app. unfold h.
  assert (forall (b : list byte), ztake 4 (be_split 4 (u32 (len p)) ++ b) = be_split 4 (u32 (len p))) as -> .
  { intros b. replace 4 with (len (be_split 4 (u32 (len p)))) at 1 by apply len_be_split. apply ztake_app_len. }
  unfold u32. pose proof (len_nonneg p). rewrite Z.mod_small, be_combine_split_small by lia.
  by rewrite Z.gtb_ltb, (proj2 (Z.ltb_lt _ _)) by lia.
Qed.

Lemma ReadFrame_frame seq p rest :
  is_u64 seq -> len p <= loop_MaxPayload -> loop_ReadFrame (loop_frame seq p ++ rest) = LFrame seq p rest.
Proof.
  intros Hs Hp. unfold loop_frame. pose proof (ReadFrame_any seq p (be_split 4 (ChecksumIEEE p)) rest Hs Hp) as E.
  rewrite <- !app_assoc in *. rewrite E by (by rewrite len_be_split).
  rewrite be_combine_split_small by (apply (UpdateCRC_range 0); unfold is_u32; lia). by rewrite Z.eqb_refl.
Qed.

Definition ack_fits (a : ack) : Prop := is_u64 (a_seq a) /\ is_u64 (a_totalBytes a) /\ is_u32 (a_runningCRC a).

Lemma ReadAck_bytes a rest : ack_fits a -> ReadAck (ack_bytes a ++ rest) = Ok (a, rest).
Proof.
  intros (H1 & H2 & H3). unfold ReadAck, ack_bytes, is_u64, is_u32 in *.
  set (x := be_split 8 (a_seq a)). set (y := be_split 8 (a_totalBytes a)). set (z := be_split 4 (a_runningCRC a)).
  assert (len x = 8 /\ len y = 8 /\ len z = 4) as (Lx & Ly & Lz) by (unfold x, y, z; by rewrite !len_be_split).
  assert (len (x ++ y ++ z) = 20) as L by (rewrite !len_app; lia). rewrite <- L, ReadFull_app.
  assert (ztake 8 (x ++ y ++ z) = x) as -> by (rewrite <- Lx; apply ztake_app_len).
  assert (zdrop 8 (x ++ y ++ z) = y ++ z) as -> by (rewrite <- Lx; apply zdrop_app_len).
  assert (ztake 8 (y ++ z) = y) as -> by (rewrite <- Ly; apply ztake_app_len).
  assert (zdrop 16 (x ++ y ++ z) = z) as ->.
  { assert (len (x ++ y) = 16) as <- by (rewrite len_app; lia). rewrite app_assoc. apply zdrop_app_len. }
  unfold x, y, z. rewrite !be_combine_split_small by lia. by destruct a.
Qed.

(** ** The experiment's invariant *)

Section experiment.
Context (size : nat) (Hsize : Z.of_nat size <= loop_MaxPayload).

(** The frames [i+1 .. j]. *)
Definition span {A} (f : Z -> A) (i j : Z) : list A := map f (seqZ (i + 1) (j - i)).

Lemma span_nil {A} (f : Z -> A) i : span f i i = [].
Proof. unfold span. by rewrite seqZ_nil by lia. Qed.

Lemma span_head {A} (f : Z -> A) i j : i < j -> span f i j = f (i + 1) :: span f (i + 1) j.
Proof.
  intros Hij. unfold span. rewrite seqZ_cons by lia. simpl. unfold Z.succ.
  by replace (Z.pred (j - i)) with (j - (i + 1)) by lia.
Qed.

Lemma span_snoc {A} (f : Z -> A) i j : i <= j -> span f i (j + 1) = span f i j ++ [f (j + 1)].
Proof.
  intros Hij. unfold span. replace (j + 1 - i) with ((j - i) + 1) by lia.
  rewrite seqZ_app, map_app by lia. f_equal. replace (i + 1 + (j - i)) with (j + 1) by lia.
  by rewrite seqZ_cons, seqZ_nil by lia.
Qed.

Lemma len_span {A} (f : Z -> A) i j : i <= j -> len (span f i j) = j - i.
Proof. intros. unfold span, len. rewrite length_map, length_seqZ. lia. Qed.

Definition payload (k : Z) : list byte := FillPayload size k.
Definition crc_upto (k : Z) : Z := foldl UpdateCRC 0 (span payload 0 k).
Definition ack_of (k : Z) : ack := MkAck k (Z.of_nat size * k) (crc_upto k).
Definition frame_of (k : Z) : list byte := loop_frame k (payload k).

Lemma len_fill n x : len (fill n x) = Z.of_nat n.
Proof.
  revert x. induction n as [|n IH]; intros x; [done|]. simpl fill. specialize (IH (xorshift x)). unfold len in *.
  simpl length. lia.
Qed.

Lemma len_payload k : len (payload k) = Z.of_nat size.
Proof. apply len_fill. Qed.

Lemma crc_upto_S k : 0 <= k -> crc_upto (k + 1) = UpdateCRC (crc_upto k) (payload (k + 1)).
Proof. intros Hk. unfold crc_upto. by rewrite span_snoc, foldl_app. Qed.

Lemma running_crc_range l c : is_u32 c -> is_u32 (foldl UpdateCRC c l).
Proof. revert c. induction l as [|p l IH]; intros c Hc; [done|]. apply IH. by apply UpdateCRC_range. Qed.

Lemma crc_upto_range k : is_u32 (crc_upto k).
Proof. apply running_crc_range. unfold is_u32. lia. Qed.

(** Below the bound of [LpSend], neither the sequence number nor the byte count
    wraps. *)
Definition short (n : Z) : Prop := 0 <= n /\ n * (Z.of_nat size + 1) < 2 ^ 64.

Lemma short_le m n : short n -> 0 <= m <= n -> short m.
Proof. unfold short. intros. nia. Qed.

Lemma short_seq n : short n -> n < 2 ^ 64 /\ 0 <= Z.of_nat size * n < 2 ^ 64.
Proof. unfold short. intros. nia. Qed.

Lemma ack_of_fits k : short k -> ack_fits (ack_of k).
Proof.
  intros Hk. pose proof (short_seq k Hk). destruct Hk. split; [|split]; unfold is_u64; simpl; try lia.
  apply crc_upto_range.
Qed.

(** What each end knows when [n] frames were sent, [r] received, [k] queued for
    acknowledgement, [w] of them sent and [q] read. *)
Record linv (n r k w q : Z) (y : loop) : Prop := {
  li_order : 0 <= q <= w /\ w <= k <= r /\ r <= n;
  li_short : short n;
  li_seq : lp_seq y = n;
  li_up : lp_up y = concat (span frame_of r n);
  li_acks : option_list (sv_writing (lp_server y)) ++ sv_acks (lp_server y) = span ack_of w k;
  li_down : lp_down y = concat (span (fun j => ack_bytes (ack_of j)) q w);
  li_open : sv_open (lp_server y) = true -> k = r;
  li_stats : sv (lp_server y) = MkSStats 1 r (Z.of_nat size * r) r (crc_upto r) 0 0 None;
  li_est : lc_established (lp_client y) = true;
  li_sent : lc_BytesSent (lp_client y) = Z.of_nat size * n;
  li_crc : lc_SendRunningCRC (lp_client y) = crc_upto n;
  li_acked : lc_LastSeqAcked (lp_client y) = q;
  li_order0 : lc_AckOrderViolations (lp_client y) = 0;
  li_crc0 : lc_AckCRCMismatches (lp_client y) = 0;
  li_bytes0 : lc_AckBytesMismatches (lp_client y) = 0;
  li_pending : forall j, q < j <= n -> lc_pendingCRC (lp_client y) !! j = Some (crc_upto j, Z.of_nat size * j);
  li_broken : lc_LoopbackError (lp_client y) <> None -> sv_open (lp_server y) = false;
}.

Lemma linv_start : linv 0 0 0 0 0 loop_start.
Proof.
  split; simpl; rewrite ?span_nil, ?Z.mul_0_r; done || lia || (split; lia) || (intros; lia).
Qed.

Lemma linv_send n r k w q y :
  linv n r k w q y -> short (n + 1) -> linv (n + 1) r k w q (loop_send size y).
Proof.
  intros I Hn. destruct I. pose proof (short_seq _ Hn) as [B1 B2]. destruct li_order1 as (? & ? & ?).
  unfold loop_send, send_tick. fold (payload (u64 (lp_seq y + 1))). rewrite loop_WriteFrame_wire. simpl.
  rewrite li_seq0, u64_small by lia.
  split; simpl; try done; try lia.
  - rewrite span_snoc, concat_app by lia. simpl. by rewrite app_nil_r, li_up0.
  - rewrite li_sent0, len_payload, u64_small; lia.
  - by rewrite li_crc1, crc_upto_S by lia.
  - intros j Hj. destruct (decide (j = n + 1)) as [->|Hne].
    + rewrite lookup_insert_eq. by rewrite li_sent0, len_payload, u64_small, li_crc1, crc_upto_S by lia;
        replace (Z.of_nat size * n + Z.of_nat size) with (Z.of_nat size * (n + 1)) by lia.
    + rewrite lookup_insert_ne by done. apply li_pending0. lia.
Qed.

Lemma linv_serve n r k w q y :
  linv n r k w q y -> sv_open (lp_server y) = true ->
  exists r' k', linv n r' k' w q (loop_serve y).
Proof.
  intros I Ho. pose proof I as I0. destruct I. pose proof (li_open0 Ho) as ->. destruct li_order1 as (O1 & O2 & O3).
  destruct (decide (r = n)) as [->|Hne].
  { exists n, n. unfold loop_serve. by rewrite li_up0, span_nil. }
  pose proof (short_seq (r + 1) ltac:(eapply short_le; [done|lia])) as [B1 B2].
  unfold loop_serve. rewrite li_up0, span_head by lia. cbn [concat].
  change (frame_of (r + 1)) with (loop_frame (r + 1) (payload (r + 1))).
  rewrite ReadFrame_frame; [|unfold is_u64; lia|rewrite len_payload; done].
  assert (server_accept (r + 1) (payload (r + 1)) (sv (lp_server y)) =
    MkSStats 1 (r + 1) (Z.of_nat size * (r + 1)) (r + 1) (crc_upto (r + 1)) 0 0 None) as Ea.
  { rewrite li_stats0. unfold server_accept. simpl. rewrite len_payload, crc_upto_S, !u64_small by lia.
    rewrite Z.eqb_refl, andb_false_r. f_equal. lia. }
  unfold server_turn. rewrite Ea. simpl. destruct (len (sv_acks (lp_server y)) <? ackQueue).
  - exists (r + 1), (r + 1). split; simpl; try done; try lia.
    by rewrite app_assoc, li_acks0, span_snoc by lia.
  - exists (r + 1), r. split; simpl; try done; try lia.
Qed.

Lemma linv_take n r k w q y : linv n r k w q y -> linv n r k w q (loop_take y).
Proof.
  intros []. unfold loop_take, ack_take. destruct (sv_writing (lp_server y)) eqn:Ew; [split; simpl; rewrite ?Ew; done|].
  destruct (sv_acks (lp_server y)) eqn:Ea; split; simpl; rewrite ?Ew, ?Ea; done.
Qed.

Lemma linv_ack n r k w q y : linv n r k w q y -> exists w', linv n r k w' q (loop_ack y).
Proof.
  intros I. pose proof I as I0. destruct I. destruct li_order1 as (O1 & O2 & O3). unfold loop_ack, ack_write.
  destruct (sv_writing (lp_server y)) as [a|] eqn:Ew; [|exists w; split; simpl; rewrite ?Ew; done].
  destruct (decide (w = k)) as [->|Hne]; [by rewrite span_nil in li_acks0|].
  rewrite span_head in li_acks0 by lia. simpl in li_acks0. injection li_acks0 as -> Ha.
  exists (w + 1). unfold WriteAck. rewrite sock_write_healthy by done.
  split; simpl; try done; try lia. rewrite span_snoc, concat_app, li_down0 by lia. cbn [concat]. by rewrite app_nil_r.
Qed.

Lemma linv_read_ack n r k w q y : linv n r k w q y -> exists q', linv n r k w q' (loop_read_ack y).
Proof.
  intros I. pose proof I as I0. destruct I. destruct li_order1 as (O1 & O2 & O3). unfold loop_read_ack. rewrite li_down0.
  destruct (decide (q = w)) as [->|Hne]; [rewrite span_nil; by exists w|].
  rewrite span_head by lia. cbn [concat].
  pose proof (short_le (q + 1) n li_short0 ltac:(lia)) as Hq. pose proof (short_seq _ Hq) as [B1 _].
  rewrite ReadAck_bytes by (by apply ack_of_fits). exists (q + 1).
  pose proof (crc_upto_range (q + 1)) as Hc. unfold is_u32 in Hc.
  assert (lc_pendingCRC (lp_client y) !! (q + 1) = Some (crc_upto (q + 1), Z.of_nat size * (q + 1))) as Ep
    by (apply li_pending0; lia).
  split; simpl; try done; try lia.
  - rewrite li_acked0, u64_small, Z.eqb_refl, andb_false_r by lia. done.
  - rewrite Ep. unfold u32. by rewrite Z.mod_small, Z.eqb_refl by lia.
  - rewrite Ep. by rewrite Z.eqb_refl.
  - intros j Hj. rewrite lookup_delete_ne by lia. apply li_pending0. lia.
Qed.

Lemma linv_step n r k w q y y' :
  linv n r k w q y -> lstep size y y' -> exists n' r' k' w' q', linv n' r' k' w' q' y'.
Proof.
  intros I [Hb|Ho| | | |gapMin sampleInt prev now|phase err Ho].
  - exists (n + 1), r, k, w, q. apply linv_send; [done|]. rewrite (li_seq _ _ _ _ _ _ I) in Hb.
    split; [|done]. pose proof (li_order _ _ _ _ _ _ I). lia.
  - destruct (linv_serve _ _ _ _ _ _ I Ho) as (r' & k' & ?). by exists n, r', k', w, q.
  - exists n, r, k, w, q. by apply linv_take.
  - destruct (linv_ack _ _ _ _ _ _ I) as (w' & ?). by exists n, r, k, w', q.
  - destruct (linv_read_ack _ _ _ _ _ _ I) as (q' & ?). by exists n, r, k, w, q'.
  - exists n, r, k, w, q. destruct I. unfold clock_sample. destruct (_ && _); by split.
  - exists n, r, k, w, q. destruct I. by split.
Qed.

Lemma linv_reachable y : rtc (lstep size) loop_start y -> exists n r k w q, linv n r k w q y.
Proof.
  intros R. apply rtc_ind_r with (P := fun y => exists n r k w q, linv n r k w q y) in R; [done| |].
  - exists 0, 0, 0, 0, 0. apply linv_start.
  - intros y1 y2 _ Hs (n & r & k & w & q & I). by eapply linv_step.
Qed.
End experiment.

(** ** Lemmas: the verdict *)

Lemma failures_nil srv t :
  failures srv t = [] <->
  lc_established t = true /\ lc_LoopbackError t = None /\
  lc_AckOrderViolations t + lc_AckCRCMismatches t + lc_AckBytesMismatches t <= 0 /\
  fst (default (0, 0) srv) + snd (default (0, 0) srv) <= 0.
Proof.
  unfold failures. destruct (default (0, 0) srv) as [a b]. simpl. rewrite !Z.gtb_ltb.
  destruct (lc_established t); simpl; [|split; [done|by intros (? & _)]].
  case_bool_decide as Hb; simpl; [split; [done|by intros (_ & ? & _)]|].
  assert (lc_LoopbackError t = None) by (by destruct (lc_LoopbackError t); [destruct Hb|]).
  destruct (Z.ltb_spec 0 (lc_AckOrderViolations t + lc_AckCRCMismatches t + lc_AckBytesMismatches t)); simpl;
    [split; [done|lia]|].
  destruct (Z.ltb_spec 0 (a + b)); split; try done; lia.
Qed.

Lemma buildReport_verdict srv t :
  rep_Verdict (buildReport srv t) =
    if bool_decide (failures srv t = []) then if len (lc_ClockGaps t) =? 0 then NO_SUSPEND_OBSERVED else PASS else FAIL.
Proof. unfold buildReport. destruct (failures srv t); [|done]. by destruct (_ =? _). Qed.

(** ** Properties *)

(** C31. The checksum catches every change confined to one byte: two payloads of the
    same length that differ in exactly one place have different CRC-32s, so the
    frame is reported as corrupt, whatever its contents, at any length up to
    [MaxPayload]. *)
Theorem byte_corruption_detected (seq : Z) (l r : list byte) (a b : byte) (rest : list byte)
    (Hs : is_u64 seq) (Hl : len (l ++ b :: r) <= loop_MaxPayload) (Hab : a <> b) :
  ChecksumIEEE (l ++ a :: r) <> ChecksumIEEE (l ++ b :: r) /\
  let header := be_split 4 (u32 (len (l ++ a :: r))) ++ be_split 8 seq in
  let tail := be_split 4 (ChecksumIEEE (l ++ a :: r)) in
  loop_ReadFrame (header ++ (l ++ b :: r) ++ tail ++ rest) = LCorrupt seq (l ++ b :: r) rest.
Proof.
  assert (is_u32 (foldl crc_byte (Z.lxor 0 0xFFFFFFFF) l)) as Hu by (apply crc_bytes_range, u32_max).
  assert (ChecksumIEEE (l ++ a :: r) <> ChecksumIEEE (l ++ b :: r)) as Hne.
  { intros E. unfold ChecksumIEEE, UpdateCRC in E.
    apply (f_equal (fun x => Z.lxor x 0xFFFFFFFF)) in E.
    rewrite !Z.lxor_assoc, Z.lxor_nilpotent, !Z.lxor_0_r, !foldl_app in E. simpl in E.
    apply crc_bytes_inj in E; [|by apply crc_byte_range..]. by apply crc_byte_inj_byte in E. }
  split; [done|]. intros header tail. unfold header, tail.
  assert (len (l ++ a :: r) = len (l ++ b :: r)) as -> by (rewrite !len_app; len_solve).
  rewrite ReadFrame_any; [|done|done|by rewrite len_be_split].
  rewrite be_combine_split_small by (apply (UpdateCRC_range 0); unfold is_u32; lia).
  by rewrite (proj2 (Z.eqb_neq _ _)).
Qed.

(** A payload above the limit, which nothing keeps the client from sending, makes
    the server refuse the first frame and drop a healthy connection. *)
Theorem oversize_payload_is_refused (size : nat) (Hsize : loop_MaxPayload < Z.of_nat size < 2 ^ 32) :
  let y := loop_serve (loop_send size loop_start) in
  sv_open (lp_server y) = false /\ sv_LastConnError (sv (lp_server y)) = Some (LTooBig (Z.of_nat size)) /\
  sv_FramesReceived (sv (lp_server y)) = 0.
Proof.
  intros y. assert (loop_ReadFrame (lp_up (loop_send size loop_start)) = LError (LTooBig (Z.of_nat size))) as E.
  { unfold loop_send, send_tick. fold (payload size (u64 (lp_seq loop_start + 1))). rewrite loop_WriteFrame_wire.
    rewrite <- (len_payload size (u64 (lp_seq loop_start + 1))). apply ReadFrame_too_big. by rewrite len_payload. }
  unfold y, loop_serve. rewrite E. unfold loop_send. by destruct (send_tick _ _ _ _ _ _) as [[t w] o].
Qed.

(** C30. No false alarms: with payloads of at most [MaxPayload] (1 MiB) and short of
    2^64 bytes, over a connection that delivers every byte once and in order,
    however sends, reads, delayed acks and clock samples interleave, neither end
    ever counts a violation; the published verdict is a failure only if the
    server itself dropped the connection because its ack queue was full.  (The
    client does not check its payload size: [oversize_payload_is_refused].) *)
Theorem healthy_stream_never_fails (size : nat) (y : loop)
    (Hsize : Z.of_nat size <= loop_MaxPayload) (R : rtc (lstep size) loop_start y) :
  let t := sv (lp_server y) in
  sv_SeqViolations t = 0 /\ sv_CRCViolations t = 0 /\ sv_LastConnError t = None /\
  lc_AckOrderViolations (lp_client y) = 0 /\ lc_AckCRCMismatches (lp_client y) = 0 /\
  lc_AckBytesMismatches (lp_client y) = 0 /\
  (rep_Verdict (buildReport (Some (sv_SeqViolations t, sv_CRCViolations t)) (lp_client y)) = FAIL ->
   sv_open (lp_server y) = false).
Proof.
  intros t. destruct (linv_reachable size Hsize y R) as (n & r & k & w & q & []). unfold t. rewrite li_stats0. simpl.
  split_and!; try done. rewrite buildReport_verdict. case_bool_decide as Hf; [by destruct (_ =? _)|]. intros _.
  apply li_broken0. intros Hn. apply Hf, failures_nil. rewrite li_order2, li_crc2, li_bytes1. by split_and!.
Qed.

(** A frame that is missing from the stream, repeated or out of place is counted:
    any sequence number but the next one raises the server's violation count,
    and a corrupt frame, which is skipped, both raises the CRC count and makes
    the following frame a sequence violation. *)
Theorem stream_gap_detected (s : server) (seq : Z) (p rest : list byte)
    (Hf : sv_FramesReceived (sv s) > 0) (Hseq : seq <> u64 (sv_LastSeqReceived (sv s) + 1)) :
  sv_SeqViolations (sv (server_turn (LFrame seq p rest) s)) = sv_SeqViolations (sv s) + 1 /\
  sv_CRCViolations (sv (server_turn (LCorrupt seq p rest) s)) = sv_CRCViolations (sv s) + 1 /\
  sv_SeqViolations (sv (server_turn (LFrame seq p rest) (server_turn (LCorrupt seq p rest) s))) =
    sv_SeqViolations (sv s) + 1.
Proof.
  assert ((sv_FramesReceived (sv s) >? 0) && negb (seq =? u64 (sv_LastSeqReceived (sv s) + 1)) = true) as E.
  { rewrite (proj2 (Z.eqb_neq _ _) Hseq). rewrite Z.gtb_ltb, (proj2 (Z.ltb_lt _ _)) by lia. done. }
  split_and!; simpl; try (destruct (len (sv_acks s) <? ackQueue); simpl); rewrite ?E; done.
Qed.

(** What a PASS means: the connection was established and never broke, a
    suspend was observed, the client counted no violation, and neither did the
    server as far as its counts could be fetched.  When they could not, they
    count as zero: the same client statistics pass without them. *)
Theorem pass_verdict (srv : option (Z * Z)) (t : cstats)
    (H0 : 0 <= lc_AckOrderViolations t /\ 0 <= lc_AckCRCMismatches t /\ 0 <= lc_AckBytesMismatches t) :
  (rep_Verdict (buildReport srv t) = PASS <->
    lc_established t = true /\ lc_LoopbackError t = None /\ lc_ClockGaps t <> [] /\
    lc_AckOrderViolations t = 0 /\ lc_AckCRCMismatches t = 0 /\ lc_AckBytesMismatches t = 0 /\
    (forall a b, srv = Some (a, b) -> a + b <= 0)) /\
  (rep_Verdict (buildReport srv t) = PASS -> rep_Verdict (buildReport None t) = PASS).
Proof.
  assert (len (lc_ClockGaps t) = 0 <-> lc_ClockGaps t = []) as Hg by (split; [apply len_0_nil|by intros ->]).
  assert (forall srv, rep_Verdict (buildReport srv t) = PASS <-> failures srv t = [] /\ lc_ClockGaps t <> []) as K.
  { clear srv. intros srv. rewrite buildReport_verdict. case_bool_decide as Hf; [|split; [done|by intros [? _]]].
    destruct (Z.eqb_spec (len (lc_ClockGaps t)) 0) as [E|E]; [split; [done|]|split; [|done]].
    - intros [_ Hc]. by apply Hg in E.
    - intros _. split; [done|]. intros Hc. by apply E, Hg. }
  rewrite !K, !failures_nil. split; [split|].
  - intros ((? & ? & ? & Hv) & ?). split_and!; [done|done|done|lia|lia|lia|]. by intros a b ->.
  - intros (? & ? & ? & ? & ? & ? & Hv). split_and!; [done|done|lia| |done].
    destruct srv as [[a b]|]; simpl; [by apply Hv|lia].
  - intros ((? & ? & ? & _) & ?). split_and!; done.
Qed.

(** ** Witnesses *)

(** The check value of CRC-32. *)
Example crc_check_value : ChecksumIEEE (String.list_byte_of_string "123456789") = 0xCBF43926.
Proof. reflexivity. Qed.

Lemma byte_corruption_detected_witness :
  ChecksumIEEE [x61; x62; x63] <> ChecksumIEEE [x61; x00; x63].
Proof. apply (byte_corruption_detected 7 [x61] [x63] x62 x00 []); [split; reflexivity || discriminate|discriminate|discriminate]. Defined.

(** One frame there, its ack back, and a suspend noticed by the clocks. *)
Definition demo_loop : loop :=
  let y := loop_read_ack (loop_ack (loop_take (loop_serve (loop_send 2 loop_start)))) in
  MkLoop (clock_sample 2000 100 (MkReading 0 0) (MkReading 30000 100) (lp_client y)) (lp_seq y) (lp_server y) (lp_up y) (lp_down y).

Lemma demo_loop_reached : rtc (lstep 2) loop_start demo_loop.
Proof.
  eapply rtc_l; [apply LpSend; simpl; lia|]. eapply rtc_l; [apply LpServe; reflexivity|].
  eapply rtc_l; [apply LpTake|]. eapply rtc_l; [apply LpAck|]. eapply rtc_l; [apply LpReadAck|].
  eapply rtc_l; [apply (LpClock _ _ 2000 100 (MkReading 0 0) (MkReading 30000 100))|]. apply rtc_refl.
Qed.

Lemma healthy_stream_never_fails_witness :
  lc_AckCRCMismatches (lp_client demo_loop) = 0 /\ lc_AcksReceived (lp_client demo_loop) = 1 /\
  rep_Verdict (buildReport (Some (0, 0)) (lp_client demo_loop)) = PASS.
Proof.
  split; [apply (healthy_stream_never_fails 2 demo_loop ltac:(discriminate) demo_loop_reached)|].
  split; vm_compute; reflexivity.
Defined.

Lemma stream_gap_detected_witness :
  sv_SeqViolations (sv (server_turn (LFrame 3 [] []) (lp_server demo_loop))) = 1.
Proof.
  apply (stream_gap_detected (lp_server demo_loop) 3 [] []); vm_compute; [reflexivity|discriminate].
Defined.

Lemma pass_verdict_witness : rep_Verdict (buildReport None (lp_client demo_loop)) = PASS.
Proof.
  apply (pass_verdict (Some (0, 0)) (lp_client demo_loop)); vm_compute; [|reflexivity].
  repeat split; discriminate.
Defined.
