(* ===== verification/Commands.v ===== *)
(** * Commands: the two binaries of the tunnel

    Models [cmd/egress-sidecar/main.go] and [cmd/egress-broker/main.go]: settings
    from environment variables and flags, the actor's identity, what each [main]
    starts and in which order, and the broker's debug endpoints.

    The process environment is a function from names to values (empty when
    unset), the file system a function from paths to contents.  [pflag] is not
    in the repository: its [Parse] is an argument that maps the defaults to the
    values in force, or exits.  [net.Listen], [grpc.NewClient] and the accept
    loops' results are arguments too. *)
From Stdlib Require Import Ascii.
From S2P Require Import Prelude GoStd ReplayBuffer Socket Wire Link BrokerSession Sidecar SidecarClient Resumer Broker.
From S2P Require Import Ateapi Activity Suspender Ingress.

#[local] Arguments String.append !_ _ /.

(** ** Settings from the environment *)

Section environment.
Context (env : string -> string).

Definition envOr (key def : string) : string :=
  if bool_decide (env key <> "") then env key else def.

Definition envInt (key : string) (def : Z) : Z :=
  if bool_decide (env key <> "") then
    match Atoi (env key) with (n, None) => n | (_, Some _) => def end
  else def.

Definition envBool (key : string) (def : bool) : bool :=
  if bool_decide (env key <> "") then
    match ParseBool (env key) with Some b => b | None => def end
  else def.

Definition envDur (key : string) (def : Z) : Z :=
  if bool_decide (env key <> "") then
    match ParseDuration (env key) with Some d => d | None => def end
  else def.
End environment.

(** ** The sidecar's flags *)

Record sidecar_flags : Type := MkSidecarFlags {
  proxyListen : string;
  brokerAddr : string;
  ingressListen : string;
  agentAddr : string;
  atespace : string;
  actorName : string;
  actorIDFile : string;
  statusURL : string;
  ateapiAddr : string;
  ateapiInsec : bool;
  suspendOff : bool;
  blockedAfter : Z;
  includeModel : bool;
  idleAfter : Z;
  pingInterval : Z;
  pongTimeout : Z;
  sessionBuf : Z;
}.

Definition sidecar_defaults (env : string -> string) : sidecar_flags := {|
  proxyListen := envOr env "PROXY_LISTEN" ":15001";
  brokerAddr := envOr env "BROKER_ADDR" "";
  ingressListen := envOr env "INGRESS_LISTEN" "";
  agentAddr := envOr env "AGENT_ADDR" "127.0.0.1:8080";
  atespace := envOr env "ATE_ATESPACE" "";
  actorName := envOr env "ATE_ACTOR_NAME" "";
  actorIDFile := envOr env "ATE_ACTOR_ID_FILE" "/run/ate/actor-id";
  statusURL := envOr env "STATUS_URL" ("http://127.0.0.1:9902" +:+ "/statusz");
  ateapiAddr := envOr env "ATEAPI_ADDR" "api.ate-system.svc:443";
  ateapiInsec := envBool env "ATEAPI_INSECURE" false;
  suspendOff := envBool env "NO_SUSPEND" false;
  blockedAfter := envDur env "BLOCKED_AFTER" Second;
  includeModel := envBool env "INCLUDE_MODEL_CALLS" false;
  idleAfter := envDur env "IDLE_AFTER" 0;
  pingInterval := envDur env "PING_INTERVAL" Second;
  pongTimeout := envDur env "PONG_TIMEOUT" (3 * Second);
  sessionBuf := envInt env "SESSION_BUFFER_BYTES" (4 * 1024 * 1024);
|}.

(** ** The actor's identity *)

Definition readActorName (fs : string -> option string) (path : string) : string :=
  match fs path with None => "" | Some b => TrimSpace b end.

(** The closure [identity]: evaluated anew at every call, on the files as they
    are then. *)
Definition identity (fl : sidecar_flags) (fs : string -> option string) : Ref :=
  MkRef (atespace fl) (if bool_decide (actorName fl = "") then readActorName fs (actorIDFile fl) else actorName fl).

(** ** Sequences of start-up actions *)

(** What a [main] has started, and its exit code once it has one. *)
Definition startup (A : Type) : Type := (list A * option Z)%type.
Definition andThen {A} (x y : startup A) : startup A :=
  match snd x with Some _ => x | None => (fst x ++ fst y, snd y) end.
Definition start {A} (a : A) : startup A := ([a], None).
Definition skip {A} : startup A := ([], None).
Definition exit_if {A} (c : bool) (code : Z) : startup A := ([], if c then Some code else None).
Definition failed {A} (e : option A) : bool := match e with Some _ => true | None => false end.

Declare Scope startup_scope.
Notation "x ;; y" := (andThen x y) : startup_scope.
Open Scope startup_scope.

(** The operating system as a [main] sees it. *)
Record os (F : Type) : Type := MkOs {
  os_env : string -> string;
  os_fs : string -> option string;
  os_parse : F -> Z + F;                   (* pflag.Parse: an exit code or the values *)
  os_grpc : string -> option string;       (* grpc.NewClient's error *)
  os_listen : string -> option string;     (* net.Listen's error *)
  os_serve : option string;                (* what the blocking Serve returns *)
}.
Arguments MkOs {F} _ _ _ _ _ _.
Arguments os_env {F} _.
Arguments os_fs {F} _.
Arguments os_parse {F} _.
Arguments os_grpc {F} _.
Arguments os_listen {F} _.
Arguments os_serve {F} _.

(** ** The sidecar's [main] *)

Inductive sidecar_act : Type :=
| GoClient (addr : string) (cfg : ClientConfig)
| GoSuspender (api : api_client) (url : string) (cfg : SuspenderConfig)
| GoIngress (listen agent : string)
| ServeProxy (listen : string).

Definition client_config (fl : sidecar_flags) : ClientConfig :=
  MkClientConfig (sessionBuf fl) (pingInterval fl) (pongTimeout fl) 0.

Definition suspender_config (fl : sidecar_flags) : SuspenderConfig :=
  MkSuspenderConfig 0 (blockedAfter fl) (includeModel fl) (idleAfter fl) 0 (bool_decide (ingressListen fl <> "")).

Definition sidecar_main (o : os sidecar_flags) : startup sidecar_act :=
  match os_parse o (sidecar_defaults (os_env o)) with
  | inl code => exit_if true code
  | inr fl =>
      exit_if (bool_decide (brokerAddr fl = "")) 1 ;;
      exit_if (bool_decide (ref_Name (identity fl (os_fs o)) = "")) 1 ;;
      start (GoClient (brokerAddr fl) (client_config fl)) ;;
      (if suspendOff fl then skip
       else match Dial (os_grpc o) (MkApiConfig (ateapiAddr fl) (ateapiInsec fl)) with
            | Err _ => exit_if true 1
            | Ok lc => start (GoSuspender lc (statusURL fl) (suspender_config fl))
            end) ;;
      (if bool_decide (ingressListen fl = "") then skip
       else exit_if (failed (os_listen o (ingressListen fl))) 1 ;;
            start (GoIngress (ingressListen fl) (agentAddr fl))) ;;
      exit_if (failed (os_listen o (proxyListen fl))) 1 ;;
      start (ServeProxy (proxyListen fl)) ;;
      exit_if true (if failed (os_serve o) then 1 else 0)
  end.

(** ** The broker's flags and [main] *)

Record broker_flags : Type := MkBrokerFlags {
  tunnelListen : string;
  debugListen : string;
  b_ateapiAddr : string;
  b_ateapiInsec : bool;
  sessionBuffer : Z;
  watchdog : Z;
}.

Definition broker_defaults (env : string -> string) : broker_flags := {|
  tunnelListen := envOr env "TUNNEL_LISTEN" ":9000";
  debugListen := envOr env "DEBUG_LISTEN" ":9001";
  b_ateapiAddr := envOr env "ATEAPI_ADDR" "api.ate-system.svc:443";
  b_ateapiInsec := envBool env "ATEAPI_INSECURE" false;
  sessionBuffer := envInt env "SESSION_BUFFER_BYTES" (4 * 1024 * 1024);
  watchdog := envDur env "MAX_SUSPEND_WATCHDOG" (5 * Minute);
|}.

Inductive broker_act : Type :=
| NewBroker (api : api_client) (cfg : Config)
| GoDebug (listen : string)
| ServeTunnels (listen : string).

Definition broker_config (fl : broker_flags) : Config :=
  MkConfig (sessionBuffer fl) (watchdog fl) 0 0 None.

Definition broker_main (o : os broker_flags) : startup broker_act :=
  match os_parse o (broker_defaults (os_env o)) with
  | inl code => exit_if true code
  | inr fl =>
      match Dial (os_grpc o) (MkApiConfig (b_ateapiAddr fl) (b_ateapiInsec fl)) with
      | Err _ => exit_if true 1
      | Ok lc =>
          start (NewBroker lc (broker_config fl)) ;;
          exit_if (failed (os_listen o (tunnelListen fl))) 1 ;;
          start (GoDebug (debugListen fl)) ;;
          start (ServeTunnels (tunnelListen fl)) ;;
          exit_if true (if failed (os_serve o) then 1 else 0)
      end
  end.

(** ** The debug endpoints *)

Section debug.
Context {P : Type} `{Lifecycle P}.

Definition lifecycleHandler (verb : string) (fn : Ref -> P -> P * option string) (method path : string) (p : P)
    : P * response :=
  if negb (bool_decide (method = "POST")) then (p, http_error "POST required" 405)
  else
    let tail := TrimPrefix path ("/debug/" +:+ verb +:+ "/") in
    let bad := (p, http_error ("path must be /debug/" +:+ verb +:+ "/{atespace}/{name}") 400) in
    match SplitN2 "/" tail with
    | [a; n] =>
        if bool_decide (a = "") || bool_decide (n = "") then bad
        else match fn (MkRef a n) p with
             | (p, Some e) => (p, http_error e 502)
             | (p, None) => (p, MkResponse 204 "" [])
             end
    | _ => bad
    end.

Definition ok_page : response := MkResponse 200 "text/plain; charset=utf-8" (bytes_of ("ok" +:+ String newline "")).

Definition debug_patterns : list string := ["/healthz"; "/debug/sessions"; "/debug/suspend/"; "/debug/resume/"].

Inductive debug_answer : Type := Answer (r : response) | RedirectTo (path : string).
Definition answer (x : P * response) : P * debug_answer := (fst x, Answer (snd x)).

(** The handler [serveDebug] installs; [encode] is the JSON encoder, a redirect
    comes from the multiplexer. *)
Definition serveDebug {C} (encode : list SessionInfo -> list byte) (b : Broker C) (method path : string) (p : P)
    : P * debug_answer :=
  match ServeMux debug_patterns path with
  | Redirect to => (p, RedirectTo to)
  | NotFound => (p, Answer (http_error "404 page not found" 404))
  | Matched pat =>
      if decide (pat = "/healthz") then (p, Answer ok_page)
      else if decide (pat = "/debug/sessions") then (p, Answer (MkResponse 200 "application/json" (encode (Sessions b))))
      else if decide (pat = "/debug/suspend/") then answer (lifecycleHandler "suspend" lc_suspend method path p)
      else answer (lifecycleHandler "resume" lc_resume method path p)
  end.
End debug.

(** ** Lemmas *)

Section debug_lemmas.
Context {P : Type} `{Lifecycle P}.

Lemma TrimPrefix_app p s : TrimPrefix (p +:+ s) p = s.
Proof. unfold TrimPrefix. by rewrite cut_prefix_app. Qed.

(** The handler on a path that names an actor. *)
Lemma lifecycle_named verb (fn : Ref -> P -> P * option string) (r : Ref) p :
  has "/" (ref_Atespace r) = false -> ref_Atespace r <> "" -> ref_Name r <> "" ->
  lifecycleHandler verb fn "POST" (("/debug/" +:+ verb +:+ "/") +:+ ref_String r) p =
  (fst (fn r p), match snd (fn r p) with Some e => http_error e 502 | None => MkResponse 204 "" [] end).
Proof.
  intros Hs Ha Hn. unfold lifecycleHandler. rewrite bool_decide_eq_true_2 by done. cbn [negb].
  rewrite TrimPrefix_app. destruct r as [a n]. unfold ref_String. cbn [ref_Atespace ref_Name String.append] in *.
  rewrite SplitN2_cut by done. rewrite !bool_decide_eq_false_2 by done. cbn [orb].
  by destruct (fn (MkRef a n) p) as [p' [e|]].
Qed.

(** A call is made only for a POST whose path has the two parts. *)
Lemma lifecycle_only_named verb (fn : Ref -> P -> P * option string) method path p :
  fst (lifecycleHandler verb fn method path p) <> p ->
  exists r, method = "POST" /\ ref_Atespace r <> "" /\ ref_Name r <> "" /\ has "/" (ref_Atespace r) = false /\
    TrimPrefix path ("/debug/" +:+ verb +:+ "/") = ref_String r /\
    fst (lifecycleHandler verb fn method path p) = fst (fn r p).
Proof.
  unfold lifecycleHandler. destruct (decide (method = "POST")) as [->|Hm];
    [rewrite bool_decide_eq_true_2 by done|by rewrite bool_decide_eq_false_2]. cbn [negb].
  unfold SplitN2. destruct (cut_at "/" _) as [[a n]|] eqn:E; [|done]. apply cut_at_inv in E as [E Hh].
  destruct (decide (a = "")) as [->|Ha]; [by rewrite bool_decide_eq_true_2|].
  destruct (decide (n = "")) as [->|Hn]; [by rewrite bool_decide_eq_false_2, bool_decide_eq_true_2|].
  rewrite !bool_decide_eq_false_2 by done. cbn [orb]. intros _. exists (MkRef a n).
  split_and!; try done. by destruct (fn (MkRef a n) p) as [p' [e|]].
Qed.

End debug_lemmas.

Lemma matches_exact p pat : ends_in_slash pat = false -> p <> pat -> matches p pat = false.
Proof. intros E Hne. unfold matches. by rewrite bool_decide_eq_false_2, E. Qed.

Lemma matches_subtree p pat : ends_in_slash pat = true -> p <> pat -> matches p pat = bool_decide (cut_prefix pat p <> None).
Proof. intros E Hne. unfold matches. by rewrite bool_decide_eq_false_2, E. Qed.

(** Routing of an actor's debug path. *)
Lemma debug_route verb r :
  verb = "suspend" \/ verb = "resume" -> plain_elem (ref_Atespace r) -> plain_elem (ref_Name r) ->
  ServeMux debug_patterns (("/debug/" +:+ verb +:+ "/") +:+ ref_String r) = Matched ("/debug/" +:+ verb +:+ "/").
Proof.
  intros Hv Ha Hn. destruct r as [a n]. cbn [ref_Atespace ref_Name] in *.
  assert (plain_elem verb) as Hpv by (destruct Hv as [-> | ->]; by split_and!).
  destruct (cleanPath_plain ["debug"; verb; a] n) as [HC HE].
  { repeat constructor; try done; apply Hpv || apply Ha || apply Hn. }
  assert ("/" +:+ Join "/" (["debug"; verb; a] ++ [n]) = ("/debug/" +:+ verb +:+ "/") +:+ ref_String (MkRef a n)) as Hp.
  { unfold ref_String. simpl. by rewrite string_app_assoc. }
  rewrite Hp in *. unfold ServeMux. rewrite HC.
  assert (a <> "") as Hne by apply Ha. destruct a as [|c a]; [done|].
  assert (foldl (better (("/debug/" +:+ verb +:+ "/") +:+ ref_String (MkRef (String c a) n))) None debug_patterns
          = Some ("/debug/" +:+ verb +:+ "/")) as ->.
  { unfold debug_patterns. cbn [foldl]. unfold better.
    destruct Hv as [-> | ->]; cbn [String.append ref_String ref_Atespace ref_Name];
      rewrite (matches_exact _ "/healthz"), (matches_exact _ "/debug/sessions"),
        (matches_subtree _ "/debug/suspend/"), (matches_subtree _ "/debug/resume/")
        by (reflexivity || discriminate); reflexivity. }
  rewrite HE, (bool_decide_eq_false_2 (_ ∈ _)).
  2: { unfold debug_patterns. rewrite !elem_of_cons, elem_of_nil.
       destruct Hv as [-> | ->]; cbn [String.append ref_String ref_Atespace ref_Name];
         intros Hin; destruct_or! Hin; discriminate. }
  rewrite andb_false_r, (bool_decide_eq_true_2 (_ = _)) by done. done.
Qed.

(** The pattern the multiplexer picks is registered and matches the path. *)
Lemma mux_matched pats path pat : ServeMux pats path = Matched pat -> pat ∈ pats /\ matches path pat = true.
Proof.
  unfold ServeMux. destruct (_ && _); [done|].
  destruct (decide (cleanPath path = path)) as [->|Hne]; [|by rewrite (bool_decide_eq_false_2 (_ = _))].
  rewrite bool_decide_eq_true_2 by done. cbn [negb].
  assert (forall l best, match foldl (better path) best l with
    | Some q => best = Some q \/ q ∈ l /\ matches path q = true | None => True end) as K.
  { induction l as [|q l IH]; intros best; cbn [foldl]; [by destruct best; auto|].
    specialize (IH (better path best q)). destruct (foldl _ _ l) as [x|]; [|done].
    destruct IH as [E|[Hin Hm]]; [|right; split; [by apply list_elem_of_further|done]].
    unfold better in E. destruct (matches path q) eqn:Eq; [|auto].
    destruct best as [b|]; [destruct (_ <=? _)%nat|]; try (by auto);
      injection E as <-; right; split; [by apply list_elem_of_here|done..|by apply list_elem_of_here|done]. }
  specialize (K pats None). destruct (foldl _ _ pats) as [q|]; [|done]. intros [= <-].
  by destruct K as [?|?].
Qed.

(** A routed request that changes the platform names an actor in its path. *)
Lemma lifecycle_routed {P} verb (fn : Ref -> P -> P * option string) method path (p : P) :
  matches path ("/debug/" +:+ verb +:+ "/") = true -> fst (lifecycleHandler verb fn method path p) <> p ->
  method = "POST" /\ exists r, ref_Atespace r <> "" /\ ref_Name r <> "" /\
    path = ("/debug/" +:+ verb +:+ "/") +:+ ref_String r /\
    fst (lifecycleHandler verb fn method path p) = fst (fn r p).
Proof.
  intros Hm Hc. destruct (lifecycle_only_named verb fn method path p Hc) as (r & -> & H1 & H2 & _ & Et & Ef).
  split; [done|]. exists r. split_and!; try done. clear Hc Ef. revert Et. unfold TrimPrefix.
  destruct (cut_prefix _ path) as [t|] eqn:E; [apply cut_prefix_inv in E as ->; by intros <-|].
  apply orb_true_iff in Hm as [Hm%bool_decide_eq_true|[_ Hm%bool_decide_eq_true]%andb_true_iff]; [|by rewrite E in Hm].
  pose proof (cut_prefix_app ("/debug/" +:+ verb +:+ "/") "") as E'. rewrite string_app_nil, <- Hm in E'.
  rewrite <- Hm in E. by rewrite E in E'.
Qed.

(** *** Identity *)

Lemma identity_from_file fl fs l name k :
  actorName fl = "" -> fs (actorIDFile fl) = Some (concat_str l +:+ name +:+ concat_str k) ->
  Forall (fun t => t ∈ spaces) l -> Forall (fun t => t ∈ spaces) k -> visible name = true -> name <> "" ->
  identity fl fs = MkRef (atespace fl) name.
Proof.
  intros Ha Hf Hl Hk Hv Hne. unfold identity, readActorName. rewrite Ha, bool_decide_eq_true_2, Hf by done.
  by rewrite TrimSpace_blanks.
Qed.

(** *** Start-up *)

Lemma in_andThen {A} (a : A) (x y : startup A) : a ∈ fst (x ;; y) -> a ∈ fst x \/ a ∈ fst y.
Proof. unfold andThen. destruct (snd x); [auto|]. simpl. apply elem_of_app. Qed.

Lemma in_exit_if {A} (a : A) c code : a ∈ fst (exit_if c code) -> False.
Proof. by intros ?%elem_of_nil. Qed.

Lemma in_start {A} (a b : A) : a ∈ fst (start b) -> a = b.
Proof. by intros ?%list_elem_of_singleton. Qed.

(** Look an action up in a start-up sequence. *)
Ltac in_startup H :=
  repeat first
    [ apply in_andThen in H as [H|H] | apply in_exit_if in H; destruct H
    | apply in_start in H | apply elem_of_nil in H; destruct H ].

(** The suspender runs with the configuration of the flags. *)
Lemma sidecar_suspender o lc url cfg :
  GoSuspender lc url cfg ∈ fst (sidecar_main o) ->
  exists fl, os_parse o (sidecar_defaults (os_env o)) = inr fl /\ cfg = suspender_config fl /\ url = statusURL fl.
Proof.
  unfold sidecar_main. destruct (os_parse _ _) as [code|fl]; intros Hin; [in_startup Hin|].
  exists fl. split; [done|]. in_startup Hin; try done.
  - destruct (suspendOff fl); [in_startup Hin|]. destruct (Dial _ _) as [api|e]; in_startup Hin.
    by injection Hin as -> -> ->.
  - destruct (bool_decide _) in Hin; in_startup Hin. done.
Qed.

(** So does the client. *)
Lemma sidecar_client o addr cfg :
  GoClient addr cfg ∈ fst (sidecar_main o) ->
  exists fl, os_parse o (sidecar_defaults (os_env o)) = inr fl /\ cfg = client_config fl /\ addr = brokerAddr fl.
Proof.
  unfold sidecar_main. destruct (os_parse _ _) as [code|fl]; intros Hin; [in_startup Hin|].
  exists fl. split; [done|]. in_startup Hin; try done.
  - by injection Hin as -> ->.
  - destruct (suspendOff fl); [in_startup Hin|]. destruct (Dial _ _) as [api|e]; in_startup Hin. done.
  - destruct (bool_decide _) in Hin; in_startup Hin. done.
Qed.

(** ** Properties *)

(** The actor's name is never the one of the snapshot it was hydrated from: at
    every (re)connection the sidecar introduces itself by the name that is in
    the identity file at that moment, whatever blanks surround it and whatever
    the file said when the process started; the broker files the tunnel under
    that name, and the reference it resumes by is the one the sidecar suspends
    by. *)
Theorem hydrated_actor_speaks_for_itself {C} `{FrameWriterLaws C} (fl : sidecar_flags) (fs : string -> option string)
    (name : string) (before after : list string) (cl : Client C) (tc : nat) (c : C) (now : Z) (b : Broker C)
    (Hflag : actorName fl = "")
    (Hfile : fs (actorIDFile fl) = Some (concat_str before +:+ name +:+ concat_str after))
    (Hblank : Forall (fun t => t ∈ spaces) (before ++ after))
    (Hname : visible name = true /\ name <> "") (Hspace : has "/" (atespace fl) = false)
    (Hlen : str_len (ref_String (MkRef (atespace fl) name)) <= maxString)
    (Hc : fw_healthy c /\ fw_sent c = [])
    (Hsess : map_Forall (fun _ s => announceable s) (cl_sessions cl)) :
  exists c' rest f, cl_net (fst (connect (ref_String (identity fl fs)) tc c now cl)) !! tc = Some c' /\
    fw_sent c' = f :: rest /\
    exists t, bk_tunnels (fst (hello tc f b)) !! tc = Some t /\
      parseRef (t_actor t) = identity fl fs /\ identity fl fs = MkRef (atespace fl) name.
Proof.
  apply Forall_app in Hblank as [Hb Ha]. destruct Hname as [Hv Hne]. destruct Hc as (Hc1 & Hc2).
  pose proof (identity_from_file fl fs before name after Hflag Hfile Hb Ha Hv Hne) as E. rewrite E.
  pose proof (connect_writes cl (ref_String (MkRef (atespace fl) name)) tc c now Hlen Hc1 Hc2 Hsess) as W.
  destruct (connect _ tc c now cl) as [cl' ok]. destruct W as (_ & _ & _ & c' & Hn & Hs).
  eexists c', _, _. split; [exact Hn|]. split; [exact Hs|].
  exists (MkTunnelConn (ref_String (MkRef (atespace fl) name)) ∅).
  split; [|split; [by apply (parse_printed (MkRef _ _))|done]].
  unfold hello. cbn [fType fActorID HelloF]. rewrite bool_decide_eq_false_2.
  - simpl. apply lookup_insert_eq.
  - unfold ref_String. simpl. by destruct (atespace fl).
Qed.

(** The debug endpoints act on the actor the path names and on nothing else: a
    POST to the printed reference of an actor makes exactly the call for that
    actor and reports its outcome; and if a request changes the platform at
    all, it was a POST to [/debug/suspend/] or [/debug/resume/] followed by a
    printed reference, and the change is that of the one call for it. *)
Theorem debug_endpoints_act_on_named_actor {C P} `{Lifecycle P} (encode : list SessionInfo -> list byte)
    (b : Broker C) (p : P) :
  let report (x : P * option string) :=
    (fst x, Answer (match snd x with Some e => http_error e 502 | None => MkResponse 204 "" [] end)) in
  (forall r, plain_elem (ref_Atespace r) -> plain_elem (ref_Name r) ->
     serveDebug encode b "POST" ("/debug/suspend/" +:+ ref_String r) p = report (lc_suspend r p) /\
     serveDebug encode b "POST" ("/debug/resume/" +:+ ref_String r) p = report (lc_resume r p)) /\
  (forall method path, fst (serveDebug encode b method path p) <> p ->
     method = "POST" /\ exists r, ref_Atespace r <> "" /\ ref_Name r <> "" /\
       (path = "/debug/suspend/" +:+ ref_String r /\ fst (serveDebug encode b method path p) = fst (lc_suspend r p) \/
        path = "/debug/resume/" +:+ ref_String r /\ fst (serveDebug encode b method path p) = fst (lc_resume r p))).
Proof.
  intros report. split.
  - intros r Ha Hn. assert (has "/" (ref_Atespace r) = false /\ ref_Atespace r <> "" /\ ref_Name r <> "") as (H1 & H2 & H3).
    { split_and!; apply Ha || apply Hn. }
    split; unfold serveDebug.
    + change ("/debug/suspend/" +:+ ref_String r) with (("/debug/" +:+ "suspend" +:+ "/") +:+ ref_String r).
      rewrite (debug_route "suspend" r (or_introl eq_refl) Ha Hn). unfold answer.
      by rewrite (lifecycle_named "suspend" lc_suspend r p H1 H2 H3).
    + change ("/debug/resume/" +:+ ref_String r) with (("/debug/" +:+ "resume" +:+ "/") +:+ ref_String r).
      rewrite (debug_route "resume" r (or_intror eq_refl) Ha Hn). unfold answer.
      by rewrite (lifecycle_named "resume" lc_resume r p H1 H2 H3).
  - intros method path. unfold serveDebug. destruct (ServeMux _ path) as [pat|to|] eqn:Em; [|done|done].
    apply mux_matched in Em as [Hin Hm]. unfold debug_patterns in Hin.
    rewrite !elem_of_cons, elem_of_nil in Hin. destruct_or! Hin; subst pat; try done; intros Hc.
    + destruct (lifecycle_routed "suspend" lc_suspend method path p Hm Hc) as (-> & r & ? & ? & -> & ?). eauto 10.
    + destruct (lifecycle_routed "resume" lc_resume method path p Hm Hc) as (-> & r & ? & ? & -> & ?). eauto 10.
Qed.

(** C21. An actor at work is left alone: as long as the sidecar's ingress has a
    request in flight and the agent has no tool call in flight (nor a model
    call, when model calls count), no poll suspends it, whether or not the
    status could be fetched. *)
Theorem working_actor_is_left_alone (s : Suspender) (ks : list tick_in)
    (Hwork : Forall (fun i =>
       (exists ing, 0 < in_inFlight ing /\ ti_idle i = IdleDuration (ti_now i) ing) /\
       (ti_status i = None \/ exists tr, ti_status i = Some (Snapshot (ti_now i) tr) /\ h_calls (tk_tool tr) <= 0 /\
          (IncludeModelCalls (sp_cfg s) = true -> h_calls (tk_model tr) <= 0))) ks) :
  Run ks s = [].
Proof.
  destruct (Run ks s) as [|[r i] l] eqn:E; [done|exfalso].
  assert ((r, i) ∈ Run ks s) as Hin by (rewrite E; apply list_elem_of_here).
  pose proof (run_inputs ks s r i Hin) as Hi.
  pose proof (run_justified ks s r i Hin) as J.
  rewrite Forall_forall in Hwork. destruct (Hwork i Hi) as [(ing & Hf & Hidle) Hst].
  destruct r.
  - destruct J as (st & Est & Hn & _). destruct Hst as [?|(tr & Etr & Ht & _)]; [congruence|].
    rewrite Etr in Est. injection Est as <-. simpl in Hn. lia.
  - destruct J as (st & Est & Hm & Hn & _). destruct Hst as [?|(tr & Etr & _ & Ht)]; [congruence|].
    rewrite Etr in Est. injection Est as <-. simpl in Hn. specialize (Ht Hm). lia.
  - destruct J as (_ & Hd & _). rewrite Hidle in Hd. unfold IdleDuration in Hd.
    rewrite Z.gtb_ltb, (proj2 (Z.ltb_lt _ _) Hf) in Hd. lia.
Qed.

(** Out of the box the sidecar suspends only for blocked tool calls: with
    [IDLE_AFTER] and [INCLUDE_MODEL_CALLS] unset and no flags given, every
    suspend of the poller that [main] starts comes from a poll that saw a tool
    call in flight, blocked for at least the configured time. *)
Theorem default_suspends_only_blocked_tools (o : os sidecar_flags) (lc : api_client) (url : string)
    (cfg : SuspenderConfig) (now : Z) (ks : list tick_in) (r : reason) (i : tick_in)
    (Hflags : forall fl, os_parse o fl = inr fl)
    (Hidle : os_env o "IDLE_AFTER" = "") (Hmodel : os_env o "INCLUDE_MODEL_CALLS" = "")
    (Hmain : GoSuspender lc url cfg ∈ fst (sidecar_main o)) (Hrun : (r, i) ∈ Run ks (NewSuspender cfg now)) :
  r = reasonToolBlocked /\ exists st, ti_status i = Some st /\ 0 < ToolCallsInFlight st /\
    Milliseconds (BlockedAfter (suspender_defaults cfg)) <= ToolBlockedMillis st.
Proof.
  apply sidecar_suspender in Hmain as (fl & Hp & -> & _). rewrite Hflags in Hp. injection Hp as <-.
  pose proof (run_justified _ _ _ _ Hrun) as J. cbn [sp_cfg NewSuspender suspender_defaults suspender_config
    IncludeModelCalls IdleAfter HasIngressIdle] in J. destruct r.
  - split; [done|]. exact J.
  - destruct J as (st & _ & Hm & _). cbn [includeModel sidecar_defaults] in Hm. unfold envBool in Hm.
    by rewrite Hmodel, bool_decide_eq_false_2 in Hm by (by intros []).
  - destruct J as (_ & Hd & _). cbn [idleAfter sidecar_defaults] in Hd. unfold envDur in Hd.
    rewrite Hidle, bool_decide_eq_false_2 in Hd by (by intros []). lia.
Qed.

(** Settings read back as they are written: an [int] in decimal, a duration as a
    whole number of milliseconds, a boolean by name; and a variable that is
    unset or does not parse leaves the default. *)
Theorem settings_roundtrip (env : string -> string) (key : string) (d n : Z) (db v : bool) :
  (- 2 ^ 63 <= n < 2 ^ 63 -> env key = Itoa n -> envInt env key d = n) /\
  (0 <= n -> n * Millisecond < 2 ^ 63 -> env key = Itoa n +:+ "ms" -> envDur env key d = n * Millisecond) /\
  (env key = (if v then "true" else "false") -> envBool env key db = v) /\
  (env key = "" \/ snd (Atoi (env key)) <> None -> envInt env key d = d) /\
  (env key = "" \/ ParseDuration (env key) = None -> envDur env key d = d) /\
  (env key = "" \/ ParseBool (env key) = None -> envBool env key db = db).
Proof.
  unfold envInt, envDur, envBool. split_and!.
  - intros Hn ->. rewrite (Atoi_Itoa n Hn). by rewrite bool_decide_eq_true_2 by apply Itoa_nonempty.
  - intros H0 Hn ->. rewrite (ParseDuration_unit n "ms" Millisecond); try done.
    + rewrite bool_decide_eq_true_2; [done|]. pose proof (Itoa_nonempty n). by destruct (Itoa n).
    + intros c. cbn [has]. intros [<-%Ascii.eqb_eq|[<-%Ascii.eqb_eq|Hc]%orb_true_iff]%orb_true_iff; [reflexivity..|done].
  - intros ->. by destruct v.
  - intros [E|E]; [by rewrite E|]. destruct (bool_decide _); [|done]. by destruct (Atoi (env key)) as [? [?|]].
  - intros [E|E]; rewrite E; [done|]. by destruct (bool_decide _).
  - intros [E|E]; rewrite E; [done|]. by destruct (bool_decide _).
Qed.

(** A negative replay-buffer size passes every check: [SESSION_BUFFER_BYTES=-1]
    (or any negative number) becomes the capacity of every session of the
    client, the defaulting replaces only zero, and a fresh session's buffer
    reports negative free space, which [writeUp] slices by. *)
Theorem negative_buffer_is_accepted (o : os sidecar_flags) (n : Z) (addr : string) (cfg : ClientConfig)
    (Hflags : forall fl, os_parse o fl = inr fl) (Hn : - 2 ^ 63 <= n < 0)
    (Henv : os_env o "SESSION_BUFFER_BYTES" = Itoa n) (Hmain : GoClient addr cfg ∈ fst (sidecar_main o)) :
  cc_SessionBuffer (client_defaults cfg) = n /\ Free (NewReplayBuffer (cc_SessionBuffer (client_defaults cfg))) < 0.
Proof.
  apply sidecar_client in Hmain as (fl & Hp & -> & _). rewrite Hflags in Hp. injection Hp as <-.
  assert (cc_SessionBuffer (client_defaults (client_config (sidecar_defaults (os_env o)))) = n) as E.
  { cbn [client_defaults client_config cc_SessionBuffer sidecar_defaults sessionBuf]. unfold envInt. rewrite Henv.
    rewrite bool_decide_eq_true_2 by apply Itoa_nonempty. rewrite Atoi_Itoa by lia.
    by rewrite (proj2 (Z.eqb_neq n 0)) by lia. }
  rewrite E. split; [done|]. unfold Free, NewReplayBuffer. cbn [rb_max rb_buf]. rewrite len_nil. lia.
Qed.

(** ** Witnesses *)

Module Demo.
Definition env (k : string) : string :=
  if decide (k = "BROKER_ADDR") then "broker:9000"
  else if decide (k = "ATE_ATESPACE") then "demo"
  else if decide (k = "SESSION_BUFFER_BYTES") then "-1" else "".
Definition fs (name : string) (path : string) : option string :=
  if decide (path = "/run/ate/actor-id") then Some (name +:+ String newline "") else None.
Definition sys : os sidecar_flags := MkOs env (fs "golden") inr (fun _ => None) (fun _ => None) None.
Definition flags : sidecar_flags := sidecar_defaults env.
Definition blocked : tick_in := MkTickIn (2 * Second) (2 * Second) (Some (MkStatus 1 1 1 0 0 1500 0 0)) 0 (2 * Second).
Definition quiet : tick_in :=
  MkTickIn Second Second (Some (Snapshot Second (Activity.New 0))) (IdleDuration Second (MkIngress "" 1 None)) Second.
End Demo.

Lemma hydrated_actor_speaks_for_itself_witness :
  exists c' rest f, cl_net (fst (connect "demo/calc-7" 0 (NewConn new_sock) 7 demo_client)) !! 0%nat = Some c' /\
    fw_sent c' = f :: rest /\
    exists t, bk_tunnels (fst (hello 0 f (Broker.New (MkConfig 0 0 0 0 None) : Broker Conn))) !! 0%nat = Some t /\
      parseRef (t_actor t) = MkRef "demo" "calc-7" /\ identity Demo.flags (Demo.fs "calc-7") = MkRef "demo" "calc-7".
Proof.
  refine (hydrated_actor_speaks_for_itself Demo.flags (Demo.fs "calc-7") "calc-7" [] [String newline ""]
    demo_client 0 (NewConn new_sock) 7 (Broker.New (MkConfig 0 0 0 0 None)) _ _ _ _ _ _ _ _).
  - reflexivity.
  - reflexivity.
  - apply Forall_singleton. vm_compute. apply list_elem_of_further, list_elem_of_here.
  - split; [reflexivity|discriminate].
  - reflexivity.
  - by vm_compute.
  - split; [exact (proj1 (proj2 (fw_new_ok (C := Conn))))|reflexivity].
  - apply map_Forall_singleton. by repeat split.
Defined.

Lemma working_actor_is_left_alone_witness :
  Run [Demo.quiet; Demo.quiet] (NewSuspender (suspender_config Demo.flags) 0) = [].
Proof.
  apply working_actor_is_left_alone. apply (Forall_replicate _ 2). split.
  - exists (MkIngress "" 1 None). split; [simpl; lia|reflexivity].
  - right. exists (Activity.New 0). split; [reflexivity|]. split; [simpl; lia|discriminate].
Defined.

Lemma default_suspends_only_blocked_tools_witness :
  exists st, ti_status Demo.blocked = Some st /\ 0 < ToolCallsInFlight st /\ 1000 <= ToolBlockedMillis st.
Proof.
  refine (proj2 (default_suspends_only_blocked_tools Demo.sys
    (MkApiClient "api.ate-system.svc:443" (TLSCredentials true)) "http://127.0.0.1:9902/statusz"
    (suspender_config Demo.flags) 0 [Demo.blocked] reasonToolBlocked Demo.blocked _ _ _ _ _)).
  - reflexivity.
  - reflexivity.
  - reflexivity.
  - vm_compute. apply list_elem_of_further, list_elem_of_here.
  - vm_compute. apply list_elem_of_here.
Defined.

Lemma negative_buffer_is_accepted_witness :
  cc_SessionBuffer (client_defaults (client_config Demo.flags)) = -1 /\
  Free (NewReplayBuffer (cc_SessionBuffer (client_defaults (client_config Demo.flags)))) < 0.
Proof.
  refine (negative_buffer_is_accepted Demo.sys (-1) "broker:9000" (client_config Demo.flags) _ _ _ _).
  - reflexivity.
  - lia.
  - reflexivity.
  - vm_compute. apply list_elem_of_here.
Defined.
