(* ===== verification/AgentServer.v ===== *)
(** * AgentServer: the agent's HTTP front end

    Models [demos/adk-calc/internal/agentsrv/server.go] (the [/run] handler),
    [internal/agent/agent.go] (the checks of [Build]) and
    [agent-server/main.go] (start-up, [/readyz]).  The agent framework is not in
    the repository: a run is the list of items its iterator yields, and its
    constructors are arguments that may fail.  JSON is the interface [Json]: an
    encoder and a decoder per type, with the law that decoding undoes encoding
    on the values the type can carry. *)
From Stdlib Require Import Ascii.
From S2P Require Import Prelude GoStd Ingress Commands.

(** ** JSON *)

Class Json (A : Type) : Type := {
  json_encode : A -> list byte;
  json_decode : list byte -> res string A;
}.

(** [json_ok] holds of the values whose strings are valid UTF-8. *)
Class JsonLaws (A : Type) `{Json A} : Type := {
  json_ok : A -> Prop;
  json_roundtrip a : json_ok a -> json_decode (json_encode a) = Ok a;
}.

Record runReq : Type := MkRunReq { rr_SessionID : string; rr_Input : string }.
Record runResp : Type := MkRunResp { rs_Result : string; rs_Error : string }.

(** ** The run handler *)

(** An event of the runner: whether it is a final response, and the texts of its
    parts when it has content. *)
Record run_event : Type := MkRunEvent { ev_final : bool; ev_content : option (list string) }.

(** What the runner's iterator yields: an error, or an event (possibly nil). *)
Abbreviation run_item := (res string (option run_event)).

Fixpoint last_text (final : string) (parts : list string) : string :=
  match parts with
  | [] => final
  | t :: parts => last_text (if bool_decide (t = "") then final else t) parts
  end.

(** The loop of [HandleRun]: [final] and [errMsg] when it ends. *)
Fixpoint run_loop (final : string) (items : list run_item) : string * string :=
  match items with
  | [] => (final, "")
  | Err e :: _ => (final, e)
  | Ok (Some (MkRunEvent true (Some parts))) :: items => run_loop (last_text final parts) items
  | Ok _ :: items => run_loop final items
  end.

Section server.
Context `{Json runReq} `{Json runResp}.

Definition writeJSON (status : Z) (body : runResp) : response :=
  MkResponse status "application/json" (json_encode body).

(** [runner] is [s.runner.Run] for a session and an input. *)
Definition agent_HandleRun (runner : string -> string -> list run_item) (body : list byte) : response :=
  match json_decode body with
  | Err e => writeJSON 400 (MkRunResp "" ("invalid JSON: " +:+ e))
  | Ok req =>
      if bool_decide (rr_SessionID req = "") || bool_decide (rr_Input req = "")
      then writeJSON 400 (MkRunResp "" "sessionId and input are required")
      else
        let '(final, errMsg) := run_loop "" (runner (rr_SessionID req) (rr_Input req)) in
        if bool_decide (errMsg <> "") then writeJSON 500 (MkRunResp "" errMsg)
        else writeJSON 200 (MkRunResp final "")
  end.
End server.

(** ** Building the agent *)

(** What [Build] configures: the model's key and the tool server's address. *)
Record agent : Type := MkAgent { ag_apiKey : string; ag_model : string; ag_mcpURL : string }.

(** The framework's constructors: an error text, or success. *)
Record framework : Type := MkFramework {
  fw_newModel : string -> string -> option string;   (* gemini.NewModel: model, key *)
  fw_newToolset : string -> option string;           (* mcptoolset.New: endpoint *)
  fw_newAgent : option string;                       (* llmagent.New *)
  fw_newPlugin : option string;                      (* plugin.New, inside activityz.New *)
  fw_newRunner : option string;                      (* runner.New *)
}.

Definition Build (fw : framework) (env : string -> string) : res string agent :=
  let apiKey := env "GOOGLE_API_KEY" in
  if bool_decide (apiKey = "") then Err "GOOGLE_API_KEY env var is required"
  else
    let mcpURL := env "CALC_MCP_URL" in
    if bool_decide (mcpURL = "") then Err "CALC_MCP_URL env var is required"
    else match fw_newModel fw "gemini-flash-latest" apiKey with
    | Some e => Err ("gemini.NewModel: " +:+ e)
    | None =>
        match fw_newToolset fw mcpURL with
        | Some e => Err ("mcptoolset.New: " +:+ e)
        | None =>
            match fw_newAgent fw with
            | Some e => Err e
            | None => Ok (MkAgent apiKey "gemini-flash-latest" mcpURL)
            end
        end
    end.

(** [agentsrv.New]. *)
Definition NewServer (fw : framework) (a : agent) : res string agent :=
  match fw_newPlugin fw with
  | Some e => Err ("activityz.New: " +:+ e)
  | None =>
      match fw_newRunner fw with
      | Some e => Err ("runner.New: " +:+ e)
      | None => Ok a
      end
  end.

(** ** The server's [main] *)

Inductive agent_act : Type :=
| GoStatusServer (listen : string)
| ServeAgent (listen : string).

(** [log.Fatal] exits with 1; both listeners run until they fail. *)
Definition agent_server_main (fw : framework) (env : string -> string) : startup agent_act :=
  match (let? a := Build fw env in NewServer fw a) with
  | Err _ => exit_if true 1
  | Ok _ =>
       start (GoStatusServer (envOr env "STATUS_LISTEN" "127.0.0.1:9902")) ;;
       start (ServeAgent (envOr env "LISTEN_ADDR" ":8080")) ;;
       exit_if true 1
  end.

(** [/readyz]. *)
Definition readyz (ready : bool) : response :=
  if negb ready then http_error "not ready" 503 else ok_page.

(** ** Lemmas *)

(** The answer as a function of the whole run: the texts of the final events
    before the first error, the last non-empty one of them. *)
Fixpoint first_error (items : list run_item) : option string :=
  match items with
  | [] => None
  | Err e :: _ => Some e
  | Ok _ :: items => first_error items
  end.

Definition item_texts (i : run_item) : list string :=
  match i with Ok (Some (MkRunEvent true (Some parts))) => parts | _ => [] end.

Fixpoint until_error (items : list run_item) : list run_item :=
  match items with
  | Ok x :: items => Ok x :: until_error items
  | _ => []
  end.

Definition final_texts (items : list run_item) : list string :=
  filter (fun t => t <> "") (mjoin (item_texts <$> until_error items)).

Lemma last_text_spec final parts :
  last_text final parts = default final (last (filter (fun t => t <> "") parts)).
Proof.
  revert final. induction parts as [|t parts IH]; intros final; [done|]. cbn [last_text]. rewrite IH.
  destruct (decide (t = "")) as [->|Ht].
  - rewrite bool_decide_eq_true_2 by done. rewrite filter_cons_False by (intros Hn; by apply Hn). done.
  - rewrite bool_decide_eq_false_2 by done. rewrite filter_cons_True by done.
    destruct (filter _ parts) as [|x l] eqn:E; [done|]. rewrite last_cons_cons.
    by destruct (last (x :: l)) eqn:El; [|apply last_None in El].
Qed.

Lemma last_text_app final k l : last_text final (k ++ l) = last_text (last_text final k) l.
Proof. revert final. induction k as [|t k IH]; intros final; [done|]. apply IH. Qed.

Lemma run_loop_spec final items :
  run_loop final items =
  (last_text final (mjoin (item_texts <$> until_error items)), default "" (first_error items)).
Proof.
  revert final. induction items as [|i items IH]; intros final; [done|].
  destruct i as [[[f c]|]|e]; [|exact (IH final)|done].
  destruct f, c as [parts|]; cbn [run_loop]; try exact (IH final).
  rewrite IH. cbn [until_error first_error fmap list_fmap mjoin list_join item_texts]. by rewrite last_text_app.
Qed.

Lemma agent_answer `{Json runReq} `{Json runResp} (runner : string -> string -> list run_item)
    (body : list byte) (req : runReq) (Hd : json_decode body = Ok req)
    (items := runner (rr_SessionID req) (rr_Input req)) :
  agent_HandleRun runner body =
  if decide (rr_SessionID req = "" \/ rr_Input req = "")
  then writeJSON 400 (MkRunResp "" "sessionId and input are required")
  else match first_error items with
       | Some (String c e) => writeJSON 500 (MkRunResp "" (String c e))
       | _ => writeJSON 200 (MkRunResp (default "" (last (final_texts items))) "")
       end.
Proof.
  unfold agent_HandleRun. rewrite Hd. destruct (decide _) as [Hb|Hb].
  - destruct (bool_decide (rr_SessionID req = "")) eqn:E1; [done|].
    destruct (bool_decide (rr_Input req = "")) eqn:E2; [done|].
    apply bool_decide_eq_false in E1, E2. by destruct Hb.
  - rewrite !bool_decide_eq_false_2 by (intros E; apply Hb; auto). cbn [orb]. fold items.
    rewrite run_loop_spec, last_text_spec. unfold final_texts.
    destruct (first_error items) as [[|c e]|]; cbn [default]; [|by rewrite bool_decide_eq_true_2|];
      by rewrite bool_decide_eq_false_2 by (intros Hn; by apply Hn).
Qed.

(** ** Properties *)

(** The agent's answer is determined by the run: if the iterator yields an error
    (with a text), the answer is 500 with the text of the first error, whatever
    was produced before; otherwise it is 200 with the last non-empty text of the
    final events.  Only a request without a session or an input, or one that
    does not decode, is refused, before anything runs. *)
Theorem run_answer_exact `{Json runReq} `{Json runResp} (runner : string -> string -> list run_item)
    (body : list byte) (req : runReq) (Hd : json_decode body = Ok req)
    (items := runner (rr_SessionID req) (rr_Input req)) :
  agent_HandleRun runner body =
  if decide (rr_SessionID req = "" \/ rr_Input req = "")
  then writeJSON 400 (MkRunResp "" "sessionId and input are required")
  else match first_error items with
       | Some (String c e) => writeJSON 500 (MkRunResp "" (String c e))
       | _ => writeJSON 200 (MkRunResp (default "" (last (final_texts items))) "")
       end.
Proof. by apply agent_answer. Qed.

(** ** Witnesses *)

Definition string_of (b : list byte) : string := String.string_of_list_byte b.

(** A codec for the two records: the fields separated by a newline. *)
Module Lines.
Definition pair_encode (x y : string) : list byte := bytes_of (x +:+ String newline y).
Definition pair_decode (b : list byte) : res string (string * string) :=
  match cut_at newline (string_of b) with Some p => Ok p | None => Err "no newline" end.

Lemma pair_roundtrip x y : has newline x = false -> pair_decode (pair_encode x y) = Ok (x, y).
Proof.
  intros Hx. unfold pair_decode, pair_encode, string_of, bytes_of.
  by rewrite String.string_of_list_byte_of_string, cut_at_app.
Qed.

#[export] Instance req_json : Json runReq := {|
  json_encode r := pair_encode (rr_SessionID r) (rr_Input r);
  json_decode b := let? p := pair_decode b in Ok (MkRunReq (fst p) (snd p));
|}.
#[export] Instance resp_json : Json runResp := {|
  json_encode r := pair_encode (rs_Result r) (rs_Error r);
  json_decode b := let? p := pair_decode b in Ok (MkRunResp (fst p) (snd p));
|}.
#[export] Instance req_laws : JsonLaws runReq.
Proof.
  refine {| json_ok r := has newline (rr_SessionID r) = false |}.
  intros [x y] Hx. simpl. by rewrite pair_roundtrip.
Defined.
#[export] Instance resp_laws : JsonLaws runResp.
Proof.
  refine {| json_ok r := has newline (rs_Result r) = false |}.
  intros [x y] Hx. simpl. by rewrite pair_roundtrip.
Defined.
End Lines.

Module AgentDemo.
Definition runner (sid input : string) : list run_item :=
  [Ok None; Ok (Some (MkRunEvent false (Some ["thinking"]))); Ok (Some (MkRunEvent true (Some ["the answer is"; "7"; ""])))].
End AgentDemo.

Import Lines.

Lemma run_answer_exact_witness :
  agent_HandleRun AgentDemo.runner (Lines.pair_encode "u1" "2+5=")
  = writeJSON 200 (MkRunResp "7" "").
Proof.
  exact (run_answer_exact AgentDemo.runner
    (Lines.pair_encode "u1" "2+5=") (MkRunReq "u1" "2+5=") eq_refl).
Defined.
