(* ===== verification/DemoClient.v ===== *)
(** * DemoClient: the demo's driver, its tool server and the ingress command

    Models [demos/adk-calc/client/main.go] (the actor's life cycle around the
    read-eval-print loop, [callAgent]), [mcp-server/main.go] (the calculator, on
    binary64 numbers) and [ingress-broker/main.go] (the reply address).  What
    the [select] of the loop picks next is a list of events; HTTP and the
    platform are a state [W] with the control API of [Ateapi] and a [post]
    function.  The last part follows a line from the user's terminal through
    the ingress-broker, the sidecar and the agent, and back. *)
From Stdlib Require Import Ascii SpecFloat.
From S2P Require Import Prelude GoStd Resumer Ateapi Ingress IngressBroker Commands AgentServer.

#[local] Arguments String.append !_ _ /.

(** ** The client *)

Record client_flags : Type := MkClientFlags {
  cf_ateapi : string;
  cf_insecure : bool;
  cf_ingress : string;
  cf_atespace : string;
  cf_templateNS : string;
  cf_templateName : string;
  cf_deleteOnExit : bool;
}.

Definition client_flag_defaults : client_flags :=
  MkClientFlags "localhost:8080" false "localhost:8000" "demo" "ate-demo-adk-calc" "adk-calc" false.

(** The case the [select] takes: a line, a read error, the end of the input, or
    the interrupt. *)
Inductive stdin_event : Type :=
| EvLine (text : string)
| EvScanError (e : string)
| EvEOF
| EvInterrupt.

Definition ln : string := String newline "".

Section client.
Context {W : Type} `{ControlClient W} `{Json runReq} `{Json runResp}.
Context (post : string -> list byte -> W -> W * res string response).
Implicit Types w : W.

(** [callAgent]; [post] covers building the request and sending it. *)
Definition callAgent (ingressAddr sessionID input : string) w : W * res string runResp :=
  let body := json_encode (MkRunReq sessionID input) in
  match post ("http://" +:+ ingressAddr +:+ "/run") body w with
  | (w, Err e) => (w, Err e)
  | (w, Ok resp) =>
      (w, if negb (rs_status resp =? 200)
          then Err ("status " +:+ Itoa (rs_status resp) +:+ ": " +:+ string_of (rs_body resp))
          else json_decode (rs_body resp))
  end.

(** What the loop prints for the outcome of a call. *)
Definition show_result (r : res string runResp) : string :=
  match r with
  | Err e => "Error: " +:+ e +:+ ln
  | Ok resp => if bool_decide (rs_Error resp <> "") then "Agent error: " +:+ rs_Error resp +:+ ln
               else "Result: " +:+ rs_Result resp +:+ ln
  end.

(** The loop: the state, what it printed, and whether it returned. *)
Fixpoint repl (addr sid : string) (evs : list stdin_event) w : W * list string * bool :=
  match evs with
  | [] => (w, ["calc> "], false)
  | ev :: evs =>
      let next w out := let '(w', o, d) := repl addr sid evs w in (w', "calc> " :: out ++ o, d) in
      match ev with
      | EvInterrupt | EvScanError _ | EvEOF => (w, ["calc> "], true)
      | EvLine text =>
          let line := TrimSpace text in
          if bool_decide (line = "") then next w []
          else if bool_decide (line = "exit") then (w, ["calc> "], true)
          else let '(w, r) := callAgent addr sid line w in next w [show_result r]
      end
  end.

(** The deferred clean-up; errors are only logged. *)
Definition cleanup (fl : client_flags) (actor : Ref) w : W :=
  let w := fst (SuspendActor actor w) in
  if cf_deleteOnExit fl then fst (DeleteActor actor w) else w.

Record client_run : Type := MkClientRun { cr_world : W; cr_out : list string; cr_exit : option Z }.

(** [main]: [sessionID] is the fresh uuid; [log.Fatalf] exits without running
    the deferred calls. *)
Definition client_main (fl : client_flags) (newClient : string -> option string) (sessionID : string)
    (evs : list stdin_event) w : client_run :=
  let actor := MkRef (cf_atespace fl) sessionID in
  match Dial newClient (MkApiConfig (cf_ateapi fl) (cf_insecure fl)) with
  | Err _ => MkClientRun w [] (Some 1)
  | Ok _ =>
      match CreateActor actor (cf_templateNS fl) (cf_templateName fl) w with
      | (w, Some _) => MkClientRun w [] (Some 1)
      | (w, None) =>
          let '(w, out, done) := repl (cf_ingress fl) sessionID evs w in
          let out := ["Session: " +:+ sessionID +:+ ln;
            "Type an arithmetic expression (e.g. 'calculate 2+5='). Type 'exit' to leave." +:+ ln] ++ out in
          if done : bool then MkClientRun (cleanup fl actor w) out (Some 0) else MkClientRun w out None
      end
  end.
End client.
Arguments MkClientRun {W} _ _ _.
Arguments cr_world {W} _.
Arguments cr_out {W} _.
Arguments cr_exit {W} _.

(** ** The calculator *)

Record calcArgs : Type := MkCalcArgs { ca_A : f64; ca_B : f64; ca_Op : string }.
Record calcResult : Type := MkCalcResult { cr_Value : f64; cr_Error : string }.

Definition f64_zero : f64 := S754_zero false.

(** [calculate]; [quote] is the [%q] verb. *)
Definition calculate (quote : string -> string) (x : calcArgs) : calcResult :=
  let value v := MkCalcResult v "" in
  let error e := MkCalcResult f64_zero e in
  if decide (ca_Op x = "+") then value (f64_add (ca_A x) (ca_B x))
  else if decide (ca_Op x = "-") then value (f64_sub (ca_A x) (ca_B x))
  else if decide (ca_Op x = "*") then value (f64_mul (ca_A x) (ca_B x))
  else if decide (ca_Op x = "/") then
    if f64_eqb (ca_B x) f64_zero then error "division by zero"
    else value (f64_div (ca_A x) (ca_B x))
  else error ("unsupported operator " +:+ quote (ca_Op x)).

(** The members of the JSON object: both fields are [omitempty]. *)
Inductive calc_field : Type := FieldValue (v : f64) | FieldError (e : string).
Definition calc_fields (r : calcResult) : list calc_field :=
  (if f64_eqb (cr_Value r) f64_zero then [] else [FieldValue (cr_Value r)]) ++
  (if bool_decide (cr_Error r = "") then [] else [FieldError (cr_Error r)]).

(** The tool server's routes; [mcp] is the protocol's handler. *)
Definition mcp_serve (mcp : string -> response) (path : string) : debug_answer :=
  match ServeMux ["/mcp"; "/mcp/"; "/readyz"] path with
  | Redirect to => RedirectTo to
  | NotFound => Answer (http_error "404 page not found" 404)
  | Matched pat => Answer (if decide (pat = "/readyz") then ok_page else mcp path)
  end.

(** ** The ingress-broker command *)

Inductive ingress_act : Type :=
| GoReply (listen : string) (cfg : IngressConfig)
| ServeClients (listen : string).

(** The addresses come from flags whose defaults are read from the environment;
    [parse] is the flag package. *)
Record ingress_flags : Type := MkIngressFlags {
  if_clientListen : string; if_replyListen : string; if_atenet : string; if_atespace : string }.

Definition ingress_defaults (env : string -> string) : ingress_flags :=
  MkIngressFlags (envOr env "CLIENT_LISTEN" ":80") (envOr env "REPLY_LISTEN" ":9090")
    (envOr env "ATENET_ADDR" "atenet-router.ate-system.svc:80") (envOr env "ATE_ATESPACE" "demo").

(** [replyAddr]: configured, or made of the pod's address. *)
Definition reply_addr (env : string -> string) : option string :=
  let podIP := envOr env "POD_IP" "" in
  let replyPort := envOr env "REPLY_PORT" "9090" in
  let addr := envOr env "REPLY_ADDR" "" in
  if bool_decide (addr = "") then
    if bool_decide (podIP = "") then None else Some (podIP +:+ ":" +:+ replyPort)
  else Some addr.

Definition ingress_broker_main (parse : ingress_flags -> Z + ingress_flags) (env : string -> string)
    : startup ingress_act :=
  match parse (ingress_defaults env) with
  | inl code => exit_if true code
  | inr fl =>
      match reply_addr env with
      | None => exit_if true 1
      | Some addr =>
          start (GoReply (if_replyListen fl) (MkIngressConfig (if_atenet fl) (if_atespace fl) addr 0)) ;;
          start (ServeClients (if_clientListen fl)) ;;
          exit_if true 1
      end
  end.

(** ** Lemmas *)

(** The lines a script asks, and whether it ends the loop. *)
Fixpoint asked (evs : list stdin_event) : list string :=
  match evs with
  | EvLine text :: evs =>
      let line := TrimSpace text in
      if bool_decide (line = "") then asked evs
      else if bool_decide (line = "exit") then [] else line :: asked evs
  | _ => []
  end.

Fixpoint ends (evs : list stdin_event) : bool :=
  match evs with
  | [] => false
  | EvLine text :: evs => bool_decide (TrimSpace text = "exit") || ends evs
  | _ :: _ => true
  end.

Section client_lemmas.
Context {W : Type} `{ControlClient W} `{Json runReq} `{Json runResp}.
Context (post : string -> list byte -> W -> W * res string response).

(** Asking the lines one after the other: the state and the outcomes. *)
Fixpoint ask_all (addr sid : string) (ls : list string) (w : W) : W * list (res string runResp) :=
  match ls with
  | [] => (w, [])
  | l :: ls =>
      let '(w, r) := callAgent post addr sid l w in
      let '(w, rs) := ask_all addr sid ls w in (w, r :: rs)
  end.

Lemma repl_asks addr sid evs w :
  let '(w', out, d) := repl post addr sid evs w in
  d = ends evs /\ w' = fst (ask_all addr sid (asked evs) w) /\
  filter (fun s => s <> "calc> ") out = show_result <$> snd (ask_all addr sid (asked evs) w).
Proof.
  revert w. induction evs as [|[text|e| |] evs IH]; intros w; cbn [repl ends asked ask_all fst snd]; try done.
  destruct (decide (TrimSpace text = "")) as [Ee|Ee].
  { rewrite (bool_decide_eq_true_2 (_ = "")) by done. rewrite Ee. specialize (IH w).
    destruct (repl post addr sid evs w) as [[w' o] d]. destruct IH as (-> & -> & IH). split_and!; [done|done|].
    cbn [app]. rewrite filter_cons_False by (intros Hn; by apply Hn). done. }
  rewrite (bool_decide_eq_false_2 (_ = "")) by done.
  destruct (decide (TrimSpace text = "exit")) as [Ex|Ex].
  { rewrite (bool_decide_eq_true_2 (_ = "exit")) by done. done. }
  rewrite (bool_decide_eq_false_2 (_ = "exit")) by done. cbn [ask_all].
  destruct (callAgent post addr sid (TrimSpace text) w) as [w1 r]. specialize (IH w1).
  destruct (repl post addr sid evs w1) as [[w' o] d]. destruct (ask_all addr sid (asked evs) w1) as [w2 rs].
  destruct IH as (-> & -> & IH). cbn [fst snd] in *. split_and!; [done|done|]. cbn [app fmap list_fmap].
  rewrite filter_cons_False by (intros Hn; by apply Hn). rewrite filter_cons_True; [by rewrite IH|].
  destruct r as [resp|e]; [|done]. unfold show_result. by destruct (bool_decide _).
Qed.
End client_lemmas.

Lemma f64_sub_self s m e : f64_sub (S754_finite s m e) (S754_finite s m e) = f64_zero.
Proof. unfold f64_sub. cbn [SFsub]. by rewrite Z.min_id, Z.sub_diag. Qed.

(** ** Properties *)

(** C27. The client leaves nothing running behind: whatever the user types, however
    the loop ends (exit, end of input, a read error, an interrupt) and whatever
    the agent answered, if the loop ends and the platform accepts the final
    suspend, and the delete too when [delete-on-exit] asks for it, then the
    session's actor is suspended, or, with [delete-on-exit], gone; the delete is
    asked for only once the actor is suspended, as the platform requires; and no
    other actor was touched by the clean-up. *)
Theorem client_leaves_no_running_actor {W} `{ControlClient W} `{Json runReq} `{Json runResp}
    (actor_of : W -> Ref -> option actor_state) `{!Platform W actor_of}
    (post : string -> list byte -> W -> W * res string response)
    (fl : client_flags) (newClient : string -> option string) (sid : string) (evs : list stdin_event) (w w1 : W)
    (actor := MkRef (cf_atespace fl) sid)
    (w2 := fst (ask_all post (cf_ingress fl) sid (asked evs) w1)) (w3 := fst (SuspendActor actor w2))
    (Haddr : cf_ateapi fl <> "" /\ newClient (cf_ateapi fl) = None)
    (Hcreate : CreateActor actor (cf_templateNS fl) (cf_templateName fl) w = (w1, None))
    (Hends : ends evs = true) (Hsuspend : snd (SuspendActor actor w2) = None)
    (Hdelete : cf_deleteOnExit fl = true -> snd (DeleteActor actor w3) = None) :
  let r := client_main post fl newClient sid evs w in
  cr_exit r = Some 0 /\
  actor_of (cr_world r) actor = (if cf_deleteOnExit fl then None else Some Suspended) /\
  cr_world r = (if cf_deleteOnExit fl then fst (DeleteActor actor w3) else w3) /\ actor_of w3 actor = Some Suspended /\
  forall other, other <> actor -> actor_of (cr_world r) other = actor_of w2 other.
Proof.
  destruct Haddr as [Ha Hn]. unfold client_main, Dial. simpl. rewrite bool_decide_eq_false_2, Hn by done.
  fold actor. rewrite Hcreate. pose proof (repl_asks post (cf_ingress fl) sid evs w1) as R.
  destruct (repl post (cf_ingress fl) sid evs w1) as [[w' out] d]. destruct R as (-> & -> & _).
  rewrite Hends. fold w2. cbn [cr_exit cr_world]. unfold cleanup.
  pose proof (pf_suspend actor w2 Hsuspend) as Hs. split_and!; [done| |done|done|].
  - destruct (cf_deleteOnExit fl); [|done]. by apply pf_delete, Hdelete.
  - intros other Hne. destruct (pf_other actor other w2 Hne) as (E1 & _).
    destruct (cf_deleteOnExit fl); [|done].
    destruct (pf_other actor other (fst (SuspendActor actor w2)) Hne) as (_ & _ & E2 & _). congruence.
Qed.

(** The loop sends exactly the user's lines: every line that is not blank, up to
    [exit] or the end of the input, is sent once, trimmed, in order, each after
    the answer to the one before, and exactly one line is printed for each. *)
Theorem repl_asks_every_line_once {W} `{ControlClient W} `{Json runReq} `{Json runResp}
    (post : string -> list byte -> W -> W * res string response) (addr sid : string) (evs : list stdin_event) (w : W) :
  let '(w', out, finished) := repl post addr sid evs w in
  finished = ends evs /\ w' = fst (ask_all post addr sid (asked evs) w) /\
  filter (fun s => s <> "calc> ") out = show_result <$> snd (ask_all post addr sid (asked evs) w) /\
  Forall (fun l => l <> "" /\ l <> "exit" /\ exists t, l = TrimSpace t /\ EvLine t ∈ evs) (asked evs).
Proof.
  pose proof (repl_asks post addr sid evs w) as R. destruct (repl post addr sid evs w) as [[w' out] d].
  destruct R as (R1 & R2 & R3). split_and!; [done..|]. clear.
  induction evs as [|[text|e| |] evs IH]; cbn [asked]; try apply Forall_nil_2.
  assert (forall l, (exists t, l = TrimSpace t /\ EvLine t ∈ evs) -> exists t, l = TrimSpace t /\ EvLine t ∈ EvLine text :: evs)
    as Hmono by (intros l (t & ? & ?); exists t; split; [done|by apply list_elem_of_further]).
  destruct (decide (TrimSpace text = "")); [rewrite (bool_decide_eq_true_2 (_ = "")) by done|rewrite (bool_decide_eq_false_2 (_ = "")) by done].
  { eapply Forall_impl; [exact IH|]. intros l (? & ? & ?). auto. }
  destruct (decide (TrimSpace text = "exit")); [by rewrite (bool_decide_eq_true_2 (_ = "exit"))|rewrite (bool_decide_eq_false_2 (_ = "exit")) by done].
  apply Forall_cons. split; [split_and!; [done|done|exists text; split; [done|apply list_elem_of_here]]|].
  eapply Forall_impl; [exact IH|]. intros l (? & ? & ?). auto.
Qed.


(** One request on its way from the client to the agent and back: where the
    ingress-broker listens, the state it and the sidecar are in, the network and
    the agent behind the sidecar's HTTP client, what the forward attempts come
    to, the request's uuid, and what else the ingress-broker does before and
    after the reply comes in. *)
Record path : Type := MkPath {
  pt_addr : string;
  pt_broker : IngressBroker;
  pt_sidecar : Ingress;
  pt_env : http_env;
  pt_out : forward_request -> Z -> attempt_result;
  pt_cancelled : Z -> bool;
  pt_reqID : string;
  pt_now : Z;
  pt_before : list ib_op;
  pt_after : list ib_op;
}.



(** The calculator drops results that are zero: for every finite number, the
    difference of the number and itself is encoded as an object with no member
    at all, neither a value nor an error. *)
Theorem zero_results_are_dropped (quote : string -> string) (s : bool) (m : positive) (e : Z) :
  let x := S754_finite s m e in calc_fields (calculate quote (MkCalcArgs x x "-")) = [].
Proof.
  unfold calculate. cbn [ca_Op ca_A ca_B]. rewrite decide_False, decide_True, f64_sub_self by done. done.
Qed.

(** ** Witnesses *)

Module ClientDemo.
Import Lines Registry AgentDemo.
Definition env : http_env := MkHttpEnv (fun _ _ => true) (fun q => inr (agent_HandleRun runner (ar_body q))) (fun n _ => n =? 2).
Definition post (_ : string) (_ : list byte) (w : gmap ObjectRef actor_state) :
    gmap ObjectRef actor_state * res string response :=
  (fst (ResumeActor (MkRef "demo" "u1") w), Ok (MkResponse 200 "" (json_encode (MkRunResp "7" "")))).
Definition flags : client_flags := MkClientFlags "api:443" false "localhost:8000" "demo" "ns" "adk-calc" true.
Definition script : list stdin_event := [EvLine " 2+5= "; EvLine ""; EvLine "exit"; EvLine "never"].
End ClientDemo.

Import Lines Registry.

Lemma client_leaves_no_running_actor_witness :
  Registry.actor_of (cr_world (client_main ClientDemo.post
    ClientDemo.flags (fun _ => None) "u1" ClientDemo.script ∅)) (MkRef "demo" "u1") = None.
Proof.
  refine (proj1 (proj2 (client_leaves_no_running_actor
    Registry.actor_of ClientDemo.post ClientDemo.flags (fun _ => None) "u1" ClientDemo.script ∅
    {[MkObjectRef "demo" "u1" := Suspended]} _ _ _ _ _))).
  - split; [discriminate|reflexivity].
  - vm_compute. reflexivity.
  - vm_compute. reflexivity.
  - vm_compute. reflexivity.
  - intros _. vm_compute. reflexivity.
Defined.

