(* ===== verification/Probe.v ===== *)
(** * Probe: the external probe and the commands of the loopback experiment

    Models [runExternalProbe], [recordExtFailure], [recordExtEvent], the initial
    dial, the HTTP endpoints and [main] of [demos/loopback-survival/client/main.go],
    [serveStats] of [server/main.go], and [externalecho/main.go].  The
    stream itself and the verdict are in [Loopback].  The probe's loop runs over what its connections do:
    each dial, write and read has an outcome and a time.  Characters are bytes;
    a connection to the echo server carries the bytes written to it, in order,
    until it fails. *)
From Stdlib Require Import Ascii.
From S2P Require Import Prelude GoStd Ingress Commands Loopback.

(** ** The client's record *)

Record extEvent : Type := MkExtEvent {
  ee_At : Z;
  ee_Kind : string;
  ee_Probe : Z;
  ee_Error : string;
  ee_SinceLastOK : Z;
}.

(** The external part of the statistics; [xs_lastOK] is the time of the last
    good echo once there is one. *)
Record ext_stats : Type := MkExtStats {
  xs_ProbesSent : Z;
  xs_EchoesOK : Z;
  xs_Reconnects : Z;
  xs_Events : list extEvent;
  xs_lastOK : option Z;
}.

Definition no_stats : ext_stats := MkExtStats 0 0 0 [] None.

Definition recordExtEvent (ev : extEvent) (s : ext_stats) : ext_stats :=
  if len (xs_Events s) <? maxEvents
  then MkExtStats (xs_ProbesSent s) (xs_EchoesOK s) (xs_Reconnects s) (xs_Events s ++ [ev]) (xs_lastOK s)
  else s.

(** [now] is read for the event, [now2] for the time since the last good echo. *)
Definition recordExtFailure (kind : string) (probe : Z) (err : string) (now now2 : Z) (s : ext_stats) : ext_stats :=
  recordExtEvent
    (MkExtEvent now kind probe err (match xs_lastOK s with Some t => now2 - t | None => 0 end)) s.

(** ** The probe's loop *)

(** The line of a probe: its number and the wall clock in nanoseconds. *)
Definition probe_line (probe nano : Z) : string :=
  "probe " +:+ Itoa probe +:+ " " +:+ Itoa nano +:+ String newline "".

(** What happened to one probe on a connection. *)
Inductive probe_outcome : Type :=
| PWriteError (err : string)
| PReadError (err : string)
| PEcho (line : string).

(** One turn of the inner loop: the clock values it reads and the outcome. *)
Record probe_input : Type := MkProbeInput { pi_nano : Z; pi_now : Z; pi_now2 : Z; pi_out : probe_outcome }.

Definition sent_one (s : ext_stats) : ext_stats :=
  MkExtStats (u64 (xs_ProbesSent s + 1)) (xs_EchoesOK s) (xs_Reconnects s) (xs_Events s) (xs_lastOK s).
Definition echo_ok (now : Z) (s : ext_stats) : ext_stats :=
  MkExtStats (xs_ProbesSent s) (u64 (xs_EchoesOK s + 1)) (xs_Reconnects s) (xs_Events s) (Some now).
Definition reconnected (s : ext_stats) : ext_stats :=
  MkExtStats (xs_ProbesSent s) (xs_EchoesOK s) (xs_Reconnects s + 1) (xs_Events s) (xs_lastOK s).

(** The text of the corrupt-echo error; [%q] is [quote]. *)
Section probe.
Context (quote : string -> string).

(** The state after the turn, and whether the connection goes on. *)
Definition probe_turn (probe : Z) (i : probe_input) (s : ext_stats) : ext_stats * bool :=
  let line := probe_line probe (pi_nano i) in
  let s := sent_one s in
  let fail kind err := (recordExtFailure kind probe err (pi_now i) (pi_now2 i) s, false) in
  match pi_out i with
  | PWriteError err => fail "write-error" err
  | PReadError err => fail "read-error" err
  | PEcho echo =>
      if negb (bool_decide (echo = line)) then fail "corrupt-echo" ("sent " +:+ quote line +:+ " got " +:+ quote echo)
      else (echo_ok (pi_now i) s, true)
  end.

(** The inner loop on one connection, from probe number [probe]; it ends at the
    first failure ([true]) or while the next turn is still to come. *)
Fixpoint probe_conn (probe : Z) (ins : list probe_input) (s : ext_stats) : ext_stats * Z * bool :=
  match ins with
  | [] => (s, probe, false)
  | i :: ins =>
      let probe := u64 (probe + 1) in
      let '(s, more) := probe_turn probe i s in
      if more : bool then probe_conn probe ins s else (s, probe, true)
  end.

(** The outer loop: a failed dial is retried, a connection is recorded and used,
    and closed after its first failure. *)
Inductive dial_outcome : Type := DialFailed | Dialed (now : Z) (ins : list probe_input).

Fixpoint runExternalProbe (probe : Z) (dials : list dial_outcome) (s : ext_stats) : ext_stats * Z :=
  match dials with
  | [] => (s, probe)
  | DialFailed :: dials => runExternalProbe probe dials s
  | Dialed now ins :: dials =>
      let s := recordExtEvent (MkExtEvent now "connected" 0 "" 0) s in
      let '(s, probe, failed) := probe_conn probe ins s in
      if failed : bool then runExternalProbe probe dials (reconnected s) else (s, probe)
  end.
End probe.

(** ** The echo server *)

(** [handle]: what it writes back for the bytes that arrive, with the number of
    lines echoed; [writable n] is whether the [n]-th write succeeds.  Every turn
    consumes a line. *)
Fixpoint echo_loop (fuel : nat) (writable : Z -> bool) (lines : Z) (input : string) : list string * Z :=
  match fuel with
  | O => ([], lines)
  | S fuel =>
      match ReadString input with
      | (_, None) => ([], lines)
      | (line, Some rest) =>
          if negb (writable lines) then ([], lines)
          else let '(out, n) := echo_loop fuel writable (u64 (lines + 1)) rest in (line :: out, n)
      end
  end.

Definition echo_handle (writable : Z -> bool) (input : string) : list string * Z :=
  echo_loop (S (String.length input)) writable 0 input.

(** [main]: every connection is echoed by its own handler; a failed listen or
    accept ends the process. *)
Definition echo_main (listen : option string) (evs : list (accept_event ((Z -> bool) * string)))
    : list (list string) * option Z :=
  if failed listen then ([], Some 1)
  else
    let '(outs, r) := accept_loop (fun '(writable, input) outs => outs ++ [fst (echo_handle writable input)]) evs [] in
    (outs, if failed r then Some 1 else None).

(** ** The client's command *)

Record loop_flags : Type := MkLoopFlags {
  lf_serverAddr : string;
  lf_serverStatsURL : string;
  lf_httpListenAddr : string;
  lf_sendInterval : Z;
  lf_payloadSize : Z;
  lf_externalAddr : string;
  lf_clockSampleInt : Z;
  lf_clockGapMin : Z;
  lf_externalTimeout : Z;
}.

Definition loop_flag_defaults : loop_flags :=
  MkLoopFlags "127.0.0.1:7777" "http://127.0.0.1:7778/statz" ":80" (200 * Millisecond) 1024 ""
    (100 * Millisecond) (2 * Second) (2 * Second).

Inductive loop_act : Type :=
| GoHTTP (listen : string)
| GoClocks (sample gapMin : Z)
| GoProbe (addr : string)
| LoopbackStream (addr : string).

(** [main] never exits: it blocks after the stream has failed. *)
Definition loop_client_main (fl : loop_flags) : startup loop_act :=
  start (GoHTTP (lf_httpListenAddr fl)) ;;
  start (GoClocks (lf_clockSampleInt fl) (lf_clockGapMin fl)) ;;
  (if bool_decide (lf_externalAddr fl <> "") then start (GoProbe (lf_externalAddr fl)) else skip) ;;
  start (LoopbackStream (lf_serverAddr fl)).

(** The initial dial of [runLoopbackStream], on the outcomes of the attempts so
    far: the statistics and [ready]. *)
Fixpoint initial_dial (dials : list bool) (t : cstats) : cstats * bool :=
  match dials with
  | [] => (t, false)
  | true :: _ => (establish t, true)
  | false :: dials => initial_dial dials t
  end.

(** The handler of [serveHTTP]; [encode] is the JSON encoder.  Every other path
    is the root's. *)
Definition loop_serveHTTP (encode : report -> list byte) (srv : option (Z * Z)) (t : cstats) (ready : bool) (path : string)
    : debug_answer :=
  match ServeMux ["/"; "/readyz"] path with
  | Redirect to => RedirectTo to
  | NotFound => Answer (http_error "404 page not found" 404)
  | Matched pat =>
      if decide (pat = "/readyz") then
        Answer (if negb ready then http_error "loopback connection not yet established" 503 else ok_page)
      else Answer (MkResponse 200 "application/json" (encode (buildReport srv t)))
  end.

(** ** The server's statistics *)

(** The handler of [serveStats]. *)
Definition serveStats {S} (encode : S -> list byte) (s : S) (path : string) : debug_answer :=
  match ServeMux ["/statz"] path with
  | Redirect to => RedirectTo to
  | NotFound => Answer (http_error "404 page not found" 404)
  | Matched _ => Answer (MkResponse 200 "application/json" (encode s))
  end.

(** ** Lemmas *)

Definition is_line (l : string) : Prop := exists t, l = t +:+ String newline "" /\ has newline t = false.

Lemma probe_line_is_line probe nano : is_line (probe_line probe nano).
Proof.
  exists ("probe " +:+ Itoa probe +:+ " " +:+ Itoa nano). unfold probe_line.
  split; [by rewrite !string_app_assoc|]. rewrite !has_app, !Itoa_no_newline. done.
Qed.

Lemma ReadString_is_line l r : is_line l -> ReadString (l +:+ r) = (l, Some r).
Proof. intros (t & -> & Ht). rewrite string_app_assoc. by apply ReadString_line. Qed.

Lemma line_length l : is_line l -> (0 < String.length l)%nat.
Proof. intros (t & -> & _). rewrite string_length_app. simpl. lia. Qed.

(** The echo loop on any input. *)
Lemma echo_loop_spec fuel writable n input :
  (String.length input < fuel)%nat ->
  let '(out, n') := echo_loop fuel writable n input in
  Forall is_line out /\ exists rest, input = concat_str out +:+ rest /\
    ((forall k, writable k = true) -> has newline rest = false).
Proof.
  revert n input. induction fuel as [|fuel IH]; intros n input Hf; [lia|]. cbn [echo_loop].
  destruct (ReadString input) as [l r] eqn:E. apply ReadString_spec in E. destruct r as [r|].
  - destruct E as [-> Hl]. destruct (writable n) eqn:W; cbn [negb].
    + assert (0 < String.length l)%nat as H0 by (by apply line_length).
      rewrite string_length_app in Hf. specialize (IH (u64 (n + 1)) r ltac:(lia)).
      destruct (echo_loop fuel writable (u64 (n + 1)) r) as [out n']. destruct IH as (HF & rest & -> & Hr).
      split; [by apply Forall_cons|]. exists rest. split; [by cbn [concat_str]; rewrite string_app_assoc|done].
    + split; [apply Forall_nil_2|]. exists (l +:+ r). split; [done|]. intros Hw. by rewrite Hw in W.
  - destruct E as [-> Hh]. split; [apply Forall_nil_2|]. by exists l.
Qed.

(** Whole lines come back one by one. *)
Lemma echo_loop_lines fuel n ls :
  Forall is_line ls -> (String.length (concat_str ls) < fuel)%nat ->
  fst (echo_loop fuel (fun _ => true) n (concat_str ls)) = ls.
Proof.
  intros HF. revert fuel n. induction HF as [|l ls Hl HF IH]; intros [|fuel] n Hf; try (cbn in Hf; lia); [done|].
  cbn [concat_str echo_loop] in *. rewrite ReadString_is_line by done. cbn [negb].
  rewrite string_length_app in Hf. pose proof (line_length l Hl).
  specialize (IH fuel (u64 (n + 1)) ltac:(lia)). destruct (echo_loop fuel _ _ _) as [out n']. simpl in *. by subst.
Qed.

(** All the turns of a run. *)
Fixpoint inputs_of (dials : list dial_outcome) : list probe_input :=
  match dials with
  | [] => []
  | DialFailed :: dials => inputs_of dials
  | Dialed _ ins :: dials => ins ++ inputs_of dials
  end.

(** The lines a connection's probes send. *)
Fixpoint sent_lines (probe : Z) (ins : list probe_input) : list string :=
  match ins with
  | [] => []
  | i :: ins => probe_line (u64 (probe + 1)) (pi_nano i) :: sent_lines (u64 (probe + 1)) ins
  end.

Section probe_lemmas.
Context (quote : string -> string).

Lemma recordExtEvent_bounded ev s : len (xs_Events s) <= maxEvents -> len (xs_Events (recordExtEvent ev s)) <= maxEvents.
Proof.
  intros Hs. unfold recordExtEvent. destruct (Z.ltb_spec (len (xs_Events s)) maxEvents); [|done].
  simpl. rewrite len_app. change (len [ev]) with 1. lia.
Qed.

(** The accounting of the probes: [probe] is the number of the last one. *)
Definition tally (probe : Z) (s : ext_stats) : Prop :=
  probe = xs_ProbesSent s /\ 0 <= xs_EchoesOK s /\ 0 <= xs_Reconnects s /\
  xs_ProbesSent s = xs_EchoesOK s + xs_Reconnects s /\ len (xs_Events s) <= maxEvents.

Lemma tally_event ev probe s : tally probe s -> tally probe (recordExtEvent ev s).
Proof.
  intros (? & ? & ? & ? & ?). pose proof (recordExtEvent_bounded ev s). unfold tally, recordExtEvent in *.
  destruct (_ <? _); simpl in *; split_and!; auto.
Qed.

Lemma tally_conn ins probe s :
  tally probe s -> probe + len ins < 2 ^ 64 ->
  let '(s', probe', failed) := probe_conn quote probe ins s in
  tally probe' (if failed : bool then reconnected s' else s') /\ probe' <= probe + len ins.
Proof.
  revert probe s. induction ins as [|i ins IH]; intros probe s Ht Hl; cbn [probe_conn].
  { split; [done|]. change (len []) with 0. lia. }
  change (i :: ins) with ([i] ++ ins) in *. rewrite len_app in *. change (len [i]) with 1 in *.
  pose proof (len_nonneg ins). destruct Ht as (-> & H1 & H2 & H3 & H4).
  rewrite u64_small by lia. unfold probe_turn.
  assert (forall kind err, tally (xs_ProbesSent s + 1)
            (reconnected (recordExtFailure kind (xs_ProbesSent s + 1) err (pi_now i) (pi_now2 i) (sent_one s)))) as Hfail.
  { intros kind err. unfold recordExtFailure. set (ev := MkExtEvent _ _ _ _ _).
    pose proof (recordExtEvent_bounded ev (sent_one s) H4). unfold tally, recordExtEvent in *.
    destruct (_ <? _); simpl in *; rewrite u64_small by lia; lia. }
  destruct (pi_out i) as [err|err|echo]; [split; [apply Hfail|lia]..|].
  destruct (bool_decide _); cbn [negb]; [|split; [apply Hfail|lia]].
  specialize (IH (xs_ProbesSent s + 1) (echo_ok (pi_now i) (sent_one s))).
  destruct (probe_conn _ _ _ _) as [[s' p'] failed]. destruct IH as [IH1 IH2]; [|lia|split; [done|lia]].
  unfold tally. simpl. rewrite !u64_small by lia. lia.
Qed.
End probe_lemmas.

(** ** Properties *)

(** The probe's report is bounded and adds up: over any run (any sequence of
    dials, timeouts, corrupted or missing echoes) at most [maxEvents] events are
    kept, and every probe is accounted for: each was either echoed correctly or
    ended its connection and counts as one reconnect. *)
Theorem probe_report_adds_up (quote : string -> string) (dials : list dial_outcome)
    (Hlen : len (inputs_of dials) < 2 ^ 64) :
  let '(s, probe) := runExternalProbe quote 0 dials no_stats in
  xs_ProbesSent s = probe /\ xs_ProbesSent s = xs_EchoesOK s + xs_Reconnects s /\
  0 <= xs_EchoesOK s /\ 0 <= xs_Reconnects s /\ len (xs_Events s) <= maxEvents.
Proof.
  assert (forall ds p s, tally p s ->
    p + len (inputs_of ds) < 2 ^ 64 ->
    let '(s', p') := runExternalProbe quote p ds s in tally p' s') as K.
  { induction ds as [|[|now ins] ds IH]; intros p s Ht Hl; cbn [runExternalProbe]; [done|by apply IH|].
    cbn [inputs_of] in Hl. rewrite len_app in Hl. pose proof (len_nonneg (inputs_of ds)).
    pose proof (tally_conn quote ins p _ (tally_event (MkExtEvent now "connected" 0 "" 0) p s Ht) ltac:(lia)) as Hc.
    destruct (probe_conn quote p ins _) as [[s' p'] failed]. destruct Hc as [Hc1 Hc2].
    destruct failed; [|done]. apply IH; [done|lia]. }
  specialize (K dials 0 no_stats). destruct (runExternalProbe quote 0 dials no_stats) as [s p].
  destruct K as (-> & ? & ? & ? & ?); [by split_and!|lia|done].
Qed.

(** The echo server returns exactly what it was sent: on any input and with any
    failing write, what it wrote back is made of whole lines and is a prefix of
    the input; if no write fails, only an unfinished last line is missing. *)
Theorem echo_is_exact (writable : Z -> bool) (input : string) :
  let out := fst (echo_handle writable input) in
  Forall is_line out /\ exists rest, input = concat_str out +:+ rest /\
    ((forall k, writable k = true) -> has newline rest = false).
Proof.
  unfold echo_handle. pose proof (echo_loop_spec (S (String.length input)) writable 0 input ltac:(lia)) as K.
  by destruct (echo_loop _ writable 0 input) as [out n].
Qed.

(** A working connection to the echo server never fails a probe: if the server
    gets the probes' lines and the probe reads the lines the server wrote, in
    order, then every echo matches, no event is recorded and the connection
    stays up. *)
Theorem healthy_probe_never_fails (quote : string -> string) (ins : list probe_input) (probe : Z) (s : ext_stats)
    (Hecho : map pi_out ins = map PEcho (fst (echo_handle (fun _ => true) (concat_str (sent_lines probe ins))))) :
  let '(s', _, failed) := probe_conn quote probe ins s in
  failed = false /\ xs_Events s' = xs_Events s /\ xs_Reconnects s' = xs_Reconnects s.
Proof.
  unfold echo_handle in Hecho. rewrite echo_loop_lines in Hecho; [|clear|lia].
  2: { revert probe. induction ins as [|i ins IH]; intros probe; [apply Forall_nil_2|].
       apply Forall_cons. split; [apply probe_line_is_line|apply IH]. }
  revert probe s Hecho. induction ins as [|i ins IH]; intros probe s Hecho; [done|].
  cbn [map sent_lines probe_conn] in *. injection Hecho as Ho Hecho. unfold probe_turn. rewrite Ho.
  rewrite bool_decide_eq_true_2 by done. cbn [negb].
  specialize (IH (u64 (probe + 1)) (echo_ok (pi_now i) (sent_one s)) Hecho).
  by destruct (probe_conn _ _ _ _) as [[s' p'] failed].
Qed.

(** The readiness gate is exact: [/readyz] answers 200 once a dial has succeeded
    and 503 before that, so a snapshot taken after readiness holds an open
    connection; every other clean path gets the report. *)
Theorem readyz_iff_established (encode : report -> list byte) (srv : option (Z * Z)) (dials : list bool) (t : cstats) :
  let '(t', ready) := initial_dial dials t in
  loop_serveHTTP encode srv t' ready "/readyz" =
    Answer (if decide (true ∈ dials) then ok_page else http_error "loopback connection not yet established" 503) /\
  t' = (if decide (true ∈ dials) then establish t else t).
Proof.
  assert (initial_dial dials t = if decide (true ∈ dials) then (establish t, true) else (t, false)) as ->.
  { induction dials as [|[] dials IH]; cbn [initial_dial]; [done|by rewrite decide_True by apply list_elem_of_here|].
    rewrite IH. destruct (decide (true ∈ dials)).
    - by rewrite decide_True by (by apply list_elem_of_further).
    - by rewrite decide_False by (by intros [?|?]%elem_of_cons). }
  by destruct (decide (true ∈ dials)).
Qed.

(** ** Witnesses *)

Module Demo.
Definition ok (n t : Z) : probe_input := MkProbeInput t t t (PEcho (probe_line n t)).
Definition run : list dial_outcome :=
  [DialFailed; Dialed 1 [ok 1 5; MkProbeInput 6 6 9 (PReadError "i/o timeout")]; Dialed 20 [ok 3 21; ok 4 22]].
End Demo.

Lemma probe_report_adds_up_witness :
  let '(s, probe) := runExternalProbe id 0 Demo.run no_stats in
  xs_ProbesSent s = probe /\ xs_ProbesSent s = xs_EchoesOK s + xs_Reconnects s /\
  0 <= xs_EchoesOK s /\ 0 <= xs_Reconnects s /\ len (xs_Events s) <= maxEvents.
Proof. apply (probe_report_adds_up id Demo.run). by vm_compute. Defined.

Lemma healthy_probe_never_fails_witness :
  xs_Events (fst (fst (probe_conn id 2 [Demo.ok 3 21; Demo.ok 4 22] no_stats))) = [].
Proof.
  pose proof (healthy_probe_never_fails id [Demo.ok 3 21; Demo.ok 4 22] 2 no_stats) as K.
  destruct (probe_conn id 2 [Demo.ok 3 21; Demo.ok 4 22] no_stats) as [[s' p] failed].
  apply K. vm_compute. reflexivity.
Defined.
