(* ===== verification/LoopServer.v ===== *)
(** * LoopServer: the loopback experiment's server as a whole

    Models [handleConn] and [main] of [demos/loopback-survival/server/main.go]
    on top of the turns of [Loopback]: the reader loop with the ack writer
    running beside it, the drain of the ack queue when the reader stops, and the
    accept loop, which serves one connection at a time with statistics that live
    as long as the process.  A connection is the bytes that arrive on it and its
    outgoing side; how far the ack writer has got when a frame is read is given
    by a schedule. *)
From S2P Require Import Prelude GoStd Socket Wire Commands Loopback.

(** ** One connection *)

(** [h_writer]: the ack writer is running; a failed write ends it. *)
Record handler : Type := MkHandler { h_sv : server; h_out : sock; h_writer : bool }.

(** One turn of the ack writer. *)
Definition ack_turn (h : handler) : handler :=
  if h_writer h then
    match sv_acks (h_sv h) with
    | [] => h
    | a :: acks =>
        let '(w, ok) := WriteAck a (h_out h) in
        MkHandler (MkServer (sv (h_sv h)) acks None (sv_open (h_sv h))) w ok
    end
  else h.

(** The reader loop; [sched] says how many acks are written before each read.
    Every turn that does not end the loop consumes at least a header. *)
Fixpoint read_loop (fuel : nat) (sched : list nat) (input : list byte) (h : handler) : handler :=
  match fuel with
  | O => h
  | S fuel =>
      let h := Nat.iter (hd 0%nat sched) ack_turn h in
      let r := loop_ReadFrame input in
      let h := MkHandler (server_turn r (h_sv h)) (h_out h) (h_writer h) in
      match r with
      | LError _ => h
      | LFrame _ _ rest | LCorrupt _ _ rest =>
          if sv_open (h_sv h) then read_loop fuel (tl sched) rest h else h
      end
  end.

(** [close(acks)] lets the writer finish what is queued; [handleConn] waits for
    it and closes the connection. *)
Definition drain (h : handler) : handler := Nat.iter (length (sv_acks (h_sv h))) ack_turn h.

Record data_conn : Type := MkDataConn { dc_in : list byte; dc_out : sock; dc_sched : list nat }.

Definition handleConn (c : data_conn) (s : server) : handler :=
  drain (read_loop (S (length (dc_in c))) (dc_sched c) (dc_in c) (MkHandler s (dc_out c) true)).

(** ** The command *)

Record server_flags : Type := MkServerFlags { sf_listenAddr : string; sf_statsListenAddr : string; sf_ackDelay : Z }.
Definition server_flag_defaults : server_flags := MkServerFlags "127.0.0.1:7777" "127.0.0.1:7778" (300 * Millisecond).

Definition no_sstats : sstats := MkSStats 0 0 0 0 0 0 0 None.

(** [main]: what has been written on each connection, the statistics, and the
    exit code once a listen or an accept has failed. *)
Definition loop_server_main (listen : option string) (evs : list (accept_event data_conn))
    : (list (list byte) * sstats) * option Z :=
  if failed listen then (([], no_sstats), Some 1)
  else
    let '(st, r) := accept_loop (fun c '(outs, t) =>
        let h := handleConn c (accept_conn t) in (outs ++ [sk_out (h_out h)], sv (h_sv h))) evs ([], no_sstats) in
    (st, if failed r then Some 1 else None).

(** ** What the acks should be *)

(** The acks of the verified frames of a stream, in order, from the statistics
    so far; corrupt frames are skipped. *)
Fixpoint acks_of (fuel : nat) (input : list byte) (t : sstats) : list ack :=
  match fuel with
  | O => []
  | S fuel =>
      match loop_ReadFrame input with
      | LFrame seq p rest =>
          let t := server_accept seq p t in
          MkAck seq (sv_BytesReceived t) (sv_RunningCRC t) :: acks_of fuel rest t
      | LCorrupt _ _ rest => acks_of fuel rest (crc_violation t)
      | LError _ => []
      end
  end.

(** ** Lemmas *)

(** What is on the wire or queued for it. *)
Definition flow (h : handler) : list byte := sk_out (h_out h) ++ concat (map ack_bytes (sv_acks (h_sv h))).
Definition queued (h : handler) : nat := length (sv_acks (h_sv h)).

Record running (h : handler) : Prop := { ru_sock : sock_healthy (h_out h); ru_writer : h_writer h = true }.

(** The ack writer moves acks from the queue to the wire, in order. *)
Record writes (h h' : handler) : Prop := {
  ws_run : running h -> running h' /\ flow h' = flow h;
  ws_stats : sv (h_sv h') = sv (h_sv h);
  ws_open : sv_open (h_sv h') = sv_open (h_sv h);
  ws_queue : (queued h' <= queued h)%nat;
}.

#[export] Instance writes_preorder : PreOrder writes.
Proof.
  split; [done|]. intros h1 h2 h3 [R1 S1 O1 Q1] [R2 S2 O2 Q2]. split; [|congruence|congruence|lia].
  intros R. destruct (R1 R) as [R' E1]. destruct (R2 R') as [R'' E2]. split; congruence.
Qed.

Lemma ack_turn_writes h : writes h (ack_turn h).
Proof.
  unfold ack_turn. destruct (h_writer h) eqn:Hw; [|done]. destruct (sv_acks (h_sv h)) as [|a acks] eqn:Ea; [done|].
  unfold WriteAck. destruct (sock_write (ack_bytes a) (h_out h)) as [w ok] eqn:W.
  split; simpl; [|done|done|unfold queued; rewrite Ea; simpl; lia].
  intros [Hs _]. rewrite (sock_write_healthy _ _ Hs) in W. injection W as <- <-.
  split; [by split|]. unfold flow. rewrite Ea. simpl. by rewrite <- app_assoc.
Qed.

Lemma iter_writes n h : writes h (Nat.iter n ack_turn h).
Proof. induction n as [|n IH]; simpl; [done|]. etrans; [exact IH|apply ack_turn_writes]. Qed.

(** A writer that runs to the end of the queue leaves it empty. *)
Lemma drain_empty h : running h -> queued (drain h) = 0%nat.
Proof.
  unfold drain. assert (forall n h, running h -> queued (Nat.iter n ack_turn h) = (queued h - n)%nat) as K.
  { clear h. intros n h R. induction n as [|n IH]; simpl; [lia|].
    destruct (ws_run _ _ (iter_writes n h) R) as [[_ Hw] _]. unfold ack_turn at 1. rewrite Hw. unfold queued in *.
    destruct (sv_acks (h_sv (Nat.iter n ack_turn h))) as [|a acks] eqn:Eq; simpl in *; [rewrite Eq; simpl; lia|].
    destruct (WriteAck a _). simpl. lia. }
  intros R. rewrite K by done. unfold queued. lia.
Qed.

(** A frame takes bytes from the stream. *)
Lemma ReadFrame_shorter input seq p rest :
  loop_ReadFrame input = LFrame seq p rest \/ loop_ReadFrame input = LCorrupt seq p rest ->
  (length rest < length input)%nat.
Proof.
  unfold loop_ReadFrame. assert (forall n bs a b, loop_ReadFull n bs = Ok (a, b) -> 0 <= n -> len b = len bs - n) as K.
  { intros n bs a b. unfold loop_ReadFull. destruct (Z.leb_spec n (len bs)); [|by destruct bs].
    intros [= <- <-] Hn. rewrite len_zdrop by lia. lia. }
  destruct (loop_ReadFull 12 input) as [[hdr b1]|] eqn:E1; [|by intros [|]].
  destruct (_ >? _); [by intros [|]|]. set (n := be_combine _).
  assert (0 <= n) as Hn by apply be_combine_range.
  destruct (loop_ReadFull n b1) as [[q b2]|] eqn:E2; [|by intros [|]].
  destruct (loop_ReadFull 4 b2) as [[tail b3]|] eqn:E3; [|by intros [|]].
  apply K in E1, E2, E3; try lia. intros Hr. assert (b3 = rest) as -> by (destruct (_ =? _), Hr; congruence).
  unfold len in *. lia.
Qed.

(** The reader loop by its first turn, with what the writer did before it. *)
Lemma read_loop_flow fuel sched input h :
  (length input < fuel)%nat -> running h -> sv_open (h_sv h) = true ->
  let h' := read_loop fuel sched input h in
  running h' /\ sv_open (h_sv h') = false /\
  exists k, let acks := acks_of fuel input (sv (h_sv h)) in
    flow h' = flow h ++ concat (map ack_bytes (take k acks)) /\
    (Z.of_nat (queued h) + len acks <= ackQueue -> (length acks <= k)%nat).
Proof.
  revert sched input h. induction fuel as [|fuel IH]; intros sched input h Hf R Eo; [lia|]. cbn [read_loop acks_of].
  pose proof (iter_writes (hd 0%nat sched) h) as [Wr Ws Wo Wq]. set (h1 := Nat.iter _ ack_turn h) in *.
  destruct (Wr R) as [[R1 R1'] F1]. rewrite <- Ws, <- F1. rewrite <- Wo in Eo.
  destruct (loop_ReadFrame input) as [seq p rest|seq p rest|e] eqn:E.
  - assert (length rest < fuel)%nat as Hf' by (assert (length rest < length input)%nat by (by eapply ReadFrame_shorter; left); lia).
    cbn [h_sv server_turn]. set (t := server_accept seq p (sv (h_sv h1))).
    set (a := MkAck seq (sv_BytesReceived t) (sv_RunningCRC t)).
    destruct (Z.ltb_spec (len (sv_acks (h_sv h1))) ackQueue) as [Hq|Hq]; cbn [sv_open].
    + set (h2 := MkHandler (MkServer t (sv_acks (h_sv h1) ++ [a]) _ _) (h_out h1) (h_writer h1)).
      assert (running h2) as R2 by (by split).
      assert (flow h2 = flow h1 ++ ack_bytes a) as F2.
      { unfold flow, h2. cbn [h_out h_sv sv_acks]. rewrite map_app, concat_app. cbn [map concat].
        by rewrite app_nil_r, app_assoc. }
      rewrite Eo. destruct (IH (tl sched) rest h2 Hf' R2 Eo) as (R3 & O3 & k & F3 & Hk). split_and!; [done|done|].
      exists (S k). cbn [take map concat length]. split; [by rewrite F3, F2, <- app_assoc|]. intros Hlen.
      apply le_n_S, Hk. unfold queued in *. simpl. rewrite length_app. simpl in *.
      unfold len in *. simpl in *. fold t in Hlen. lia.
    + split_and!; [done|done|]. exists 0%nat. simpl. rewrite app_nil_r. split; [done|]. intros Hlen.
      unfold queued, len in *. simpl in *. lia.
  - assert (length rest < fuel)%nat as Hf' by (assert (length rest < length input)%nat by (by eapply ReadFrame_shorter; right); lia).
    cbn [h_sv server_turn sv_open].
    set (h2 := MkHandler (MkServer _ (sv_acks (h_sv h1)) _ _) (h_out h1) (h_writer h1)).
    rewrite Eo. destruct (IH (tl sched) rest h2 Hf' ltac:(by split) Eo) as (R3 & O3 & k & F3 & Hk). split_and!; [done|done|].
    exists k. split; [done|]. intros Hlen. apply Hk. unfold queued in *. simpl. lia.
  - split_and!; [by destruct e|by destruct e|]. exists 0%nat. simpl. rewrite app_nil_r.
    destruct e; by split_and!; [|intros; lia].
Qed.

(** Serving never takes a violation back. *)
Definition no_less (t t' : sstats) : Prop :=
  sv_ConnectionsAccepted t' = sv_ConnectionsAccepted t /\
  sv_SeqViolations t <= sv_SeqViolations t' /\ sv_CRCViolations t <= sv_CRCViolations t'.

#[export] Instance no_less_preorder : PreOrder no_less.
Proof. split; [done|]. intros t1 t2 t3 (? & ? & ?) (? & ? & ?). split_and!; [congruence|lia|lia]. Qed.

Lemma server_turn_frame seq p rest s : sv (server_turn (LFrame seq p rest) s) = server_accept seq p (sv s).
Proof. cbn [server_turn]. by case_match. Qed.

Lemma server_turn_no_less r s : no_less (sv s) (sv (server_turn r s)).
Proof.
  destruct r as [seq p rest|seq p rest|[]]; try done.
  - rewrite server_turn_frame. split; [done|]. cbn [server_accept sv_SeqViolations sv_CRCViolations]. destruct (_ && _); lia.
  - unfold no_less. simpl. lia.
Qed.

Lemma read_loop_no_less fuel sched input h : no_less (sv (h_sv h)) (sv (h_sv (read_loop fuel sched input h))).
Proof.
  revert sched input h. induction fuel as [|fuel IH]; intros sched input h; [done|]. cbn [read_loop].
  pose proof (ws_stats _ _ (iter_writes (hd 0%nat sched) h)) as Ws. set (h1 := Nat.iter _ ack_turn h) in *.
  rewrite <- Ws. pose proof (server_turn_no_less (loop_ReadFrame input) (h_sv h1)) as K.
  destruct (loop_ReadFrame input) as [seq p rest|seq p rest|e]; [..|exact K].
  all: cbn [h_sv]; match goal with |- context[if ?b then _ else _] => destruct b end; [etrans; [exact K|apply IH]|exact K].
Qed.

Lemma handleConn_no_less c s : no_less (sv s) (sv (h_sv (handleConn c s))).
Proof. unfold handleConn, drain. rewrite (ws_stats _ _ (iter_writes _ _)). apply (read_loop_no_less _ _ _ (MkHandler s _ _)). Qed.

(** ** Properties *)

(** Acks are exact: over a connection whose outgoing side works, whatever arrives
    and however the ack writer is scheduled, the reader loop ends, what has been
    written back is the acks of the verified frames, one each and in the order of
    arrival, and none is missing as long as the stream has no more frames than
    the ack queue holds. *)
Theorem every_frame_is_acked_in_order (c : data_conn) (t : sstats) (Hs : sock_healthy (dc_out c)) :
  let h := handleConn c (accept_conn t) in
  let acks := acks_of (S (length (dc_in c))) (dc_in c) (sv (accept_conn t)) in
  sv_open (h_sv h) = false /\
  (exists k, sk_out (h_out h) = sk_out (dc_out c) ++ concat (map ack_bytes (take k acks))) /\
  (len acks <= ackQueue -> sk_out (h_out h) = sk_out (dc_out c) ++ concat (map ack_bytes acks)).
Proof.
  intros h acks.
  destruct (read_loop_flow (S (length (dc_in c))) (dc_sched c) (dc_in c) (MkHandler (accept_conn t) (dc_out c) true))
    as (R & O & k & F & Hk); [lia|by split|done|].
  unfold h, handleConn. set (h1 := read_loop _ _ _ _) in *. fold acks in F, Hk.
  destruct (iter_writes (length (sv_acks (h_sv h1))) h1) as [Wr _ Wo _]. fold (drain h1) in Wr, Wo.
  destruct (Wr R) as [_ Fd]. pose proof (drain_empty h1 R) as Q. apply nil_length_inv in Q.
  assert (sk_out (h_out (drain h1)) = sk_out (dc_out c) ++ concat (map ack_bytes (take k acks))) as E.
  { rewrite F in Fd. unfold flow in Fd. rewrite Q in Fd. cbn [map concat accept_conn h_sv sv_acks h_out] in Fd.
    by rewrite !app_nil_r in Fd. }
  split_and!; [by rewrite Wo|by exists k|]. intros Hlen. rewrite E, take_ge; [done|]. by apply Hk.
Qed.

(** A restarted client cannot pass unnoticed: once frames were received, a
    connection whose first frame does not carry on the sequence (a restarted
    client begins at 1 again) raises the accept counter and leaves a violation
    that no later traffic on it removes. *)
Theorem client_restart_is_detected (c : data_conn) (t : sstats) (seq : Z) (p rest : list byte)
    (Hin : dc_in c = loop_frame seq p ++ rest) (Hseq : is_u64 seq) (Hp : len p <= loop_MaxPayload)
    (Hf : sv_FramesReceived t > 0) (Hne : seq <> u64 (sv_LastSeqReceived t + 1)) :
  let t' := sv (h_sv (handleConn c (accept_conn t))) in
  sv_ConnectionsAccepted t' = sv_ConnectionsAccepted t + 1 /\ sv_SeqViolations t < sv_SeqViolations t'.
Proof.
  intros t'. unfold t', handleConn, drain. rewrite (ws_stats _ _ (iter_writes _ _)). cbn [read_loop].
  pose proof (iter_writes (hd 0%nat (dc_sched c)) (MkHandler (accept_conn t) (dc_out c) true)) as [_ Ws _ _].
  set (h1 := Nat.iter _ ack_turn _) in *. rewrite Hin, ReadFrame_frame by done.
  set (h2 := MkHandler (server_turn _ _) _ _).
  assert (sv_ConnectionsAccepted (sv (h_sv h2)) = sv_ConnectionsAccepted t + 1 /\
          sv_SeqViolations (sv (h_sv h2)) = sv_SeqViolations t + 1) as [E1 E2].
  { unfold h2. cbn [h_sv]. rewrite server_turn_frame.
    rewrite Ws. unfold server_accept. cbn [h_sv accept_conn sv sv_FramesReceived sv_LastSeqReceived sv_ConnectionsAccepted sv_SeqViolations].
    rewrite Z.gtb_ltb, (proj2 (Z.ltb_lt _ _)) by lia. by rewrite (proj2 (Z.eqb_neq _ _) Hne). }
  destruct (sv_open (h_sv h2)); [|lia].
  destruct (read_loop_no_less (length (loop_frame seq p ++ rest)) (tl (dc_sched c)) rest h2) as (K1 & K2 & _). lia.
Qed.

(** The statistics of the process are those of its connections: the accept
    counter is the number of connections served, counts only grow from one
    connection to the next, and the process ends, with status 1, exactly when
    the listen or an accept has failed. *)
Theorem server_counts_its_connections (listen : option string) (evs : list (accept_event data_conn)) :
  let '((outs, t), code) := loop_server_main listen evs in
  sv_ConnectionsAccepted t = len outs /\ 0 <= sv_SeqViolations t /\ 0 <= sv_CRCViolations t /\
  (code = None <-> listen = None /\ Forall (fun e => exists c, e = Accepted c) evs) /\ (code = None \/ code = Some 1).
Proof.
  unfold loop_server_main. destruct listen as [e|]; cbn [failed]; [split_and!; [done..|by split; [|intros [? _]]|by right]|].
  set (go := fun (c : data_conn) '(outs, t) => _).
  assert (forall evs outs t, sv_ConnectionsAccepted t = len outs -> 0 <= sv_SeqViolations t -> 0 <= sv_CRCViolations t ->
    let '((outs', t'), r) := accept_loop go evs (outs, t) in
    sv_ConnectionsAccepted t' = len outs' /\ 0 <= sv_SeqViolations t' /\ 0 <= sv_CRCViolations t' /\
    (r = None <-> Forall (fun e => exists c, e = Accepted c) evs)) as K.
  { clear evs. induction evs as [|[c|e b] evs IH]; intros outs t H1 H2 H3; cbn [accept_loop].
    - by split_and!.
    - unfold go at 2. destruct (handleConn_no_less c (accept_conn t)) as (N1 & N2 & N3). simpl in N1, N2, N3.
      specialize (IH (outs ++ [sk_out (h_out (handleConn c (accept_conn t)))]) (sv (h_sv (handleConn c (accept_conn t))))).
      destruct (accept_loop go evs _) as [[outs' t'] r]. destruct IH as (I1 & I2 & I3 & I4); [|lia|lia|].
      + rewrite N1, H1, len_app. done.
      + split_and!; [done..|]. rewrite I4, Forall_cons. split; [eauto|by intros [_ ?]].
    - split_and!; try done. split; [done|]. intros [(c & ?) _]%Forall_cons. done. }
  specialize (K evs [] no_sstats eq_refl ltac:(done) ltac:(done)).
  destruct (accept_loop go evs _) as [[outs t] r]. destruct K as (K1 & K2 & K3 & K4).
  split_and!; [done..| |destruct r; auto]. rewrite <- K4. by destruct r; split; [|intros [_ ?]| |].
Qed.

(** ** Witnesses *)

Module Demo.
Definition conn : data_conn :=
  MkDataConn (loop_frame 1 [x61; x62] ++ loop_frame 2 [x63; x64]) new_sock [0; 1]%nat.
Definition after : sstats := sv (h_sv (handleConn conn (accept_conn no_sstats))).
End Demo.

Lemma every_frame_is_acked_in_order_witness :
  exists a b, sk_out (h_out (handleConn Demo.conn (accept_conn no_sstats))) = ack_bytes a ++ ack_bytes b /\
    a_seq a = 1 /\ a_totalBytes a = 2 /\ a_seq b = 2 /\ a_totalBytes b = 4.
Proof.
  destruct (every_frame_is_acked_in_order Demo.conn no_sstats) as (_ & _ & E); [by vm_compute|].
  rewrite E by (vm_compute; discriminate).
  exists (MkAck 1 2 (sv_RunningCRC (server_accept 1 [x61; x62] no_sstats))),
    (MkAck 2 4 (UpdateCRC (sv_RunningCRC (server_accept 1 [x61; x62] no_sstats)) [x63; x64])).
  split; [vm_compute; reflexivity|]. repeat split.
Defined.

Lemma client_restart_is_detected_witness :
  sv_SeqViolations Demo.after < sv_SeqViolations (sv (h_sv (handleConn Demo.conn (accept_conn Demo.after)))).
Proof.
  apply (client_restart_is_detected Demo.conn Demo.after 1 [x61; x62] (loop_frame 2 [x63; x64])).
  - reflexivity.
  - vm_compute. split; [discriminate|reflexivity].
  - vm_compute. discriminate.
  - by vm_compute.
  - vm_compute. discriminate.
Defined.
